(* ===== verification/_CoqProject ===== *)
-Q . S2P
Prelude.v
Memory.v
CString.v
Bitmap.v
Process.v
Pages.v
Arm.v
Liballoc.v
LiballocInv.v
LiballocProof.v
LiballocMalloc.v
LiballocFree.v
LiballocSpec.v
Allocator.v
Phymem.v
Paging.v
Isolation.v
Layer.v
Tables.v
Device.v
Current.v
Sched.v
SchedInv.v
Mutex.v
Hal.v
Switch.v
Tty.v
Pic.v
Timer.v
Keyboard.v
Scratch.v
Demo.v
Fs.v
Vfs.v
Strings.v
Pci.v
Dma.v
Floppy.v
Textmode.v
Console.v
Procfs.v
Initrd.v
Ext2.v
Ext2Spec.v
Ext2File.v
Elf.v
Mount.v
Syscall.v
Readline.v
Dbus.v
Net.v
Ne2k.v
Fork.v
Arch.v
Main.v
Font.v
ArmDrivers.v
