(* ===== verification/Prelude.v ===== *)
(** * LevOS5: a verification library for the kernel

    LevOS5 (levex/levos5) is a small preemptive kernel in C for x86, with a
    port to ARM.  This library models it function by function and proves what
    the functions do.

    ** How C is modelled

    A C function is a function of the effect monad [M] of this file: it runs in
    a state and returns, touches memory that is not mapped ([Fault]), ends in an
    endless loop after a message ([Halt], the kernel's panic), or exhausts the
    bound on loop iterations ([Timeout]).  Memory is one flat byte store
    (Memory.v): structures, tables, strings, stacks and page tables are bytes at
    addresses, a field is an offset, a pointer a number.  Integers are kept at
    their width with [u8], [u16], [u32], [s32].  The static variables of a C
    file are a record; a component's state is the state of the files below it
    together with its record ([layer], Layer.v), so that the state of the whole
    kernel is a tower of layers over one memory.  A call through a function
    pointer goes to the class [Calls] (Fs.v).  Ports are a trace of operations
    answered by an environment (Hal.v).

    A loop runs up to 2^34 rounds, more than any 32-bit counter can take; a
    theorem in terms of [wp] says that the code returns, so every such theorem
    includes termination and memory safety.  What never returns is shown with
    [diverges], for every number of rounds.

    ** The files, bottom up

    - Prelude: integers, the monad, [wp], loops.  Memory: the byte store and
      mm/memcpy.c.  CString: lib/string.c, lib/itoa.c.  Bitmap: lib/bitmap.c.
      Tables: tables of pointers.
    - Process: [struct process] and [struct thread] (include/scheduler.h), and
      [post_allocation] of kernel/scheduler.c.
    - Pages: the interface [PageProvider] ([mm_alloc_pages], [mm_free_pages] of
      include/hal.h), implemented by Arm (arch/arm/arm.c) and by Paging
      (arch/x86/paging.c).
    - Liballoc: mm/malloc.c, on any page provider.  LiballocInv: the layout of
      the heap and the invariant [heap_inv]; LiballocProof, LiballocMalloc,
      LiballocFree: every path of malloc and free keeps it; LiballocSpec: the
      contract.
    - Allocator: the interface [Allocator] that the rest of the kernel is proved
      against; Liballoc implements it, [layer] passes it up.  Scratch: blocks
      taken and given back within one operation.
    - Phymem: mm/phymem.c.  Paging: arch/x86/paging.c and the translation of the
      processor.  Isolation: both together, as [elf_start] uses them for a new
      program.
    - Device: drivers/device.c.  Hal: arch/x86/hal.c.  Pic: arch/x86/pic.c,
      gdt.c, idt.c, pit.c and drivers/serial.c.  Dma: drivers/dma.c.  Floppy:
      drivers/floppy.c.  Pci: drivers/pci.c.  Keyboard: drivers/keyboard.c.
    - Current: the running process.  Sched: kernel/scheduler.c; SchedInv: any
      sequence of its operations.  Switch: the registers and [switch_to_thread]
      of arch/x86/x86.c.  Timer: [pit_irq] of arch/x86/pit.c, and executions of
      several threads under timer interrupts.  Mutex:
      kernel/mutex.c and its interleavings.  Tty: tty/tty.c.
    - Fs: include/vfs.h.  Vfs: fs/vfs.c.  Initrd: fs/initrd.c.  Ext2:
      fs/ext2/*.c; Ext2Spec: block devices, inodes on the disk; Ext2File: the
      blocks of a file.  Procfs: fs/procfs/procfs.c, fs/dummyfs/dummyfs.c.
      Mount: [device_try_to_mount] of fs/vfs.c.
    - Textmode: display/textmode.c.  Console: tty/console.c, display/printk.c,
      kernel/trace.c.
    - Elf: kernel/exec/elf.c.  Fork: arch/x86/fork.c.  Syscall:
      kernel/syscall.c, over the tower of all the layers; Readline: a line typed
      and read through it.  Arch:
      arch/x86/x86.c (the dispatch of system calls), exceptions.c, and the idle
      task and the test tasks of kernel/scheduler.c.  Dbus: kernel/dbus.c.
      Main: main.c.
    - Net: net/*.c.  Ne2k: drivers/ne2k.c.  ArmDrivers: arch/arm/drivers/*.c,
      arch/arm/sched.c and the rest of arch/arm/arm.c; Font: include/font.h.
    - Strings: itoa and strsplit as their callers see them.  Demo: a small
      machine on which the theorems are tried.

    ** What is shown

    - The heap: [LiballocSpec.client_safe] (no client ever gets overlapping
      blocks or loses data), the contracts of malloc, free and realloc, the
      detection of double frees; clients use them through [Allocator].
    - Memory: what the processor translates after [paging_init] and in a new
      directory (Paging); runs of physical pages do not overlap, except for
      requests of one page (Phymem); the first program's window covers the
      kernel heap (Isolation).
    - Processes: the switch picks the next process and thread, and no process
      starves (Sched); a thread that is switched to has all the registers it had
      when it was interrupted (Switch), so that threads under timer interrupts
      run as if each had a processor of its own (Timer); creation and killing;
      the process table stays sound under any sequence of operations
      (SchedInv); the child of a fork is a thread that resumes where the parent
      is, on a copy of its stack (Fork, with the frames of Switch); mutual
      exclusion with cooperative switches, and its failure under preemption (Mutex); a
      message without a listener hangs its sender (Dbus).
    - Programs: the segments of an executable are loaded to their places (Elf).
    - Input: a key reaches the program that reads the terminal (Keyboard, Tty); a
      process that reads its standard input gets the line that was typed, and the
      line is shown (Readline); where the queue of the terminal goes wrong (Tty).
    - Output: what is written to a terminal appears on the screen, and the
      cursor stays on it (Textmode); the serial line sends what is new
      (ArmDrivers).
    - Files: a path resolves to the longest mount (Vfs), an inode is read from
      its place on the disk through any block device (Ext2Spec), and the blocks
      that it names are read in their order (Ext2File); the ram disk is a block
      device (Initrd, Ext2Spec); a mounted device is found at its location, which no
      other can take (Mount); a handle names the file it was opened for
      (Syscall); what is written to /devconf is read back (Procfs).
    - Devices: the scan of the PCI bus (Pci), the commands of a floppy read
      (Floppy), the interrupt table (Pic).
    - Starting: a root file system on device 0 is taken for none (Main).
    - Strings: itoa and its numerals, strsplit and its pieces (Strings).

    ** Address spaces

    Memory is what the running code sees.  The kernel, its heap and its stacks
    are mapped alike in every page directory ([Paging.create_directory_spec]),
    so the kernel's own structures do not move when a directory is loaded; the
    4 MB of the program do.  Where the code loads a directory to reach another
    program's memory (Elf, Fork), the load is an operation of the state that
    these files take as a parameter.

    ** Not modelled

    Assembly outside of C files: the interrupt entries, the loading of the
    descriptor tables, [read_eip].  The messages that other files print
    ([printk] itself is in Console).  Data that no code uses, and the program argv_test.c. *)

From stdpp Require Import base numbers list gmap.
From Stdlib Require Import ZArith Lia.

Local Open Scope Z_scope.

Declare Scope levos_scope.
Delimit Scope levos_scope with levos.

(** ** Machine integers

    The kernel is compiled for a 32-bit machine.  A value of an integer type is
    a [Z]; the functions below are the conversions to each width. *)

Definition u8 (z : Z) : Z := z mod 256.
Definition u16 (z : Z) : Z := z mod 65536.
Definition u32 (z : Z) : Z := z mod 4294967296.
Definition u64 (z : Z) : Z := z mod 18446744073709551616.
Definition s8 (z : Z) : Z := (z + 128) mod 256 - 128.
Definition s32 (z : Z) : Z := (z + 2147483648) mod 4294967296 - 2147483648.

Lemma u8_small z : 0 <= z < 256 -> u8 z = z.
Proof. apply Z.mod_small. Qed.
Lemma u16_small z : 0 <= z < 65536 -> u16 z = z.
Proof. apply Z.mod_small. Qed.
Lemma u32_small z : 0 <= z < 4294967296 -> u32 z = z.
Proof. apply Z.mod_small. Qed.
Lemma u64_small z : 0 <= z < 18446744073709551616 -> u64 z = z.
Proof. apply Z.mod_small. Qed.
Lemma s32_small z : -2147483648 <= z < 2147483648 -> s32 z = z.
Proof. intros. unfold s32. rewrite Z.mod_small; lia. Qed.

Lemma u8_range z : 0 <= u8 z < 256.
Proof. apply Z.mod_pos_bound. lia. Qed.
Lemma u32_range z : 0 <= u32 z < 4294967296.
Proof. apply Z.mod_pos_bound. lia. Qed.

Create HintDb levos.
#[export] Hint Resolve u8_range u32_range : levos.
Create Rewrite HintDb widths.
#[export] Hint Rewrite u8_small u16_small u32_small u64_small s32_small
  using lia : widths.

(** Equality of two boolean arithmetic tests. *)
Ltac bool_lia := apply Bool.eq_iff_eq_true;
  rewrite ?orb_true_iff, ?andb_true_iff, ?negb_true_iff, ?Z.leb_le, ?Z.ltb_lt, ?Z.eqb_eq;
  split; intros; (discriminate || lia).

(** ** The effect monad

    A C function that reads and writes kernel state is a function from the
    state to an outcome: it returns, it touches memory that is not there
    ([Fault]), it ends in one of the kernel's infinite loops after printing a
    message ([Halt], the code of [panic]), or the bound on loop iterations is
    reached ([Timeout]). *)

Inductive outcome (S A : Type) : Type :=
  | Ret (a : A) (s : S)
  | Fault
  | Halt (s : S)
  | Timeout.
Arguments Ret {S A} a s.
Arguments Fault {S A}.
Arguments Halt {S A} s.
Arguments Timeout {S A}.

Definition M (S A : Type) : Type := S -> outcome S A.

Definition ret {S A} (a : A) : M S A := fun s => Ret a s.
Definition bind {S A B} (m : M S A) (f : A -> M S B) : M S B := fun s =>
  match m s with
  | Ret a s' => f a s'
  | Fault => Fault
  | Halt s' => Halt s'
  | Timeout => Timeout
  end.
Definition fault {S A} : M S A := fun _ => Fault.
Definition halt {S A} : M S A := fun s => Halt s.
Definition timeout {S A} : M S A := fun _ => Timeout.
Definition gets {S A} (f : S -> A) : M S A := fun s => Ret (f s) s.
Definition modify {S} (f : S -> S) : M S unit := fun s => Ret tt (f s).
Definition of_opt {S A} (o : option A) : M S A :=
  match o with Some a => ret a | None => fault end.

Notation "'let!' x ':=' m 'in' k" := (bind m (fun x => k))
  (at level 10, x pattern, m at level 100, k at level 200,
   format "'[v' 'let!'  x  ':='  m  'in' '/' k ']'") : levos_scope.
Notation "m ';!' k" := (bind m (fun _ => k))
  (at level 100, k at level 200, right associativity,
   format "'[v' m  ';!' '/' k ']'") : levos_scope.
Notation "'if!' c 'then' m" := (if c then m else ret tt)
  (at level 99, c at level 200, m at level 99) : levos_scope.
Open Scope levos_scope.

(** Running an operation of a component inside a larger state. *)
Definition zoom {S T A} (get : S -> T) (set : T -> S -> S) (m : M T A) : M S A := fun s =>
  match m (get s) with
  | Ret a t => Ret a (set t s)
  | Fault => Fault
  | Halt t => Halt (set t s)
  | Timeout => Timeout
  end.

(** ** Total correctness

    [wp m Q s]: run in [s], [m] returns, and its result and final state satisfy
    [Q].  A run that faults, halts or exhausts a loop bound satisfies nothing,
    so a [wp] theorem always includes termination and memory safety. *)

Definition wp {S A} (m : M S A) (Q : A -> S -> Prop) (s : S) : Prop :=
  match m s with Ret a s' => Q a s' | _ => False end.

Section wp_rules.
Context {S : Type}.

Lemma wp_ret {A} (a : A) Q (s : S) : Q a s -> wp (ret a) Q s.
Proof. done. Qed.
Lemma wp_bind {A B} (m : M S A) (f : A -> M S B) Q s :
  wp m (fun a s' => wp (f a) Q s') s -> wp (bind m f) Q s.
Proof. unfold wp, bind. by destruct (m s). Qed.
Lemma wp_gets {A} (f : S -> A) (Q : A -> S -> Prop) s : Q (f s) s -> wp (gets f) Q s.
Proof. done. Qed.
Lemma wp_modify f (Q : unit -> S -> Prop) s : Q tt (f s) -> wp (modify f) Q s.
Proof. done. Qed.
Lemma wp_of_opt {A} (o : option A) a Q (s : S) :
  o = Some a -> Q a s -> wp (of_opt o) Q s.
Proof. by intros ->. Qed.
Lemma wp_mono {A} (m : M S A) (Q Q' : A -> S -> Prop) s :
  wp m Q s -> (forall a s', Q a s' -> Q' a s') -> wp m Q' s.
Proof. unfold wp. destruct (m s); naive_solver. Qed.
Lemma wp_eq {A} (m : M S A) a s s' (Q : A -> S -> Prop) :
  m s = Ret a s' -> Q a s' -> wp m Q s.
Proof. unfold wp. by intros ->. Qed.
Lemma wp_inv {A} (m : M S A) Q s :
  wp m Q s -> exists a s', m s = Ret a s' /\ Q a s'.
Proof. unfold wp. destruct (m s); naive_solver. Qed.
Lemma wp_ret_eq {A} (m : M S A) a s s' :
  wp m (fun r t => r = a /\ t = s') s -> m s = Ret a s'.
Proof. intros (? & ? & ? & -> & ->)%wp_inv. done. Qed.
Lemma wp_conj {A} (m : M S A) (Q Q' : A -> S -> Prop) s :
  wp m Q s -> wp m Q' s -> wp m (fun a s' => Q a s' /\ Q' a s') s.
Proof. unfold wp. by destruct (m s). Qed.
Lemma wp_zoom {T A} (get : S -> T) set (m : M T A) (Q : A -> S -> Prop) s :
  wp m (fun a t => Q a (set t s)) (get s) -> wp (zoom get set m) Q s.
Proof. unfold wp, zoom. by destruct (m (get s)). Qed.
End wp_rules.

(** The usual equations of the monad, pointwise in the state. *)
Lemma bind_assoc {S A B C} (m : M S A) (f : A -> M S B) (g : B -> M S C) s :
  bind (bind m f) g s = bind m (fun a => bind (f a) g) s.
Proof. unfold bind. by destruct (m s). Qed.
Lemma bind_ret_l {S A B} (a : A) (f : A -> M S B) s : bind (ret a) f s = f a s.
Proof. done. Qed.
Lemma bind_ext {S A B} (m m' : M S A) (f f' : A -> M S B) s :
  m s = m' s -> (forall a t, f a t = f' a t) -> bind m f s = bind m' f' s.
Proof. unfold bind. intros ->. destruct (m' s); auto. Qed.

(** One symbolic execution step on a [wp] goal. *)
Ltac wp_step :=
  lazymatch goal with
  | |- wp (bind _ _) _ _ => apply wp_bind
  | |- wp (ret _) _ _ => apply wp_ret
  | |- wp (gets _) _ _ => apply wp_gets
  | |- wp (modify _) _ _ => apply wp_modify
  | |- wp (of_opt (Some _)) _ _ => apply wp_ret
  end; cbn beta.
Ltac wp_steps := repeat wp_step.

(** ** Loops

    A C loop is [loop body a]: [a] holds the locals the loop assigns, and the
    body returns [inl a'] to go round again and [inr b] to leave.  The bound is
    2^34 iterations, written in binary so that a run that leaves early is
    evaluated in the number of iterations it makes.  No counter of the kernel
    has more than 32 bits, so a terminating loop of the source leaves before
    the bound. *)

Section loops.
Context {S A B : Type}.
Implicit Types (body : A -> M S (A + B)).

Fixpoint iter_nat (n : nat) body (a : A) : M S (A + B) :=
  match n with
  | O => ret (inl a)
  | Datatypes.S n' =>
      let! r := body a in
      match r with inl a' => iter_nat n' body a' | inr b => ret (inr b) end
  end.

Fixpoint iter_pos (p : positive) body (a : A) : M S (A + B) :=
  let again q r :=
    match r with inl a' => iter_pos q body a' | inr b => ret (inr b) end in
  match p with
  | xH => body a
  | xO q => bind (iter_pos q body a) (again q)
  | xI q => bind (body a) (fun r =>
      match r with
      | inl a' => bind (iter_pos q body a') (again q)
      | inr b => ret (inr b)
      end)
  end.

Definition loop_bound : positive := 17179869184.

Definition loop_upto (p : positive) body (a : A) : M S B :=
  let! r := iter_pos p body a in
  match r with inl _ => timeout | inr b => ret b end.

Definition loop body (a : A) : M S B := loop_upto loop_bound body a.

(** The code never leaves the loop, however many iterations are allowed. *)
Definition diverges body (a : A) (s : S) : Prop :=
  forall n, exists a' s', iter_nat n body a s = Ret (inl a') s'.

Lemma iter_nat_add n1 n2 body a s :
  iter_nat (n1 + n2) body a s =
  bind (iter_nat n1 body a)
    (fun r => match r with inl a' => iter_nat n2 body a' | inr b => ret (inr b) end) s.
Proof.
  revert a s. induction n1 as [|n1 IH]; intros a s; [done|].
  simpl. rewrite bind_assoc. apply bind_ext; [done|].
  intros [a'|b] t; [apply IH | done].
Qed.

Lemma iter_nat_1 body a s : iter_nat 1 body a s = body a s.
Proof. simpl. unfold bind. destruct (body a s) as [[]| | |]; done. Qed.

Lemma iter_pos_nat p body a s : iter_pos p body a s = iter_nat (Pos.to_nat p) body a s.
Proof.
  revert a s. induction p as [q IH|q IH|]; intros a s.
  - rewrite Pos2Nat.inj_xI. simpl. apply bind_ext; [done|].
    intros [a'|b] t; [|done].
    rewrite Nat.add_0_r, iter_nat_add. apply bind_ext; [apply IH|].
    intros [a''|b] t'; [apply IH|done].
  - rewrite Pos2Nat.inj_xO. simpl.
    rewrite Nat.add_0_r, iter_nat_add. apply bind_ext; [apply IH|].
    intros [a''|b] t'; [apply IH|done].
  - symmetry. apply iter_nat_1.
Qed.

Lemma wp_loop_upto p (I : Z -> A -> S -> Prop) n body Q a s :
  I n a s -> n < Zpos p ->
  (forall n a s, I n a s ->
     0 <= n /\
     wp (body a) (fun r s' => match r with
                              | inl a' => exists n', n' < n /\ I n' a' s'
                              | inr b => Q b s' end) s) ->
  wp (loop_upto p body a) Q s.
Proof.
  intros HI Hn Hbody. unfold loop_upto. apply wp_bind.
  unfold wp at 1. rewrite iter_pos_nat.
  change (wp (iter_nat (Pos.to_nat p) body a)
            (fun r s' => wp (match r with inl _ => timeout | inr b => ret b end) Q s') s).
  rewrite <-(positive_nat_Z p) in Hn.
  generalize dependent (Pos.to_nat p). intros k Hk. clear p. revert n a s HI Hk.
  induction k as [|k IH]; intros n a s HI Hk.
  { destruct (Hbody n a s HI). lia. }
  destruct (Hbody n a s HI) as [Hpos Hb]. simpl. apply wp_bind.
  eapply wp_mono; [exact Hb|]. intros [a'|b] s'.
  - intros (n' & Hlt & HI'). apply (IH n'); [done|lia].
  - intros HQ. by apply wp_ret.
Qed.

(** Total correctness of a loop: an invariant indexed by a bound on the
    iterations that are left ... *)
Lemma wp_loop_idx (I : Z -> A -> S -> Prop) n body Q a s :
  I n a s -> n < 17179869184 ->
  (forall n a s, I n a s ->
     0 <= n /\
     wp (body a) (fun r s' => match r with
                              | inl a' => exists n', n' < n /\ I n' a' s'
                              | inr b => Q b s' end) s) ->
  wp (loop body a) Q s.
Proof. exact (wp_loop_upto loop_bound I n body Q a s). Qed.

(** ... or an invariant and a measure of the locals and the state. *)
Lemma wp_loop (I : A -> S -> Prop) (mu : A -> S -> Z) body Q a s :
  I a s ->
  mu a s < 17179869184 ->
  (forall a s, I a s ->
     0 <= mu a s /\
     wp (body a) (fun r s' => match r with
                              | inl a' => I a' s' /\ mu a' s' < mu a s
                              | inr b => Q b s' end) s) ->
  wp (loop body a) Q s.
Proof.
  intros HI Hmu Hb. apply (wp_loop_idx (fun n a s => I a s /\ n = mu a s) (mu a s)); [done..|].
  intros n a' s' [HI' ->]. destruct (Hb a' s' HI') as [Hpos Hw]. split; [done|].
  eapply wp_mono; [exact Hw|]. intros [a''|b] s''; [|done]. intros [??]. eauto.
Qed.

(** A body that leaves at once. *)
Lemma wp_loop_exit body a b Q s :
  body a s = Ret (inr b) s -> Q b s -> wp (loop body a) Q s.
Proof.
  intros Hb HQ. eapply (wp_loop (fun a' t => a' = a /\ t = s) (fun _ _ => 0)); [done|lia|].
  intros a' t [-> ->]. split; [lia|]. unfold wp. by rewrite Hb.
Qed.

(** A state from which every iteration returns to the same set diverges. *)
Lemma diverges_inv (I : A -> S -> Prop) body a s :
  I a s ->
  (forall a s, I a s -> exists a' s', body a s = Ret (inl a') s' /\ I a' s') ->
  diverges body a s.
Proof.
  intros HI Hb n. revert a s HI.
  induction n as [|n IH]; intros a s HI; simpl; [unfold ret; eauto|].
  destruct (Hb a s HI) as (a' & s' & Heq & HI').
  unfold bind. rewrite Heq. by apply IH.
Qed.

Lemma diverges_timeout p body a s : diverges body a s -> loop_upto p body a s = Timeout.
Proof.
  intros Hd. unfold loop_upto, bind. rewrite iter_pos_nat.
  destruct (Hd (Pos.to_nat p)) as (a' & s' & ->). done.
Qed.
Lemma diverges_loop body a s : diverges body a s -> loop body a s = Timeout.
Proof. apply diverges_timeout. Qed.
End loops.

(** Unification must not try to run a loop. *)
#[global] Opaque loop.

(** [for (i = i0; i < i0 + n; i++) f(i);] *)
Fixpoint for_up {S} (n : nat) (i : Z) (f : Z -> M S unit) : M S unit :=
  match n with
  | O => ret tt
  | Datatypes.S n' => f i ;! for_up n' (i + 1) f
  end.

(** The same loop with a [return] or [break] in its body: [Some b] leaves. *)
Fixpoint for_find {S B} (n : nat) (i : Z) (f : Z -> M S (option B)) : M S (option B) :=
  match n with
  | O => ret None
  | Datatypes.S n' =>
      let! r := f i in
      match r with Some b => ret (Some b) | None => for_find n' (i + 1) f end
  end.

Section for_rules.
Context {S : Type}.

Lemma wp_for_up (I : Z -> S -> Prop) n i f Q (s : S) :
  I i s ->
  (forall j s, i <= j < i + Z.of_nat n -> I j s -> wp (f j) (fun _ s' => I (j + 1) s') s) ->
  (forall s, I (i + Z.of_nat n) s -> Q tt s) ->
  wp (for_up n i f) Q s.
Proof.
  revert i s. induction n as [|n IH]; intros i s HI Hf HQ; simpl.
  - apply wp_ret, HQ. by replace (i + Z.of_nat 0) with i by lia.
  - apply wp_bind. eapply wp_mono; [apply Hf; [lia|done]|].
    intros ? s' HI'. apply IH; [done| |].
    + intros. apply Hf; [lia|done].
    + intros t Ht. apply HQ. by replace (i + Z.of_nat (Datatypes.S n)) with (i + 1 + Z.of_nat n) by lia.
Qed.

Lemma wp_for_find {B} (I : Z -> S -> Prop) n i f (Q : option B -> S -> Prop) (s : S) :
  I i s ->
  (forall j s, i <= j < i + Z.of_nat n -> I j s ->
     wp (f j) (fun r s' => match r with Some b => Q (Some b) s' | None => I (j + 1) s' end) s) ->
  (forall s, I (i + Z.of_nat n) s -> Q None s) ->
  wp (for_find n i f) Q s.
Proof.
  revert i s. induction n as [|n IH]; intros i s HI Hf HQ; simpl.
  - apply wp_ret, HQ. by replace (i + Z.of_nat 0) with i by lia.
  - apply wp_bind. eapply wp_mono; [apply Hf; [lia|done]|].
    intros [b|] s' HI'; [by apply wp_ret|]. apply IH; [done| |].
    + intros. apply Hf; [lia|done].
    + intros t Ht. apply HQ. by replace (i + Z.of_nat (Datatypes.S n)) with (i + 1 + Z.of_nat n) by lia.
Qed.
End for_rules.
