(* ===== verification/Memory.v ===== *)
(** * Memory: the flat address space, and [mm/memcpy.c]

    Memory is a byte store addressed by 32-bit addresses, together with the
    list of address ranges that are mapped; an access outside them is a page
    fault ([Fault]).  A component whose state contains the memory is an
    instance of [HasMem]; the functions below run in any of them. *)

From stdpp Require Import base numbers list gmap.
From Stdlib Require Import ZArith Lia.
From S2P Require Import Prelude.

Local Open Scope Z_scope.

Record mem : Type := Mem {
  m_bytes : gmap Z Z;          (** contents, zero where nothing was stored *)
  m_ranges : list (Z * Z);     (** mapped ranges, low end included *)
}.

Definition mapped (m : mem) (a : Z) : bool :=
  existsb (fun r => (r.1 <=? a) && (a <? r.2)) (m_ranges m).

Definition rd (m : mem) (a : Z) : Z := u8 (default 0 (m_bytes m !! a)).
Definition mset (m : mem) (a v : Z) : mem :=
  Mem (<[a := u8 v]> (m_bytes m)) (m_ranges m).

(** Writing and reading a run of bytes. *)
Fixpoint mwrite (m : mem) (a : Z) (l : list Z) : mem :=
  match l with [] => m | v :: l' => mwrite (mset m a v) (a + 1) l' end.
Definition mread (m : mem) (a n : Z) : list Z := (fun i => rd m (a + i)) <$> seqZ 0 n.

(** Little-endian words. *)
Definition le16 (v : Z) : list Z := [u8 v; u8 (v / 256)].
Definition le32 (v : Z) : list Z :=
  [u8 v; u8 (v / 256); u8 (v / 65536); u8 (v / 16777216)].
Definition rd16 (m : mem) (a : Z) : Z := rd m a + 256 * rd m (a + 1).
Definition rd32 (m : mem) (a : Z) : Z :=
  rd m a + 256 * rd m (a + 1) + 65536 * rd m (a + 2) + 16777216 * rd m (a + 3).

(** The range is mapped, and does not wrap around the address space. *)
Definition mapped_range (m : mem) (a n : Z) : Prop :=
  0 <= a /\ a + n <= 4294967296 /\ forall x, a <= x < a + n -> mapped m x = true.

Class HasMem (S : Type) := {
  get_mem : S -> mem;
  set_mem : mem -> S -> S;
  get_set_mem : forall m s, get_mem (set_mem m s) = m;
  set_get_mem : forall s, set_mem (get_mem s) s = s;
  set_set_mem : forall m m' s, set_mem m (set_mem m' s) = set_mem m s;
}.
Create Rewrite HintDb lens.
#[export] Hint Rewrite @get_set_mem @set_get_mem @set_set_mem : lens.
Ltac lens := autorewrite with lens.

#[export] Program Instance mem_HasMem : HasMem mem :=
  {| get_mem m := m; set_mem m _ := m |}.
Solve All Obligations with done.

Section ops.
Context {S : Type} `{HasMem S}.

Definition ld8 (a : Z) : M S Z := fun s =>
  let a := u32 a in
  if mapped (get_mem s) a then Ret (rd (get_mem s) a) s else Fault.
Definition st8 (a v : Z) : M S unit := fun s =>
  let a := u32 a in
  if mapped (get_mem s) a then Ret tt (set_mem (mset (get_mem s) a v) s) else Fault.

Definition ld16 (a : Z) : M S Z :=
  let! b0 := ld8 a in let! b1 := ld8 (a + 1) in ret (b0 + 256 * b1).
Definition ld32 (a : Z) : M S Z :=
  let! b0 := ld8 a in let! b1 := ld8 (a + 1) in
  let! b2 := ld8 (a + 2) in let! b3 := ld8 (a + 3) in
  ret (b0 + 256 * b1 + 65536 * b2 + 16777216 * b3).
Definition st16 (a v : Z) : M S unit :=
  st8 a v ;! st8 (a + 1) (v / 256).
Definition st32 (a v : Z) : M S unit :=
  st8 a v ;! st8 (a + 1) (v / 256) ;!
  st8 (a + 2) (v / 65536) ;! st8 (a + 3) (v / 16777216).

(** *** [mm/memcpy.c] *)

Definition copy_byte (dst src : Z) : M S unit :=
  let! v := ld8 src in st8 dst v.

Definition memcpy (dest src count : Z) : M S unit :=
  let! (dst8, src8) :=
    (if Z.land count 1 =? 0 then ret (dest, src)
     else copy_byte dest src ;! ret (u32 (dest + 1), u32 (src + 1))) in
  loop (fun '(count, dst8, src8) =>
    if count =? 0 then ret (inr tt)
    else
      copy_byte dst8 src8 ;!
      copy_byte (dst8 + 1) (src8 + 1) ;!
      ret (inl (count - 1, u32 (dst8 + 2), u32 (src8 + 2))))
    (count / 2, dst8, src8).

(** [num] is an [int]: a negative length counts down through the whole
    range of the type. *)
Definition memset (ptr value num : Z) : M S Z :=
  loop (fun '(p, num) =>
    if num =? 0 then ret (inr tt)
    else st8 p value ;! ret (inl (u32 (p + 1), s32 (num - 1))))
    (ptr, num) ;!
  ret ptr.

Definition memset16 (ptr value num : Z) : M S Z :=
  loop (fun '(p, num) =>
    if num =? 0 then ret (inr tt)
    else st16 p value ;! ret (inl (u32 (p + 2), s32 (num - 1))))
    (ptr, num) ;!
  ret ptr.
End ops.

(** ** Facts about the byte store *)

Lemma rd_range m a : 0 <= rd m a < 256.
Proof. apply u8_range. Qed.
Lemma rd32_range m a : 0 <= rd32 m a < 4294967296.
Proof.
  unfold rd32. pose proof (rd_range m a). pose proof (rd_range m (a + 1)).
  pose proof (rd_range m (a + 2)). pose proof (rd_range m (a + 3)). lia.
Qed.
#[export] Hint Resolve rd_range rd32_range : levos.

Lemma u8_u8 v : u8 (u8 v) = u8 v.
Proof. apply Z.mod_mod. lia. Qed.
Lemma u8_rd m a : u8 (rd m a) = rd m a.
Proof. apply u8_u8. Qed.
Lemma mset_u8 m a v : mset m a (u8 v) = mset m a v.
Proof. unfold mset. by rewrite u8_u8. Qed.

Lemma rd_mset m a v b : rd (mset m a v) b = if decide (b = a) then u8 v else rd m b.
Proof.
  unfold rd, mset; simpl. case_decide as Hd.
  - subst. rewrite lookup_insert_eq. apply u8_u8.
  - by rewrite lookup_insert_ne.
Qed.

Lemma mapped_mset m a v b : mapped (mset m a v) b = mapped m b.
Proof. done. Qed.
Lemma mapped_mwrite m a l b : mapped (mwrite m a l) b = mapped m b.
Proof. revert m a. induction l as [|v l IH]; intros; simpl; [done|]. by rewrite IH. Qed.
Lemma ranges_mwrite m a l : m_ranges (mwrite m a l) = m_ranges m.
Proof. revert m a. induction l as [|v l IH]; intros; simpl; [done|]. by rewrite IH. Qed.

Lemma mapped_range_mwrite m b l a n :
  mapped_range (mwrite m b l) a n <-> mapped_range m a n.
Proof. unfold mapped_range. setoid_rewrite mapped_mwrite. done. Qed.
Lemma mapped_range_mset m b v a n : mapped_range (mset m b v) a n <-> mapped_range m a n.
Proof. done. Qed.
Lemma mapped_range_sub m a n b k :
  mapped_range m a n -> a <= b -> b + k <= a + n -> mapped_range m b k.
Proof. intros (? & ? & Hm) ??. repeat split; [lia..|]. intros; apply Hm; lia. Qed.

Lemma mapped_range_intro lo hi bs rs a n :
  (lo, hi) ∈ rs -> 0 <= a -> a + n <= 4294967296 -> lo <= a -> a + n <= hi ->
  mapped_range (Mem bs rs) a n.
Proof.
  intros Hin ????. repeat split; [lia..|]. intros x Hx. unfold mapped. simpl.
  apply existsb_exists. exists (lo, hi). split; [by apply list_elem_of_In|]. simpl. lia.
Qed.

Lemma rd_mwrite_out m a l b :
  b < a \/ a + Z.of_nat (length l) <= b -> rd (mwrite m a l) b = rd m b.
Proof.
  revert m a. induction l as [|v l IH]; intros m a Hb; simpl in *; [done|].
  rewrite IH by lia. rewrite rd_mset. case_decide; [lia|done].
Qed.

Lemma rd_mwrite_in m a l b v :
  l !! Z.to_nat (b - a) = Some v -> a <= b -> rd (mwrite m a l) b = u8 v.
Proof.
  revert m a. induction l as [|w l IH]; intros m a Hl Hb; [done|]. simpl.
  destruct (decide (b = a)) as [->|].
  - rewrite Z.sub_diag in Hl. simpl in Hl. injection Hl as ->.
    rewrite rd_mwrite_out by lia. rewrite rd_mset. by case_decide.
  - apply IH; [|lia]. rewrite <-Hl.
    replace (Z.to_nat (b - a)) with (Datatypes.S (Z.to_nat (b - (a + 1)))) by lia. done.
Qed.

Lemma mwrite_snoc m a l v : mwrite m a (l ++ [v]) = mset (mwrite m a l) (a + Z.of_nat (length l)) v.
Proof.
  revert m a. induction l as [|w l IH]; intros; simpl.
  - f_equal. lia.
  - rewrite IH. f_equal. lia.
Qed.
Lemma mwrite_app m a l l' : mwrite m a (l ++ l') = mwrite (mwrite m a l) (a + Z.of_nat (length l)) l'.
Proof.
  revert m a. induction l as [|w l IH]; intros; simpl.
  - f_equal. lia.
  - rewrite IH. f_equal. lia.
Qed.

Lemma mread_snoc m a n : 0 <= n -> mread m a (n + 1) = mread m a n ++ [rd m (a + n)].
Proof.
  intros. unfold mread. rewrite (seqZ_app 0 n 1) by lia. by rewrite fmap_app.
Qed.
Lemma mread_0 m a : mread m a 0 = [].
Proof. done. Qed.
Lemma length_mread m a n : length (mread m a n) = Z.to_nat n.
Proof. unfold mread. rewrite length_fmap, length_seqZ. done. Qed.
Lemma lookup_mread m a n i :
  (Z.of_nat i < n)%Z -> mread m a n !! i = Some (rd m (a + Z.of_nat i)).
Proof.
  intros. unfold mread. rewrite list_lookup_fmap, lookup_seqZ_lt by lia. simpl.
  repeat f_equal.
Qed.

Lemma rd_mwrite_mread_in m m' a b n x :
  a <= x < a + n -> rd (mwrite m' a (mread m b n)) x = rd m (b + (x - a)).
Proof.
  intros. rewrite (rd_mwrite_in _ _ _ _ (rd m (b + (x - a)))); [apply u8_rd| |lia].
  rewrite lookup_mread by lia. repeat f_equal. lia.
Qed.

(** Reading words back. *)
Lemma le32_length v : length (le32 v) = 4%nat.
Proof. done. Qed.

Lemma le32_bytes v :
  u8 v + 256 * u8 (v / 256) + 65536 * u8 (v / 65536) + 16777216 * u8 (v / 16777216) = u32 v.
Proof. unfold u8, u32. Z.div_mod_to_equations. lia. Qed.

Lemma rd32_mwrite_same m a v : rd32 (mwrite m a (le32 v)) a = u32 v.
Proof.
  unfold rd32, le32; simpl. rewrite !rd_mset.
  repeat case_decide; try lia. rewrite !u8_u8. apply le32_bytes.
Qed.

Lemma rd32_mwrite_out m a l b :
  b + 4 <= a \/ a + Z.of_nat (length l) <= b -> rd32 (mwrite m a l) b = rd32 m b.
Proof. intros. unfold rd32. rewrite !rd_mwrite_out by lia. done. Qed.

(** ** Memories with the same contents

    Two memories are equivalent when every load gives the same byte in both;
    the byte store itself may differ on entries that were never written. *)

#[export] Instance mem_equiv : Equiv mem := fun m m' =>
  m_ranges m = m_ranges m' /\ forall a, rd m a = rd m' a.

#[export] Instance mem_equivalence : Equivalence (equiv (A := mem)).
Proof.
  split.
  - intros m. done.
  - intros m m' [Hr Hd]. done.
  - intros m1 m2 m3 [Hr Hd] [Hr' Hd']. split; [congruence|].
    intros a. by rewrite Hd.
Qed.

#[export] Instance rd_proper : Proper (equiv ==> eq ==> eq) rd.
Proof. intros m m' [_ Hd] a ? <-. apply Hd. Qed.
#[export] Instance rd32_proper : Proper (equiv ==> eq ==> eq) rd32.
Proof. intros m m' Hm a ? <-. unfold rd32. by rewrite Hm. Qed.
#[export] Instance mapped_proper : Proper (equiv ==> eq ==> eq) mapped.
Proof. intros m m' [Hr _] a ? <-. unfold mapped. by rewrite Hr. Qed.
#[export] Instance mapped_range_proper : Proper (equiv ==> eq ==> eq ==> iff) mapped_range.
Proof. intros m m' Hm a ? <- n ? <-. unfold mapped_range.
  assert (forall x, mapped m x = mapped m' x) as Hx by (intros x; by rewrite Hm).
  by setoid_rewrite Hx.
Qed.
#[export] Instance mset_proper : Proper (equiv ==> eq ==> eq ==> equiv) mset.
Proof.
  intros m m' Hm a ? <- v ? <-. split; [apply Hm|]. intros b. rewrite !rd_mset. case_decide; [done|]. by rewrite Hm.
Qed.
#[export] Instance mwrite_proper : Proper (equiv ==> eq ==> eq ==> equiv) mwrite.
Proof.
  intros m m' Hm a ? <- l ? <-. revert m m' a Hm.
  induction l as [|v l IH]; intros m m' a Hm; [done|]. simpl. apply IH. by rewrite Hm.
Qed.
#[export] Instance mread_proper : Proper (equiv ==> eq ==> eq ==> eq) mread.
Proof.
  intros m m' [_ Hd] a ? <- n ? <-. unfold mread. apply list_fmap_ext. intros. apply Hd.
Qed.

(** Storing the byte that is already there changes nothing. *)
Lemma mset_rd m a : mset m a (rd m a) ≡ m.
Proof.
  split; [done|]. intros b. rewrite rd_mset. case_decide as Hd; [|done]. subst. apply u8_rd.
Qed.

(** ** Specifications of the memory operations *)

Section specs.
Context {S : Type} `{HasMem S}.
Implicit Types (s : S).

Lemma wp_ld8 a Q s :
  0 <= a < 4294967296 -> mapped (get_mem s) a = true ->
  Q (rd (get_mem s) a) s -> wp (ld8 a) Q s.
Proof. intros Ha Hm HQ. unfold wp, ld8. rewrite u32_small by lia. by rewrite Hm. Qed.

Lemma wp_st8 a v Q s :
  0 <= a < 4294967296 -> mapped (get_mem s) a = true ->
  Q tt (set_mem (mset (get_mem s) a v) s) -> wp (st8 a v) Q s.
Proof. intros Ha Hm HQ. unfold wp, st8. rewrite u32_small by lia. by rewrite Hm. Qed.

Lemma wp_ld32 a Q s :
  mapped_range (get_mem s) a 4 -> Q (rd32 (get_mem s) a) s -> wp (ld32 a) Q s.
Proof.
  intros (? & ? & Hm) HQ. unfold ld32.
  repeat (apply wp_bind, wp_ld8; [lia|apply Hm; lia|]). by apply wp_ret.
Qed.

Lemma wp_st32 a v Q s :
  mapped_range (get_mem s) a 4 ->
  Q tt (set_mem (mwrite (get_mem s) a (le32 v)) s) -> wp (st32 a v) Q s.
Proof.
  intros (? & ? & Hm) HQ. unfold st32.
  apply wp_bind, wp_st8; [lia|apply Hm; lia|].
  apply wp_bind, wp_st8; [lia|lens; apply Hm; lia|].
  apply wp_bind, wp_st8; [lia|lens; apply Hm; lia|].
  apply wp_st8; [lia|lens; apply Hm; lia|]. lens.
  unfold le32 in HQ. simpl in HQ. rewrite !mset_u8 in HQ.
  rewrite <-!Z.add_assoc in HQ. exact HQ.
Qed.

Lemma wp_copy_byte d a Q s :
  0 <= d < 4294967296 -> 0 <= a < 4294967296 ->
  mapped (get_mem s) d = true -> mapped (get_mem s) a = true ->
  Q tt (set_mem (mset (get_mem s) d (rd (get_mem s) a)) s) -> wp (copy_byte d a) Q s.
Proof.
  intros. unfold copy_byte. apply wp_bind, wp_ld8; [done..|]. by apply wp_st8.
Qed.

(** One more byte of a forward copy.  The source is not overwritten before it
    is read when the destination starts at or below the source, or the two
    ranges are disjoint. *)
Definition forward_ok (d a n : Z) : Prop := d <= a \/ a + n <= d \/ n <= 0.

Lemma copy_next m d a n k :
  forward_ok d a n -> 0 <= k < n ->
  mset (mwrite m d (mread m a k)) (d + k) (rd (mwrite m d (mread m a k)) (a + k))
  = mwrite m d (mread m a (k + 1)).
Proof.
  intros Hf Hk. rewrite mread_snoc by lia. rewrite mwrite_snoc, length_mread.
  rewrite Z2Nat.id by lia. f_equal. apply rd_mwrite_out. rewrite length_mread.
  destruct Hf as [|[|]]; lia.
Qed.

(** [memcpy] copies [count] bytes in increasing address order. *)
Lemma wp_memcpy d a n Q s :
  0 <= n < 4294967296 ->
  mapped_range (get_mem s) d n -> mapped_range (get_mem s) a n ->
  forward_ok d a n ->
  Q tt (set_mem (mwrite (get_mem s) d (mread (get_mem s) a n)) s) ->
  wp (memcpy d a n) Q s.
Proof.
  intros Hn (Hd0 & Hd1 & Hd) (Ha0 & Ha1 & Ha) Hf HQ. unfold memcpy.
  destruct (decide (n = 0)) as [->|Hn0].
  { rewrite mread_0 in HQ. simpl in HQ. revert HQ. lens. intros HQ.
    apply wp_bind, wp_ret. by eapply wp_loop_exit. }
  set (m := get_mem s) in *. set (st k := set_mem (mwrite m d (mread m a k)) s).
  assert (Hcopy : forall k Q', 0 <= k < n -> Q' tt (st (k + 1)) ->
    wp (copy_byte (d + k) (a + k)) Q' (st k)).
  { intros k Q' Hk HQ'. unfold st in *. apply wp_copy_byte; [lia..| | |].
    - lens. rewrite mapped_mwrite. apply Hd. lia.
    - lens. rewrite mapped_mwrite. apply Ha. lia.
    - lens. rewrite (copy_next m d a n k) by done. exact HQ'. }
  assert (Z.land n 1 = n mod 2) as -> by apply (Z.land_ones n 1 ltac:(lia)).
  apply wp_bind.
  assert (wp (if n mod 2 =? 0 then ret (d, a)
              else copy_byte d a ;! ret (u32 (d + 1), u32 (a + 1)))
            (fun r s' => r = (u32 (d + n mod 2), u32 (a + n mod 2)) /\ s' = st (n mod 2)) s)
    as Hfirst.
  { destruct (n mod 2 =? 0) eqn:He.
    - apply wp_ret. assert (n mod 2 = 0) as -> by lia.
      rewrite !Z.add_0_r. unfold st. rewrite mread_0. simpl. unfold m. lens.
      rewrite !u32_small by (Z.div_mod_to_equations; lia). done.
    - assert (n mod 2 = 1) as -> by (Z.div_mod_to_equations; lia).
      apply wp_bind. assert (s = st 0) as Hs.
      { unfold st. rewrite mread_0. simpl. unfold m. by lens. }
      rewrite Hs at 1. rewrite <-(Z.add_0_r d) at 1. rewrite <-(Z.add_0_r a) at 1.
      apply Hcopy; [Z.div_mod_to_equations; lia|]. by apply wp_ret. }
  eapply wp_mono; [exact Hfirst|]. intros r s' [-> ->].
  eapply (wp_loop (fun '(c, p, q) t =>
    0 <= c <= n / 2 /\ p = u32 (d + (n - 2 * c)) /\ q = u32 (a + (n - 2 * c)) /\
    t = st (n - 2 * c)) (fun '(c, _, _) _ => c)).
  - repeat split; [Z.div_mod_to_equations; lia..| | |];
      (do 2 f_equal || f_equal); Z.div_mod_to_equations; lia.
  - Z.div_mod_to_equations; lia.
  - intros [[c p] q] t (Hc & -> & -> & ->). split; [lia|].
    destruct (c =? 0) eqn:Hc0.
    + apply wp_ret. assert (c = 0) as -> by lia. rewrite Z.mul_0_r, Z.sub_0_r. exact HQ.
    + assert (2 * c <= n) by (Z.div_mod_to_equations; lia).
      rewrite !u32_small by lia.
      apply wp_bind, Hcopy; [lia|]. rewrite <-!(Z.add_assoc _ (n - 2 * c) 1).
      apply wp_bind, Hcopy; [lia|]. apply wp_ret.
      replace (n - 2 * c + 1 + 1) with (n - 2 * (c - 1)) by lia.
      repeat split; try lia; f_equal; lia.
Qed.

Lemma memset_loop p v n Q s :
  0 <= n < 2147483648 -> mapped_range (get_mem s) p n ->
  Q tt (set_mem (mwrite (get_mem s) p (replicate (Z.to_nat n) v)) s) ->
  wp (loop (fun '(p, num) =>
    if num =? 0 then ret (inr tt)
    else st8 p v ;! ret (inl (u32 (p + 1), s32 (num - 1)))) (p, n)) Q s.
Proof.
  intros Hn (Hp0 & Hp1 & Hm) HQ. set (m := get_mem s) in *.
  eapply (wp_loop (fun '(q, c) t =>
    0 <= c <= n /\ q = (if decide (c = 0) then q else p + (n - c)) /\
    t = set_mem (mwrite m p (replicate (Z.to_nat (n - c)) v)) s) (fun '(_, c) _ => c)).
  - rewrite Z.sub_diag. simpl. unfold m. lens. repeat split; try lia.
    case_decide; lia.
  - lia.
  - intros [q c] t (Hc & Hq & ->). split; [lia|].
    destruct (c =? 0) eqn:Hc0.
    + apply wp_ret. assert (c = 0) as -> by lia. rewrite Z.sub_0_r. exact HQ.
    + case_decide; [lia|]. subst q. apply wp_bind, wp_st8; [lia| |].
      { lens. rewrite mapped_mwrite. apply Hm. lia. }
      apply wp_ret. lens. rewrite s32_small by lia. repeat split; try lia.
      * case_decide; [done|]. rewrite u32_small by lia. lia.
      * f_equal. replace (Z.to_nat (n - (c - 1))) with (Z.to_nat (n - c) + 1)%nat by lia.
        rewrite replicate_add. simpl. rewrite mwrite_snoc, length_replicate.
        f_equal. lia.
Qed.

Lemma wp_memset p v n Q s :
  0 <= n < 2147483648 -> mapped_range (get_mem s) p n ->
  Q p (set_mem (mwrite (get_mem s) p (replicate (Z.to_nat n) v)) s) ->
  wp (memset p v n) Q s.
Proof. intros. unfold memset. apply wp_bind, memset_loop; [done..|]. by apply wp_ret. Qed.
End specs.
