(* ===== verification/CString.v ===== *)
(** * Strings: [lib/string.c] and [lib/itoa.c]

    The string functions of the kernel on zero-terminated byte strings in
    memory, with a specification of each on the list of bytes. *)

From stdpp Require Import base numbers list gmap.
From Stdlib Require Import ZArith Lia.
From S2P Require Import Prelude Memory.

Local Open Scope Z_scope.

Section ops.
Context {S : Type} `{HasMem S}.

Definition strlen (str : Z) : M S Z :=
  loop (fun i =>
    let! b := ld8 (str + i) in
    if b =? 0 then ret (inr i) else ret (inl (u32 (i + 1)))) 0.

Definition strcmp (str1 str2 : Z) : M S Z :=
  loop (fun '(str1, str2) =>
    let! b1 := ld8 str1 in
    let! b2 := ld8 str2 in
    let res := u32 (b1 - b2) in
    if negb (res =? 0) then ret (inr res)
    else
      let! b2 := ld8 str2 in
      if b2 =? 0 then ret (inr res)
      else ret (inl (u32 (str1 + 1), u32 (str2 + 1)))) (str1, str2).

Definition str_backspace (str c : Z) : M S Z :=
  let! n := strlen str in
  loop (fun i =>
    if i =? 0 then ret (inr 0)
    else
      let i := u32 (i - 1) in
      let! b := ld8 (str + i) in
      if b =? c then st8 (str + (i + 1)) 0 ;! ret (inr 1)
      else ret (inl i)) (u32 (n - 1)).

Definition strsplit (str delim : Z) : M S Z :=
  let! n :=
    loop (fun '(n, i) =>
      let! b := ld8 (str + i) in
      if b =? 0 then ret (inr n)
      else
        let! n :=
          (if b =? delim then st8 (str + i) 0 ;! ret (u32 (n + 1)) else ret n) in
        ret (inl (n, u32 (i + 1)))) (0, 0) in
  ret (u32 (n + 1)).

(** *** [lib/itoa.c]

    [tbuf] is the address of the static scratch buffer. *)

Definition bchars : list Z :=
  [48; 49; 50; 51; 52; 53; 54; 55; 56; 57; 65; 66; 67; 68; 69; 70].

Definition itoa (tbuf i base buf : Z) : M S unit :=
  if (i =? 0) || (base >? 16) then
    st8 buf 48 ;! st8 (buf + 1) 0
  else
    let! pos :=
      loop (fun '(i, pos) =>
        if i =? 0 then ret (inr pos)
        else
          if base =? 0 then fault
          else
            let! d := of_opt (bchars !! Z.to_nat (i mod base)) in
            st8 (tbuf + pos) d ;!
            ret (inl (i / base, pos + 1))) (i, 0) in
    let top := pos in
    let! opos :=
      loop (fun '(pos, opos) =>
        if opos <? top then
          let! b := ld8 (tbuf + pos) in
          st8 (buf + opos) b ;!
          ret (inl (pos - 1, opos + 1))
        else ret (inr opos)) (pos - 1, 0) in
    st8 (buf + opos) 0.
End ops.

(** ** Zero-terminated strings in memory *)

Record cstr (m : mem) (a : Z) (l : list Z) : Prop := {
  cstr_chars : Forall (fun b => 0 < b < 256) l;
  cstr_mapped : mapped_range m a (Z.of_nat (length l) + 1);
  cstr_bytes : forall i b, (l ++ [0]) !! i = Some b -> rd m (a + Z.of_nat i) = b;
}.

Section cstr.
Context (m : mem) (a : Z) (l : list Z) (Hl : cstr m a l).

Lemma cstr_get i b : l !! i = Some b -> rd m (a + Z.of_nat i) = b /\ 0 < b < 256.
Proof.
  intros Hi. split.
  - eapply cstr_bytes; [done|]. by apply lookup_app_l_Some.
  - eapply (Forall_lookup_1 _ _ _ _ (cstr_chars _ _ _ Hl) Hi).
Qed.
Lemma cstr_end : rd m (a + Z.of_nat (length l)) = 0.
Proof. eapply cstr_bytes; [done|]. rewrite lookup_app_r, Nat.sub_diag by done. done. Qed.
Lemma cstr_map i : 0 <= i <= Z.of_nat (length l) -> mapped m (a + i) = true.
Proof. intros. apply Hl. lia. Qed.
Lemma cstr_addr i : 0 <= i <= Z.of_nat (length l) -> 0 <= a + i < 4294967296.
Proof. intros. destruct (cstr_mapped _ _ _ Hl) as (? & ? & ?). lia. Qed.
(** The byte at a position inside the string, or its terminator. *)
Lemma cstr_at i :
  (i <= length l)%nat ->
  rd m (a + Z.of_nat i) = default 0 (l !! i).
Proof.
  intros Hi. destruct (l !! i) as [b|] eqn:Hb.
  - by destruct (cstr_get _ _ Hb).
  - apply lookup_ge_None_1 in Hb. assert (i = length l) as -> by lia. apply cstr_end.
Qed.
End cstr.

Lemma cstr_prefix m a p l : cstr m a (p ++ l) -> l <> [] ->
  cstr (mset m (a + Z.of_nat (length p)) 0) a p.
Proof.
  intros Hc Hl. pose proof (cstr_addr _ _ _ Hc) as Ha. split.
  - pose proof (cstr_chars _ _ _ Hc) as Hf. by apply Forall_app in Hf as [? _].
  - apply mapped_range_mset. eapply mapped_range_sub; [by eapply cstr_mapped|lia|].
    rewrite length_app. lia.
  - intros i b Hi. rewrite rd_mset. destruct (decide (i = length p)) as [->|Hne].
    + case_decide; [|lia]. rewrite lookup_app_r, Nat.sub_diag in Hi by done. by injection Hi as <-.
    + case_decide; [lia|]. eapply cstr_bytes; [done|].
      assert (i < length p)%nat.
      { apply lookup_lt_Some in Hi. rewrite length_app in Hi. simpl in Hi. lia. }
      rewrite lookup_app_l in Hi by done. rewrite <-app_assoc. by apply lookup_app_l_Some.
Qed.

(** ** Specification functions *)

(** What [strcmp] returns: the difference of the first two bytes that differ. *)
Fixpoint strcmp_spec (l1 l2 : list Z) : Z :=
  match l1, l2 with
  | [], [] => 0
  | [], y :: _ => u32 (- y)
  | x :: _, [] => u32 x
  | x :: l1', y :: l2' => if x =? y then strcmp_spec l1' l2' else u32 (x - y)
  end.

(** The longest prefix of [l] that ends in [c]. *)
Fixpoint cut_last (c : Z) (l : list Z) : option (list Z) :=
  match l with
  | [] => None
  | x :: l' =>
      match cut_last c l' with
      | Some p => Some (x :: p)
      | None => if x =? c then Some [x] else None
      end
  end.

Lemma u32_byte_diff x y : 0 <= x < 256 -> 0 <= y < 256 -> u32 (x - y) = 0 -> x = y.
Proof. unfold u32. intros. Z.div_mod_to_equations. lia. Qed.

Lemma strcmp_spec_0 l1 l2 :
  Forall (fun b => 0 < b < 256) l1 -> Forall (fun b => 0 < b < 256) l2 ->
  strcmp_spec l1 l2 = 0 <-> l1 = l2.
Proof.
  intros H1. revert l2. induction H1 as [|x l1 Hx H1 IH]; intros [|y l2] H2;
    simpl; rewrite ?Forall_cons in H2; try done.
  - split; [|done]. unfold u32. intros. Z.div_mod_to_equations. lia.
  - split; [|done]. rewrite u32_small; lia.
  - destruct H2 as [Hy H2]. destruct (x =? y) eqn:E.
    + apply Z.eqb_eq in E as ->. rewrite IH by done. split; [by intros ->|by intros [=]].
    + split; [intros ?%u32_byte_diff; lia|]. intros [=]. lia.
Qed.

Lemma cut_last_Some c l p :
  cut_last c l = Some p -> exists q r, p = q ++ [c] /\ l = p ++ r /\ c ∉ r.
Proof.
  revert p. induction l as [|x l IH]; simpl; intros p Hp; [done|].
  destruct (cut_last c l) as [p'|] eqn:E.
  - injection Hp as <-. destruct (IH p' eq_refl) as (q & r & -> & -> & ?).
    exists (x :: q), r. done.
  - destruct (x =? c) eqn:Ex; [|done]. injection Hp as <-. apply Z.eqb_eq in Ex as ->.
    exists [], l. split; [done|]. split; [done|].
    clear IH. induction l as [|y l IH]; [apply not_elem_of_nil|]. simpl in E.
    destruct (cut_last c l); [done|]. destruct (y =? c) eqn:Ey; [done|].
    apply not_elem_of_cons. split; [lia|]. by apply IH.
Qed.

Lemma cut_last_None c l : cut_last c l = None <-> c ∉ l.
Proof.
  induction l as [|x l IH]; simpl; [split; [intros; apply not_elem_of_nil|done]|].
  rewrite not_elem_of_cons. destruct (cut_last c l) eqn:E.
  - split; [done|]. intros [_ Hn]. apply IH in Hn. done.
  - destruct (x =? c) eqn:Ex; [split; [done|lia]|].
    split; [|done]. intros _. split; [lia|]. by apply IH.
Qed.

Lemma cut_last_snoc c l x :
  cut_last c (l ++ [x]) = if x =? c then Some (l ++ [x]) else cut_last c l.
Proof.
  induction l as [|y l IH]; simpl; [by destruct (x =? c)|].
  rewrite IH. by destruct (x =? c).
Qed.

(** ** Correctness of the string functions *)

Section specs.
Context {S : Type} `{HasMem S}.
Implicit Types (s : S).

(** One byte of a string, at a position up to its terminator. *)
Lemma wp_ld_cstr a l i Q s :
  cstr (get_mem s) a l -> 0 <= i <= Z.of_nat (length l) ->
  Q (default 0 (l !! Z.to_nat i)) s -> wp (ld8 (a + i)) Q s.
Proof.
  intros Hc Hi HQ. apply wp_ld8; [by eapply cstr_addr|by eapply cstr_map|].
  rewrite <-(Z2Nat.id i) at 1 by lia. erewrite cstr_at; [exact HQ|done|lia].
Qed.

Lemma cstr_lookup_nonzero m a l i :
  cstr m a l -> (i < length l)%nat -> default 0 (l !! i) <> 0.
Proof.
  intros Hc Hi. destruct (lookup_lt_is_Some_2 l i Hi) as [b Hb]. rewrite Hb. simpl.
  destruct (cstr_get _ _ _ Hc _ _ Hb). lia.
Qed.

Lemma cstr_length m a l : cstr m a l -> Z.of_nat (length l) < 4294967296.
Proof. intros Hc. destruct (cstr_mapped _ _ _ Hc) as (? & ? & _). lia. Qed.

Lemma wp_strlen a l Q s :
  cstr (get_mem s) a l -> Q (Z.of_nat (length l)) s -> wp (strlen a) Q s.
Proof.
  intros Hc HQ. pose proof (cstr_length _ _ _ Hc).
  eapply (wp_loop (fun i t => t = s /\ 0 <= i <= Z.of_nat (length l))
                  (fun i _ => Z.of_nat (length l) - i)); [split; [done|lia]|lia|].
  intros i t [-> Hi]. split; [lia|]. apply wp_bind. eapply wp_ld_cstr; [done|lia|].
  destruct (decide (i = Z.of_nat (length l))) as [->|].
  - rewrite lookup_ge_None_2 by lia. by apply wp_ret.
  - pose proof (cstr_lookup_nonzero _ _ _ (Z.to_nat i) Hc).
    destruct (default 0 _ =? 0) eqn:E; [lia|]. apply wp_ret.
    rewrite u32_small by lia. split_and!; [done|lia..].
Qed.

Lemma strcmp_spec_drop m a b l1 l2 i :
  cstr m a l1 -> cstr m b l2 -> take i l1 = take i l2 ->
  (i <= length l1)%nat -> (i <= length l2)%nat ->
  strcmp_spec l1 l2 = strcmp_spec (drop i l1) (drop i l2).
Proof.
  intros _ _. revert l1 l2. induction i as [|i IH]; intros l1 l2 Ht H1 H2; [done|].
  destruct l1 as [|x l1], l2 as [|y l2]; simpl in *; try lia. injection Ht as -> Ht.
  rewrite Z.eqb_refl. apply IH; [done|lia..].
Qed.

Lemma strcmp_spec_step l1 l2 i :
  (i <= length l1)%nat -> (i <= length l2)%nat ->
  Forall (fun b => 0 < b < 256) l1 -> Forall (fun b => 0 < b < 256) l2 ->
  let x := default 0 (l1 !! i) in let y := default 0 (l2 !! i) in
  (x <> y \/ y = 0 -> strcmp_spec (drop i l1) (drop i l2) = u32 (x - y)).
Proof.
  intros Hi1 Hi2 F1 F2. destruct (l1 !! i) as [x|] eqn:E1.
  - rewrite (drop_S _ _ _ E1). pose proof (Forall_lookup_1 _ _ _ _ F1 E1).
    destruct (l2 !! i) as [y|] eqn:E2; simpl.
    + rewrite (drop_S _ _ _ E2). simpl. pose proof (Forall_lookup_1 _ _ _ _ F2 E2).
      destruct (x =? y) eqn:E; [|done]. simpl in *. lia.
    + apply lookup_ge_None_1 in E2. rewrite (drop_ge l2) by lia. simpl. intros.
      by rewrite Z.sub_0_r.
  - apply lookup_ge_None_1 in E1. rewrite (drop_ge l1) by lia. simpl.
    destruct (l2 !! i) as [y|] eqn:E2; simpl.
    + by rewrite (drop_S _ _ _ E2).
    + apply lookup_ge_None_1 in E2. by rewrite (drop_ge l2) by lia.
Qed.

Lemma wp_strcmp a b l1 l2 Q s :
  cstr (get_mem s) a l1 -> cstr (get_mem s) b l2 ->
  Q (strcmp_spec l1 l2) s -> wp (strcmp a b) Q s.
Proof.
  intros H1 H2 HQ. pose proof (cstr_length _ _ _ H1). pose proof (cstr_length _ _ _ H2).
  eapply (wp_loop (fun '(p, q) t => t = s /\ exists i : nat,
      p = a + Z.of_nat i /\ q = b + Z.of_nat i /\
      (i <= length l1)%nat /\ (i <= length l2)%nat /\ take i l1 = take i l2)
    (fun '(p, _) _ => a + Z.of_nat (length l1) - p)).
  - split; [done|]. exists 0%nat. rewrite !Z.add_0_r. split_and!; done || lia.
  - lia.
  - intros [p q] t (-> & i & -> & -> & Hi1 & Hi2 & Ht). split; [lia|].
    pose proof (strcmp_spec_step l1 l2 i Hi1 Hi2 (cstr_chars _ _ _ H1) (cstr_chars _ _ _ H2))
      as Hstep. simpl in Hstep.
    rewrite (strcmp_spec_drop _ _ _ _ _ i H1 H2 Ht Hi1 Hi2) in HQ.
    apply wp_bind. eapply wp_ld_cstr; [done|lia|]. rewrite Nat2Z.id.
    apply wp_bind. eapply wp_ld_cstr; [done|lia|]. rewrite Nat2Z.id. cbv zeta.
    set (x := default 0 (l1 !! i)) in *. set (y := default 0 (l2 !! i)) in *.
    destruct (u32 (x - y) =? 0) eqn:Er; simpl.
    2: { apply wp_ret. rewrite <-Hstep; [done|]. left. intros Hxy. rewrite Hxy, Z.sub_diag in Er. done. }
    apply wp_bind. eapply wp_ld_cstr; [done|lia|]. rewrite Nat2Z.id. fold y.
    destruct (y =? 0) eqn:Ey.
    { apply wp_ret. rewrite <-Hstep; [done|]. right. lia. }
    assert (i < length l2)%nat as Hlt2.
    { subst y. destruct (l2 !! i) eqn:E; [by apply lookup_lt_Some in E|done]. }
    assert (x = y) as Hxy.
    { apply u32_byte_diff; [..|lia]; subst x y; [destruct (l1 !! i) eqn:E|destruct (l2 !! i) eqn:E];
        simpl; try lia; eapply (fun m a l Hc => cstr_get m a l Hc) in E; eauto; lia. }
    assert (i < length l1)%nat as Hlt1.
    { subst x. destruct (l1 !! i) eqn:E; [by apply lookup_lt_Some in E|simpl in *; lia]. }
    apply wp_ret.
    destruct (cstr_mapped _ _ _ H1) as (? & ? & _). destruct (cstr_mapped _ _ _ H2) as (? & ? & _).
    rewrite !u32_small by lia. split; [|lia]. split; [done|]. exists (Datatypes.S i).
    split_and!; try lia.
    subst x y. destruct (l1 !! i) as [x|] eqn:E1; [|apply lookup_ge_None_1 in E1; lia].
    destruct (l2 !! i) as [y|] eqn:E2; [|apply lookup_ge_None_1 in E2; lia].
    rewrite (take_S_r _ _ _ E1), (take_S_r _ _ _ E2), Ht. simpl in Hxy. by rewrite Hxy.
Qed.
End specs.

Lemma removelast_length {A} (l : list A) : length (removelast l) = (length l - 1)%nat.
Proof. induction l as [|x [|y l] IH]; simpl in *; [done..|]. rewrite IH. lia. Qed.
Lemma removelast_take {A} (l : list A) : removelast l = take (length l - 1) l.
Proof.
  induction l as [|x [|y l] IH]; [done..|]. simpl in *. rewrite IH, Nat.sub_0_r. done.
Qed.

Section specs2.
Context {S : Type} `{HasMem S}.
Implicit Types (s : S).

(** [str_backspace] on a nonempty string: the string is cut after the last
    occurrence of [c] that is not its last character. *)
Lemma wp_str_backspace a c l Q s :
  cstr (get_mem s) a l -> l <> [] ->
  match cut_last c (removelast l) with
  | Some p => Q 1 (set_mem (mset (get_mem s) (a + Z.of_nat (length p)) 0) s)
  | None => Q 0 s
  end -> wp (str_backspace a c) Q s.
Proof.
  intros Hc Hne HQ. pose proof (cstr_length _ _ _ Hc).
  destruct (cstr_mapped _ _ _ Hc) as (? & ? & _).
  apply wp_bind. eapply wp_strlen; [done|].
  assert (0 < length l)%nat by (destruct l; simpl; [done|lia]).
  rewrite u32_small by lia. rewrite removelast_take in HQ.
  eapply (wp_loop (fun i t => t = s /\ 0 <= i < Z.of_nat (length l) /\
      cut_last c (take (length l - 1) l) = cut_last c (take (Z.to_nat i) l)) (fun i _ => i)).
  - split; [done|]. split; [lia|]. do 2 f_equal. lia.
  - lia.
  - intros i t (-> & Hi & Heq). split; [lia|]. rewrite Heq in HQ.
    destruct (i =? 0) eqn:Hi0.
    { apply wp_ret. assert (i = 0) as -> by lia. exact HQ. }
    rewrite (u32_small (i - 1)) by lia. cbv zeta.
    apply wp_bind. eapply wp_ld_cstr; [done|lia|].
    destruct (lookup_lt_is_Some_2 l (Z.to_nat (i - 1))) as [b Hb]; [lia|].
    rewrite Hb. simpl. replace (Z.to_nat i) with (Datatypes.S (Z.to_nat (i - 1))) in HQ, Heq by lia.
    rewrite (take_S_r _ _ _ Hb), cut_last_snoc in HQ, Heq. destruct (b =? c) eqn:Ebc.
    + rewrite length_app, length_take in HQ. simpl in HQ.
      apply wp_bind, wp_st8; [lia| |].
      { eapply cstr_map; [done|lia]. }
      apply wp_ret.
      replace (a + (i - 1 + 1)) with (a + Z.of_nat (Z.to_nat (i - 1) `min` length l + 1)) by lia.
      exact HQ.
    + apply wp_ret. split_and!; [done|lia..|done|lia].
Qed.

(** On the empty string the index wraps around and the scan runs downwards
    from two bytes below the string. *)
Lemma str_backspace_empty_step a c s :
  cstr (get_mem s) a [] -> 2 <= a ->
  mapped (get_mem s) (a - 2) = true -> mapped (get_mem s) (a - 1) = true ->
  rd (get_mem s) (a - 2) = c ->
  wp (str_backspace a c)
     (fun r s' => r = 1 /\ s' = set_mem (mset (get_mem s) (a - 1) 0) s) s.
Proof.
  intros Hc Ha Hm2 Hm1 Hb. destruct (cstr_mapped _ _ _ Hc) as (? & Hhi & _). simpl in Hhi.
  apply wp_bind. eapply wp_strlen; [done|]. simpl.
  change (u32 (0 - 1)) with 4294967295.
  assert (u32 (a + 4294967294) = a - 2) as Ha2.
  { unfold u32. Z.div_mod_to_equations. lia. }
  assert (u32 (a + 4294967295) = a - 1) as Ha1.
  { unfold u32. Z.div_mod_to_equations. lia. }
  eapply (wp_loop (fun i t => t = s /\ i = 4294967295) (fun _ _ => 0)); [done|lia|].
  intros i t [-> ->]. split; [lia|]. simpl.
  change (u32 (4294967295 - 1)) with 4294967294.
  apply wp_bind. unfold wp, ld8. rewrite Ha2, Hm2, Hb, Z.eqb_refl.
  unfold bind, st8. change (4294967294 + 1) with 4294967295. by rewrite Ha1, Hm1.
Qed.

(** [strsplit] replaces every delimiter by a terminator and returns the
    number of pieces. *)
Definition split_byte (d b : Z) : Z := if b =? d then 0 else b.
Definition count_byte (d : Z) (l : list Z) : Z := Z.of_nat (length (filter (fun b => b = d) l)).

Lemma split_step m a d l i b :
  l !! i = Some b ->
  mwrite m a (split_byte d <$> take (Datatypes.S i) l)
  = mset (mwrite m a (split_byte d <$> take i l)) (a + Z.of_nat i) (split_byte d b).
Proof.
  intros Hb. rewrite (take_S_r _ _ _ Hb), fmap_app. simpl. rewrite mwrite_snoc.
  rewrite length_fmap, length_take. apply lookup_lt_Some in Hb. do 2 f_equal. lia.
Qed.

Lemma count_step d l i b :
  l !! i = Some b ->
  count_byte d (take (Datatypes.S i) l) = count_byte d (take i l) + (if b =? d then 1 else 0).
Proof.
  intros Hb. unfold count_byte. rewrite (take_S_r _ _ _ Hb), filter_app, length_app, filter_cons.
  case_decide as Hd; rewrite filter_nil; simpl.
  - subst. rewrite Z.eqb_refl. lia.
  - destruct (b =? d) eqn:E; [lia|]. simpl. lia.
Qed.

Lemma count_byte_bound d l : 0 <= count_byte d l <= Z.of_nat (length l).
Proof. unfold count_byte. pose proof (length_filter (fun b => b = d) l). lia. Qed.

Lemma wp_strsplit a d l Q s :
  cstr (get_mem s) a l ->
  (forall m', m' ≡ mwrite (get_mem s) a (split_byte d <$> l) ->
     Q (u32 (count_byte d l + 1)) (set_mem m' s)) ->
  wp (strsplit a d) Q s.
Proof.
  intros Hc HQ. pose proof (cstr_length _ _ _ Hc) as Hlen.
  destruct (cstr_mapped _ _ _ Hc) as (? & ? & _).
  set (m := get_mem s) in *. apply wp_bind.
  eapply (wp_loop (fun '(n, i) t =>
      0 <= i <= Z.of_nat (length l) /\ n = count_byte d (take (Z.to_nat i) l) /\
      exists m', t = set_mem m' s /\ m' ≡ mwrite m a (split_byte d <$> take (Z.to_nat i) l))
    (fun '(_, i) _ => Z.of_nat (length l) - i)).
  - split_and!; [lia..|done|]. exists m. unfold m. lens. done.
  - lia.
  - intros [n i] t (Hi & -> & m' & -> & Hm'). split; [lia|].
    assert (rd m' (a + i) = default 0 (l !! Z.to_nat i)) as Hrd.
    { rewrite Hm', rd_mwrite_out by (rewrite length_fmap, length_take; lia).
      rewrite <-(Z2Nat.id i) at 1 by lia. eapply cstr_at; [done|lia]. }
    assert (mapped m' (a + i) = true) as Hmap.
    { rewrite Hm', mapped_mwrite. by eapply cstr_map. }
    apply wp_bind, wp_ld8; [lia|by lens|]. lens. rewrite Hrd.
    destruct (decide (i = Z.of_nat (length l))) as [->|Hne].
    + rewrite lookup_ge_None_2 by lia. simpl. apply wp_ret, wp_ret.
      rewrite Nat2Z.id, firstn_all in *. by apply HQ.
    + destruct (lookup_lt_is_Some_2 l (Z.to_nat i)) as [b Hb]; [lia|].
      pose proof (cstr_lookup_nonzero _ _ _ (Z.to_nat i) Hc). rewrite Hb in *. simpl in *.
      destruct (b =? 0) eqn:Eb; [lia|]. clear Eb.
      pose proof (count_byte_bound d (take (Z.to_nat i) l)). rewrite length_take in *.
      assert (exists m2, wp
        (if b =? d then st8 (a + i) 0 ;! ret (u32 (count_byte d (take (Z.to_nat i) l) + 1))
         else ret (count_byte d (take (Z.to_nat i) l)))
        (fun n' t' => n' = count_byte d (take (Datatypes.S (Z.to_nat i)) l) /\ t' = set_mem m2 s)
        (set_mem m' s) /\ m2 ≡ mset m' (a + i) (split_byte d b)) as (m2 & Hw & Hm2).
      { rewrite (count_step _ _ _ _ Hb). unfold split_byte. destruct (b =? d).
        - exists (mset m' (a + i) 0). split; [|done].
          apply wp_bind, wp_st8; [lia|by lens|]. apply wp_ret. lens.
          rewrite u32_small by lia. done.
        - exists m'. split; [apply wp_ret; split; [lia|done]|].
          replace b with (rd m' (a + i)) by done. by rewrite mset_rd. }
      apply wp_bind. eapply wp_mono; [exact Hw|]. intros n' t' [-> ->]. apply wp_ret.
      rewrite u32_small by lia.
      replace (Z.to_nat (i + 1)) with (Datatypes.S (Z.to_nat i)) by lia.
      split_and!; [lia..|done| |lia]. exists m2. split; [done|].
      rewrite (split_step _ _ _ _ _ _ Hb), Hm2, Hm', Z2Nat.id by lia. done.
Qed.
End specs2.

(** ** [itoa] prints the number it is given *)

(** Value of a digit character, and of a numeral (most significant first). *)
Definition digit_val (c : Z) : Z := if c <=? 57 then c - 48 else c - 55.
Definition numeral (base : Z) (l : list Z) : Z :=
  fold_left (fun acc c => acc * base + digit_val c) l 0.

Definition char_of (d : Z) : Z := default 0 (bchars !! Z.to_nat d).
Fixpoint val_le (base : Z) (ds : list Z) : Z :=
  match ds with [] => 0 | d :: ds' => d + base * val_le base ds' end.

Lemma bchars_lookup d : 0 <= d < 16 -> bchars !! Z.to_nat d = Some (char_of d).
Proof.
  intros Hd. unfold char_of.
  destruct (lookup_lt_is_Some_2 bchars (Z.to_nat d)) as [c ->]; [simpl; lia|done].
Qed.

Lemma char_of_spec d : 0 <= d < 16 -> digit_val (char_of d) = d /\ 48 <= char_of d < 71.
Proof.
  intros Hd. assert (Forall (fun d => digit_val (char_of d) = d /\ 48 <= char_of d < 71) (seqZ 0 16)) as Hall.
  { repeat constructor; vm_compute; congruence. }
  rewrite Forall_forall in Hall. apply Hall. apply elem_of_seqZ. lia.
Qed.

Lemma val_le_snoc base ds d :
  0 <= base -> val_le base (ds ++ [d]) = val_le base ds + base ^ Z.of_nat (length ds) * d.
Proof.
  intros Hb. induction ds as [|x ds IH]; [simpl; lia|]. cbn [app val_le length].
  rewrite IH, Nat2Z.inj_succ, Z.pow_succ_r by lia. ring.
Qed.

Lemma fold_numeral base l acc :
  fold_left (fun acc c => acc * base + digit_val c) l acc =
  acc * base ^ Z.of_nat (length l) + numeral base l.
Proof.
  unfold numeral. revert acc. induction l as [|c l IH]; intros acc; [simpl; lia|].
  cbn [fold_left length]. rewrite IH, (IH (0 * base + digit_val c)), Nat2Z.inj_succ.
  rewrite Z.pow_succ_r by lia. ring.
Qed.

Lemma numeral_chars base ds :
  Forall (fun d => 0 <= d < 16) ds ->
  numeral base (reverse (char_of <$> ds)) = val_le base ds.
Proof.
  induction 1 as [|d ds Hd _ IH]; [done|]. rewrite fmap_cons, reverse_cons.
  unfold numeral in *. rewrite fold_left_app, IH. simpl.
  destruct (char_of_spec d Hd) as [-> _]. lia.
Qed.

Section itoa_spec.
Context {S : Type} `{HasMem S} (tbuf buf : Z).

Definition itoa_post (base i : Z) (m m' : mem) : Prop :=
  exists l, numeral base l = i /\ l <> [] /\
    cstr m' buf l /\ (i <> 0 -> head l <> Some 48) /\
    (forall x, ~ (tbuf <= x < tbuf + 32) -> ~ (buf <= x < buf + 33) -> rd m' x = rd m x).

(** First loop: the digits, least significant first. *)
Definition digits_at (base i0 : Z) (s : S) (m : mem) (i pos : Z) (t : S) : Prop :=
  exists ds, Forall (fun d => 0 <= d < base) ds /\ pos = Z.of_nat (length ds) /\
    i0 = val_le base ds + base ^ pos * i /\ 0 <= i /\
    (i = 0 -> last ds <> Some 0) /\
    t = set_mem (mwrite m tbuf (char_of <$> ds)) s.

Lemma digits_pos_bound base i0 i pos ds :
  2 <= base -> 0 < i -> i0 < 4294967296 -> pos = Z.of_nat (length ds) ->
  Forall (fun d => 0 <= d < base) ds -> i0 = val_le base ds + base ^ pos * i -> pos < 32.
Proof.
  intros Hb Hi Hi0 -> Hds Heq.
  assert (0 <= val_le base ds) as Hv.
  { clear Heq. induction Hds; simpl; nia. }
  destruct (decide (Z.of_nat (length ds) < 32)); [done|].
  assert (2 ^ 32 <= base ^ Z.of_nat (length ds)).
  { etrans; [apply (Z.pow_le_mono_l 2 base 32); lia|]. apply Z.pow_le_mono_r; lia. }
  change (2 ^ 32) with 4294967296 in *. nia.
Qed.

Lemma itoa_digits base i0 Q (s : S) :
  2 <= base <= 16 -> 0 < i0 < 4294967296 -> mapped_range (get_mem s) tbuf 32 ->
  (forall ds, Forall (fun d => 0 <= d < base) ds -> (0 < length ds <= 32)%nat ->
     i0 = val_le base ds -> last ds <> Some 0 ->
     Q (Z.of_nat (length ds)) (set_mem (mwrite (get_mem s) tbuf (char_of <$> ds)) s)) ->
  wp (loop (fun '(i, pos) =>
        if i =? 0 then ret (inr pos)
        else if base =? 0 then fault
        else
          let! d := of_opt (bchars !! Z.to_nat (i mod base)) in
          st8 (tbuf + pos) d ;!
          ret (inl (i / base, pos + 1))) (i0, 0)) Q s.
Proof.
  intros Hb Hi0 Hmap HQ. destruct Hmap as (Ht0 & Ht1 & Hmap). set (m := get_mem s) in *.
  eapply (wp_loop (fun '(i, pos) t => digits_at base i0 s m i pos t) (fun '(i, _) _ => i)).
  - exists []. split_and!; [constructor|done|simpl; lia|lia|done|]. simpl. unfold m. by lens.
  - lia.
  - intros [i pos] t (ds & Hds & Hpos & Heq & Hi & Hlast & ->). split; [lia|].
    destruct (i =? 0) eqn:Ei.
    + apply wp_ret. assert (i = 0) as -> by lia. subst pos. apply HQ; [done| |lia|by apply Hlast].
      destruct (decide (length ds <= 32)%nat).
      * split; [|done]. destruct ds; simpl in *; lia.
      * exfalso. apply Hlast; [done|]. destruct ds as [|d ds _] using rev_ind; [simpl in *; lia|].
        rewrite last_snoc. apply Forall_app in Hds as [Hds Hd].
        rewrite Forall_singleton in Hd. f_equal.
        destruct (decide (d = 0)); [done|]. exfalso.
        rewrite val_le_snoc in Heq by lia. rewrite length_app in *. simpl in *.
        pose proof (digits_pos_bound base i0 d _ ds ltac:(lia) ltac:(lia) ltac:(lia) eq_refl Hds ltac:(lia)).
        lia.
    + assert (pos < 32) by (eapply digits_pos_bound; [..|done]; done || lia).
      destruct (base =? 0) eqn:Eb; [lia|].
      pose proof (Z.mod_pos_bound i base ltac:(lia)) as Hmod.
      rewrite bchars_lookup by lia. wp_step. wp_step.
      apply wp_bind, wp_st8; [lia| |].
      { lens. rewrite mapped_mwrite. apply Hmap. lia. }
      apply wp_ret. lens. split.
      2: { apply Z.div_lt; lia. }
      exists (ds ++ [i mod base]). rewrite length_app. simpl. split_and!.
      * apply Forall_app. split; [done|]. by apply Forall_singleton.
      * lia.
      * rewrite val_le_snoc, Heq by lia. subst pos.
        replace (Z.of_nat (length ds) + 1) with (Z.succ (Z.of_nat (length ds))) by lia.
        rewrite Z.pow_succ_r by lia. pose proof (Z.div_mod i base ltac:(lia)). nia.
      * apply Z.div_pos; lia.
      * intros Hdiv. rewrite last_snoc. intros [= Hm].
        pose proof (Z.div_mod i base ltac:(lia)). lia.
      * f_equal. rewrite fmap_app. simpl. rewrite mwrite_snoc, length_fmap. f_equal. lia.
Qed.

(** Second loop: the digits reversed into the caller's buffer. *)
Lemma itoa_reverse cs Q (s : S) :
  let m := get_mem s in let m1 := mwrite m tbuf cs in
  Forall (fun c => 0 <= c < 256) cs ->
  (length cs <= 32)%nat -> mapped_range m tbuf 32 -> mapped_range m buf 33 ->
  tbuf + 32 <= buf \/ buf + 33 <= tbuf ->
  Q (Z.of_nat (length cs)) (set_mem (mwrite m1 buf (reverse cs)) s) ->
  wp (loop (fun '(pos, opos) =>
        if opos <? Z.of_nat (length cs) then
          let! b := ld8 (tbuf + pos) in
          st8 (buf + opos) b ;!
          ret (inl (pos - 1, opos + 1))
        else ret (inr opos)) (Z.of_nat (length cs) - 1, 0)) Q (set_mem m1 s).
Proof.
  intros m m1 Hcs Hlen (Ht0 & Ht1 & Htm) (Hb0 & Hb1 & Hbm) Hdisj HQ.
  eapply (wp_loop (fun '(pos, opos) t =>
      0 <= opos <= Z.of_nat (length cs) /\ pos = Z.of_nat (length cs) - 1 - opos /\
      t = set_mem (mwrite m1 buf (take (Z.to_nat opos) (reverse cs))) s)
    (fun '(pos, _) _ => pos + 1)); [split_and!; [lia..|done]|lia|].
  intros [pos opos] t (Hop & -> & ->). split; [lia|].
  destruct (opos <? Z.of_nat (length cs)) eqn:E.
  2: { apply wp_ret. assert (opos = Z.of_nat (length cs)) as -> by lia.
       rewrite Nat2Z.id, <-(length_reverse cs), firstn_all, length_reverse. exact HQ. }
  assert (length (take (Z.to_nat opos) (reverse cs)) = Z.to_nat opos) as Htl.
  { rewrite length_take, length_reverse. lia. }
  apply wp_bind, wp_ld8; [lia| |].
  { lens. unfold m1. rewrite !mapped_mwrite. apply Htm. lia. }
  lens. apply wp_bind, wp_st8; [lia| |].
  { lens. unfold m1. rewrite !mapped_mwrite. apply Hbm. lia. }
  apply wp_ret. lens. split; [|lia]. split_and!; [lia..|]. f_equal.
  destruct (lookup_lt_is_Some_2 (reverse cs) (Z.to_nat opos)) as [c Hc].
  { rewrite length_reverse. lia. }
  replace (Z.to_nat (opos + 1)) with (Datatypes.S (Z.to_nat opos)) by lia.
  rewrite (take_S_r _ _ _ Hc), mwrite_snoc, Htl. f_equal; [lia|].
  rewrite reverse_lookup in Hc by lia.
  rewrite rd_mwrite_out by lia. unfold m1.
  rewrite (rd_mwrite_in _ _ _ _ c); [apply u8_small; by eapply (Forall_lookup_1 _ _ _ _ Hcs Hc)| |lia].
  rewrite <-Hc. f_equal. lia.
Qed.

Lemma chars_range base ds :
  base <= 16 -> Forall (fun d => 0 <= d < base) ds ->
  Forall (fun d => 0 <= d < 16) ds /\ Forall (fun c => 48 <= c < 71) (char_of <$> ds).
Proof.
  intros Hb Hds. assert (Forall (fun d => 0 <= d < 16) ds) as H16.
  { eapply Forall_impl; [exact Hds|]. simpl. lia. }
  split; [done|]. apply Forall_fmap. eapply Forall_impl; [exact H16|].
  intros d Hd. by apply char_of_spec.
Qed.

(** The string of [itoa] as bytes: the digits and the terminator. *)
Lemma cstr_mwrite m a l :
  mapped_range m a (Z.of_nat (length l) + 1) -> Forall (fun b => 0 < b < 256) l ->
  cstr (mwrite m a (l ++ [0])) a l.
Proof.
  intros Hm Hl. split; [done|by apply mapped_range_mwrite|].
  intros i b Hi. rewrite (rd_mwrite_in _ _ _ _ b); [|by rewrite Z.add_simpl_l, Nat2Z.id|lia].
  apply u8_small. destruct (decide (i < length l)%nat).
  - rewrite lookup_app_l in Hi by done. pose proof (Forall_lookup_1 _ _ _ _ Hl Hi). simpl in *. lia.
  - apply list_elem_of_lookup_2 in Hi. apply elem_of_app in Hi as [Hi|Hi].
    + rewrite Forall_forall in Hl. specialize (Hl _ Hi). lia.
    + apply list_elem_of_singleton in Hi. lia.
Qed.

Lemma wp_itoa i base (s : S) :
  2 <= base -> 0 <= i < 4294967296 -> (base <= 16 \/ i = 0) ->
  mapped_range (get_mem s) tbuf 32 -> mapped_range (get_mem s) buf 33 ->
  tbuf + 32 <= buf \/ buf + 33 <= tbuf ->
  wp (itoa tbuf i base buf)
     (fun _ s' => exists m', s' = set_mem m' s /\ itoa_post base i (get_mem s) m') s.
Proof.
  intros Hb Hi Hb16 Htm Hbm Hdisj. unfold itoa. set (m := get_mem s).
  assert (0 <= buf /\ buf + 33 <= 4294967296) as Hbr by (destruct Hbm as (? & ? & ?); lia).
  destruct ((i =? 0) || (base >? 16)) eqn:E.
  - assert (i = 0) as -> by lia. destruct Hbm as (? & ? & Hbm).
    apply wp_bind, wp_st8; [lia|apply Hbm; lia|].
    apply wp_st8; [lia|lens; apply Hbm; lia|]. lens.
    exists (mwrite m buf ([48] ++ [0])). split; [done|]. exists [48].
    split_and!; [done|done| |done|].
    + apply cstr_mwrite; [|by repeat constructor]. split_and!; [simpl; lia..|].
      intros; apply Hbm; simpl in *; lia.
    + intros x _ Hx. apply rd_mwrite_out. simpl. lia.
  - apply wp_bind. apply itoa_digits; [lia|lia|done|].
    intros ds Hds Hlen Hval Hlast. fold m. destruct (chars_range base ds ltac:(lia) Hds) as [H16 Hch].
    apply wp_bind. rewrite <-!(length_fmap char_of ds).
    apply (itoa_reverse (char_of <$> ds)); rewrite ?length_fmap; try done; [|lia|].
    { eapply Forall_impl; [exact Hch|]. simpl. lia. }
    fold m. set (m1 := mwrite m tbuf _).
    apply wp_st8; [lia| |].
    { lens. unfold m1. rewrite !mapped_mwrite. apply Hbm. lia. }
    lens. exists (mwrite m1 buf (reverse (char_of <$> ds) ++ [0])). split.
    { f_equal. rewrite mwrite_snoc. by rewrite length_reverse, length_fmap. }
    exists (reverse (char_of <$> ds)). split_and!.
    + by rewrite numeral_chars.
    + intros Hnil%(f_equal length). rewrite length_reverse, length_fmap in Hnil. simpl in Hnil. lia.
    + apply cstr_mwrite.
      * rewrite length_reverse, length_fmap. unfold m1. rewrite mapped_range_mwrite.
        eapply mapped_range_sub; [exact Hbm|lia..].
      * apply Forall_reverse. eapply Forall_impl; [exact Hch|]. simpl. lia.
    + intros _ Hh. destruct ds as [|d ds _] using rev_ind; [simpl in *; lia|].
      rewrite fmap_app, reverse_app in Hh. simpl in Hh. injection Hh as Hh.
      rewrite last_snoc in Hlast. apply Hlast. f_equal.
      apply Forall_app in H16 as [_ H16]. rewrite Forall_singleton in H16.
      destruct (char_of_spec d H16) as [Hd _]. rewrite Hh in Hd. done.
    + intros x Hx1 Hx2. rewrite rd_mwrite_out.
      2: { rewrite length_app, length_reverse, length_fmap. simpl. lia. }
      apply rd_mwrite_out. rewrite length_fmap. lia.
Qed.
End itoa_spec.
