(* ===== verification/Bitmap.v ===== *)
(** * Bitmaps: [lib/bitmap.c]

    The page bitmaps behind the physical and the kernel-heap page allocators.
    [get_bitmap] masks the byte with [i & 7] instead of [1 << (i & 7)]; the
    theorems below say what the search then does: which requests are still
    answered with pages that were free, and which are not. *)

From stdpp Require Import base numbers list gmap.
From Stdlib Require Import ZArith Lia.
From S2P Require Import Prelude Memory.

Local Open Scope Z_scope.

Section ops.
Context {S : Type} `{HasMem S}.

Definition set_bitmap (b i : Z) : M S unit :=
  let a := b + Z.quot i 8 in
  let! v := ld8 a in
  st8 a (Z.lor v (Z.shiftl 1 (Z.land i 7))).

Definition unset_bitmap (b i : Z) : M S unit :=
  let a := b + Z.quot i 8 in
  let! v := ld8 a in
  st8 a (Z.land v (Z.lnot (Z.shiftl 1 (Z.land i 7)))).

Definition get_bitmap (b i : Z) : M S Z :=
  let! v := ld8 (b + Z.quot i 8) in
  ret (if Z.land v (Z.land i 7) =? 0 then 0 else 1).

Definition bitmap_find_zero (b nr : Z) : M S Z :=
  if nr =? 0 then ret 0
  else
    let! (streak, start) :=
      loop (fun '(streak, start) =>
        if u32 streak =? nr then ret (inr (streak, start))
        else
          let! g := get_bitmap b (s32 (start + streak)) in
          if g =? 0 then ret (inl (s32 (streak + 1), start))
          else ret (inl (0, s32 (start + (streak + 1))))) (0, 0) in
    for_up (Z.to_nat streak) start (fun i => set_bitmap b i) ;!
    ret start.
End ops.

(** ** Bits of the map, and what [get_bitmap] reports of them *)

Definition bit (m : mem) (b i : Z) : bool := Z.testbit (rd m (b + i / 8)) (i mod 8).
Definition seen_free (m : mem) (b i : Z) : Prop := Z.land (rd m (b + i / 8)) (i mod 8) = 0.

#[export] Instance seen_free_dec m b i : Decision (seen_free m b i).
Proof. unfold seen_free. apply _. Defined.

(** [st] is the first index from which [nr] bits are reported free. *)
Definition first_run (m : mem) (b nr st : Z) : Prop :=
  0 <= st /\
  (forall i, st <= i < st + nr -> seen_free m b i) /\
  (forall st', 0 <= st' < st -> exists i, st' <= i < st' + nr /\ ~ seen_free m b i).

(** The map with the bits [i .. i + n - 1] set. *)
Definition set_bit (m : mem) (b i : Z) : mem :=
  mset m (b + i / 8) (Z.lor (rd m (b + i / 8)) (2 ^ (i mod 8))).
Fixpoint set_bits (m : mem) (b i : Z) (n : nat) : mem :=
  match n with O => m | Datatypes.S n' => set_bits (set_bit m b i) b (i + 1) n' end.
Definition unset_bit (m : mem) (b i : Z) : mem :=
  mset m (b + i / 8) (Z.ldiff (rd m (b + i / 8)) (2 ^ (i mod 8))).
Fixpoint unset_bits (m : mem) (b i : Z) (n : nat) : mem :=
  match n with O => m | Datatypes.S n' => unset_bits (unset_bit m b i) b (i + 1) n' end.

Lemma land_7 i : Z.land i 7 = i mod 8.
Proof. exact (Z.land_ones i 3 ltac:(lia)). Qed.
Lemma mod8_range i : 0 <= i mod 8 < 8.
Proof. apply Z.mod_pos_bound. lia. Qed.

Lemma testbit_u8 v k : 0 <= k < 8 -> Z.testbit (u8 v) k = Z.testbit v k.
Proof. intros. unfold u8. change 256 with (2 ^ 8). apply Z.mod_pow2_bits_low. lia. Qed.

Lemma bit_mset m b i v j :
  0 <= i -> 0 <= j ->
  bit (mset m (b + i / 8) v) b j =
  if decide (j / 8 = i / 8) then Z.testbit v (j mod 8) else bit m b j.
Proof.
  intros. unfold bit. rewrite rd_mset. repeat case_decide; try lia; [|done].
  apply testbit_u8, mod8_range.
Qed.

Lemma same_bit i j : j / 8 = i / 8 -> (j mod 8 =? i mod 8) = (j =? i).
Proof. intros. destruct (j mod 8 =? i mod 8) eqn:E, (j =? i) eqn:E'; Z.div_mod_to_equations; lia. Qed.

Lemma bit_set_bit m b i j :
  0 <= i -> 0 <= j -> bit (set_bit m b i) b j = bit m b j || (j =? i).
Proof.
  intros Hi Hj. unfold set_bit. rewrite bit_mset by done.
  pose proof (mod8_range i). pose proof (mod8_range j). case_decide as Hd.
  - rewrite Z.lor_spec, Z.pow2_bits_eqb by lia. rewrite (Z.eqb_sym (i mod 8)), same_bit by done.
    unfold bit. by rewrite Hd.
  - destruct (j =? i) eqn:E; [apply Z.eqb_eq in E; congruence|]. by rewrite orb_false_r.
Qed.

Lemma bit_unset_bit m b i j :
  0 <= i -> 0 <= j -> bit (unset_bit m b i) b j = bit m b j && negb (j =? i).
Proof.
  intros Hi Hj. unfold unset_bit. rewrite bit_mset by done.
  pose proof (mod8_range i). pose proof (mod8_range j). case_decide as Hd.
  - rewrite Z.ldiff_spec, Z.pow2_bits_eqb by lia. rewrite (Z.eqb_sym (i mod 8)), same_bit by done.
    unfold bit. by rewrite Hd.
  - destruct (j =? i) eqn:E; [apply Z.eqb_eq in E; congruence|]. by rewrite andb_true_r.
Qed.

Lemma bit_set_bits m b i n j :
  0 <= i -> 0 <= j ->
  bit (set_bits m b i n) b j = bit m b j || ((i <=? j) && (j <? i + Z.of_nat n)).
Proof.
  revert m i. induction n as [|n IH]; intros m i Hi Hj; simpl set_bits.
  - replace ((i <=? j) && (j <? i + Z.of_nat 0)) with false by bool_lia. by rewrite orb_false_r.
  - rewrite IH, bit_set_bit by lia. rewrite <-orb_assoc. f_equal. bool_lia.
Qed.

Lemma bit_unset_bits m b i n j :
  0 <= i -> 0 <= j ->
  bit (unset_bits m b i n) b j = bit m b j && negb ((i <=? j) && (j <? i + Z.of_nat n)).
Proof.
  revert m i. induction n as [|n IH]; intros m i Hi Hj; simpl unset_bits.
  - replace ((i <=? j) && (j <? i + Z.of_nat 0)) with false by bool_lia. by rewrite andb_true_r.
  - rewrite IH, bit_unset_bit by lia. rewrite <-andb_assoc, <-negb_orb. do 2 f_equal. bool_lia.
Qed.

Lemma ranges_set_bits m b i n : m_ranges (set_bits m b i n) = m_ranges m.
Proof. revert m i. induction n as [|n IH]; intros; simpl; [done|]. by rewrite IH. Qed.
Lemma mapped_set_bits m b i n a : mapped (set_bits m b i n) a = mapped m a.
Proof. unfold mapped. by rewrite ranges_set_bits. Qed.

(** Bytes outside the touched part of the map keep their value. *)
Lemma rd_set_bits_out m b i n a :
  0 <= i -> a < b + i / 8 \/ b + (i + Z.of_nat n - 1) / 8 < a ->
  rd (set_bits m b i n) a = rd m a.
Proof.
  revert m i. induction n as [|n IH]; intros m i Hi Ha; simpl set_bits; [done|].
  rewrite IH; [|lia|].
  - unfold set_bit. rewrite rd_mset. case_decide; [|done]. Z.div_mod_to_equations. lia.
  - replace (i + 1 + Z.of_nat n - 1) with (i + Z.of_nat (Datatypes.S n) - 1) by lia.
    Z.div_mod_to_equations. lia.
Qed.

(** ** Correctness of the operations *)

Section specs.
Context {S : Type} `{HasMem S}.
Implicit Types (s : S).

Lemma quot8 i : 0 <= i -> Z.quot i 8 = i / 8.
Proof. intros. apply Z.quot_div_nonneg; lia. Qed.

Lemma wp_set_bitmap b i Q s :
  0 <= i -> mapped_range (get_mem s) b (i / 8 + 1) ->
  Q tt (set_mem (set_bit (get_mem s) b i) s) -> wp (set_bitmap b i) Q s.
Proof.
  intros Hi (? & ? & Hm) HQ. unfold set_bitmap. rewrite quot8, land_7 by done. cbv zeta.
  assert (0 <= i / 8) by (apply Z.div_pos; lia).
  apply wp_bind, wp_ld8; [lia|apply Hm; lia|]. apply wp_st8; [lia|apply Hm; lia|].
  rewrite Z.shiftl_1_l. exact HQ.
Qed.

Lemma wp_unset_bitmap b i Q s :
  0 <= i -> mapped_range (get_mem s) b (i / 8 + 1) ->
  Q tt (set_mem (unset_bit (get_mem s) b i) s) -> wp (unset_bitmap b i) Q s.
Proof.
  intros Hi (? & ? & Hm) HQ. unfold unset_bitmap. rewrite quot8, land_7 by done. cbv zeta.
  assert (0 <= i / 8) by (apply Z.div_pos; lia).
  apply wp_bind, wp_ld8; [lia|apply Hm; lia|]. apply wp_st8; [lia|apply Hm; lia|].
  rewrite Z.shiftl_1_l, <-Z.ldiff_land. exact HQ.
Qed.

Lemma wp_get_bitmap b i Q s :
  0 <= i -> mapped_range (get_mem s) b (i / 8 + 1) ->
  Q (if decide (seen_free (get_mem s) b i) then 0 else 1) s -> wp (get_bitmap b i) Q s.
Proof.
  intros Hi (? & ? & Hm) HQ. unfold get_bitmap. rewrite quot8, land_7 by done.
  assert (0 <= i / 8) by (apply Z.div_pos; lia).
  apply wp_bind, wp_ld8; [lia|apply Hm; lia|]. apply wp_ret. revert HQ.
  unfold seen_free. case_decide as Hd; destruct (_ =? 0) eqn:E; done || lia.
Qed.

Lemma wp_set_loop b st n Q s :
  0 <= st -> mapped_range (get_mem s) b ((st + Z.of_nat n - 1) / 8 + 1) ->
  Q tt (set_mem (set_bits (get_mem s) b st n) s) ->
  wp (for_up n st (fun i => set_bitmap b i)) Q s.
Proof.
  revert st s. induction n as [|n IH]; intros st s Hst Hm HQ; simpl.
  - apply wp_ret. simpl in HQ. revert HQ. by lens.
  - apply wp_bind, wp_set_bitmap; [done| |].
    { eapply mapped_range_sub; [exact Hm|lia|]. Z.div_mod_to_equations. lia. }
    apply IH; [lia| |].
    + lens. unfold set_bit. rewrite mapped_range_mset.
      eapply mapped_range_sub; [exact Hm|lia|]. Z.div_mod_to_equations. lia.
    + lens. exact HQ.
Qed.

Lemma wp_unset_loop b st n Q s :
  0 <= st -> mapped_range (get_mem s) b ((st + Z.of_nat n - 1) / 8 + 1) ->
  Q tt (set_mem (unset_bits (get_mem s) b st n) s) ->
  wp (for_up n st (fun i => unset_bitmap b i)) Q s.
Proof.
  revert st s. induction n as [|n IH]; intros st s Hst Hm HQ; simpl.
  - apply wp_ret. simpl in HQ. revert HQ. by lens.
  - apply wp_bind, wp_unset_bitmap; [done| |].
    { eapply mapped_range_sub; [exact Hm|lia|]. Z.div_mod_to_equations. lia. }
    apply IH; [lia| |].
    + lens. unfold unset_bit. rewrite mapped_range_mset.
      eapply mapped_range_sub; [exact Hm|lia|]. Z.div_mod_to_equations. lia.
    + lens. exact HQ.
Qed.

(** The search returns the first run that [get_bitmap] reports free, and
    marks it. *)
Lemma wp_bitmap_find_zero b nr st Q s :
  0 < nr -> st + nr < 2147483648 -> first_run (get_mem s) b nr st ->
  mapped_range (get_mem s) b ((st + nr - 1) / 8 + 1) ->
  Q st (set_mem (set_bits (get_mem s) b st (Z.to_nat nr)) s) ->
  wp (bitmap_find_zero b nr) Q s.
Proof.
  intros Hnr Hhi (Hst & Hfree & Hmin) Hmap HQ. unfold bitmap_find_zero.
  destruct (nr =? 0) eqn:E; [lia|]. apply wp_bind.
  eapply (wp_loop (fun '(streak, start) t => t = s /\ 0 <= streak <= nr /\ 0 <= start <= st /\
      forall i, start <= i < start + streak -> seen_free (get_mem s) b i)
    (fun '(streak, start) _ => st + nr - (start + streak))).
  - split_and!; try done; try lia.
  - lia.
  - intros [streak start] t (-> & Hs & Ht & Hf). split; [lia|].
    rewrite (u32_small streak) by lia. destruct (streak =? nr) eqn:Es.
    + apply wp_ret. assert (streak = nr) as -> by lia.
      assert (start = st) as ->.
      { destruct (decide (start = st)); [done|].
        destruct (Hmin start) as (i & ? & Hi); [lia|]. by destruct Hi; apply Hf. }
      apply wp_bind, wp_set_loop; [lia| |by apply wp_ret].
      by rewrite Z2Nat.id by lia.
    + rewrite (s32_small (start + streak)) by lia.
      apply wp_bind, wp_get_bitmap; [lia| |].
      { eapply mapped_range_sub; [exact Hmap|lia|]. Z.div_mod_to_equations. lia. }
      case_decide as Hd; apply wp_ret; rewrite ?s32_small by lia.
      * split_and!; try done; try lia. intros i Hi.
        destruct (decide (i = start + streak)) as [->|]; [done|]. apply Hf. lia.
      * assert (start + streak < st).
        { destruct (decide (start + streak < st)); [done|].
          destruct Hd. apply Hfree. lia. }
        split_and!; try done; try lia.
Qed.
End specs.

(** ** Which requests get free pages

    [pool m b len h]: a map of [len] bytes in which the first [h] bytes are in
    use, each with its bit 0 set, and the rest is clear.  This is the shape of
    a map from which runs of two or more pages are taken and never returned:
    every run starts at a byte boundary, because the search sees through the
    bit 0 of a byte ([i & 7] is 0 there) but not through the odd positions. *)

Record pool (m : mem) (b len h : Z) : Prop := {
  pool_h : 0 <= h <= len;
  pool_mapped : mapped_range m b len;
  pool_used : forall k, 0 <= k < h -> Z.odd (rd m (b + k)) = true;
  pool_clear : forall k, h <= k < len -> rd m (b + k) = 0;
}.

(** Bytes of the map taken by a run of [nr] pages. *)
Definition run_bytes (nr : Z) : Z := (nr + 7) / 8.

Lemma odd_mask_used v i : Z.odd v = true -> Z.odd i = true -> Z.land v i <> 0.
Proof.
  intros Hv Hi Hz. assert (Z.testbit (Z.land v i) 0 = true) as Ht.
  { by rewrite Z.land_spec, !Z.bit0_odd, Hv, Hi. }
  rewrite Hz in Ht. done.
Qed.

Lemma odd_mod8 i : Z.odd (i mod 8) = Z.odd i.
Proof. rewrite !Zodd_mod. f_equal. Z.div_mod_to_equations. lia. Qed.

Section pool.
Context (m : mem) (b len h : Z) (Hp : pool m b len h).

Lemma pool_seen_used i : 0 <= i < 8 * h -> Z.odd i = true -> ~ seen_free m b i.
Proof.
  intros Hi Ho. apply odd_mask_used; [|by rewrite odd_mod8].
  apply (pool_used _ _ _ _ Hp). Z.div_mod_to_equations. lia.
Qed.

Lemma pool_clear_bit i : 8 * h <= i < 8 * len -> seen_free m b i /\ bit m b i = false.
Proof.
  intros Hi. unfold seen_free, bit.
  rewrite (pool_clear _ _ _ _ Hp) by (Z.div_mod_to_equations; lia).
  split; [apply Z.land_0_l|apply Z.testbit_0_l].
Qed.

Lemma pool_first_run nr : 2 <= nr -> 8 * h + nr <= 8 * len -> first_run m b nr (8 * h).
Proof.
  intros Hnr Hfit. pose proof (pool_h _ _ _ _ Hp). split_and!; [lia| |].
  - intros i Hi. apply pool_clear_bit. lia.
  - intros st Hst. destruct (Z.odd st) eqn:Ho.
    + exists st. split; [lia|]. apply pool_seen_used; [lia|done].
    + exists (st + 1). split; [lia|]. apply pool_seen_used.
      * rewrite Zodd_mod in Ho. destruct (st mod 2 =? 1) eqn:E; [done|].
        assert (st mod 2 = 0) by (Z.div_mod_to_equations; lia).
        Z.div_mod_to_equations. lia.
      * by rewrite Z.odd_add, Ho.
Qed.

Lemma pool_after nr :
  2 <= nr -> 8 * h + nr <= 8 * len ->
  pool (set_bits m b (8 * h) (Z.to_nat nr)) b len (h + run_bytes nr).
Proof.
  intros Hnr Hfit. pose proof (pool_h _ _ _ _ Hp).
  assert (h + run_bytes nr <= len) by (unfold run_bytes; Z.div_mod_to_equations; lia).
  set (m' := set_bits _ _ _ _).
  assert (Hin : forall k, 0 <= k -> bit m' b (8 * k) = Z.odd (rd m' (b + k))).
  { intros k Hk. unfold bit. rewrite (Z.mul_comm 8 k), Z.div_mul, Z.mod_mul by lia.
    apply Z.bit0_odd. }
  split.
  - unfold run_bytes. Z.div_mod_to_equations. lia.
  - unfold mapped_range, m'. setoid_rewrite mapped_set_bits. apply (pool_mapped _ _ _ _ Hp).
  - intros k Hk. rewrite <-Hin by lia. unfold m'. rewrite bit_set_bits by lia.
    destruct (decide (k < h)).
    + assert (bit m b (8 * k) = true) as ->; [|done].
      unfold bit. rewrite (Z.mul_comm 8 k), Z.div_mul, Z.mod_mul by lia.
      rewrite Z.bit0_odd. apply (pool_used _ _ _ _ Hp). lia.
    + apply orb_true_iff. right. unfold run_bytes in *. rewrite Z2Nat.id by lia.
      apply andb_true_iff. split; [lia|]. Z.div_mod_to_equations. lia.
  - intros k Hk. unfold m'. rewrite rd_set_bits_out; [apply (pool_clear _ _ _ _ Hp)|lia|].
    + unfold run_bytes in *. Z.div_mod_to_equations. lia.
    + right. rewrite Z2Nat.id by lia. unfold run_bytes in *. Z.div_mod_to_equations. lia.
Qed.
End pool.

(** A map that was just zeroed is an empty pool. *)
Lemma pool_zero m b len :
  0 <= len -> mapped_range m b len -> (forall k, 0 <= k < len -> rd m (b + k) = 0) ->
  pool m b len 0.
Proof. intros. split; [lia|done|lia|done]. Qed.

(** Bytes outside the map are untouched by a search in a pool. *)
Lemma rd_set_bits_pool m b len h nr a :
  pool m b len h -> 2 <= nr -> 8 * h + nr <= 8 * len ->
  a < b \/ b + len <= a -> rd (set_bits m b (8 * h) (Z.to_nat nr)) a = rd m a.
Proof.
  intros Hp Hnr Hfit Ha. pose proof (pool_h _ _ _ _ Hp). apply rd_set_bits_out; [lia|].
  rewrite Z2Nat.id by lia. Z.div_mod_to_equations. lia.
Qed.

Section pool_specs.
Context {S : Type} `{HasMem S}.
Implicit Types (s : S).

(** From a pool, a request for two or more pages is answered with pages all
    of whose bits were clear, and the result is again a pool. *)
Lemma wp_find_zero_pool b len h nr Q s :
  pool (get_mem s) b len h -> 2 <= nr -> 8 * h + nr <= 8 * len -> 8 * len < 2147483648 ->
  Q (8 * h) (set_mem (set_bits (get_mem s) b (8 * h) (Z.to_nat nr)) s) ->
  wp (bitmap_find_zero b nr) Q s.
Proof.
  intros Hp Hnr Hfit Hlen HQ. pose proof (pool_h _ _ _ _ Hp).
  apply wp_bitmap_find_zero with (st := 8 * h); [lia|lia|by eapply pool_first_run| |done].
  eapply mapped_range_sub; [by eapply pool_mapped|lia|]. Z.div_mod_to_equations. lia.
Qed.

(** A request for one page is always answered with page 0. *)
Lemma wp_find_zero_one b Q s :
  mapped_range (get_mem s) b 1 ->
  Q 0 (set_mem (set_bit (get_mem s) b 0) s) -> wp (bitmap_find_zero b 1) Q s.
Proof.
  intros Hm HQ. apply wp_bitmap_find_zero with (st := 0); [lia|lia| |done|done].
  split_and!; [lia| |lia]. intros i Hi. assert (i = 0) as -> by lia.
  unfold seen_free. apply Z.land_0_r.
Qed.
End pool_specs.
