(* ===== verification/Process.v ===== *)
(** * The process and thread structures: [include/scheduler.h]

    The structures live in kernel memory; a field is an offset in the i386
    layout of the structure.  [post_allocation] (kernel/scheduler.c) is here
    because the heap allocator calls it on every allocation. *)

From stdpp Require Import base numbers list gmap.
From Stdlib Require Import ZArith Lia.
From S2P Require Import Prelude Memory.

Local Open Scope Z_scope.

Definition MAX_THREADS : Z := 16.
Definition MAX_PROCESSES : Z := 32.
Definition MAX_FILEHANDLES : Z := 128.
Definition MAX_ALLOCATIONS_PER_PROCESS : Z := 32.
Definition THREAD_STACK_SIZE : Z := 4096.

(** [include/errno.h]; functions return the negated code. *)
Definition EINVAL : Z := 1.
Definition ENOMEM : Z := 2.
Definition ENOSPC : Z := 3.
Definition ENOTTY : Z := 4.
Definition ENOSYS : Z := 5.
Definition ENODEV : Z := 6.
Definition ENOENT : Z := 7.
Definition EBUSY : Z := 8.
Definition EMFILE : Z := 9.
Definition EIO : Z := 10.
Definition ENOTDIR : Z := 11.

(** [struct thread] *)
Definition T_ip : Z := 0.
Definition T_stack : Z := 4.
Definition T_stacktop : Z := 8.
Definition T_stackbot : Z := 12.
Definition T_rstack : Z := 16.
Definition T_paged : Z := 20.
Definition T_frame : Z := 24.
Definition sizeof_thread : Z := 28.

(** [struct process] *)
Definition P_namebuf : Z := 0.
Definition P_lastthread : Z := 4.          (* uint8_t *)
Definition P_threadslen : Z := 5.          (* uint8_t *)
Definition P_tty_id : Z := 6.              (* uint8_t *)
Definition P_paged : Z := 8.
Definition P_pid : Z := 12.                (* uint8_t *)
Definition P_palloc : Z := 16.
Definition P_palloc_len : Z := 20.
Definition P_exec_len : Z := 24.
Definition P_open_handles : Z := 28.
Definition P_allocs : Z := 32.
Definition P_workdir : Z := 36.
Definition P_allocation_table : Z := 40.
Definition P_filehandles : Z := P_allocation_table + 4 * MAX_ALLOCATIONS_PER_PROCESS.
Definition P_threads : Z := P_filehandles + 4.
Definition sizeof_process : Z := P_threads + 4 * MAX_THREADS.

Section ops.
Context {S : Type} `{HasMem S}.

(** Returns 0, or a negative error code. *)
Definition post_allocation (p base : Z) : M S Z :=
  if (p =? 0) || (base =? 0) then ret (- EINVAL)
  else
    let! allocs := ld32 (p + P_allocs) in
    if allocs >? MAX_ALLOCATIONS_PER_PROCESS then ret (- ENOSPC)
    else
      st32 (p + P_allocation_table + 4 * allocs) base ;!
      let! allocs := ld32 (p + P_allocs) in
      st32 (p + P_allocs) (u32 (allocs + 1)) ;!
      ret 0.
End ops.

(** ** What [post_allocation] writes *)

(** The bytes of a process that the allocation log may occupy.  The guard
    admits [allocs = MAX_ALLOCATIONS_PER_PROCESS], whose slot is the word
    after the table. *)
Definition log_bytes (p a : Z) : Prop :=
  p + P_allocs <= a < p + P_allocs + 4 \/
  p + P_allocation_table <= a < p + P_filehandles + 4.

Lemma rd_mwrite_log m p v w :
  forall a, ~ log_bytes p a ->
  forall k, 0 <= k <= MAX_ALLOCATIONS_PER_PROCESS ->
  rd (mwrite (mwrite m (p + P_allocation_table + 4 * k) (le32 v)) (p + P_allocs) (le32 w)) a
  = rd m a.
Proof.
  unfold log_bytes. intros a Ha k Hk.
  unfold P_allocs, P_filehandles, P_allocation_table, MAX_ALLOCATIONS_PER_PROCESS in *.
  rewrite !rd_mwrite_out; [done|simpl; lia..].
Qed.

Section specs.
Context {S : Type} `{HasMem S}.
Implicit Types (s : S).

Definition process_mapped (m : mem) (p : Z) : Prop :=
  0 < p /\ mapped_range m p sizeof_process.

(** The memory after logging [base]. *)
Definition logged (m : mem) (p base : Z) : mem :=
  let allocs := rd32 m (p + P_allocs) in
  if (p =? 0) || (base =? 0) then m
  else if allocs >? MAX_ALLOCATIONS_PER_PROCESS then m
  else mwrite (mwrite m (p + P_allocation_table + 4 * allocs) (le32 base))
         (p + P_allocs) (le32 (allocs + 1)).

Definition post_result (m : mem) (p base : Z) : Z :=
  if (p =? 0) || (base =? 0) then - EINVAL
  else if rd32 m (p + P_allocs) >? MAX_ALLOCATIONS_PER_PROCESS then - ENOSPC else 0.

Lemma wp_post_allocation p base Q s :
  (p = 0 \/ process_mapped (get_mem s) p) ->
  Q (post_result (get_mem s) p base) (set_mem (logged (get_mem s) p base) s) ->
  wp (post_allocation p base) Q s.
Proof.
  intros Hp HQ. unfold post_allocation, logged, post_result in *.
  destruct ((p =? 0) || (base =? 0)) eqn:E.
  { apply wp_ret. revert HQ. by lens. }
  assert (process_mapped (get_mem s) p) as [Hp0 Hm] by (destruct Hp; [lia|done]).
  unfold P_allocs, P_allocation_table, MAX_ALLOCATIONS_PER_PROCESS in *.
  unfold sizeof_process, P_threads, P_filehandles, P_allocation_table,
    MAX_ALLOCATIONS_PER_PROCESS, MAX_THREADS in Hm. simpl in Hm.
  apply wp_bind, wp_ld32; [eapply mapped_range_sub; [exact Hm|lia..]|].
  set (n := rd32 (get_mem s) (p + 32)) in *. pose proof (rd32_range (get_mem s) (p + 32)).
  destruct (n >? 32) eqn:En.
  { apply wp_ret. revert HQ. by lens. }
  apply wp_bind, wp_st32; [eapply mapped_range_sub; [exact Hm|lia..]|].
  apply wp_bind, wp_ld32.
  { lens. rewrite mapped_range_mwrite. eapply mapped_range_sub; [exact Hm|lia..]. }
  lens. rewrite rd32_mwrite_out by (simpl; lia). fold n.
  apply wp_bind, wp_st32.
  { lens. rewrite mapped_range_mwrite. eapply mapped_range_sub; [exact Hm|lia..]. }
  apply wp_ret. lens. rewrite u32_small by lia. exact HQ.
Qed.

Lemma rd_logged m p base a : ~ log_bytes p a -> rd (logged m p base) a = rd m a.
Proof.
  intros Ha. unfold logged. destruct (_ || _); [done|].
  destruct (_ >? _) eqn:E; [done|]. apply rd_mwrite_log; [done|].
  pose proof (rd32_range m (p + P_allocs)). lia.
Qed.

Lemma mapped_range_logged m p base a n :
  mapped_range (logged m p base) a n <-> mapped_range m a n.
Proof.
  unfold logged. destruct (_ || _); [done|]. destruct (_ >? _); [done|].
  by rewrite !mapped_range_mwrite.
Qed.
End specs.
