(* ===== verification/Pages.v ===== *)
(** * The page provider: the interface between the heap and the architecture

    [include/hal.h] declares [mm_alloc_pages] and [mm_free_pages], which every
    architecture implements.  The heap (mm/malloc.c) is proved against this
    interface; [Paging] and [Arm] discharge it. *)

From stdpp Require Import base numbers list gmap.
From Stdlib Require Import ZArith Lia.
From S2P Require Import Prelude Memory.

Local Open Scope Z_scope.

Definition PAGE : Z := 4096.

#[export] Program Instance pair_HasMem {A} : HasMem (mem * A) :=
  {| get_mem s := s.1; set_mem m s := (m, s.2) |}.
Next Obligation. done. Qed.
Next Obligation. by intros A [m a]. Qed.
Next Obligation. done. Qed.

(** Two memories that agree on a set of bytes, and map the same ranges. *)
Definition agree (P : Z -> Prop) (m m' : mem) : Prop :=
  m_ranges m' = m_ranges m /\ forall x, P x -> rd m' x = rd m x.

Lemma agree_refl P m : agree P m m.
Proof. done. Qed.
Lemma agree_trans P m1 m2 m3 : agree P m1 m2 -> agree P m2 m3 -> agree P m1 m3.
Proof. intros [? H1] [? H2]. split; [congruence|]. intros. by rewrite H2, H1. Qed.
Lemma agree_mono (P P' : Z -> Prop) m m' :
  agree P m m' -> (forall x, P' x -> P x) -> agree P' m m'.
Proof. intros [? Hd] HP. split; auto. Qed.
Lemma agree_mapped_range P m m' a n : agree P m m' -> mapped_range m' a n <-> mapped_range m a n.
Proof. intros [Hr _]. unfold mapped_range, mapped. by rewrite Hr. Qed.

(** [m] is the memory and [a] the provider's own state.  [reserved] are the
    bytes the provider owns: its bookkeeping and the pages not handed out. *)
Class PageProvider (A : Type) := {
  mm_alloc_pages : Z -> M (mem * A) Z;
  mm_free_pages : Z -> Z -> M (mem * A) Z;
  pages_ok : mem -> A -> Prop;
  reserved : mem -> A -> Z -> Prop;
  pages_room : mem -> A -> Z -> Prop;
  may_fail : Prop;

  (** Only reserved bytes matter to the provider. *)
  pages_frame m m' a :
    pages_ok m a -> agree (reserved m a) m m' ->
    pages_ok m' a /\ (forall x, reserved m' a x <-> reserved m a x) /\
    (forall n, pages_room m a n -> pages_room m' a n);

  (** An allocation fails without effect, or hands out reserved pages. *)
  mm_alloc_pages_spec m a n :
    pages_ok m a -> 16 <= n < 1048576 -> pages_room m a n ->
    wp (mm_alloc_pages n) (fun p '(m', a') =>
      (p = 0 /\ may_fail /\ m' = m /\ a' = a) \/
      (0 < p /\ mapped_range m' p (n * PAGE) /\ pages_ok m' a' /\
       (forall x, p <= x < p + n * PAGE -> reserved m a x) /\
       (forall x, reserved m' a' x -> reserved m a x /\ ~ (p <= x < p + n * PAGE)) /\
       agree (fun x => ~ reserved m a x) m m')) (m, a);

  (** Freed pages may come back to the provider. *)
  mm_free_pages_spec m a p n :
    pages_ok m a -> (forall x, p <= x < p + n * PAGE -> ~ reserved m a x) ->
    wp (mm_free_pages p n) (fun _ '(m', a') =>
      pages_ok m' a' /\
      (forall x, reserved m a x -> reserved m' a' x) /\
      (forall x, reserved m' a' x -> reserved m a x \/ p <= x < p + n * PAGE) /\
      agree (fun x => ~ reserved m a x) m m') (m, a);
}.
