(* ===== verification/Arm.v ===== *)
(** * The ARM page provider: [arch/arm/arm.c]

    A bump pointer over the memory above 0x4000000.  It is the second
    implementation of [PageProvider]. *)

From stdpp Require Import base numbers list gmap.
From Stdlib Require Import ZArith Lia.
From S2P Require Import Prelude Memory Pages.

Local Open Scope Z_scope.

Module Arm.

(** [uint32_t *last_alloc]: the pointer arithmetic is in words, so each
    page moves the pointer by four pages. *)
Record state : Type := State { last_alloc : Z }.
Definition init : state := State 67108864.  (* 0x4000000 *)

Definition mm_alloc_pages (pages : Z) : M (mem * state) Z :=
  let! ret_ := gets (fun s => last_alloc s.2) in
  modify (fun s => (s.1, State (u32 (last_alloc s.2 + 4 * (4096 * pages))))) ;!
  ret ret_.

Definition mm_free_pages (ptr pages : Z) : M (mem * state) Z := ret 0.

Definition reserved (m : mem) (a : state) (x : Z) : Prop := last_alloc a <= x.
Definition pages_ok (m : mem) (a : state) : Prop := 0 < last_alloc a.
Definition pages_room (m : mem) (a : state) (n : Z) : Prop :=
  mapped_range m (last_alloc a) (n * PAGE) /\ last_alloc a + 4 * (4096 * n) < 4294967296.

#[export] Program Instance provider : PageProvider state := {|
  Pages.mm_alloc_pages := mm_alloc_pages;
  Pages.mm_free_pages := mm_free_pages;
  Pages.pages_ok := pages_ok;
  Pages.reserved := reserved;
  Pages.pages_room := pages_room;
  Pages.may_fail := False;
|}.
Next Obligation.
  intros m m' a Hok [Hr Hd]. split; [done|]. split; [done|].
  intros n [? ?]. split; [|done]. by eapply agree_mapped_range.
Qed.
Next Obligation.
  intros m [a] n Hok Hn [Hm Hhi]. unfold reserved, pages_ok, PAGE in *. simpl in *.
  unfold mm_alloc_pages. do 2 (apply wp_bind; wp_step). apply wp_ret. right. simpl.
  unfold u32. rewrite Z.mod_small by lia. split_and!; [lia|done|lia|lia| |done]. intros. lia.
Qed.
Next Obligation.
  intros m a p n Hok Hp. unfold mm_free_pages. apply wp_ret. split_and!; auto. done.
Qed.

End Arm.
