(* ===== verification/Liballoc.v ===== *)
(** * The kernel heap: [mm/malloc.c]

    [malloc], [free], [calloc] and [realloc] over the byte memory: the headers
    of the major and minor blocks are words in memory, as in the source.  The
    static variables of the file are the fields of [heap].  The file holds the
    definitions; LiballocProof.v the theorems. *)

From stdpp Require Import base numbers list gmap.
From Stdlib Require Import ZArith Lia.
From S2P Require Import Prelude Memory Process Pages.

Local Open Scope Z_scope.

Definition ALIGNMENT : Z := 16.
Definition ALIGN_INFO : Z := 16.
Definition LIBALLOC_MAGIC : Z := 3221340382.  (* 0xc001c0de *)
Definition LIBALLOC_DEAD : Z := 3735936685.   (* 0xdeaddead *)
Definition l_pageSize : Z := 4096.
Definition l_pageCount : Z := 16.

(** [struct liballoc_major] *)
Definition J_prev : Z := 0.
Definition J_next : Z := 4.
Definition J_pages : Z := 8.
Definition J_size : Z := 12.
Definition J_usage : Z := 16.
Definition J_first : Z := 20.
Definition sizeof_major : Z := 24.

(** [struct liballoc_minor] *)
Definition N_prev : Z := 0.
Definition N_next : Z := 4.
Definition N_block : Z := 8.
Definition N_magic : Z := 12.
Definition N_size : Z := 16.
Definition N_req_size : Z := 20.
Definition sizeof_minor : Z := 24.

(** The static variables of mm/malloc.c, the memory, the state of the page
    provider, and the two variables of other files that the allocator looks
    at: [__all_unlocked] (kernel/mutex.c) and [__p] (kernel/scheduler.c), the
    running process, 0 before scheduling starts. *)
Record heap (A : Type) : Type := Heap {
  h_mem : mem;
  h_arch : A;
  l_memRoot : Z;
  l_bestBet : Z;
  l_allocated : Z;           (* unsigned long long *)
  l_inuse : Z;               (* unsigned long long *)
  l_warningCount : Z;
  l_errorCount : Z;
  l_possibleOverruns : Z;
  h_locked : Z;              (* __lock.locked *)
  h_all_unlocked : Z;        (* __all_unlocked *)
  h_proc : Z;                (* __p *)
}.
Arguments Heap {A}.
Arguments h_mem {A}. Arguments h_arch {A}. Arguments l_memRoot {A}. Arguments l_bestBet {A}.
Arguments l_allocated {A}. Arguments l_inuse {A}. Arguments l_warningCount {A}.
Arguments l_errorCount {A}. Arguments l_possibleOverruns {A}. Arguments h_locked {A}.
Arguments h_all_unlocked {A}. Arguments h_proc {A}.

Section setters.
Context {A : Type}.
Implicit Types (h : heap A).
Definition set_h_mem m h :=
  Heap m (h_arch h) (l_memRoot h) (l_bestBet h) (l_allocated h) (l_inuse h) (l_warningCount h)
    (l_errorCount h) (l_possibleOverruns h) (h_locked h) (h_all_unlocked h) (h_proc h).
Definition set_pages (p : mem * A) h :=
  Heap p.1 p.2 (l_memRoot h) (l_bestBet h) (l_allocated h) (l_inuse h) (l_warningCount h)
    (l_errorCount h) (l_possibleOverruns h) (h_locked h) (h_all_unlocked h) (h_proc h).
Definition set_memRoot v h :=
  Heap (h_mem h) (h_arch h) v (l_bestBet h) (l_allocated h) (l_inuse h) (l_warningCount h)
    (l_errorCount h) (l_possibleOverruns h) (h_locked h) (h_all_unlocked h) (h_proc h).
Definition set_bestBet v h :=
  Heap (h_mem h) (h_arch h) (l_memRoot h) v (l_allocated h) (l_inuse h) (l_warningCount h)
    (l_errorCount h) (l_possibleOverruns h) (h_locked h) (h_all_unlocked h) (h_proc h).
Definition add_allocated v h :=
  Heap (h_mem h) (h_arch h) (l_memRoot h) (l_bestBet h) (u64 (l_allocated h + v)) (l_inuse h)
    (l_warningCount h) (l_errorCount h) (l_possibleOverruns h) (h_locked h) (h_all_unlocked h) (h_proc h).
Definition add_inuse v h :=
  Heap (h_mem h) (h_arch h) (l_memRoot h) (l_bestBet h) (l_allocated h) (u64 (l_inuse h + v))
    (l_warningCount h) (l_errorCount h) (l_possibleOverruns h) (h_locked h) (h_all_unlocked h) (h_proc h).
Definition add_counts w e o h :=
  Heap (h_mem h) (h_arch h) (l_memRoot h) (l_bestBet h) (l_allocated h) (l_inuse h)
    (l_warningCount h + w) (l_errorCount h + e) (l_possibleOverruns h + o)
    (h_locked h) (h_all_unlocked h) (h_proc h).
Definition set_locked v h :=
  Heap (h_mem h) (h_arch h) (l_memRoot h) (l_bestBet h) (l_allocated h) (l_inuse h) (l_warningCount h)
    (l_errorCount h) (l_possibleOverruns h) v (h_all_unlocked h) (h_proc h).
End setters.

#[export] Program Instance heap_HasMem {A} : HasMem (heap A) :=
  {| get_mem := h_mem; set_mem := set_h_mem |}.
Next Obligation. done. Qed.
Next Obligation. by intros A []. Qed.
Next Obligation. done. Qed.

Section ops.
Context {A : Type} `{PageProvider A}.
Notation HM := (M (heap A)).

(** In a run of one thread nobody else releases the lock while we wait, so
    [schedule_noirq] has no effect on this state; the interleavings of
    several threads are modelled in Mutex.v. *)
Definition liballoc_lock : HM unit :=
  loop (fun _ : unit =>
    let! l := gets h_locked in
    let! u := gets h_all_unlocked in
    if negb (l =? 0) && (u =? 0) then ret (inl tt) else ret (inr tt)) tt ;!
  modify (set_locked 1).
Definition liballoc_unlock : HM unit := modify (set_locked 0).

Definition liballoc_alloc (pages : Z) : HM Z :=
  zoom (fun h => (h_mem h, h_arch h)) set_pages (mm_alloc_pages pages).
Definition liballoc_free (ptr pages : Z) : HM Z :=
  zoom (fun h => (h_mem h, h_arch h)) set_pages (mm_free_pages ptr pages).

(** The macros [ALIGN] and [UNALIGN]; a [char] is signed. *)
Definition ALIGN (ptr : Z) : HM Z :=
  let ptr := u32 (ptr + ALIGN_INFO) in
  let diff := Z.land ptr (ALIGNMENT - 1) in
  let (diff, ptr) :=
    if negb (diff =? 0) then (ALIGNMENT - diff, u32 (ptr + (ALIGNMENT - diff)))
    else (diff, ptr) in
  st8 (ptr - ALIGN_INFO) (diff + ALIGN_INFO) ;!
  ret ptr.

Definition UNALIGN (ptr : Z) : HM Z :=
  let! c := ld8 (ptr - ALIGN_INFO) in
  let diff := u32 (s8 c) in
  ret (if diff <? ALIGNMENT + ALIGN_INFO then u32 (ptr - diff) else ptr).

Definition liballoc_memset (s c n : Z) : HM Z :=
  loop (fun i =>
    if i <? n then st8 (s + i) c ;! ret (inl (u32 (i + 1))) else ret (inr tt)) 0 ;!
  ret s.

Definition liballoc_memcpy (s1 s2 n : Z) : HM Z :=
  let! (ldest, lsrc, n) :=
    loop (fun '(ldest, lsrc, n) =>
      if n >=? 4 then
        let! w := ld32 lsrc in
        st32 ldest w ;!
        ret (inl (u32 (ldest + 4), u32 (lsrc + 4), n - 4))
      else ret (inr (ldest, lsrc, n))) (s1, s2, n) in
  loop (fun '(cdest, csrc, n) =>
    if n >? 0 then
      copy_byte cdest csrc ;!
      ret (inl (u32 (cdest + 1), u32 (csrc + 1), n - 1))
    else ret (inr tt)) (ldest, lsrc, n) ;!
  ret s1.

Definition allocate_new_page (size : Z) : HM Z :=
  let st := u32 (size + sizeof_major) in
  let st := u32 (st + sizeof_minor) in
  let st := if st mod l_pageSize =? 0 then st / l_pageSize else st / l_pageSize + 1 in
  let st := if st <? l_pageCount then l_pageCount else st in
  let! maj := liballoc_alloc st in
  if maj =? 0 then
    modify (add_counts 1 0 0) ;!
    ret 0
  else
    st32 (maj + J_prev) 0 ;!
    st32 (maj + J_next) 0 ;!
    st32 (maj + J_pages) st ;!
    st32 (maj + J_size) (st * l_pageSize) ;!
    st32 (maj + J_usage) sizeof_major ;!
    st32 (maj + J_first) 0 ;!
    let! sz := ld32 (maj + J_size) in
    modify (add_allocated sz) ;!
    ret maj.

(** How a case of the loop of [malloc] ends: the function returns a pointer,
    the loop continues with new locals, it is left with [break], or control
    goes on below with [maj]. *)
Inductive flow : Type :=
  | Return (p : Z)
  | Continue (maj bestSize startedBet : Z)
  | Break
  | Below (maj : Z).

(** [maj->usage += n] *)
Definition add_usage (maj n : Z) : HM unit :=
  let! u := ld32 (maj + J_usage) in
  st32 (maj + J_usage) (u32 (u + n)).

(** [post_allocation(get_process(), p); memset(p, 0, req_size);] *)
Definition log_and_clear (p req_size : Z) : HM unit :=
  let! pr := gets h_proc in
  post_allocation pr p ;!
  memset p 0 (s32 req_size) ;!
  ret tt.

(** CASE 1: there is not enough space in this major block. *)
Definition malloc_case1 (size maj bestSize startedBet : Z) : HM flow :=
  let! next := ld32 (maj + J_next) in
  if negb (next =? 0) then ret (Continue next bestSize startedBet)
  else if startedBet =? 1 then
    let! root := gets l_memRoot in
    ret (Continue root bestSize 0)
  else
    let! np := allocate_new_page size in
    st32 (maj + J_next) np ;!
    if np =? 0 then ret Break
    else
      st32 (np + J_prev) maj ;!
      ret (Below np).

(** CASE 2: a brand new block. *)
Definition malloc_case2 (req_size size maj : Z) : HM flow :=
  let first := u32 (maj + sizeof_major) in
  st32 (maj + J_first) first ;!
  st32 (first + N_magic) LIBALLOC_MAGIC ;!
  st32 (first + N_prev) 0 ;!
  st32 (first + N_next) 0 ;!
  st32 (first + N_block) maj ;!
  st32 (first + N_size) size ;!
  st32 (first + N_req_size) req_size ;!
  add_usage maj (size + sizeof_minor) ;!
  modify (add_inuse size) ;!
  let! p := ALIGN (first + sizeof_minor) in
  log_and_clear p req_size ;!
  liballoc_unlock ;!
  ret (Return p).

(** CASE 3: enough space at the start of a block in use. *)
Definition malloc_case3 (req_size size maj first : Z) : HM flow :=
  let nf := u32 (maj + sizeof_major) in
  st32 (first + N_prev) nf ;!
  st32 (nf + N_next) first ;!
  st32 (maj + J_first) nf ;!
  st32 (nf + N_magic) LIBALLOC_MAGIC ;!
  st32 (nf + N_prev) 0 ;!
  st32 (nf + N_block) maj ;!
  st32 (nf + N_size) size ;!
  st32 (nf + N_req_size) req_size ;!
  add_usage maj (size + sizeof_minor) ;!
  modify (add_inuse size) ;!
  let! p := ALIGN (nf + sizeof_minor) in
  log_and_clear p req_size ;!
  liballoc_unlock ;!
  ret (Return p).

(** CASE 4.1: the rest of the block behind its last minor. *)
Definition malloc_case41 (req_size size maj min msize : Z) : HM flow :=
  let nm := u32 (min + sizeof_minor + msize) in
  st32 (min + N_next) nm ;!
  st32 (nm + N_prev) min ;!
  st32 (nm + N_next) 0 ;!
  st32 (nm + N_magic) LIBALLOC_MAGIC ;!
  st32 (nm + N_block) maj ;!
  st32 (nm + N_size) size ;!
  st32 (nm + N_req_size) req_size ;!
  add_usage maj (size + sizeof_minor) ;!
  modify (add_inuse size) ;!
  let! p := ALIGN (nm + sizeof_minor) in
  liballoc_unlock ;!
  ret (Return p).

(** CASE 4.2: between two minors. *)
Definition malloc_case42 (req_size size maj min msize next : Z) : HM flow :=
  let new_min := u32 (min + sizeof_minor + msize) in
  st32 (new_min + N_magic) LIBALLOC_MAGIC ;!
  st32 (new_min + N_next) next ;!
  st32 (new_min + N_prev) min ;!
  st32 (new_min + N_size) size ;!
  st32 (new_min + N_req_size) req_size ;!
  st32 (new_min + N_block) maj ;!
  st32 (next + N_prev) new_min ;!
  st32 (min + N_next) new_min ;!
  add_usage maj (size + sizeof_minor) ;!
  modify (add_inuse size) ;!
  let! p := ALIGN (new_min + sizeof_minor) in
  liballoc_unlock ;!
  log_and_clear p req_size ;!
  ret (Return p).

(** CASE 4, one minor: the gap behind it, up to the end of the block or to the
    next minor; without room there, the next minor is the result. *)
Definition malloc_case4_minor (req_size size maj min : Z) : HM (Z + flow) :=
  let! next := ld32 (min + N_next) in
  let! msize := ld32 (min + N_size) in
  if next =? 0 then
    let! majsize := ld32 (maj + J_size) in
    let diff := u32 (u32 (u32 (u32 (maj + majsize) - min) - sizeof_minor) - msize) in
    if diff >=? u32 (size + sizeof_minor) then
      let! r := malloc_case41 req_size size maj min msize in ret (inr r)
    else ret (inl next)
  else
    let diff := u32 (u32 (u32 (next - min) - sizeof_minor) - msize) in
    if diff >=? u32 (size + sizeof_minor) then
      let! r := malloc_case42 req_size size maj min msize next in ret (inr r)
    else ret (inl next).

(** CASE 4: the loop over the minors of a block. *)
Definition malloc_case4 (req_size size maj : Z) : HM flow :=
  let! first := ld32 (maj + J_first) in
  loop (fun min =>
    if min =? 0 then ret (inr (Below maj))
    else malloc_case4_minor req_size size maj min) first.

(** CASE 5: the block is full; make sure there is a next one. *)
Definition malloc_case5 (size maj bestSize startedBet : Z) : HM flow :=
  let! next := ld32 (maj + J_next) in
  if next =? 0 then
    if startedBet =? 1 then
      let! root := gets l_memRoot in
      ret (Continue root bestSize 0)
    else
      let! np := allocate_new_page size in
      st32 (maj + J_next) np ;!
      if np =? 0 then ret Break
      else
        st32 (np + J_prev) maj ;!
        ret (Continue np bestSize startedBet)
  else ret (Continue next bestSize startedBet).

(** From CASE 2 down: [maj] is a block that may have the space. *)
Definition malloc_place (req_size size maj bestSize startedBet : Z) : HM flow :=
  let! first := ld32 (maj + J_first) in
  if first =? 0 then malloc_case2 req_size size maj
  else
    let diff := u32 (u32 (first - maj) - sizeof_major) in
    if diff >=? u32 (size + sizeof_minor) then malloc_case3 req_size size maj first
    else
      let! r := malloc_case4 req_size size maj in
      match r with
      | Below maj => malloc_case5 size maj bestSize startedBet
      | r => ret r
      end.

(** The loop over the major blocks. *)
Definition malloc_loop (req_size size maj bestSize startedBet : Z) : HM (option Z) :=
  loop (fun '(maj, bestSize, startedBet) =>
    if maj =? 0 then ret (inr None)
    else
      let! jsize := ld32 (maj + J_size) in
      let! usage := ld32 (maj + J_usage) in
      let diff := u32 (jsize - usage) in
      let! bestSize :=
        (if bestSize <? diff then modify (set_bestBet maj) ;! ret diff else ret bestSize) in
      let! r :=
        (if diff <? u32 (size + sizeof_minor) then
           let! r := malloc_case1 size maj bestSize startedBet in
           match r with
           | Below maj => malloc_place req_size size maj bestSize startedBet
           | r => ret r
           end
         else malloc_place req_size size maj bestSize startedBet) in
      match r with
      | Return p => ret (inr (Some p))
      | Continue maj bestSize startedBet => ret (inl (maj, bestSize, startedBet))
      | Break | Below _ => ret (inr None)
      end) (maj, bestSize, startedBet).

(** [malloc] with the lock held and a nonzero size. *)
Definition malloc_locked (req_size size : Z) : HM Z :=
  let! root := gets l_memRoot in
  let! root :=
    (if root =? 0 then
       let! r := allocate_new_page size in
       modify (set_memRoot r) ;!
       ret r
     else ret root) in
  if root =? 0 then liballoc_unlock ;! ret 0
  else
    let! bet := gets l_bestBet in
    let! (maj, bestSize, startedBet) :=
      (if negb (bet =? 0) then
         let! bsize := ld32 (bet + J_size) in
         let! busage := ld32 (bet + J_usage) in
         let bestSize := u32 (bsize - busage) in
         if bestSize >? u32 (size + sizeof_minor) then ret (bet, bestSize, 1)
         else ret (root, bestSize, 0)
       else ret (root, 0, 0)) in
    let! r := malloc_loop req_size size maj bestSize startedBet in
    match r with
    | Some p => ret p
    | None => liballoc_unlock ;! ret 0
    end.

Definition malloc (req_size : Z) : HM Z :=
  let size := u32 (req_size + (ALIGNMENT + ALIGN_INFO)) in
  liballoc_lock ;!
  if size =? 0 then
    modify (add_counts 1 0 0) ;!
    liballoc_unlock ;!
    (* return malloc(1) *)
    liballoc_lock ;!
    malloc_locked 1 (1 + (ALIGNMENT + ALIGN_INFO))
  else malloc_locked req_size size.

(** The magic number has been hit: count the error. *)
Definition bad_magic (magic : Z) : HM unit :=
  modify (add_counts 0 1
    (if (Z.land magic 16777215 =? Z.land LIBALLOC_MAGIC 16777215) ||
        (Z.land magic 65535 =? Z.land LIBALLOC_MAGIC 65535) ||
        (Z.land magic 255 =? Z.land LIBALLOC_MAGIC 255) then 1 else 0)).

(** Taking a minor out of its block. *)
Definition unlink_minor (min maj : Z) : HM unit :=
  let! size := ld32 (min + N_size) in
  modify (add_inuse (- size)) ;!
  add_usage maj (- (size + sizeof_minor)) ;!
  st32 (min + N_magic) LIBALLOC_DEAD ;!
  let! next := ld32 (min + N_next) in
  let! prev := ld32 (min + N_prev) in
  (if! negb (next =? 0) then st32 (next + N_prev) prev) ;!
  (if! negb (prev =? 0) then st32 (prev + N_next) next) ;!
  (if! prev =? 0 then st32 (maj + J_first) next).

(** Giving an empty block back to the system. *)
Definition release_major (maj : Z) : HM unit :=
  let! next := ld32 (maj + J_next) in
  let! root := gets l_memRoot in
  (if! root =? maj then modify (set_memRoot next)) ;!
  let! bet := gets l_bestBet in
  (if! bet =? maj then modify (set_bestBet 0)) ;!
  let! prev := ld32 (maj + J_prev) in
  (if! negb (prev =? 0) then st32 (prev + J_next) next) ;!
  (if! negb (next =? 0) then st32 (next + J_prev) prev) ;!
  let! size := ld32 (maj + J_size) in
  modify (add_allocated (- size)) ;!
  let! pages := ld32 (maj + J_pages) in
  liballoc_free maj pages ;!
  ret tt.

(** [int bestSize = ...; int majSize = ...;]: signed comparison. *)
Definition update_bet (maj : Z) : HM unit :=
  let! bet := gets l_bestBet in
  if! negb (bet =? 0) then
    (let! bsize := ld32 (bet + J_size) in
     let! busage := ld32 (bet + J_usage) in
     let! msize := ld32 (maj + J_size) in
     let! musage := ld32 (maj + J_usage) in
     if! s32 (bsize - busage) <? s32 (msize - musage) then modify (set_bestBet maj)).

Definition free (ptr : Z) : HM unit :=
  if ptr =? 0 then modify (add_counts 1 0 0)
  else
    let! ptr := UNALIGN ptr in
    liballoc_lock ;!
    let min := u32 (ptr - sizeof_minor) in
    let! magic := ld32 (min + N_magic) in
    if negb (magic =? LIBALLOC_MAGIC) then
      bad_magic magic ;!
      liballoc_unlock
    else
      let! maj := ld32 (min + N_block) in
      unlink_minor min maj ;!
      let! first := ld32 (maj + J_first) in
      (if first =? 0 then release_major maj else update_bet maj) ;!
      liballoc_unlock.

(** [real_size] is an [int]. *)
Definition calloc (nobj size : Z) : HM Z :=
  let real_size := s32 (nobj * size) in
  let! p := malloc (u32 real_size) in
  liballoc_memset p 0 (u32 real_size) ;!
  ret p.

Definition realloc (p size : Z) : HM Z :=
  if size =? 0 then free p ;! ret 0
  else if p =? 0 then malloc size
  else
    let! ptr := UNALIGN p in
    liballoc_lock ;!
    let min := u32 (ptr - sizeof_minor) in
    let! magic := ld32 (min + N_magic) in
    if negb (magic =? LIBALLOC_MAGIC) then
      bad_magic magic ;!
      liballoc_unlock ;!
      ret 0
    else
      let! real_size := ld32 (min + N_req_size) in
      if real_size >=? size then
        st32 (min + N_req_size) size ;!
        liballoc_unlock ;!
        ret p
      else
        liballoc_unlock ;!
        let! ptr := malloc size in
        liballoc_memcpy ptr p real_size ;!
        free p ;!
        ret ptr.
End ops.
