(* ===== verification/LiballocInv.v ===== *)
(** * The layout of the kernel heap, and what it means in memory

    The abstract heap is a list of major blocks, each with its list of minor
    blocks; [rep] says that the byte memory and the static variables of
    mm/malloc.c represent such a list.  The lemmas here are about the layout:
    splitting it, framing it, linking and unlinking a block. *)

From stdpp Require Import base numbers list gmap.
From Stdlib Require Import ZArith Lia.
From S2P Require Import Prelude Memory Process Pages Liballoc.

Local Open Scope Z_scope.

(** ** Abstract heaps *)

Record mnr : Type := Mnr { n_addr : Z; n_size : Z; n_req : Z }.
Record mjr : Type := Mjr { j_addr : Z; j_pages : Z; j_minors : list mnr }.

#[export] Instance mnr_eq_dec : EqDecision mnr.
Proof. solve_decision. Defined.
#[export] Instance mjr_eq_dec : EqDecision mjr.
Proof. solve_decision. Defined.

Definition n_end (x : mnr) : Z := n_addr x + 24 + n_size x.
Definition j_len (j : mjr) : Z := j_pages j * 4096.
Definition j_end (j : mjr) : Z := j_addr j + j_len j.

Definition hd_n (d : Z) (l : list mnr) : Z := match l with [] => d | x :: _ => n_addr x end.
Definition last_n (d : Z) (l : list mnr) : Z := match last l with Some x => n_addr x | None => d end.
Definition hd_j (d : Z) (L : list mjr) : Z := match L with [] => d | j :: _ => j_addr j end.
Definition last_j (d : Z) (L : list mjr) : Z := match last L with Some j => j_addr j | None => d end.

(** The pointer given to the user of a minor at [a]: the data begin at
    [a + 24], the pointer is the first multiple of 16 at least 16 bytes on. *)
Definition uptr (a : Z) : Z := a + 40 + (- (a + 40)) mod 16.
Definition user_byte (x : mnr) (a : Z) : Prop :=
  uptr (n_addr x) <= a < uptr (n_addr x) + n_req x.

(** Minors in increasing order of address inside [lo, hi). *)
Fixpoint fits (lo : Z) (l : list mnr) (hi : Z) : Prop :=
  match l with
  | [] => lo <= hi
  | x :: l' =>
      lo <= n_addr x /\ 0 <= n_req x /\ n_req x + 32 <= n_size x /\ fits (n_end x) l' hi
  end.

Definition usage_of (l : list mnr) : Z :=
  24 + Z.of_nat (sum_list_with (fun x => Z.to_nat (n_size x + 24)) l).

Definition major_wf (j : mjr) : Prop :=
  0 < j_addr j /\ 1 <= j_pages j /\ j_end j <= 4294967296 /\
  fits (j_addr j + 24) (j_minors j) (j_end j).

Definition apart1 (j j' : mjr) : Prop := j_end j <= j_addr j' \/ j_end j' <= j_addr j.
Fixpoint apart (L : list mjr) : Prop :=
  match L with [] => True | j :: L' => Forall (apart1 j) L' /\ apart L' end.

(** ** Their representation in memory *)

Definition minor_at (m : mem) (a prev next maj size req : Z) : Prop :=
  rd32 m (a + N_prev) = prev /\ rd32 m (a + N_next) = next /\ rd32 m (a + N_block) = maj /\
  rd32 m (a + N_magic) = LIBALLOC_MAGIC /\ rd32 m (a + N_size) = size /\
  rd32 m (a + N_req_size) = req.

(** The byte that [ALIGN] leaves below the user's pointer. *)
Definition align_at (m : mem) (a : Z) : Prop := rd m (uptr a - 16) = uptr a - (a + 24).

Fixpoint minors_seg (m : mem) (maj prev : Z) (l : list mnr) (nxt : Z) : Prop :=
  match l with
  | [] => True
  | x :: l' =>
      minor_at m (n_addr x) prev (hd_n nxt l') maj (n_size x) (n_req x) /\
      align_at m (n_addr x) /\ minors_seg m maj (n_addr x) l' nxt
  end.

Definition major_at (m : mem) (a prev next pages usage first : Z) : Prop :=
  rd32 m (a + J_prev) = prev /\ rd32 m (a + J_next) = next /\ rd32 m (a + J_pages) = pages /\
  rd32 m (a + J_size) = pages * 4096 /\ rd32 m (a + J_usage) = usage /\
  rd32 m (a + J_first) = first.

Fixpoint majors_seg (m : mem) (prev : Z) (L : list mjr) (nxt : Z) : Prop :=
  match L with
  | [] => True
  | j :: L' =>
      major_at m (j_addr j) prev (hd_j nxt L') (j_pages j) (usage_of (j_minors j))
        (hd_n 0 (j_minors j)) /\
      minors_seg m (j_addr j) 0 (j_minors j) 0 /\
      majors_seg m (j_addr j) L' nxt
  end.

(** Bytes of the blocks that are not the users'. *)
Definition major_byte (j : mjr) (a : Z) : Prop :=
  j_addr j <= a < j_end j /\ forall x, x ∈ j_minors j -> ~ user_byte x a.
Definition heap_byte (L : list mjr) (a : Z) : Prop := exists j, j ∈ L /\ major_byte j a.

Definition usages (L : list mjr) : nat :=
  sum_list_with (fun j => sum_list_with (fun x => Z.to_nat (n_size x)) (j_minors j)) L.

Section rep.
Context {A : Type} `{PageProvider A}.

(** All the bytes that belong to the allocator. *)
Definition owned (h : heap A) (L : list mjr) (a : Z) : Prop :=
  heap_byte L a \/ reserved (h_mem h) (h_arch h) a.

Record rep (h : heap A) (L : list mjr) : Prop := {
  rep_seg : majors_seg (h_mem h) 0 L 0;
  rep_wf : Forall major_wf L;
  rep_apart : apart L;
  rep_root : l_memRoot h = hd_j 0 L;
  rep_bet : l_bestBet h = 0 \/ exists j, j ∈ L /\ l_bestBet h = j_addr j;
  rep_mapped : forall j, j ∈ L -> mapped_range (h_mem h) (j_addr j) (j_len j);
  rep_pages : pages_ok (h_mem h) (h_arch h);
  rep_sep : forall j a, j ∈ L -> j_addr j <= a < j_end j -> ~ reserved (h_mem h) (h_arch h) a;
  rep_proc : h_proc h = 0 \/
    process_mapped (h_mem h) (h_proc h) /\
    forall a, log_bytes (h_proc h) a -> ~ owned h L a;
  rep_allocated : l_allocated h = u64 (Z.of_nat (sum_list_with (fun j => Z.to_nat (j_len j)) L));
  rep_inuse : l_inuse h = u64 (Z.of_nat (usages L));
}.

(** The invariant between calls: the lock is free. *)
Definition heap_inv (h : heap A) (L : list mjr) : Prop := h_locked h = 0 /\ rep h L.
End rep.

(** ** Geometry *)

Lemma uptr_range a : a + 40 <= uptr a <= a + 55.
Proof. unfold uptr. pose proof (Z.mod_pos_bound (- (a + 40)) 16). lia. Qed.
Lemma uptr_aligned a : uptr a mod 16 = 0.
Proof. unfold uptr. Z.div_mod_to_equations. lia. Qed.

Lemma fits_le lo l hi : fits lo l hi -> lo <= hi.
Proof.
  revert lo. induction l as [|x l IH]; simpl; intros lo; [done|].
  intros (? & ? & ? & Hf%IH). unfold n_end in Hf. lia.
Qed.

Lemma fits_mono lo lo' l hi hi' : fits lo l hi -> lo' <= lo -> hi <= hi' -> fits lo' l hi'.
Proof.
  revert lo lo'. induction l as [|x l IH]; simpl; intros lo lo'; [lia|].
  intros (? & ? & ? & Hf) ??. split_and!; [lia..|]. eapply IH; [done|lia..].
Qed.

Definition end_of (lo : Z) (l : list mnr) : Z :=
  match last l with Some x => n_end x | None => lo end.

Lemma end_of_cons lo x l : end_of lo (x :: l) = end_of (n_end x) l.
Proof. unfold end_of. rewrite last_cons. by destruct (last l). Qed.

Lemma fits_app lo l1 l2 hi :
  fits lo (l1 ++ l2) hi <-> fits lo l1 (end_of lo l1) /\ fits (end_of lo l1) l2 hi.
Proof.
  revert lo. induction l1 as [|x l1 IH]; intros lo; [simpl; unfold end_of; simpl; intuition lia|].
  rewrite end_of_cons. simpl. rewrite IH. intuition.
Qed.

Lemma fits_elem lo l hi x :
  fits lo l hi -> x ∈ l -> lo <= n_addr x /\ n_end x <= hi /\ 0 <= n_req x /\ n_req x + 32 <= n_size x.
Proof.
  revert lo. induction l as [|y l IH]; simpl; intros lo Hf Hx; [by apply not_elem_of_nil in Hx|].
  destruct Hf as (? & ? & ? & Hf). pose proof (fits_le _ _ _ Hf).
  apply elem_of_cons in Hx as [->|Hx]; [lia|].
  destruct (IH _ Hf Hx) as (? & ? & ? & ?). unfold n_end in *. lia.
Qed.

Lemma fits_disjoint lo l hi x y :
  fits lo l hi -> x ∈ l -> y ∈ l -> x = y \/ n_end x <= n_addr y \/ n_end y <= n_addr x.
Proof.
  revert lo. induction l as [|z l IH]; simpl; intros lo Hf Hx Hy; [by apply not_elem_of_nil in Hx|].
  destruct Hf as (? & ? & ? & Hf).
  apply elem_of_cons in Hx as [->|Hx]; apply elem_of_cons in Hy as [->|Hy].
  - by left.
  - destruct (fits_elem _ _ _ _ Hf Hy). lia.
  - destruct (fits_elem _ _ _ _ Hf Hx). lia.
  - eauto.
Qed.

Lemma fits_usage lo l hi : fits lo l hi -> usage_of l + lo <= hi + 24.
Proof.
  revert lo. induction l as [|x l IH]; intros lo; unfold usage_of in *; simpl; [lia|].
  intros (? & ? & ? & Hf%IH). unfold n_end in *. lia.
Qed.

Lemma usage_app l1 x l2 :
  0 <= n_size x -> usage_of (l1 ++ x :: l2) = usage_of (l1 ++ l2) + (n_size x + 24).
Proof. intros. unfold usage_of. rewrite !sum_list_with_app. simpl. lia. Qed.

Lemma usage_pos l : 24 <= usage_of l.
Proof. unfold usage_of. lia. Qed.

Lemma apart_app L1 L2 :
  apart (L1 ++ L2) <-> apart L1 /\ apart L2 /\ forall j j', j ∈ L1 -> j' ∈ L2 -> apart1 j j'.
Proof.
  induction L1 as [|j L1 IH]; simpl.
  - split; [|naive_solver]. intros. split_and!; [done..|].
    intros j j' Hj. by apply not_elem_of_nil in Hj.
  - rewrite IH, Forall_app, !Forall_forall. setoid_rewrite elem_of_cons. naive_solver.
Qed.
Lemma apart1_sym j j' : apart1 j j' -> apart1 j' j.
Proof. unfold apart1. tauto. Qed.

Lemma apart_elem L j k : apart L -> j ∈ L -> k ∈ L -> j = k \/ apart1 j k.
Proof.
  induction L as [|i L IH]; intros Ha Hj Hk; [by apply not_elem_of_nil in Hj|].
  simpl in Ha. destruct Ha as [Hf Ha]. rewrite Forall_forall in Hf.
  apply elem_of_cons in Hj as [->|Hj]; apply elem_of_cons in Hk as [->|Hk]; auto.
  right. apply apart1_sym. auto.
Qed.

(** ** Framing

    The words that represent a minor are its header and the byte below the
    user's pointer; those of a major are its header. *)

Definition hdr_byte (x : mnr) (a : Z) : Prop :=
  n_addr x <= a < n_addr x + 24 \/ a = uptr (n_addr x) - 16.

Lemma rd32_agree P m m' a :
  agree P m m' -> P a -> P (a + 1) -> P (a + 2) -> P (a + 3) -> rd32 m' a = rd32 m a.
Proof. intros [_ Hd] ????. unfold rd32. rewrite !Hd by done. done. Qed.

Ltac offs := unfold N_prev, N_next, N_block, N_magic, N_size, N_req_size,
  J_prev, J_next, J_pages, J_size, J_usage, J_first, sizeof_major, sizeof_minor in *.

Lemma minor_at_agree m m' a prev next maj size req :
  agree (fun b => a <= b < a + 24) m m' ->
  minor_at m a prev next maj size req -> minor_at m' a prev next maj size req.
Proof.
  intros Ha. unfold minor_at. offs.
  rewrite !(fun b H1 H2 H3 H4 => rd32_agree _ _ _ b Ha H1 H2 H3 H4) by lia. done.
Qed.

Lemma align_at_agree m m' a :
  agree (fun b => b = uptr a - 16) m m' -> align_at m a -> align_at m' a.
Proof. intros [_ Hd]. unfold align_at. by rewrite Hd. Qed.

Lemma major_at_agree m m' a prev next pages usage first :
  agree (fun b => a <= b < a + 24) m m' ->
  major_at m a prev next pages usage first -> major_at m' a prev next pages usage first.
Proof.
  intros Ha. unfold major_at. offs.
  rewrite !(fun b H1 H2 H3 H4 => rd32_agree _ _ _ b Ha H1 H2 H3 H4) by lia. done.
Qed.

Lemma minors_seg_agree m m' maj prev l nxt :
  agree (fun a => exists x, x ∈ l /\ hdr_byte x a) m m' ->
  minors_seg m maj prev l nxt -> minors_seg m' maj prev l nxt.
Proof.
  revert prev. induction l as [|x l IH]; intros prev Ha; simpl; [done|].
  intros (Hm & Hal & Hs). split_and!.
  - eapply minor_at_agree; [|done]. eapply agree_mono; [done|].
    intros a ?. exists x. split; [left|by left].
  - eapply align_at_agree; [|done]. eapply agree_mono; [done|].
    intros a ?. exists x. split; [left|by right].
  - apply IH; [|done]. eapply agree_mono; [done|].
    intros a (y & ? & ?). exists y. split; [by right|done].
Qed.

Lemma minors_seg_app m maj prev l1 l2 nxt :
  minors_seg m maj prev (l1 ++ l2) nxt <->
  minors_seg m maj prev l1 (hd_n nxt l2) /\ minors_seg m maj (last_n prev l1) l2 nxt.
Proof.
  revert prev. induction l1 as [|x l1 IH]; intros prev; simpl; [by intuition|].
  rewrite IH. replace (last_n prev (x :: l1)) with (last_n (n_addr x) l1)
    by (unfold last_n; rewrite last_cons; by destruct (last l1)).
  replace (hd_n nxt (l1 ++ l2)) with (hd_n (hd_n nxt l2) l1) by (by destruct l1).
  intuition.
Qed.

Lemma last_n_snoc p l x : last_n p (l ++ [x]) = n_addr x.
Proof. unfold last_n. by rewrite last_snoc. Qed.
Lemma last_j_snoc p L j : last_j p (L ++ [j]) = j_addr j.
Proof. unfold last_j. by rewrite last_snoc. Qed.

(** The successor of the last minor, or the predecessor of the first, is set. *)
Lemma minors_seg_set_next m m' maj prev l y nxt nxt' :
  agree (fun a => (exists x, x ∈ l /\ hdr_byte x a) \/
           (hdr_byte y a /\ ~ n_addr y + N_next <= a < n_addr y + N_next + 4)) m m' ->
  rd32 m' (n_addr y + N_next) = nxt' ->
  minors_seg m maj prev (l ++ [y]) nxt -> minors_seg m' maj prev (l ++ [y]) nxt'.
Proof.
  intros Ha Hl. rewrite !minors_seg_app. simpl. intros (Hs & Hm & Hal & _). split_and!; [| | |done].
  - eapply minors_seg_agree; [|exact Hs]. eapply agree_mono; [exact Ha|]. by left.
  - revert Hm. unfold minor_at. intros (? & ? & ? & ? & ? & ?). pose proof (uptr_range (n_addr y)).
    unfold hdr_byte in *. offs.
    split_and!; [|done|..];
      (erewrite (rd32_agree _ _ _ _ Ha); [done|right; lia..]).
  - eapply align_at_agree; [|exact Hal]. eapply agree_mono; [exact Ha|].
    intros a ->. right. pose proof (uptr_range (n_addr y)). unfold hdr_byte. offs. lia.
Qed.

Lemma minors_seg_set_prev m m' maj prev prev' z l nxt :
  agree (fun a => (exists x, x ∈ l /\ hdr_byte x a) \/
           (hdr_byte z a /\ ~ n_addr z + N_prev <= a < n_addr z + N_prev + 4)) m m' ->
  rd32 m' (n_addr z + N_prev) = prev' ->
  minors_seg m maj prev (z :: l) nxt -> minors_seg m' maj prev' (z :: l) nxt.
Proof.
  intros Ha Hl. simpl. intros (Hm & Hal & Hs). split_and!.
  - revert Hm. unfold minor_at. intros (? & ? & ? & ? & ? & ?). pose proof (uptr_range (n_addr z)).
    unfold hdr_byte in *. offs.
    split_and!; [done|..];
      (erewrite (rd32_agree _ _ _ _ Ha); [done|right; lia..]).
  - eapply align_at_agree; [|exact Hal]. eapply agree_mono; [exact Ha|].
    intros a ->. right. pose proof (uptr_range (n_addr z)). unfold hdr_byte. offs. lia.
  - eapply minors_seg_agree; [|exact Hs]. eapply agree_mono; [exact Ha|]. by left.
Qed.

(** A major block in its context. *)
Definition major_rep (m : mem) (prev : Z) (j : mjr) (nxt : Z) : Prop :=
  major_at m (j_addr j) prev nxt (j_pages j) (usage_of (j_minors j)) (hd_n 0 (j_minors j)) /\
  minors_seg m (j_addr j) 0 (j_minors j) 0.

Lemma majors_seg_app m prev L1 L2 nxt :
  majors_seg m prev (L1 ++ L2) nxt <->
  majors_seg m prev L1 (hd_j nxt L2) /\ majors_seg m (last_j prev L1) L2 nxt.
Proof.
  revert prev. induction L1 as [|j L1 IH]; intros prev; simpl; [by intuition|].
  rewrite IH. replace (last_j prev (j :: L1)) with (last_j (j_addr j) L1)
    by (unfold last_j; rewrite last_cons; by destruct (last L1)).
  replace (hd_j nxt (L1 ++ L2)) with (hd_j (hd_j nxt L2) L1) by (by destruct L1).
  intuition.
Qed.

Lemma majors_seg_mid m prev L1 j L2 nxt :
  majors_seg m prev (L1 ++ j :: L2) nxt <->
  majors_seg m prev L1 (j_addr j) /\ major_rep m (last_j prev L1) j (hd_j nxt L2) /\ majors_seg m (j_addr j) L2 nxt.
Proof. rewrite majors_seg_app. simpl. unfold major_rep. tauto. Qed.

(** Header bytes lie in the space of their minor and are not the user's. *)
Lemma hdr_byte_range x a : 0 <= n_req x /\ n_req x + 32 <= n_size x ->
  hdr_byte x a -> n_addr x <= a < n_end x /\ a < uptr (n_addr x).
Proof. pose proof (uptr_range (n_addr x)). unfold hdr_byte, n_end. lia. Qed.

Lemma user_byte_range x a : 0 <= n_req x /\ n_req x + 32 <= n_size x ->
  user_byte x a -> n_addr x + 40 <= a < n_end x.
Proof. pose proof (uptr_range (n_addr x)). unfold user_byte, n_end. lia. Qed.

Lemma hdr_major_byte j x a :
  major_wf j -> x ∈ j_minors j -> hdr_byte x a -> major_byte j a.
Proof.
  intros (? & ? & ? & Hf) Hx Hh. destruct (fits_elem _ _ _ _ Hf Hx) as (? & ? & ?).
  apply hdr_byte_range in Hh as [? ?]; [|done]. split; [lia|].
  intros y Hy Hu. destruct (fits_elem _ _ _ _ Hf Hy) as (? & ? & ?).
  pose proof (user_byte_range _ _ ltac:(done) Hu).
  destruct (fits_disjoint _ _ _ _ _ Hf Hx Hy) as [->|]; [|lia]. unfold user_byte in Hu. lia.
Qed.

Lemma head_major_byte j a :
  major_wf j -> j_addr j <= a < j_addr j + 24 -> major_byte j a.
Proof.
  intros (? & ? & ? & Hf) Ha. pose proof (fits_le _ _ _ Hf). split; [lia|].
  intros y Hy Hu. destruct (fits_elem _ _ _ _ Hf Hy) as (? & ? & ?).
  pose proof (user_byte_range _ _ ltac:(done) Hu). lia.
Qed.

Lemma major_rep_agree m m' prev j nxt :
  major_wf j -> agree (major_byte j) m m' -> major_rep m prev j nxt -> major_rep m' prev j nxt.
Proof.
  intros Hw Ha [Hm Hs]. split.
  - eapply major_at_agree; [|done]. eapply agree_mono; [done|]. intros. by apply head_major_byte.
  - eapply minors_seg_agree; [|done]. eapply agree_mono; [done|].
    intros a (x & ? & ?). by eapply hdr_major_byte.
Qed.

Lemma majors_seg_agree m m' prev L nxt :
  Forall major_wf L -> agree (heap_byte L) m m' ->
  majors_seg m prev L nxt -> majors_seg m' prev L nxt.
Proof.
  revert prev. induction L as [|j L IH]; intros prev Hw Ha; [done|].
  apply Forall_cons in Hw as [Hj Hw]. rewrite !(majors_seg_mid _ _ [] j L). intros (_ & Hr & Hs).
  split_and!; [done| |].
  - eapply major_rep_agree; [done| |exact Hr]. eapply agree_mono; [exact Ha|].
    intros a ?. exists j. split; [left|done].
  - eapply IH; [done| |exact Hs]. eapply agree_mono; [exact Ha|].
    intros a (j' & ? & ?). exists j'. split; [by right|done].
Qed.

(** The links between majors. *)
Lemma majors_seg_set_next m m' prev L j nxt nxt' :
  Forall major_wf (L ++ [j]) ->
  agree (fun a => heap_byte L a \/
           (major_byte j a /\ ~ j_addr j + J_next <= a < j_addr j + J_next + 4)) m m' ->
  rd32 m' (j_addr j + J_next) = nxt' ->
  majors_seg m prev (L ++ [j]) nxt -> majors_seg m' prev (L ++ [j]) nxt'.
Proof.
  rewrite Forall_app, Forall_singleton. intros [HwL Hwj] Ha Hl.
  rewrite !majors_seg_mid. intros (Hs & [Hm Hn] & _). split_and!; [| |done].
  - eapply majors_seg_agree; [done| |exact Hs]. eapply agree_mono; [exact Ha|]. by left.
  - assert (forall b, j_addr j <= b < j_addr j + 24 -> ~ j_addr j + J_next <= b < j_addr j + J_next + 4 ->
      heap_byte L b \/ (major_byte j b /\ ~ j_addr j + J_next <= b < j_addr j + J_next + 4)) as Hb.
    { intros. right. split; [by apply head_major_byte|done]. }
    split.
    + revert Hm. unfold major_at. intros (? & ? & ? & ? & ? & ?). offs.
      split_and!; [|done|..]; (erewrite (rd32_agree _ _ _ _ Ha); [done|apply Hb; lia..]).
    + eapply minors_seg_agree; [|exact Hn]. eapply agree_mono; [exact Ha|].
      intros a (x & Hx & Hh). right. split; [by eapply hdr_major_byte|].
      destruct Hwj as (? & ? & ? & Hf). destruct (fits_elem _ _ _ _ Hf Hx) as (? & ? & ?).
      apply hdr_byte_range in Hh as [? ?]; [|done]. offs. lia.
Qed.

Lemma majors_seg_set_prev m m' prev prev' j L nxt :
  Forall major_wf (j :: L) ->
  agree (fun a => heap_byte L a \/
           (major_byte j a /\ ~ j_addr j + J_prev <= a < j_addr j + J_prev + 4)) m m' ->
  rd32 m' (j_addr j + J_prev) = prev' ->
  majors_seg m prev (j :: L) nxt -> majors_seg m' prev' (j :: L) nxt.
Proof.
  rewrite Forall_cons. intros [Hwj HwL] Ha Hl.
  rewrite !(majors_seg_mid _ _ [] j L). intros (_ & [Hm Hn] & Hs). split_and!; [done| |].
  - assert (forall b, j_addr j <= b < j_addr j + 24 -> ~ j_addr j + J_prev <= b < j_addr j + J_prev + 4 ->
      heap_byte L b \/ (major_byte j b /\ ~ j_addr j + J_prev <= b < j_addr j + J_prev + 4)) as Hb.
    { intros. right. split; [by apply head_major_byte|done]. }
    split.
    + revert Hm. unfold major_at. intros (? & ? & ? & ? & ? & ?). offs.
      split_and!; [done|..]; (erewrite (rd32_agree _ _ _ _ Ha); [done|apply Hb; lia..]).
    + eapply minors_seg_agree; [|exact Hn]. eapply agree_mono; [exact Ha|].
      intros a (x & Hx & Hh). right. split; [by eapply hdr_major_byte|].
      destruct Hwj as (? & ? & ? & Hf). destruct (fits_elem _ _ _ _ Hf Hx) as (? & ? & ?).
      apply hdr_byte_range in Hh as [? ?]; [|done]. offs. lia.
  - eapply majors_seg_agree; [done| |exact Hs]. eapply agree_mono; [exact Ha|]. by left.
Qed.
