(* ===== verification/LiballocProof.v ===== *)
(** * The kernel heap: correctness of [malloc]

    Each case of [malloc] that places a block writes the header of the new
    minor, links it between its neighbours and adds to the usage of its major;
    [placed] states that once, and [rep] is shown to survive it.  The loop is
    then proved with an invariant on the position in the list of majors. *)

From stdpp Require Import base numbers list gmap.
From Stdlib Require Import ZArith Lia.
From S2P Require Import Prelude Memory Process Pages Liballoc LiballocInv.

Local Open Scope Z_scope.

#[global] Arguments mwrite : simpl never.
#[global] Arguments le32 : simpl never.
#[global] Arguments rd32 : simpl never.

Lemma rd32_mwrite_eq m a b v : a = b -> 0 <= v < 4294967296 -> rd32 (mwrite m a (le32 v)) b = v.
Proof. intros -> ?. rewrite rd32_mwrite_same. by apply u32_small. Qed.
Lemma rd32_mset_out m a v b : b + 4 <= a \/ a + 1 <= b -> rd32 (mset m a v) b = rd32 m b.
Proof. intros. unfold rd32. rewrite !rd_mset. repeat case_decide; (lia || done). Qed.
Lemma rd_mset_out m a v b : b <> a -> rd (mset m a v) b = rd m b.
Proof. intros. rewrite rd_mset. by case_decide. Qed.

(** Reading through a chain of stores. *)
Ltac reads := repeat first
  [ rewrite rd32_mset_out by lia
  | rewrite rd32_mwrite_eq by lia
  | rewrite rd32_mwrite_out by (rewrite le32_length; lia)
  | rewrite rd_mset_out by lia
  | rewrite rd_mwrite_out by (rewrite le32_length; lia) ].

(** ** The state after a block has been placed *)

(** A byte that [post_allocation] does not write. *)
Definition quiet (proc a : Z) : Prop := proc <> 0 -> ~ log_bytes proc a.

(** The word that links a new minor to what precedes it. *)
Definition link_field (maj prev : Z) : Z := if prev =? 0 then maj + J_first else prev + N_next.

(** The bytes that neither linking nor unlinking [x] writes. *)
Definition untouched (proc maj prev next : Z) (x : mnr) (a : Z) : Prop :=
  ~ n_addr x <= a < n_end x /\
  ~ link_field maj prev <= a < link_field maj prev + 4 /\
  ~ (next <> 0 /\ next + N_prev <= a < next + N_prev + 4) /\
  ~ maj + J_usage <= a < maj + J_usage + 4 /\ quiet proc a.

Record placed (m m' : mem) (proc maj prev next : Z) (x : mnr) : Prop := {
  pl_minor : minor_at m' (n_addr x) prev next maj (n_size x) (n_req x);
  pl_align : align_at m' (n_addr x);
  pl_link : rd32 m' (link_field maj prev) = n_addr x;
  pl_prev : next <> 0 -> rd32 m' (next + N_prev) = n_addr x;
  pl_usage : rd32 m' (maj + J_usage) = rd32 m (maj + J_usage) + (n_size x + 24);
  pl_agree : agree (untouched proc maj prev next x) m m';
}.

Definition with_minors (j : mjr) (l : list mnr) : mjr := Mjr (j_addr j) (j_pages j) l.

Lemma with_minors_same j l : j_minors j = l -> with_minors j l = j.
Proof. intros <-. by destruct j. Qed.

(** The space of [x] is between [l1] and [l2] in the major [j]. *)
Record placing (m m' : mem) (proc : Z) (j : mjr) (l1 l2 : list mnr) (x : mnr) : Prop := {
  pg_wf : major_wf j;
  pg_minors : j_minors j = l1 ++ l2;
  pg_fits : fits (j_addr j + 24) (l1 ++ x :: l2) (j_end j);
  pg_agree : agree (untouched proc (j_addr j) (last_n 0 l1) (hd_n 0 l2) x) m m';
  pg_quiet : forall a, major_byte j a -> quiet proc a;
}.

Section place.
Implicit Types (m : mem) (proc : Z) (j : mjr) (x : mnr).

Lemma place_space m m' proc j l1 l2 x : placing m m' proc j l1 l2 x ->
  0 < (j_addr j) /\ 0 <= n_req x /\ n_req x + 32 <= n_size x /\ (j_addr j) + 24 <= n_addr x /\
  n_end x <= j_end j /\
  (forall y, y ∈ l1 -> (j_addr j) + 24 <= n_addr y /\ n_end y <= n_addr x /\
                       0 <= n_req y /\ n_req y + 32 <= n_size y) /\
  (forall y, y ∈ l2 -> n_end x <= n_addr y /\ n_end y <= j_end j /\
                       0 <= n_req y /\ n_req y + 32 <= n_size y).
Proof.
  intros Hg. pose proof (pg_wf _ _ _ _ _ _ _ Hg) as (? & ? & ? & _).
  pose proof (pg_fits _ _ _ _ _ _ _ Hg) as Hfit'. apply fits_app in Hfit' as [Ha (? & ? & ? & Hb)].
  pose proof (fits_le _ _ _ Ha). pose proof (fits_le _ _ _ Hb).
  split_and!; [lia..| |].
  - intros y Hy. destruct (fits_elem _ _ _ _ Ha Hy) as (? & ? & ? & ?). lia.
  - intros y Hy. destruct (fits_elem _ _ _ _ Hb Hy) as (? & ? & ? & ?). lia.
Qed.

Lemma place_link m m' proc j l1 l2 x : placing m m' proc j l1 l2 x -> (l1 = [] /\ link_field (j_addr j) (last_n 0 l1) = (j_addr j) + J_first) \/
  exists l1' y, l1 = l1' ++ [y] /\ link_field (j_addr j) (last_n 0 l1) = n_addr y + N_next.
Proof.
  intros Hg. destruct l1 as [|y l1' _] using rev_ind; [by left|]. right. exists l1', y.
  split; [done|]. rewrite last_n_snoc. unfold link_field.
  destruct (place_space _ _ _ _ _ _ _ Hg) as (? & _ & _ & _ & _ & Hl & _).
  destruct (Hl y) as [? _]; [apply elem_of_app; right; by left|].
  destruct (n_addr y =? 0) eqn:?; [lia|done].
Qed.

Lemma place_next m m' proc j l1 l2 x : placing m m' proc j l1 l2 x -> l2 = [] \/ exists z l2', l2 = z :: l2' /\ hd_n 0 l2 <> 0.
Proof.
  intros Hg. destruct l2 as [|z l2']; [by left|]. right. exists z, l2'. split; [done|]. simpl.
  destruct (place_space _ _ _ _ _ _ _ Hg) as (? & ? & ? & ? & _ & _ & Hl).
  destruct (Hl z) as [? _]; [left|]. unfold n_end in *. lia.
Qed.

Lemma place_quiet m m' proc j l1 l2 x y a : placing m m' proc j l1 l2 x -> y ∈ l1 ++ l2 -> hdr_byte y a -> quiet proc a.
Proof. intros [Hwf Hj ? ? Hq] ??. apply Hq. eapply hdr_major_byte; [done| |done]. by rewrite Hj. Qed.

Lemma place_first m m' proc j l1 l2 x u v : placing m m' proc j l1 l2 x ->
  rd32 m' (link_field (j_addr j) (last_n 0 l1)) = v ->
  minors_seg m (j_addr j) 0 l1 u -> minors_seg m' (j_addr j) 0 l1 v.
Proof.
  intros Hg Hv Hs. pose proof (pg_fits _ _ _ _ _ _ _ Hg) as Hfit. destruct (place_space _ _ _ _ _ _ _ Hg) as (? & ? & ? & ? & ? & Hb1 & Hb2).
  destruct (place_link _ _ _ _ _ _ _ Hg) as [[-> Hlk]|(l1' & y & -> & Hlk)]; [done|].
  assert (forall a, (exists z, z ∈ l1' ++ [y] /\ hdr_byte z a) ->
    ~ n_addr y + N_next <= a < n_addr y + N_next + 4 ->
    untouched proc (j_addr j) (last_n 0 (l1' ++ [y])) (hd_n 0 l2) x a) as Hout.
  { intros a (z & Hz & Hh) Hn. destruct (Hb1 z Hz) as (? & ? & ? & ?).
    pose proof (hdr_byte_range _ _ ltac:(done) Hh) as [? ?].
    assert (quiet proc a) by (eapply (place_quiet _ _ _ _ _ _ _ _ _ Hg); [apply elem_of_app; by left|done]).
    unfold untouched. rewrite Hlk. split_and!; [lia|done| |offs; lia|done]. intros [Hn0 Ha].
    destruct (place_next _ _ _ _ _ _ _ Hg) as [->|(w & l2' & -> & _)]; [done|]. simpl in Ha.
    destruct (Hb2 w) as [? ?]; [left|]. unfold n_end in *. offs. lia. }
  eapply minors_seg_set_next; [| |exact Hs].
  - eapply agree_mono; [exact (pg_agree _ _ _ _ _ _ _ Hg)|]. intros a Ha. apply Hout.
    + destruct Ha as [(z & ? & ?)|[? _]]; [exists z|exists y];
        (split; [apply elem_of_app|done]); [by left|right; by left].
    + destruct Ha as [(z & Hz & Hh)|[_ ?]]; [|done].
      apply fits_app in Hfit as [Hf _]. apply fits_app in Hf as [Hf1 (? & ? & ? & ?)].
      destruct (fits_elem _ _ _ _ Hf1 Hz) as (? & ? & ? & ?).
      pose proof (hdr_byte_range _ _ ltac:(done) Hh). offs. lia.
  - by rewrite <-Hlk.
Qed.

Lemma place_second m m' proc j l1 l2 x u v : placing m m' proc j l1 l2 x ->
  (hd_n 0 l2 <> 0 -> rd32 m' (hd_n 0 l2 + N_prev) = v) ->
  minors_seg m (j_addr j) u l2 0 -> minors_seg m' (j_addr j) v l2 0.
Proof.
  intros Hg Hv Hs. pose proof (pg_fits _ _ _ _ _ _ _ Hg) as Hfit. destruct (place_space _ _ _ _ _ _ _ Hg) as (? & ? & ? & ? & ? & Hb1 & Hb2).
  destruct (place_next _ _ _ _ _ _ _ Hg) as [->|(w & l2' & -> & Hn0)]; [done|]. simpl in Hn0.
  assert (forall a, (exists z, z ∈ w :: l2' /\ hdr_byte z a) ->
    ~ n_addr w + N_prev <= a < n_addr w + N_prev + 4 ->
    untouched proc (j_addr j) (last_n 0 l1) (n_addr w) x a) as Hout.
  { intros a (z & Hz & Hh) Hn. destruct (Hb2 z Hz) as (? & ? & ? & ?).
    pose proof (hdr_byte_range _ _ ltac:(done) Hh) as [? ?].
    assert (quiet proc a) by (eapply (place_quiet _ _ _ _ _ _ _ _ _ Hg); [apply elem_of_app; by right|done]).
    unfold untouched, n_end in *. split_and!; [lia| |by intros [_ ?]|offs; lia|done]. intros Ha.
    destruct (place_link _ _ _ _ _ _ _ Hg) as [[-> Hlk]|(l1' & y & -> & Hlk)].
    - rewrite Hlk in Ha. offs. lia.
    - destruct (Hb1 y) as (? & ? & ?); [apply elem_of_app; right; by left|]. rewrite Hlk in Ha.
      unfold n_end in *. offs. lia. }
  eapply minors_seg_set_prev; [| |exact Hs].
  - eapply agree_mono; [exact (pg_agree _ _ _ _ _ _ _ Hg)|]. intros a Ha. simpl. apply Hout.
    + destruct Ha as [(z & ? & ?)|[? _]]; [exists z|exists w]; (split; [|done]); [by right|left].
    + destruct Ha as [(z & Hz & Hh)|[_ ?]]; [|done].
      apply fits_app in Hfit as [_ (_ & _ & _ & (? & ? & ? & Hf2))].
      destruct (fits_elem _ _ _ _ Hf2 Hz) as (? & ? & ? & ?).
      pose proof (hdr_byte_range _ _ ltac:(done) Hh). unfold n_end in *. offs. lia.
  - by apply Hv.
Qed.

Lemma place_head m m' proc j l1 l2 x prev nxt u v f g : placing m m' proc j l1 l2 x ->
  rd32 m' (j_addr j + J_usage) = v ->
  rd32 m' (link_field (j_addr j) (last_n 0 l1)) = f ->
  major_at m (j_addr j) prev nxt (j_pages j) u (hd_n g l1) ->
  major_at m' (j_addr j) prev nxt (j_pages j) v (hd_n f l1).
Proof.
  intros Hg Hv Hf (Hp & Hn & Hpg & Hsz & Hu & Hfst).
  destruct (place_space _ _ _ _ _ _ _ Hg) as (? & ? & ? & ? & ? & Hb1 & Hb2).
  assert (forall a, (j_addr j) <= a < (j_addr j) + 24 ->
    ~ link_field (j_addr j) (last_n 0 l1) <= a < link_field (j_addr j) (last_n 0 l1) + 4 ->
    ~ (j_addr j) + J_usage <= a < (j_addr j) + J_usage + 4 ->
    untouched proc (j_addr j) (last_n 0 l1) (hd_n 0 l2) x a) as Hout.
  { intros a ? ? ?. unfold untouched. split_and!; [lia|done| |done|apply (pg_quiet _ _ _ _ _ _ _ Hg), head_major_byte; [exact (pg_wf _ _ _ _ _ _ _ Hg)|done]].
    intros [Hh0 Ha]. destruct (place_next _ _ _ _ _ _ _ Hg) as [->|(w & l2' & -> & ?)]; [done|]. simpl in Ha.
    destruct (Hb2 w) as (? & ? & ?); [left|]. unfold n_end in *. offs. lia. }
  assert (Hlk : link_field (j_addr j) (last_n 0 l1) = (j_addr j) + J_first \/
                (j_addr j) + 24 <= link_field (j_addr j) (last_n 0 l1)).
  { destruct (place_link _ _ _ _ _ _ _ Hg) as [[_ ->]|(l1' & y & -> & ->)]; [by left|right].
    destruct (Hb1 y) as (? & ? & ?); [apply elem_of_app; right; by left|]. offs. lia. }
  pose proof (pg_agree _ _ _ _ _ _ _ Hg) as Ha.
  unfold major_at. split_and!.
  1-4: erewrite (rd32_agree _ _ _ _ Ha); [done|apply Hout; offs; lia..].
  - done.
  - destruct (place_link _ _ _ _ _ _ _ Hg) as [[-> Hl]|(l1' & y & -> & Hl)].
    + simpl. by rewrite <-Hl.
    + destruct (Hb1 y) as (? & ? & ?); [apply elem_of_app; right; by left|].
      assert (hd_n f (l1' ++ [y]) = hd_n g (l1' ++ [y])) as -> by (by destruct l1').
      erewrite (rd32_agree _ _ _ _ Ha); [done|apply Hout; offs; lia..].
Qed.

Lemma hd_n_app d l1 l2 : hd_n d (l1 ++ l2) = hd_n (hd_n d l2) l1.
Proof. by destruct l1. Qed.

(** The block that gets the new minor is well represented afterwards. *)
Lemma place_major m m' proc j l1 l2 x prev nxt : placing m m' proc j l1 l2 x ->
  placed m m' proc (j_addr j) (last_n 0 l1) (hd_n 0 l2) x ->
  major_rep m prev j nxt -> major_rep m' prev (with_minors j (l1 ++ x :: l2)) nxt.
Proof.
  intros Hg [Hx Hal Hlk Hpv Hus _] [Hm Hs].
  pose proof Hm as (_ & _ & _ & _ & Hu & _). rewrite Hu in Hus.
  destruct (place_space _ _ _ _ _ _ _ Hg) as (_ & ? & ? & _).
  rewrite (pg_minors _ _ _ _ _ _ _ Hg) in *. split; simpl.
  - rewrite hd_n_app in *. rewrite usage_app by lia. simpl.
    eapply place_head; [exact Hg|exact Hus|exact Hlk|exact Hm].
  - rewrite minors_seg_app in *. destruct Hs as [Hs1 Hs2]. simpl. split_and!; [|done..|].
    + by eapply place_first.
    + by eapply place_second.
Qed.
End place.

Lemma place_agree m m' proc j l1 l2 x :
  placing m m' proc j l1 l2 x ->
  agree (fun a => ~ major_byte j a /\ quiet proc a) m m'.
Proof.
  intros Hg. destruct (place_space _ _ _ _ _ _ _ Hg) as (Hj0 & ? & ? & ? & ? & Hb1 & Hb2).
  pose proof (pg_wf _ _ _ _ _ _ _ Hg) as Hwf. pose proof (pg_minors _ _ _ _ _ _ _ Hg) as Hm.
  eapply agree_mono; [exact (pg_agree _ _ _ _ _ _ _ Hg)|].
  intros a [Hn Hq]. unfold untouched. split_and!; [|..|done].
  - intros Ha. apply Hn. split; [lia|]. rewrite Hm. intros y Hy Hu. unfold n_end in *.
    apply elem_of_app in Hy as [Hy|Hy].
    + destruct (Hb1 y Hy) as (? & ? & ?). apply user_byte_range in Hu; [|lia]. unfold n_end in *. lia.
    + destruct (Hb2 y Hy) as (? & ? & ?). apply user_byte_range in Hu; [|lia]. unfold n_end in *. lia.
  - intros Ha. apply Hn.
    destruct (place_link _ _ _ _ _ _ _ Hg) as [[_ Hlk]|(l1' & y & -> & Hlk)]; rewrite Hlk in Ha; offs.
    + apply head_major_byte; [done|lia].
    + apply (hdr_major_byte j y); [done| |left; lia].
      rewrite Hm. apply elem_of_app. left. apply elem_of_app. right. left.
  - intros [Hn0 Ha]. apply Hn.
    destruct (place_next _ _ _ _ _ _ _ Hg) as [->|(w & l2' & -> & _)]; [done|]. simpl in Ha. offs.
    apply (hdr_major_byte j w); [done| |left; lia].
    rewrite Hm. apply elem_of_app. right. left.
  - intros Ha. apply Hn, head_major_byte; [done|]. offs. lia.
Qed.

Section rep_lemmas.
Context {A : Type} `{PageProvider A}.
Implicit Types (h : heap A) (L : list mjr).

(** What a call may do to the rest of memory. *)
Record heap_step (h : heap A) (L : list mjr) (h' : heap A) (L' : list mjr) : Prop := {
  hs_agree : agree (fun a => ~ owned h L a /\ quiet (h_proc h) a) (h_mem h) (h_mem h');
  hs_owned : forall a, owned h' L' a -> owned h L a;
  hs_proc : h_proc h' = h_proc h;
  hs_unlocked : h_all_unlocked h' = h_all_unlocked h;
}.

Lemma heap_step_refl h L : heap_step h L h L.
Proof. split; auto using agree_refl. Qed.
Lemma heap_step_trans h L h1 L1 h2 L2 :
  heap_step h L h1 L1 -> heap_step h1 L1 h2 L2 -> heap_step h L h2 L2.
Proof.
  intros [Ha Ho Hp Hu] [Ha' Ho' Hp' Hu']. split; [|by auto|congruence..].
  eapply agree_trans; [exact Ha|]. eapply agree_mono; [exact Ha'|].
  intros a [? ?]. split; [by eauto|]. by rewrite Hp.
Qed.

Lemma rep_quiet h L a : rep h L -> owned h L a -> quiet (h_proc h) a.
Proof. intros Hr Ho Hp0 Hl. destruct (rep_proc _ _ Hr) as [?|[_ Hq]]; [done|]. by eapply Hq. Qed.

Lemma major_owned h L j a : j ∈ L -> major_byte j a -> owned h L a.
Proof. left. by exists j. Qed.

(** The whole heap survives changes outside the bytes it owns. *)
Lemma rep_agree h h' L :
  rep h L -> agree (owned h L) (h_mem h) (h_mem h') ->
  h_arch h' = h_arch h -> l_memRoot h' = l_memRoot h ->
  (l_bestBet h' = 0 \/ exists j, j ∈ L /\ l_bestBet h' = j_addr j) ->
  l_allocated h' = l_allocated h -> l_inuse h' = l_inuse h -> h_proc h' = h_proc h ->
  rep h' L /\ (forall a, owned h' L a <-> owned h L a).
Proof.
  intros Hr Ha Harch Hroot Hbet Hall Hin Hp.
  assert (agree (reserved (h_mem h) (h_arch h)) (h_mem h) (h_mem h')) as Hres.
  { eapply agree_mono; [exact Ha|]. by right. }
  destruct (pages_frame _ _ _ (rep_pages _ _ Hr) Hres) as (Hok & Hre & _).
  assert (Ho : forall a, owned h' L a <-> owned h L a).
  { intros a. unfold owned. rewrite Harch, Hre. done. }
  split; [|done]. destruct Hr as [Hseg Hwf Hap Hrt _ Hmap Hpg Hsep Hpr Hal Hiu]. split.
  - eapply majors_seg_agree; [done| |exact Hseg]. eapply agree_mono; [exact Ha|]. by left.
  - done.
  - done.
  - by rewrite Hroot.
  - done.
  - intros j Hj. eapply agree_mapped_range; [exact Ha|]. auto.
  - by rewrite Harch.
  - intros j a Hj Hb. rewrite Harch, Hre. eauto.
  - rewrite Hp. destruct Hpr as [?|[[? Hpm] Hq]]; [by left|right]. split.
    + split; [done|]. eapply agree_mapped_range; [exact Ha|done].
    + intros a Hl. rewrite Ho. by apply Hq.
  - congruence.
  - congruence.
Qed.

Lemma mid_heap_byte L1 j L2 a :
  heap_byte (L1 ++ j :: L2) a <-> heap_byte L1 a \/ major_byte j a \/ heap_byte L2 a.
Proof.
  unfold heap_byte. setoid_rewrite elem_of_app. setoid_rewrite elem_of_cons.
  split; [naive_solver|]. intros [(j' & ? & ?)|[?|(j' & ? & ?)]]; [exists j'|exists j|exists j']; auto.
Qed.

(** The blocks beside [j] do not see its bytes. *)
Lemma apart_mid L1 j L2 a :
  apart (L1 ++ j :: L2) -> heap_byte L1 a \/ heap_byte L2 a -> ~ j_addr j <= a < j_end j.
Proof.
  rewrite apart_app. simpl. intros (_ & [Hf _] & Hx) Hb Ha. rewrite Forall_forall in Hf.
  destruct Hb as [(j' & Hj & Hb & _)|(j' & Hj & Hb & _)].
  - destruct (Hx j' j Hj ltac:(left)); lia.
  - destruct (Hf j' Hj); lia.
Qed.

Lemma usages_mid L1 j l1 x l2 L2 :
  j_minors j = l1 ++ l2 -> 0 <= n_size x ->
  Z.of_nat (usages (L1 ++ with_minors j (l1 ++ x :: l2) :: L2)) =
  Z.of_nat (usages (L1 ++ j :: L2)) + n_size x.
Proof.
  intros Hj Hx. unfold usages. rewrite !sum_list_with_app. simpl. rewrite Hj.
  rewrite !sum_list_with_app. simpl. lia.
Qed.

Lemma u64_add a b : u64 (u64 a + b) = u64 (a + b).
Proof. unfold u64. apply Zplus_mod_idemp_l. Qed.

Lemma elem_of_mid {B} (l1 l2 : list B) (b c : B) : c ∈ l1 ++ b :: l2 <-> c ∈ l1 \/ c = b \/ c ∈ l2.
Proof. by rewrite elem_of_app, elem_of_cons. Qed.

(** One block changes: its minors, and bytes of memory that are its own. *)
Lemma rep_update h h' L1 j l L2 :
  let j' := with_minors j l in
  rep h (L1 ++ j :: L2) -> major_wf j' ->
  agree (fun a => ~ major_byte j a /\ quiet (h_proc h) a) (h_mem h) (h_mem h') ->
  major_rep (h_mem h') (last_j 0 L1) j' (hd_j 0 L2) ->
  (forall a, major_byte j' a -> quiet (h_proc h) a) ->
  h_arch h' = h_arch h -> l_memRoot h' = l_memRoot h -> l_bestBet h' = l_bestBet h ->
  l_allocated h' = l_allocated h -> l_inuse h' = u64 (Z.of_nat (usages (L1 ++ j' :: L2))) ->
  h_proc h' = h_proc h ->
  rep h' (L1 ++ j' :: L2) /\
  (forall a, owned h' (L1 ++ j' :: L2) a ->
     heap_byte L1 a \/ major_byte j' a \/ heap_byte L2 a \/ reserved (h_mem h) (h_arch h) a).
Proof.
  set (L := L1 ++ j :: L2). intros j' Hr Hwf' Ha Hrep Hq Harch Hroot Hbet Hall Hin Hp.
  assert (Hjin : j ∈ L) by (apply elem_of_mid; auto).
  assert (Hres : agree (reserved (h_mem h) (h_arch h)) (h_mem h) (h_mem h')).
  { eapply agree_mono; [exact Ha|]. intros a Hre. split.
    - intros [Hb _]. by eapply (rep_sep _ _ Hr).
    - eapply rep_quiet; [done|]. by right. }
  destruct (pages_frame _ _ _ (rep_pages _ _ Hr) Hres) as (Hok & Hre & _).
  assert (Ho : forall a, owned h' (L1 ++ j' :: L2) a ->
    heap_byte L1 a \/ major_byte j' a \/ heap_byte L2 a \/ reserved (h_mem h) (h_arch h) a).
  { intros a. unfold owned. rewrite Harch, Hre, mid_heap_byte. tauto. }
  split; [|done].
  assert (Hout : forall a, heap_byte L1 a \/ heap_byte L2 a -> ~ major_byte j a /\ quiet (h_proc h) a).
  { intros a Hb. split.
    - intros [Hb' _]. by eapply apart_mid; [exact (rep_apart _ _ Hr)|exact Hb|].
    - eapply rep_quiet; [done|]. left. apply mid_heap_byte. tauto. }
  pose proof Hr as [Hseg Hw Hap Hrt Hbt Hmap Hpg Hsep Hpr Hal Hiu].
  unfold L in Hseg, Hw. rewrite majors_seg_mid in Hseg. destruct Hseg as (Hs1 & Hs & Hs2).
  apply Forall_app in Hw as [Hw1 [Hwj Hw2]%Forall_cons].
  split.
  - rewrite majors_seg_mid. split_and!; [|done|].
    + eapply majors_seg_agree; [done| |exact Hs1]. eapply agree_mono; [exact Ha|]. intros; apply Hout; tauto.
    + eapply majors_seg_agree; [done| |exact Hs2]. eapply agree_mono; [exact Ha|]. intros; apply Hout; tauto.
  - apply Forall_app. split; [done|]. by apply Forall_cons.
  - revert Hap. unfold L. rewrite !apart_app. simpl. setoid_rewrite elem_of_cons.
    intros (? & [Hf ?] & Hx). split_and!; [done|done|done|].
    intros k k' Hk [->|Hk']; [|auto]. exact (Hx k j Hk (or_introl eq_refl)).
  - rewrite Hroot, Hrt. unfold L. by destruct L1.
  - rewrite Hbet. destruct Hbt as [?|(k & Hk & Heq)]; [by left|right]. setoid_rewrite elem_of_mid.
    apply elem_of_mid in Hk as [?|[->|?]]; [exists k|exists j'|exists k]; tauto.
  - intros k Hk. eapply agree_mapped_range; [exact Ha|].
    apply elem_of_mid in Hk as [?|[->|?]]; [|apply (Hmap j Hjin)|]; apply Hmap, elem_of_mid; tauto.
  - by rewrite Harch.
  - intros k a Hk. rewrite Harch, Hre.
    apply elem_of_mid in Hk as [?|[->|?]]; [|apply (Hsep j a Hjin)|]; apply Hsep, elem_of_mid; tauto.
  - rewrite Hp. destruct Hpr as [?|[[? Hpm] Hpq]]; [by left|right]. split.
    + split; [done|]. eapply agree_mapped_range; [exact Ha|done].
    + intros a Hl Hoa. destruct (Ho a Hoa) as [Hb|[Hb|Hb]].
      * apply (Hpq a Hl). left. apply mid_heap_byte. tauto.
      * apply (Hq a Hb); [lia|done].
      * apply (Hpq a Hl). destruct Hb; [left; apply mid_heap_byte; tauto|by right].
  - rewrite Hall, Hal. unfold L. by rewrite !sum_list_with_app.
  - done.
Qed.

Lemma rep_place h h' L1 j l1 l2 L2 x :
  rep h (L1 ++ j :: L2) ->
  placing (h_mem h) (h_mem h') (h_proc h) j l1 l2 x ->
  placed (h_mem h) (h_mem h') (h_proc h) (j_addr j) (last_n 0 l1) (hd_n 0 l2) x ->
  h_arch h' = h_arch h -> l_memRoot h' = l_memRoot h -> l_bestBet h' = l_bestBet h ->
  l_allocated h' = l_allocated h -> l_inuse h' = u64 (l_inuse h + n_size x) ->
  h_proc h' = h_proc h -> h_all_unlocked h' = h_all_unlocked h ->
  rep h' (L1 ++ with_minors j (l1 ++ x :: l2) :: L2) /\
  heap_step h (L1 ++ j :: L2) h' (L1 ++ with_minors j (l1 ++ x :: l2) :: L2) /\
  (forall a, user_byte x a -> owned h (L1 ++ j :: L2) a).
Proof.
  set (j' := with_minors j (l1 ++ x :: l2)). intros Hr Hg Hpl Harch Hroot Hbet Hall Hin Hp Hau.
  pose proof (place_agree _ _ _ _ _ _ _ Hg) as Ha.
  destruct (place_space _ _ _ _ _ _ _ Hg) as (Hj0 & ? & ? & ? & ? & Hb1 & Hb2).
  pose proof (pg_minors _ _ _ _ _ _ _ Hg) as Hm. pose proof (pg_quiet _ _ _ _ _ _ _ Hg) as Hq.
  pose proof (pg_wf _ _ _ _ _ _ _ Hg) as Hwf.
  assert (Hsub : forall a, major_byte j' a -> major_byte j a).
  { intros a [? Hb]. split; [done|]. rewrite Hm. intros y Hy. apply Hb. simpl.
    apply elem_of_app in Hy. apply elem_of_mid. tauto. }
  destruct (rep_update h h' L1 j (l1 ++ x :: l2) L2) as [Hr' Ho]; try done.
  - destruct Hwf as (? & ? & ? & _). split_and!; [done..|]. exact (pg_fits _ _ _ _ _ _ _ Hg).
  - eapply place_major; [done..|]. pose proof (rep_seg _ _ Hr) as Hs.
    rewrite majors_seg_mid in Hs. apply Hs.
  - intros a Hb. by apply Hq, Hsub.
  - rewrite Hin, (rep_inuse _ _ Hr), u64_add. f_equal. symmetry. apply usages_mid; [done|lia].
  - split; [done|]. split.
    + split; [|intros a Hoa|done..].
      * eapply agree_mono; [exact Ha|]. intros a [Hno ?]. split; [|done].
        intros Hb. apply Hno. left. apply mid_heap_byte. auto.
      * unfold owned. rewrite mid_heap_byte. destruct (Ho a Hoa) as [?|[?|[?|?]]]; auto.
    + intros a Hu. left. apply mid_heap_byte. right. left. apply user_byte_range in Hu; [|lia].
      split; [lia|]. rewrite Hm. intros y Hy Hu'. unfold n_end in *.
      apply elem_of_app in Hy as [Hy|Hy].
      * destruct (Hb1 y Hy) as (? & ? & ?). apply user_byte_range in Hu'; [|lia]. unfold n_end in *. lia.
      * destruct (Hb2 y Hy) as (? & ? & ?). apply user_byte_range in Hu'; [|lia]. unfold n_end in *. lia.
Qed.
End rep_lemmas.

(** ** The four ways of placing a block *)

Lemma placed_tail m m1 m2 proc maj prev next x :
  placed m m1 proc maj prev next x ->
  agree (fun b => ~ user_byte x b /\ quiet proc b) m1 m2 ->
  0 <= n_req x -> n_req x + 32 <= n_size x ->
  (forall b, hdr_byte x b \/ link_field maj prev <= b < link_field maj prev + 4 \/
     (next <> 0 /\ next + N_prev <= b < next + N_prev + 4) \/
     maj + J_usage <= b < maj + J_usage + 4 -> ~ user_byte x b /\ quiet proc b) ->
  placed m m2 proc maj prev next x.
Proof.
  intros [(?&?&?&?&?&?) Hal Hlk Hpv Hus Hag] Ha Hreq Hsz Hside. pose proof (uptr_range (n_addr x)).
  split.
  - unfold minor_at. offs. split_and!;
      (erewrite (rd32_agree _ _ _ _ Ha); [done|apply Hside; left; unfold hdr_byte; lia..]).
  - eapply align_at_agree; [|done]. eapply agree_mono; [exact Ha|]. intros b ->. apply Hside.
    left. by right.
  - rewrite <-Hlk. apply (rd32_agree _ _ _ _ Ha); apply Hside; lia.
  - intros Hn. rewrite <-(Hpv Hn). apply (rd32_agree _ _ _ _ Ha); apply Hside; lia.
  - rewrite <-Hus. apply (rd32_agree _ _ _ _ Ha); apply Hside; lia.
  - eapply agree_trans; [exact Hag|]. eapply agree_mono; [exact Ha|].
    intros b (Hx & ? & ? & ? & ?). split; [|done]. intros Hu. apply Hx.
    apply user_byte_range in Hu; [|done]. lia.
Qed.

Section exec.
Context {A : Type} `{PageProvider A}.
Implicit Types (h : heap A).

Lemma add_inuse_mem v m h : add_inuse v (set_mem m h) = set_mem m (add_inuse v h).
Proof. done. Qed.
Lemma set_locked_mem v m h : set_locked v (set_mem m h) = set_mem m (set_locked v h).
Proof. done. Qed.
Lemma set_bestBet_mem v m h : set_bestBet v (set_mem m h) = set_mem m (set_bestBet v h).
Proof. done. Qed.

Lemma wp_add_usage maj n Q h :
  mapped_range (get_mem h) (maj + J_usage) 4 ->
  Q tt (set_mem (mwrite (get_mem h) (maj + J_usage)
          (le32 (u32 (rd32 (get_mem h) (maj + J_usage) + n)))) h) ->
  wp (add_usage maj n) Q h.
Proof. intros. unfold add_usage. apply wp_bind, wp_ld32; [done|]. by apply wp_st32. Qed.

Lemma land_15 z : Z.land z 15 = z mod 16.
Proof. apply (Z.land_ones z 4). lia. Qed.

Lemma wp_ALIGN a Q h :
  0 <= a -> a + 56 <= 4294967296 -> mapped (get_mem h) (uptr a - 16) = true ->
  Q (uptr a) (set_mem (mset (get_mem h) (uptr a - 16) (uptr a - (a + 24))) h) ->
  wp (ALIGN (a + 24)) Q h.
Proof.
  intros Ha Hhi Hm HQ. unfold ALIGN, ALIGN_INFO, ALIGNMENT. rewrite land_15.
  rewrite (u32_small (a + 24 + 16)) by lia.
  pose proof (uptr_range a) as Hur. unfold uptr in *.
  set (pad := (- (a + 40)) mod 16) in *.
  assert (Hpad : (if negb ((a + 24 + 16) mod 16 =? 0)
     then (16 - (a + 24 + 16) mod 16, u32 (a + 24 + 16 + (16 - (a + 24 + 16) mod 16)))
     else ((a + 24 + 16) mod 16, a + 24 + 16)) = (pad, a + 40 + pad)).
  { replace (a + 24 + 16) with (a + 40) by lia. unfold pad.
    destruct (negb ((a + 40) mod 16 =? 0)) eqn:E.
    - rewrite u32_small by (Z.div_mod_to_equations; lia). f_equal; Z.div_mod_to_equations; lia.
    - f_equal; Z.div_mod_to_equations; lia. }
  change (Z.sub 16 1) with 15 in *. rewrite Hpad. apply wp_bind, wp_st8; [lia|done|].
  apply wp_ret. replace (pad + 16) with (a + 40 + pad - (a + 24)) by lia. exact HQ.
Qed.

(** Logging and clearing touch the user's bytes and the log only. *)
Lemma wp_log_and_clear x Q h :
  0 < n_addr x -> 0 <= n_req x < 2147483648 ->
  (h_proc h = 0 \/ process_mapped (get_mem h) (h_proc h)) ->
  mapped_range (get_mem h) (uptr (n_addr x)) (n_req x) ->
  (forall m, agree (fun b => ~ user_byte x b /\ quiet (h_proc h) b) (get_mem h) m ->
     (forall b, user_byte x b -> rd m b = 0) -> Q tt (set_mem m h)) ->
  wp (log_and_clear (uptr (n_addr x)) (n_req x)) Q h.
Proof.
  intros Ha Hreq Hp Hm HQ. unfold log_and_clear. apply wp_bind, wp_gets.
  apply wp_bind, wp_post_allocation; [done|]. set (p := uptr (n_addr x)) in *.
  apply wp_bind. rewrite s32_small by lia. apply wp_memset; [lia| |].
  { lens. by rewrite mapped_range_logged. }
  apply wp_ret. lens. apply HQ.
  - split; [rewrite ranges_mwrite; unfold logged; repeat case_match; by rewrite ?ranges_mwrite|].
    intros b [Hu Hq]. unfold user_byte in Hu. rewrite rd_mwrite_out.
    + destruct (decide (h_proc h = 0)) as [E|E]; [by rewrite E|]. apply rd_logged. by apply Hq.
    + rewrite length_replicate, Z2Nat.id by lia. unfold p. lia.
  - intros b Hu. unfold user_byte in Hu. fold p in Hu.
    apply (rd_mwrite_in _ _ _ _ 0); [|lia]. apply lookup_replicate. split; [done|lia].
Qed.
End exec.

(** The place found for a new minor: after [prev], before [next] (0 at the ends). *)
Record site (m : mem) (proc maj prev next : Z) (x : mnr) : Prop := {
  st_maj : 0 < maj;
  st_lo : maj + 24 <= n_addr x;
  st_hi : n_end x <= 4294967296;
  st_req : 0 <= n_req x < 2147483648;
  st_size : n_req x + 32 <= n_size x;
  st_map : mapped_range m (n_addr x) (24 + n_size x);
  st_map_maj : mapped_range m maj 24;
  st_prev : prev = 0 \/ maj + 24 <= prev /\ prev + 24 <= n_addr x /\ mapped_range m prev 24;
  st_next : next = 0 \/ n_end x <= next /\ next + 24 <= 4294967296 /\ mapped_range m next 24;
  st_quiet : forall b, hdr_byte x b \/ link_field maj prev <= b < link_field maj prev + 4 \/
     (next <> 0 /\ next + N_prev <= b < next + N_prev + 4) \/
     maj + J_usage <= b < maj + J_usage + 4 -> quiet proc b;
  st_proc : proc = 0 \/ process_mapped m proc;
  st_usage : 0 <= rd32 m (maj + J_usage) + (n_size x + 24) < 4294967296;
}.

Lemma site_side m proc maj prev next x :
  site m proc maj prev next x ->
  forall b, hdr_byte x b \/ link_field maj prev <= b < link_field maj prev + 4 \/
     (next <> 0 /\ next + N_prev <= b < next + N_prev + 4) \/
     maj + J_usage <= b < maj + J_usage + 4 -> ~ user_byte x b /\ quiet proc b.
Proof.
  intros [] b Hb. split; [|by eauto]. intros Hu. pose proof (uptr_range (n_addr x)).
  pose proof (user_byte_range _ _ (conj (proj1 st_req0) st_size0) Hu). unfold user_byte in Hu.
  unfold hdr_byte, link_field in Hb. offs. destruct (prev =? 0) eqn:?; lia.
Qed.

Section cases.
Context {A : Type} `{PageProvider A}.
Implicit Types (h : heap A).

Definition after_place h (x : mnr) h' : Prop :=
  h_arch h' = h_arch h /\ l_memRoot h' = l_memRoot h /\ l_bestBet h' = l_bestBet h /\
  l_allocated h' = l_allocated h /\ l_inuse h' = u64 (l_inuse h + n_size x) /\
  h_proc h' = h_proc h /\ h_all_unlocked h' = h_all_unlocked h /\ h_locked h' = 0.

(** One store of the code: its address is in a mapped header. *)
Local Ltac mapped_side := offs; lens; rewrite ?mapped_range_mwrite, ?mapped_range_mset;
  match goal with
  | Hm : mapped_range ?m ?a _ |- mapped_range ?m _ _ => eapply mapped_range_sub; [exact Hm|lia|lia]
  end.
Local Ltac store := apply wp_bind, wp_st32; [mapped_side|]; lens.
Local Ltac site_facts Hs :=
  pose proof (site_side _ _ _ _ _ _ Hs) as Hside;
  destruct Hs as [Hmaj Hlo Hhi Hreq Hsz Hmap Hmapj Hpv Hnx Hquiet Hproc Hus];
  offs; unfold n_end in Hhi, Hnx; cbn [n_addr n_size n_req] in *.

(** The memory after the stores of a case, up to [ALIGN], is [placed]. *)
Local Ltac prove_placed Hlk :=
  unfold LIBALLOC_MAGIC; change (h_mem ?h) with (get_mem h);
  split; [unfold minor_at | unfold align_at | ..];
  rewrite ?Hlk; offs; unfold n_end; cbn [n_addr n_size n_req] in *;
  [ split_and!; reads; (reflexivity || lia)
  | rewrite rd_mset; case_decide; [apply u8_small; lia|done]
  | reads; lia
  | intros; reads; lia
  | reads; lia
  | split; [rewrite ?ranges_mwrite; unfold mset; cbn [m_ranges]; rewrite !ranges_mwrite; done|];
    unfold untouched, n_end; cbn [n_addr n_size n_req]; rewrite ?Hlk; offs;
    intros b (? & ? & ? & ? & ?); reads; done ].

(** The end of a case: the stores have placed [x]; the user's bytes are
    cleared and the lock is released, in either order, or neither cleared. *)
Lemma wp_unlock_after h x m1 p (Q : flow -> heap A -> Prop) :
  (forall h', h_mem h' = m1 -> after_place h x h' -> Q (Return p) h') ->
  wp (liballoc_unlock ;! ret (Return p)) Q (set_mem m1 (add_inuse (n_size x) h)).
Proof. intros HQ. apply wp_bind, wp_modify, wp_ret, HQ; [done|]. by split_and!. Qed.

Lemma wp_finish h maj prev next x m1 (Q : flow -> heap A -> Prop) :
  site (h_mem h) (h_proc h) maj prev next x ->
  placed (h_mem h) m1 (h_proc h) maj prev next x ->
  (forall h', placed (h_mem h) (h_mem h') (h_proc h) maj prev next x ->
     after_place h x h' -> (forall b, user_byte x b -> rd (h_mem h') b = 0) ->
     Q (Return (uptr (n_addr x))) h') ->
  wp (log_and_clear (uptr (n_addr x)) (n_req x) ;!
      liballoc_unlock ;! ret (Return (uptr (n_addr x)))) Q (set_mem m1 (add_inuse (n_size x) h)) /\
  wp (liballoc_unlock ;!
      log_and_clear (uptr (n_addr x)) (n_req x) ;! ret (Return (uptr (n_addr x)))) Q
     (set_mem m1 (add_inuse (n_size x) h)).
Proof.
  intros Hs Hpl HQ. pose proof (site_side _ _ _ _ _ _ Hs) as Hside.
  pose proof (pl_agree _ _ _ _ _ _ _ Hpl) as Hag.
  destruct Hs as [Hmaj Hlo Hhi Hreq Hsz Hmap Hmapj Hpv Hnx Hquiet Hproc Hus].
  pose proof (uptr_range (n_addr x)).
  assert (Hm1 : mapped_range m1 (uptr (n_addr x)) (n_req x)).
  { eapply agree_mapped_range; [exact Hag|]. eapply mapped_range_sub; [exact Hmap|lia|lia]. }
  assert (Hp1 : h_proc h = 0 \/ process_mapped m1 (h_proc h)).
  { destruct Hproc as [?|[? ?]]; [by left|right]. split; [done|]. by eapply agree_mapped_range. }
  assert (Hok : forall m, agree (fun b => ~ user_byte x b /\ quiet (h_proc h) b) m1 m ->
    placed (h_mem h) m (h_proc h) maj prev next x).
  { intros m Ha. eapply placed_tail; [done|done|lia|lia|exact Hside]. }
  split.
  - apply wp_bind, wp_log_and_clear; [lia|lia|done|done|]. intros m Ha Hz. rewrite set_set_mem.
    apply wp_unlock_after. intros h' Hm Hh. apply HQ; [rewrite Hm; by apply Hok|done|by rewrite Hm].
  - apply wp_bind, wp_modify. rewrite set_locked_mem.
    apply wp_bind, wp_log_and_clear; [lia|lia|done|done|]. intros m Ha Hz. rewrite set_set_mem.
    apply wp_ret, HQ; [by apply Hok|by split_and!|done].
Qed.

Lemma wp_malloc_case2 h maj size req (Q : flow -> heap A -> Prop) :
  site (h_mem h) (h_proc h) maj 0 0 (Mnr (maj + 24) size req) ->
  (forall h', placed (h_mem h) (h_mem h') (h_proc h) maj 0 0 (Mnr (maj + 24) size req) ->
     after_place h (Mnr (maj + 24) size req) h' ->
     (forall b, user_byte (Mnr (maj + 24) size req) b -> rd (h_mem h') b = 0) ->
     Q (Return (uptr (maj + 24))) h') ->
  wp (malloc_case2 req size maj) Q h.
Proof.
  intros Hs HQ. pose proof Hs as Hs'. site_facts Hs'. pose proof (uptr_range (maj + 24)).
  assert (Hlk : link_field maj 0 = maj + 20) by done.
  unfold malloc_case2. offs.
  rewrite (u32_small (maj + 24)) by lia.
  change (h_mem h) with (get_mem h) in *.
  do 7 store.
  apply wp_bind, wp_add_usage; [mapped_side|]. offs. lens. reads. rewrite u32_small by lia.
  apply wp_bind, wp_modify. rewrite add_inuse_mem.
  apply wp_bind, wp_ALIGN; [lia|lia|lens; rewrite !mapped_mwrite; apply Hmap; lia|]. lens.
  apply (wp_finish h maj 0 0 (Mnr (maj + 24) size req)); [done| |done].
  prove_placed Hlk.
Qed.

Lemma wp_malloc_case3 h maj size req first (Q : flow -> heap A -> Prop) :
  site (h_mem h) (h_proc h) maj 0 first (Mnr (maj + 24) size req) -> first <> 0 ->
  (forall h', placed (h_mem h) (h_mem h') (h_proc h) maj 0 first (Mnr (maj + 24) size req) ->
     after_place h (Mnr (maj + 24) size req) h' ->
     (forall b, user_byte (Mnr (maj + 24) size req) b -> rd (h_mem h') b = 0) ->
     Q (Return (uptr (maj + 24))) h') ->
  wp (malloc_case3 req size maj first) Q h.
Proof.
  intros Hs Hn0 HQ. pose proof Hs as Hs'. site_facts Hs'. pose proof (uptr_range (maj + 24)).
  assert (Hlk : link_field maj 0 = maj + 20) by done.
  destruct Hnx as [?|(? & ? & Hmapn)]; [done|].
  unfold malloc_case3. offs.
  rewrite (u32_small (maj + 24)) by lia.
  change (h_mem h) with (get_mem h) in *.
  do 8 store.
  apply wp_bind, wp_add_usage; [mapped_side|]. offs. lens. reads. rewrite u32_small by lia.
  apply wp_bind, wp_modify. rewrite add_inuse_mem.
  apply wp_bind, wp_ALIGN; [lia|lia|lens; rewrite !mapped_mwrite; apply Hmap; lia|]. lens.
  apply (wp_finish h maj 0 first (Mnr (maj + 24) size req)); [done| |done].
  prove_placed Hlk.
Qed.

Lemma wp_malloc_case41 h maj size req min msize (Q : flow -> heap A -> Prop) :
  site (h_mem h) (h_proc h) maj min 0 (Mnr (min + 24 + msize) size req) -> min <> 0 ->
  (forall h', placed (h_mem h) (h_mem h') (h_proc h) maj min 0 (Mnr (min + 24 + msize) size req) ->
     after_place h (Mnr (min + 24 + msize) size req) h' ->
     Q (Return (uptr (min + 24 + msize))) h') ->
  wp (malloc_case41 req size maj min msize) Q h.
Proof.
  intros Hs Hn0 HQ. pose proof Hs as Hs'. site_facts Hs'. pose proof (uptr_range (min + 24 + msize)).
  assert (Hlk : link_field maj min = min + 4) by (unfold link_field; by destruct (min =? 0) eqn:?; [lia|]).
  destruct Hpv as [?|(? & ? & Hmapp)]; [done|].
  unfold malloc_case41. offs.
  rewrite (u32_small (min + 24 + msize)) by lia.
  change (h_mem h) with (get_mem h) in *.
  do 7 store.
  apply wp_bind, wp_add_usage; [mapped_side|]. offs. lens. reads. rewrite u32_small by lia.
  apply wp_bind, wp_modify. rewrite add_inuse_mem.
  apply wp_bind, wp_ALIGN; [lia|lia|lens; rewrite !mapped_mwrite; apply Hmap; lia|]. lens.
  apply (wp_unlock_after h (Mnr (min + 24 + msize) size req)). intros h' Hm Hh. apply HQ; [|done].
  rewrite Hm. prove_placed Hlk.
Qed.

Lemma wp_malloc_case42 h maj size req min msize next (Q : flow -> heap A -> Prop) :
  site (h_mem h) (h_proc h) maj min next (Mnr (min + 24 + msize) size req) -> min <> 0 -> next <> 0 ->
  (forall h', placed (h_mem h) (h_mem h') (h_proc h) maj min next (Mnr (min + 24 + msize) size req) ->
     after_place h (Mnr (min + 24 + msize) size req) h' ->
     (forall b, user_byte (Mnr (min + 24 + msize) size req) b -> rd (h_mem h') b = 0) ->
     Q (Return (uptr (min + 24 + msize))) h') ->
  wp (malloc_case42 req size maj min msize next) Q h.
Proof.
  intros Hs Hn0 Hn1 HQ. pose proof Hs as Hs'. site_facts Hs'. pose proof (uptr_range (min + 24 + msize)).
  assert (Hlk : link_field maj min = min + 4) by (unfold link_field; by destruct (min =? 0) eqn:?; [lia|]).
  destruct Hpv as [?|(? & ? & Hmapp)]; [done|]. destruct Hnx as [?|(? & ? & Hmapn)]; [done|].
  unfold malloc_case42. offs.
  rewrite (u32_small (min + 24 + msize)) by lia.
  change (h_mem h) with (get_mem h) in *.
  do 8 store.
  apply wp_bind, wp_add_usage; [mapped_side|]. offs. lens. reads. rewrite u32_small by lia.
  apply wp_bind, wp_modify. rewrite add_inuse_mem.
  apply wp_bind, wp_ALIGN; [lia|lia|lens; rewrite !mapped_mwrite; apply Hmap; lia|]. lens.
  apply (wp_finish h maj min next (Mnr (min + 24 + msize) size req)); [done| |done].
  prove_placed Hlk.
Qed.
End cases.

(** ** A new major block *)

(** The memory and the page provider after [allocate_new_page] returned the
    block [j], which is not linked to the others yet. *)
Record fresh_major {A} `{PageProvider A} (h : heap A) (L : list mjr) (j : mjr) (m : mem) (a : A) : Prop := {
  fm_minors : j_minors j = [];
  fm_wf : major_wf j;
  fm_rep : major_rep m 0 j 0;
  fm_mapped : mapped_range m (j_addr j) (j_len j);
  fm_from : forall x, j_addr j <= x < j_end j -> reserved (h_mem h) (h_arch h) x;
  fm_out : forall x, j_addr j <= x < j_end j -> ~ reserved m a x;
  fm_res : forall x, reserved m a x -> reserved (h_mem h) (h_arch h) x;
  fm_ok : pages_ok m a;
  fm_agree : agree (fun x => ~ reserved (h_mem h) (h_arch h) x) (h_mem h) m;
}.

Definition new_pages (size : Z) : Z :=
  Z.max 16 ((size + 48) / 4096 + (if (size + 48) mod 4096 =? 0 then 0 else 1)).

Section new_major.
Context {A : Type} `{PageProvider A}.
Implicit Types (h : heap A).

Lemma new_pages_enough size : 0 <= size -> size + 48 <= new_pages size * 4096.
Proof.
  intros. unfold new_pages. destruct (_ =? 0) eqn:E; Z.div_mod_to_equations; lia.
Qed.

(** The number of pages as the code computes it. *)
Lemma new_pages_code size :
  0 <= size < 2147483680 ->
  let st := if (size + 48) mod 4096 =? 0 then (size + 48) / 4096 else (size + 48) / 4096 + 1 in
  (if st <? 16 then 16 else st) = new_pages size /\
  16 <= new_pages size < 1048576 /\ size + 48 <= new_pages size * 4096.
Proof.
  intros Hs st. pose proof (new_pages_enough size ltac:(lia)). subst st. unfold new_pages in *.
  destruct (_ =? 0) eqn:E; destruct (_ <? 16) eqn:E'; Z.div_mod_to_equations; lia.
Qed.

(** The pages that the provider gave make a block once the header is written. *)
Lemma fresh_intro h (L : list mjr) p n m' a m :
  0 < p -> 16 <= n < 1048576 -> mapped_range m' p (n * 4096) -> pages_ok m' a ->
  (forall x, p <= x < p + n * 4096 -> reserved (h_mem h) (h_arch h) x) ->
  (forall x, reserved m' a x -> reserved (h_mem h) (h_arch h) x /\ ~ p <= x < p + n * 4096) ->
  agree (fun x => ~ reserved (h_mem h) (h_arch h) x) (h_mem h) m' ->
  agree (fun x => ~ p <= x < p + 24) m' m -> major_at m p 0 0 n (usage_of []) 0 ->
  fresh_major h L (Mjr p n []) m a.
Proof.
  intros Hp Hn Hmap Hok Hfrom Hres Hag Hagm Hat. pose proof Hmap as (? & ? & _).
  assert (Hres' : agree (reserved m' a) m' m).
  { eapply agree_mono; [exact Hagm|]. intros x Hx Hb. apply Hres in Hx as [_ Hx]. lia. }
  destruct (pages_frame _ _ _ Hok Hres') as (Hok2 & Hre & _).
  split; simpl; unfold j_end, j_len; simpl.
  - done.
  - unfold major_wf, j_end, j_len. simpl. lia.
  - by split.
  - eapply agree_mapped_range; [exact Hagm|done].
  - done.
  - intros x Hx. rewrite Hre. intros Hx'. apply Hres in Hx' as [_ ?]. done.
  - intros x. rewrite Hre. apply Hres.
  - done.
  - eapply agree_trans; [exact Hag|]. eapply agree_mono; [exact Hagm|].
    intros x Hx Hb. apply Hx, Hfrom. lia.
Qed.

Ltac header_side := lens; rewrite ?mapped_range_mwrite;
  match goal with
  | Hm : mapped_range ?m ?a _ |- mapped_range ?m _ _ => eapply mapped_range_sub; [exact Hm|lia|lia]
  end.

Lemma wp_allocate_new_page h L size (Q : Z -> heap A -> Prop) :
  rep h L -> 0 <= size < 2147483680 ->
  pages_room (h_mem h) (h_arch h) (new_pages size) ->
  (may_fail -> Q 0 (add_counts 1 0 0 h)) ->
  (forall j m a, fresh_major h L j m a -> size + 48 <= j_len j ->
     Q (j_addr j) (add_allocated (j_len j) (set_pages (m, a) h))) ->
  wp (allocate_new_page size) Q h.
Proof.
  intros Hr Hs Hroom Hfail HQ. unfold allocate_new_page, l_pageSize, l_pageCount. offs.
  rewrite (u32_small (size + 24)), (u32_small (size + 24 + 24)) by lia.
  replace (size + 24 + 24) with (size + 48) by lia.
  destruct (new_pages_code size Hs) as (Hst & Hn & Hen). cbv zeta in *. rewrite Hst.
  set (n := new_pages size) in *. clearbody n. clear Hst.
  apply wp_bind. unfold liballoc_alloc. apply wp_zoom.
  eapply wp_mono; [by apply mm_alloc_pages_spec; [apply Hr|..]|].
  intros p [m' a']. intros [(-> & Hmf & -> & ->)|(Hp0 & Hmap & Hok & Hfrom & Hres & Hag)].
  { simpl. apply wp_bind, wp_modify, wp_ret. destruct h. by apply Hfail. }
  destruct (p =? 0) eqn:E; [lia|]. unfold PAGE in *.
  change (set_pages (m', a') h) with (set_mem m' (set_pages (m', a') h)).
  pose proof Hmap as (? & ? & _).
  assert (Hhead : mapped_range m' p 24) by (eapply mapped_range_sub; [exact Hmap|lia..]).
  do 6 (apply wp_bind, wp_st32; [header_side|]; lens).
  apply wp_bind, wp_ld32; [header_side|]. lens. reads.
  apply wp_bind, wp_modify, wp_ret.
  match goal with |- Q p (add_allocated _ (set_mem ?M _)) => set (m := M) end.
  change (Q (j_addr (Mjr p n [])) (add_allocated (j_len (Mjr p n [])) (set_pages (m, a') h))).
  apply HQ; [|done]. assert (n * 4096 < 4294967296) by lia.
  eapply (fresh_intro h L p n m'); try done.
  - split; [unfold m; by rewrite !ranges_mwrite|]. intros x Hx. unfold m. reads. done.
  - unfold major_at, usage_of, m. offs. simpl. split_and!; reads; lia.
Qed.

Lemma fresh_apart h L j m a k :
  rep h L -> fresh_major h L j m a -> k ∈ L -> apart1 k j.
Proof.
  intros Hr Hf Hk. pose proof (proj1 (Forall_forall _ _) (rep_wf _ _ Hr) k Hk) as (? & ? & ? & _).
  pose proof (fm_wf _ _ _ _ _ Hf) as (? & ? & ? & _).
  pose proof (rep_sep _ _ Hr k (Z.max (j_addr k) (j_addr j)) Hk) as Hsep.
  pose proof (fm_from _ _ _ _ _ Hf (Z.max (j_addr k) (j_addr j))) as Hfrom.
  unfold apart1, j_end, j_len in *.
  destruct (decide (j_addr k + j_pages k * 4096 <= j_addr j)); [by left|].
  destruct (decide (j_addr j + j_pages j * 4096 <= j_addr k)); [by right|].
  exfalso. apply Hsep; [lia|]. apply Hfrom. lia.
Qed.

(** The memory of the old blocks is as before. *)
Lemma fresh_old h L j m a :
  rep h L -> fresh_major h L j m a -> agree (heap_byte L) (h_mem h) m.
Proof.
  intros Hr Hf. eapply agree_mono; [exact (fm_agree _ _ _ _ _ Hf)|].
  intros x (k & Hk & Hb & _). by eapply rep_sep.
Qed.

(** What linking the new block behind the last one writes. *)
Definition link_words (L : list mjr) (j : mjr) (x : Z) : Prop :=
  (exists k, last L = Some k /\ j_addr k + J_next <= x < j_addr k + J_next + 4) \/
  j_addr j + J_prev <= x < j_addr j + J_prev + 4.

Lemma link_words_owned h L j m a x :
  rep h L -> fresh_major h L j m a -> link_words L j x ->
  heap_byte L x \/ major_byte j x.
Proof.
  intros Hr Hf [(k & Hk & Hx)|Hx].
  - left. apply last_Some_elem_of in Hk. exists k. split; [done|]. apply head_major_byte.
    + by eapply Forall_forall; [apply (rep_wf _ _ Hr)|].
    + offs. lia.
  - right. apply head_major_byte; [apply (fm_wf _ _ _ _ _ Hf)|]. offs. lia.
Qed.

Lemma link_seg h L j m a m2 :
  rep h L -> fresh_major h L j m a ->
  agree (fun x => ~ link_words L j x) m m2 ->
  rd32 m2 (j_addr j + J_prev) = last_j 0 L ->
  (forall k, last L = Some k -> rd32 m2 (j_addr k + J_next) = j_addr j) ->
  majors_seg m2 0 (L ++ [j]) 0.
Proof.
  intros Hr Hf Ha Hp Hn. pose proof (fm_wf _ _ _ _ _ Hf) as Hwf.
  assert (Hj : forall x, major_byte j x -> forall k, k ∈ L -> ~ j_addr k <= x < j_end k).
  { intros x [Hx _] k Hk Hx'. destruct (fresh_apart _ _ _ _ _ _ Hr Hf Hk); lia. }
  rewrite majors_seg_mid. split_and!; [| |done].
  - pose proof (majors_seg_agree _ _ _ _ _ (rep_wf _ _ Hr) (fresh_old _ _ _ _ _ Hr Hf)
      (rep_seg _ _ Hr)) as Hs.
    pose proof (rep_apart _ _ Hr) as Hap. pose proof (rep_wf _ _ Hr) as Hw.
    destruct L as [|k L' _] using rev_ind; [done|].
    eapply majors_seg_set_next; [done| | |exact Hs].
    + eapply agree_mono; [exact Ha|]. intros x Hx Hl.
      assert (~ j_addr j <= x < j_end j) as Hxj.
      { intros Hxj. destruct Hx as [(k' & Hk' & [Hb _])|[[Hb _] _]].
        - destruct (fresh_apart _ _ _ _ _ k' Hr Hf); [apply elem_of_app; by left|lia..].
        - destruct (fresh_apart _ _ _ _ _ k Hr Hf); [apply elem_of_app; right; left|lia..]. }
      destruct Hl as [(k' & Hk' & Hl)|Hl].
      * rewrite last_snoc in Hk'. injection Hk' as <-.
        destruct Hx as [(k' & Hk' & [Hb _])|[_ Hx]]; [|done].
        apply apart_app in Hap as (_ & _ & Hap).
        apply Forall_app in Hw as [_ [(? & ? & ? & Hfk) _]%Forall_cons]. pose proof (fits_le _ _ _ Hfk).
        destruct (Hap k' k Hk' ltac:(left)); offs; lia.
      * destruct Hwf as (? & ? & ? & Hfj). pose proof (fits_le _ _ _ Hfj). offs. lia.
    + apply Hn. by rewrite last_snoc.
  - assert (Hout : forall x, major_byte j x -> ~ j_addr j + J_prev <= x < j_addr j + J_prev + 4 ->
      ~ link_words L j x).
    { intros x Hx Hnx [(k & Hk & Hl)|?]; [|done]. apply last_Some_elem_of in Hk.
      pose proof (proj1 (Forall_forall _ _) (rep_wf _ _ Hr) k Hk) as (? & ? & ? & Hfk).
      pose proof (fits_le _ _ _ Hfk). eapply Hj; [done|exact Hk|]. offs. lia. }
    destruct (fm_rep _ _ _ _ _ Hf) as [(? & ? & ? & ? & ? & ?) _]. offs.
    split; [|by rewrite (fm_minors _ _ _ _ _ Hf)].
    unfold major_at. offs. split_and!; [done|..];
      (erewrite (rd32_agree _ _ _ _ Ha); [done|(apply Hout; [apply head_major_byte; [done|lia]|lia])..]).
Qed.

Lemma sum_len_snoc L j :
  Z.of_nat (sum_list_with (fun j => Z.to_nat (j_len j)) (L ++ [j])) =
  Z.of_nat (sum_list_with (fun j => Z.to_nat (j_len j)) L) + Z.max 0 (j_len j).
Proof. rewrite sum_list_with_app. simpl. lia. Qed.

Lemma rep_link h L j m a h2 :
  rep h L -> fresh_major h L j m a ->
  agree (fun x => ~ link_words L j x) m (h_mem h2) ->
  rd32 (h_mem h2) (j_addr j + J_prev) = last_j 0 L ->
  (forall k, last L = Some k -> rd32 (h_mem h2) (j_addr k + J_next) = j_addr j) ->
  h_arch h2 = a -> l_memRoot h2 = hd_j 0 (L ++ [j]) ->
  (l_bestBet h2 = 0 \/ exists k, k ∈ L /\ l_bestBet h2 = j_addr k) ->
  l_allocated h2 = u64 (l_allocated h + j_len j) -> l_inuse h2 = l_inuse h ->
  h_proc h2 = h_proc h -> h_all_unlocked h2 = h_all_unlocked h ->
  rep h2 (L ++ [j]) /\ heap_step h L h2 (L ++ [j]).
Proof.
  intros Hr Hf Ha Hp Hn Harch Hroot Hbet Hall Hin Hproc Hau.
  pose proof (fm_wf _ _ _ _ _ Hf) as Hwf.
  assert (Hlw : forall x, link_words L j x -> heap_byte L x \/ major_byte j x)
    by (intros; by eapply link_words_owned).
  assert (Hra : agree (reserved m a) m (h_mem h2)).
  { eapply agree_mono; [exact Ha|]. intros x Hx Hl. destruct (Hlw x Hl) as [(k & Hk & Hb & _)|[Hb _]].
    - eapply (rep_sep _ _ Hr); [exact Hk|exact Hb|]. by apply (fm_res _ _ _ _ _ Hf).
    - by eapply (fm_out _ _ _ _ _ Hf). }
  destruct (pages_frame _ _ _ (fm_ok _ _ _ _ _ Hf) Hra) as (Hok & Hre & _).
  assert (Ho : forall x, owned h2 (L ++ [j]) x -> owned h L x).
  { intros x. unfold owned. rewrite Harch, Hre. intros [(k & Hk & Hb)|Hx].
    - apply elem_of_app in Hk as [Hk|Hk%list_elem_of_singleton]; [left; by exists k|right].
      subst k. destruct Hb as [Hb _]. by apply (fm_from _ _ _ _ _ Hf).
    - right. by apply (fm_res _ _ _ _ _ Hf). }
  assert (Hag : agree (fun x => ~ owned h L x) (h_mem h) (h_mem h2)).
  { eapply agree_trans.
    - eapply agree_mono; [exact (fm_agree _ _ _ _ _ Hf)|]. intros x Hx Hx'. apply Hx. by right.
    - eapply agree_mono; [exact Ha|]. intros x Hx Hl. apply Hx.
      destruct (Hlw x Hl) as [?|[? _]]; [by left|right]. by apply (fm_from _ _ _ _ _ Hf). }
  split.
  - split.
    + by eapply link_seg.
    + apply Forall_app. split; [apply (rep_wf _ _ Hr)|by apply Forall_singleton].
    + apply apart_app. split_and!; [apply (rep_apart _ _ Hr)|by simpl|].
      intros k k' Hk ->%list_elem_of_singleton. by eapply fresh_apart.
    + done.
    + destruct Hbet as [?|(k & ? & ?)]; [by left|right]. exists k. split; [apply elem_of_app; by left|done].
    + intros k [Hk|Hk%list_elem_of_singleton]%elem_of_app.
      * eapply agree_mapped_range; [exact Hag|]. by apply (rep_mapped _ _ Hr).
      * subst k. eapply agree_mapped_range; [exact Ha|]. apply (fm_mapped _ _ _ _ _ Hf).
    + by rewrite Harch.
    + intros k x [Hk|Hk%list_elem_of_singleton]%elem_of_app Hx; rewrite Harch, Hre; intros Hx'.
      * eapply (rep_sep _ _ Hr); [exact Hk|exact Hx|]. by apply (fm_res _ _ _ _ _ Hf).
      * subst k. by eapply (fm_out _ _ _ _ _ Hf).
    + rewrite Hproc. destruct (rep_proc _ _ Hr) as [?|[[? Hpm] Hq]]; [by left|right]. split.
      * split; [done|]. eapply agree_mapped_range; [exact Hag|done].
      * intros x Hl Hox. by apply (Hq x Hl), Ho.
    + rewrite Hall, (rep_allocated _ _ Hr), u64_add, sum_len_snoc. f_equal.
      destruct Hwf as (? & ? & ? & _). unfold j_len. lia.
    + rewrite Hin, (rep_inuse _ _ Hr). unfold usages. rewrite sum_list_with_app. simpl.
      rewrite (fm_minors _ _ _ _ _ Hf). simpl. do 2 f_equal. lia.
  - split; [|done..]. eapply agree_mono; [exact Hag|]. tauto.
Qed.
End new_major.

(** ** From the layout to a site *)

Section sites.
Context {A : Type} `{PageProvider A}.
Implicit Types (h : heap A).

Lemma rep_mid_wf h L1 j L2 : rep h (L1 ++ j :: L2) -> major_wf j.
Proof. intros Hr. eapply Forall_forall; [apply (rep_wf _ _ Hr)|]. apply elem_of_app. right. left. Qed.

Lemma rep_mid h L1 j L2 :
  rep h (L1 ++ j :: L2) -> major_rep (h_mem h) (last_j 0 L1) j (hd_j 0 L2).
Proof. intros Hr. pose proof (rep_seg _ _ Hr) as Hs. rewrite majors_seg_mid in Hs. tauto. Qed.

Lemma rep_mid_quiet h L1 j L2 a :
  rep h (L1 ++ j :: L2) -> major_byte j a -> quiet (h_proc h) a.
Proof.
  intros Hr Hb. eapply rep_quiet; [done|]. eapply major_owned; [|done].
  apply elem_of_app. right. left.
Qed.

(** Bytes of the gap in which [x] is placed belong to nobody. *)
Lemma gap_byte j l1 l2 x b :
  major_wf j -> j_minors j = l1 ++ l2 ->
  fits (j_addr j + 24) (l1 ++ x :: l2) (j_end j) ->
  n_addr x <= b < n_end x -> major_byte j b.
Proof.
  intros (? & ? & ? & _) Hm [Hf1 (? & ? & ? & Hf2)]%fits_app Hb.
  pose proof (fits_le _ _ _ Hf1). pose proof (fits_le _ _ _ Hf2).
  split; [lia|]. rewrite Hm. intros y [Hy|Hy]%elem_of_app Hu.
  - destruct (fits_elem _ _ _ _ Hf1 Hy) as (? & ? & ?). apply user_byte_range in Hu; lia.
  - destruct (fits_elem _ _ _ _ Hf2 Hy) as (? & ? & ?). apply user_byte_range in Hu; [|done].
    unfold n_end in *. lia.
Qed.

Lemma last_n_cases l : last_n 0 l = 0 \/ exists y, y ∈ l /\ last_n 0 l = n_addr y.
Proof.
  destruct l as [|y l _] using rev_ind; [by left|right]. exists y. rewrite last_n_snoc.
  split; [|done]. apply elem_of_app. right. left.
Qed.

Lemma hd_n_cases l : hd_n 0 l = 0 \/ exists z, z ∈ l /\ hd_n 0 l = n_addr z.
Proof. destruct l as [|z l]; [by left|right]. exists z. split; [left|done]. Qed.

Lemma site_of h L1 j L2 l1 l2 x :
  rep h (L1 ++ j :: L2) -> j_minors j = l1 ++ l2 ->
  fits (j_addr j + 24) (l1 ++ x :: l2) (j_end j) -> 0 <= n_req x < 2147483648 ->
  site (h_mem h) (h_proc h) (j_addr j) (last_n 0 l1) (hd_n 0 l2) x.
Proof.
  intros Hr Hm Hf Hreq. pose proof (rep_mid_wf _ _ _ _ Hr) as Hwf.
  pose proof Hwf as (? & ? & ? & Hfj). rewrite Hm in Hfj.
  pose proof (fun b => gap_byte j l1 l2 x b Hwf Hm Hf) as Hgap.
  pose proof Hf as [Hf1 (? & ? & ? & Hf2)]%fits_app.
  pose proof (fits_le _ _ _ Hf1). pose proof (fits_le _ _ _ Hf2).
  assert (Hmap : mapped_range (h_mem h) (j_addr j) (j_len j))
    by (apply (rep_mapped _ _ Hr), elem_of_app; right; left).
  assert (Hsub : forall a n, j_addr j <= a -> a + n <= j_end j -> mapped_range (h_mem h) a n)
    by (intros; eapply mapped_range_sub; [exact Hmap|lia|unfold j_end in *; lia]).
  pose proof (last_n_cases l1) as Hprev. pose proof (hd_n_cases l2) as Hnext.
  pose proof (fun a => rep_mid_quiet h L1 j L2 a Hr) as Hq.
  split; unfold n_end in *; offs.
  - done.
  - lia.
  - lia.
  - done.
  - done.
  - apply Hsub; lia.
  - apply Hsub; lia.
  - destruct Hprev as [?|(y & Hy & ->)]; [by left|right].
    destruct (fits_elem _ _ _ _ Hf1 Hy) as (? & ? & ?). unfold n_end in *.
    split_and!; [lia|lia|apply Hsub; lia].
  - destruct Hnext as [?|(z & Hz & ->)]; [by left|right].
    destruct (fits_elem _ _ _ _ Hf2 Hz) as (? & ? & ?). unfold n_end in *.
    split_and!; [lia|lia|apply Hsub; lia].
  - intros b Hb. assert (Hmb : major_byte j b); [|by apply Hq].
    destruct Hb as [Hb|[Hb|[[Hn0 Hb]|Hb]]].
    + apply hdr_byte_range in Hb; [|lia]. apply Hgap. unfold n_end in *. lia.
    + unfold link_field in Hb. destruct Hprev as [E|(y & Hy & E)]; rewrite E in Hb.
      * apply head_major_byte; [done|]. offs. simpl in Hb. lia.
      * destruct (fits_elem _ _ _ _ Hf1 Hy) as (? & ? & ?).
        destruct (n_addr y =? 0) eqn:?; [lia|]. offs.
        apply (hdr_major_byte j y); [done|rewrite Hm; apply elem_of_app; by left|left; lia].
    + destruct Hnext as [E|(z & Hz & E)]; rewrite E in *; [done|].
      apply (hdr_major_byte j z); [done|rewrite Hm; apply elem_of_app; by right|left; lia].
    + apply head_major_byte; [done|lia].
  - destruct (rep_proc _ _ Hr) as [?|[? _]]; [by left|by right].
  - destruct (rep_mid _ _ _ _ Hr) as [(_ & _ & _ & _ & Hu & _) _]. offs. rewrite Hu, Hm.
    pose proof (fits_usage _ _ _ Hf) as Hus. rewrite usage_app in Hus by lia.
    pose proof (usage_pos (l1 ++ l2)). unfold n_end in *. lia.
Qed.
End sites.
