(* ===== verification/LiballocMalloc.v ===== *)
(** * The kernel heap: [malloc] finds a place or asks for one

    The search of [malloc]: CASE 4 walks the minors of a block, the outer loop
    walks the blocks, restarting from the root at most once when it began at
    [l_bestBet], and appends a new block when none has room. *)

From stdpp Require Import base numbers list gmap.
From Stdlib Require Import ZArith Lia.
From S2P Require Import Prelude Memory Process Pages Liballoc LiballocInv LiballocProof.

Local Open Scope Z_scope.

(** [x] has been added to the heap, in an existing block or in a new one. *)
Inductive grown (x : mnr) : list mjr -> list mjr -> Prop :=
  | grown_in L1 j l1 l2 L2 :
      j_minors j = l1 ++ l2 ->
      grown x (L1 ++ j :: L2) (L1 ++ with_minors j (l1 ++ x :: l2) :: L2)
  | grown_new L j :
      j_minors j = [] -> grown x L (L ++ [with_minors j [x]]).

Section malloc.
Context {A : Type} `{PageProvider A}.
Implicit Types (h : heap A) (L : list mjr).

Record malloc_done h L (req p : Z) h' L' (x : mnr) : Prop := {
  md_rep : rep h' L';
  md_locked : h_locked h' = 0;
  md_step : heap_step h L h' L';
  md_grown : grown x L L';
  md_ptr : p = uptr (n_addr x);
  md_req : n_req x = req;
  md_user : forall a, user_byte x a -> owned h L a;
}.

Lemma fits_head lo l hi : fits lo l hi -> lo <= hd_n hi l.
Proof. destruct l as [|x l]; simpl; [done|]. by intros []. Qed.

Lemma fits_length lo l hi : fits lo l hi -> Z.of_nat (length l) <= hi - lo.
Proof.
  revert lo. induction l as [|z l IH]; simpl; intros lo; [lia|]. intros (? & ? & ? & Hf%IH). unfold n_end in *. lia.
Qed.

Lemma fits_insert lo l1 l2 hi x :
  fits lo (l1 ++ l2) hi -> 0 <= n_req x -> n_req x + 32 <= n_size x ->
  end_of lo l1 <= n_addr x -> n_end x <= hd_n hi l2 ->
  fits lo (l1 ++ x :: l2) hi.
Proof.
  intros [Hf1 Hf2]%fits_app ????. apply fits_app. split; [done|]. simpl. split_and!; [done..|].
  destruct l2 as [|z l2]; [done|]. simpl in *. intuition lia.
Qed.

Lemma placed_done h L1 j L2 l1 l2 x req h' :
  rep h (L1 ++ j :: L2) -> j_minors j = l1 ++ l2 ->
  fits (j_addr j + 24) (l1 ++ x :: l2) (j_end j) ->
  placed (h_mem h) (h_mem h') (h_proc h) (j_addr j) (last_n 0 l1) (hd_n 0 l2) x ->
  after_place h x h' -> n_req x = req ->
  malloc_done h (L1 ++ j :: L2) req (uptr (n_addr x)) h'
    (L1 ++ with_minors j (l1 ++ x :: l2) :: L2) x.
Proof.
  intros Hr Hm Hf Hpl (? & ? & ? & ? & ? & ? & ? & ?) <-.
  destruct (rep_place h h' L1 j l1 l2 L2 x) as (Hr' & Hs & Hu); try done.
  - split; [by eapply rep_mid_wf|done|done|apply (pl_agree _ _ _ _ _ _ _ Hpl)|]. intros a Ha. by eapply rep_mid_quiet.
  - by split; [..|constructor|done|done|].
Qed.

(** A fresh or empty block takes the new minor at its start. *)
Lemma wp_place_empty h L1 j L2 req size (Q : flow -> heap A -> Prop) bS sB :
  rep h (L1 ++ j :: L2) -> j_minors j = [] ->
  0 <= req < 2147483648 -> size = req + 32 -> size + 48 <= j_len j ->
  (forall h', malloc_done h (L1 ++ j :: L2) req (uptr (j_addr j + 24)) h'
      (L1 ++ with_minors j [Mnr (j_addr j + 24) size req] :: L2) (Mnr (j_addr j + 24) size req) ->
    (forall b, user_byte (Mnr (j_addr j + 24) size req) b -> rd (h_mem h') b = 0) ->
    Q (Return (uptr (j_addr j + 24))) h') ->
  wp (malloc_place req size (j_addr j) bS sB) Q h.
Proof.
  intros Hr Hm Hreq Hsz Hlen HQ. unfold malloc_place.
  pose proof (rep_mid_wf _ _ _ _ Hr) as Hwf. pose proof Hwf as (? & ? & ? & _).
  assert (mapped_range (h_mem h) (j_addr j) (j_len j)) as Hmap
    by (apply (rep_mapped _ _ Hr), elem_of_app; right; left).
  destruct (rep_mid _ _ _ _ Hr) as [(_ & _ & _ & _ & _ & Hfst) _]. rewrite Hm in Hfst. offs. simpl in Hfst.
  apply wp_bind, wp_ld32; [eapply mapped_range_sub; [exact Hmap|offs; lia..]|].
  simpl get_mem. rewrite Hfst. simpl.
  assert (Hf : fits (j_addr j + 24) ([] ++ Mnr (j_addr j + 24) size req :: []) (j_end j)).
  { simpl. unfold n_end, j_end. simpl. lia. }
  apply wp_malloc_case2.
  - eapply (site_of _ _ _ _ [] []); [exact Hr|done|done|done].
  - intros h' Hpl Hap Hz. apply HQ; [|done].
    apply (placed_done h L1 j L2 [] [] (Mnr (j_addr j + 24) size req)); done.
Qed.

Lemma u32_chain a b c d : 0 <= a - b - c - d < 4294967296 ->
  u32 (u32 (u32 (u32 a - b) - c) - d) = a - b - c - d.
Proof.
  intros. unfold u32.
  rewrite (Zminus_mod_idemp_l a b), (Zminus_mod_idemp_l (a - b) c), (Zminus_mod_idemp_l (a - b - c) d).
  by apply Z.mod_small.
Qed.

Lemma end_of_snoc lo l y : end_of lo (l ++ [y]) = n_end y.
Proof. unfold end_of. by rewrite last_snoc. Qed.

(** The gap behind the minor [y] takes the block, if it is large enough. *)
Lemma wp_malloc_case4_minor h L1 j L2 l1 y l2 req size (Q : Z + flow -> heap A -> Prop) :
  let L := L1 ++ j :: L2 in
  rep h L -> j_minors j = l1 ++ y :: l2 -> 0 <= req < 2147483648 -> size = req + 32 ->
  (forall h' L' x, malloc_done h L req (uptr (n_addr x)) h' L' x -> Q (inr (Return (uptr (n_addr x)))) h') ->
  Q (inl (hd_n 0 l2)) h ->
  wp (malloc_case4_minor req size (j_addr j) (n_addr y)) Q h.
Proof.
  intros L Hr Hm Hreq Hsz HQ HQ'. unfold malloc_case4_minor.
  pose proof (rep_mid_wf _ _ _ _ Hr) as (Hj & _ & Hhi & Hfit).
  assert (mapped_range (h_mem h) (j_addr j) (j_len j)) as Hmap by (apply (rep_mapped _ _ Hr), elem_of_app; right; left).
  destruct (rep_mid _ _ _ _ Hr) as [(_ & _ & _ & Hjs & _) Hms]. fold (j_len j) in Hjs.
  assert (y ∈ j_minors j) as Hy by (rewrite Hm; apply elem_of_mid; auto).
  pose proof (fits_elem _ _ _ _ Hfit Hy) as (? & ? & ? & ?).
  assert (Hm' : j_minors j = (l1 ++ [y]) ++ l2) by (by rewrite <-app_assoc).
  rewrite Hm, minors_seg_app in Hms. destruct Hms as [_ [(_ & Hny & _ & _ & Hsy & _) _]].
  rewrite Hm' in Hfit. pose proof (proj2 (proj1 (fits_app _ _ _ _) Hfit)) as Hf2%fits_head. rewrite end_of_snoc in Hf2.
  set (x := Mnr (n_addr y + 24 + n_size y) size req).
  assert (Hins : n_end x <= hd_n (j_end j) l2 -> fits (j_addr j + 24) ((l1 ++ [y]) ++ x :: l2) (j_end j)).
  { intros Hgap. apply fits_insert; [exact Hfit|simpl; lia..|rewrite end_of_snoc; unfold n_end; simpl; lia|exact Hgap]. }
  assert (Hsite : n_end x <= hd_n (j_end j) l2 -> site (h_mem h) (h_proc h) (j_addr j) (n_addr y) (hd_n 0 l2) x).
  { intros Hgap. rewrite <-(last_n_snoc 0 l1 y). by eapply site_of; [done|done|apply Hins|]. }
  assert (Hdone : forall h', n_end x <= hd_n (j_end j) l2 ->
    placed (h_mem h) (h_mem h') (h_proc h) (j_addr j) (n_addr y) (hd_n 0 l2) x ->
    after_place h x h' -> Q (inr (Return (uptr (n_addr x)))) h').
  { intros h' Hgap Hpl Hap. eapply HQ, (placed_done h L1 j L2 (l1 ++ [y]) l2); [done|done|by apply Hins| |done|done].
    by rewrite last_n_snoc. }
  unfold n_end, j_end, sizeof_minor in *.
  apply wp_bind, wp_ld32; [eapply mapped_range_sub; [exact Hmap|offs; lia..]|].
  apply wp_bind, wp_ld32; [eapply mapped_range_sub; [exact Hmap|offs; lia..]|].
  change (get_mem h) with (h_mem h). rewrite Hny, Hsy, (u32_small (size + 24)) by lia.
  destruct l2 as [|z l2]; simpl hd_n in *.
  - apply wp_bind, wp_ld32; [eapply mapped_range_sub; [exact Hmap|offs; unfold j_len in *; lia..]|].
    change (get_mem h) with (h_mem h). rewrite Hjs, u32_chain by lia.
    destruct (_ >=? _) eqn:Eg; [|by apply wp_ret]. simpl in Hsite.
    apply wp_bind, (wp_malloc_case41 h (j_addr j) size req (n_addr y) (n_size y)); [apply Hsite; lia|lia|].
    intros h' Hpl Hap. apply wp_ret, Hdone; [simpl; lia|done..].
  - pose proof (fits_elem _ _ _ z Hfit ltac:(apply elem_of_mid; auto)) as (? & ? & ? & ?). unfold n_end in *.
    destruct (n_addr z =? 0) eqn:E; [lia|]. clear E.
    replace (u32 (n_addr z - n_addr y)) with (u32 (u32 (n_addr z) - n_addr y)) by (unfold u32; by rewrite Zminus_mod_idemp_l).
    rewrite u32_chain by lia.
    destruct (_ >=? _) eqn:Eg; [|by apply wp_ret]. simpl in Hsite.
    apply wp_bind, (wp_malloc_case42 h (j_addr j) size req (n_addr y) (n_size y) (n_addr z)); [apply Hsite; lia|lia|lia|].
    intros h' Hpl Hap _. apply wp_ret, Hdone; [simpl; lia|done..].
Qed.

(** CASE 4 places the block in the first gap behind a minor that is large
    enough, or leaves everything as it is. *)
Lemma wp_malloc_case4 h L1 j L2 req size (Q : flow -> heap A -> Prop) :
  rep h (L1 ++ j :: L2) -> 0 <= req < 2147483648 -> size = req + 32 ->
  (forall h' L' x, malloc_done h (L1 ++ j :: L2) req (uptr (n_addr x)) h' L' x ->
     Q (Return (uptr (n_addr x))) h') ->
  Q (Below (j_addr j)) h ->
  wp (malloc_case4 req size (j_addr j)) Q h.
Proof.
  intros Hr Hreq Hsz HQ HQ'. unfold malloc_case4.
  pose proof (rep_mid_wf _ _ _ _ Hr) as (Hj & _ & Hhi & Hfit).
  assert (mapped_range (h_mem h) (j_addr j) (j_len j)) as Hmap by (apply (rep_mapped _ _ Hr), elem_of_app; right; left).
  destruct (rep_mid _ _ _ _ Hr) as [(_ & _ & _ & _ & _ & Hfst) _]. pose proof (fits_length _ _ _ Hfit) as Hlen.
  pose proof (fits_head _ _ _ Hfit). unfold j_end in *.
  apply wp_bind, wp_ld32; [eapply mapped_range_sub; [exact Hmap|offs; unfold j_len in *; lia..]|].
  change (get_mem h) with (h_mem h). rewrite Hfst.
  apply (wp_loop_idx (fun n min s => s = h /\ exists l1 l2, j_minors j = l1 ++ l2 /\ min = hd_n 0 l2 /\
    n = Z.of_nat (length l2)) (Z.of_nat (length (j_minors j)))).
  - split; [done|]. by exists [], (j_minors j).
  - lia.
  - intros n min s (-> & l1 & l2 & Hm & -> & ->). split; [lia|].
    destruct l2 as [|y l2]; simpl hd_n; [by apply wp_ret|].
    pose proof (fits_elem _ _ _ y Hfit ltac:(rewrite Hm; apply elem_of_mid; auto)) as (? & _).
    destruct (n_addr y =? 0) eqn:E; [lia|]. clear E.
    apply (wp_malloc_case4_minor h L1 j L2 l1 y l2); [done..|].
    exists (Z.of_nat (length l2)). split; [simpl; lia|]. split; [done|]. exists (l1 ++ [y]), l2. by rewrite <-app_assoc.
Qed.

(** A block is appended behind the last one, or none can be had. *)
Definition extend (size maj : Z) (k : Z -> flow) : M (heap A) flow :=
  let! np := allocate_new_page size in
  st32 (maj + J_next) np ;!
  if np =? 0 then ret Break
  else st32 (np + J_prev) maj ;! ret (k np).

(** The store of a failed request leaves the null pointer that was there. *)
Lemma agree_null m a : rd32 m a = 0 -> agree (fun _ => True) m (mwrite m a (le32 0)).
Proof.
  intros Hz. split; [apply ranges_mwrite|]. intros x _. destruct (decide (a <= x < a + 4)) as [Hx|Hx].
  - rewrite (rd_mwrite_in _ _ _ _ 0) by (first [lia|change (le32 0) with (replicate 4 0); apply lookup_replicate; split; [done|lia]]).
    change (u8 0) with 0. unfold rd32 in Hz.
    pose proof (rd_range m a). pose proof (rd_range m (a + 1)). pose proof (rd_range m (a + 2)). pose proof (rd_range m (a + 3)).
    assert (x = a \/ x = a + 1 \/ x = a + 2 \/ x = a + 3) as [->|[->|[->| ->]]] by lia; lia.
  - by rewrite rd_mwrite_out by (rewrite le32_length; lia).
Qed.

(** The new block [i] behind the last block [j]: its pointers. *)
Definition linked_block (m : mem) (j i : mjr) : mem :=
  mwrite (mwrite m (j_addr j + J_next) (le32 (j_addr i))) (j_addr i + J_prev) (le32 (j_addr j)).

Lemma rep_linked_block h L1 j i m a :
  let L := L1 ++ [j] in rep h L -> fresh_major h L i m a ->
  let h' := set_h_mem (linked_block m j i) (add_allocated (j_len i) (set_pages (m, a) h)) in
  rep h' (L ++ [i]) /\ heap_step h L h' (L ++ [i]).
Proof.
  intros L Hr Hf h'. pose proof (rep_mid_wf h L1 j [] Hr) as (? & ? & Hhi & _). unfold linked_block in h'.
  pose proof (fm_wf _ _ _ _ _ Hf) as (? & ? & ? & _). unfold j_end in *.
  pose proof (fresh_apart _ _ _ _ _ j Hr Hf ltac:(apply elem_of_app; right; left)) as Hap.
  unfold apart1, j_end, j_len in Hap. unfold j_len in *.
  apply (rep_link h L i m a h'); [done|done|..]; unfold h'; simpl h_mem; try done.
  - split; [by rewrite !ranges_mwrite|]. intros x Hx. unfold link_words, L in Hx. setoid_rewrite last_snoc in Hx.
    rewrite !rd_mwrite_out; [done|..]; rewrite le32_length;
      destruct (decide (j_addr j + J_next <= x < j_addr j + J_next + 4)); try lia; exfalso; apply Hx; left; by exists j.
  - unfold L. rewrite last_j_snoc. offs. reads. done.
  - intros k' Hk. unfold L in Hk. rewrite last_snoc in Hk. injection Hk as <-.
    offs. rewrite rd32_mwrite_out by (rewrite le32_length; lia). rewrite rd32_mwrite_eq; lia.
  - transitivity (l_memRoot h); [done|]. rewrite (rep_root _ _ Hr). unfold L. by destruct L1.
  - apply (rep_bet _ _ Hr).
Qed.

Lemma wp_extend h L1 j size k (Q : flow -> heap A -> Prop) :
  rep h (L1 ++ [j]) -> 0 <= size < 2147483680 ->
  pages_room (h_mem h) (h_arch h) (new_pages size) ->
  (forall h', may_fail -> rep h' (L1 ++ [j]) -> heap_step h (L1 ++ [j]) h' (L1 ++ [j]) ->
     h_locked h' = h_locked h -> Q Break h') ->
  (forall h' i, j_minors i = [] -> size + 48 <= j_len i -> rep h' ((L1 ++ [j]) ++ [i]) ->
     heap_step h (L1 ++ [j]) h' ((L1 ++ [j]) ++ [i]) -> h_locked h' = h_locked h ->
     Q (k (j_addr i)) h') ->
  wp (extend size (j_addr j) k) Q h.
Proof.
  intros Hr Hs Hroom Hfail HQ. unfold extend. set (L := L1 ++ [j]) in *.
  pose proof (rep_mid_wf h L1 j [] Hr) as (? & ? & Hhi & _).
  assert (mapped_range (h_mem h) (j_addr j) (j_len j)) as Hmap by (apply (rep_mapped _ _ Hr), elem_of_app; right; left).
  assert (4096 <= j_len j) by (unfold j_len; lia).
  apply wp_bind, (wp_allocate_new_page h L); [done|done|done| |].
  - intros Hmf. apply wp_bind, wp_st32; [eapply mapped_range_sub; [exact Hmap|offs; lia..]|]. simpl. apply wp_ret.
    set (h' := set_h_mem _ _). destruct (rep_mid h L1 j [] Hr) as [(_ & Hnx & _) _].
    pose proof (agree_null (h_mem h) (j_addr j + J_next) Hnx : agree (fun _ => True) (h_mem h) (h_mem h')) as Hag.
    destruct (rep_agree h h' L) as [Hr' Ho]; try done; [by eapply agree_mono; [exact Hag|]|apply (rep_bet _ _ Hr)|].
    apply Hfail; [done|done| |done]. split; [|apply Ho|done|done]. by eapply agree_mono; [exact Hag|].
  - intros i m a Hf Hlen. pose proof (fm_wf _ _ _ _ _ Hf) as (? & ? & ? & _). unfold j_end in *.
    apply wp_bind, wp_st32.
    { eapply mapped_range_sub; [eapply (agree_mapped_range _ _ _ _ _ (fm_agree _ _ _ _ _ Hf)); exact Hmap|offs; simpl; lia..]. }
    destruct (j_addr i =? 0) eqn:E; [lia|]. clear E. cbn [get_mem heap_HasMem h_mem add_allocated set_pages fst].
    apply wp_bind, wp_st32.
    { lens. rewrite mapped_range_mwrite. eapply mapped_range_sub; [exact (fm_mapped _ _ _ _ _ Hf)|offs; lia..]. }
    lens. apply wp_ret. destruct (rep_linked_block h L1 j i m a Hr Hf).
    apply HQ; [apply (fm_minors _ _ _ _ _ Hf)|done..].
Qed.

(** ** The loop over the blocks *)

Definition malloc_failed h L h' : Prop := may_fail /\ rep h' L /\ heap_step h L h' L.

(** At the head of the loop: [maj] is a block of the heap and nothing has
    changed yet ([n] counts the blocks still to visit, twice around when the
    search began at [l_bestBet]), or it is a new block with room. *)
Definition at_old h L (n maj sB : Z) (s : heap A) : Prop :=
  exists L1 j L2, L = L1 ++ j :: L2 /\ maj = j_addr j /\ rep s L /\ heap_step h L s L /\
    h_mem s = h_mem h /\ h_arch s = h_arch h /\
    n = 1 + sB * Z.of_nat (length L) + Z.of_nat (length L2).
Definition at_new h L (size maj : Z) (s : heap A) : Prop :=
  exists j, maj = j_addr j /\ j_minors j = [] /\ size + 48 <= j_len j /\
    rep s (L ++ [j]) /\ heap_step h L s (L ++ [j]).
Definition search_inv h L size (n maj sB : Z) (s : heap A) : Prop :=
  h_locked s = 1 /\ (sB = 0 \/ sB = 1) /\
  ((0 <= n /\ at_old h L n maj sB s) \/ (n = 0 /\ at_new h L size maj s)).

Definition flow_post h L req size (n : Z) (r : flow) (s : heap A) : Prop :=
  match r with
  | Return p => exists L' x, malloc_done h L req p s L' x
  | Continue maj _ sB => exists n', n' < n /\ search_inv h L size n' maj sB s
  | Break => malloc_failed h L s /\ h_locked s = 1
  | Below _ => False
  end.

Lemma place_new h L req size n maj bS sB s :
  at_new h L size maj s -> 0 <= req < 2147483648 -> size = req + 32 ->
  wp (malloc_place req size maj bS sB) (flow_post h L req size n) s.
Proof.
  intros (j & -> & Hm & Hlen & Hr & Hst) Hreq Hsz.
  apply (wp_place_empty s L j []); [done..|]. intros h' [? ? Hst' Hg ? ? Hu] _.
  exists (L ++ [with_minors j [Mnr (j_addr j + 24) size req]]), (Mnr (j_addr j + 24) size req).
  split; try done.
  - by eapply heap_step_trans.
  - by apply (grown_new _ L j).
  - intros a Ha. apply (hs_owned _ _ _ _ Hst). by apply Hu.
Qed.

Lemma next_block L1 j L2 s :
  rep s (L1 ++ j :: L2) -> forall Q : Z -> heap A -> Prop, Q (hd_j 0 L2) s ->
  wp (ld32 (j_addr j + J_next)) Q s.
Proof.
  intros Hr Q HQ. pose proof (rep_mid_wf _ _ _ _ Hr) as (? & ? & _).
  apply wp_ld32.
  - eapply mapped_range_sub; [apply (rep_mapped _ _ Hr j)|offs; lia..|unfold j_len; offs; lia].
    apply elem_of_app. right. left.
  - destruct (rep_mid _ _ _ _ Hr) as [(_ & Hn & _) _]. simpl. by rewrite Hn.
Qed.

(** What CASE 1 and CASE 5 do when the block has no room: go to the next
    block, start again from the root, or append a block ([k]). *)
Definition advance (size maj bS sB : Z) (k : Z -> flow) : M (heap A) flow :=
  let! next := ld32 (maj + J_next) in
  if negb (next =? 0) then ret (Continue next bS sB)
  else if sB =? 1 then let! root := gets l_memRoot in ret (Continue root bS 0)
  else extend size maj k.

Lemma wp_advance h L req size n maj bS sB k s (Q : flow -> heap A -> Prop) :
  at_old h L n maj sB s -> h_locked s = 1 -> sB = 0 \/ sB = 1 ->
  0 <= req < 2147483648 -> size = req + 32 ->
  pages_room (h_mem h) (h_arch h) (new_pages size) ->
  (forall r s', flow_post h L req size n r s' -> Q r s') ->
  (forall maj' s', at_new h L size maj' s' -> h_locked s' = 1 -> sB = 0 -> 0 < n -> Q (k maj') s') ->
  wp (advance size maj bS sB k) Q s.
Proof.
  intros (L1 & j & L2 & HL & -> & Hr & Hst & Hm & Ha & ->) Hlock HsB Hreq Hsz Hroom HQ Hk.
  assert (0 <= sB * Z.of_nat (length L)) by lia.
  unfold advance. apply wp_bind. rewrite HL in Hr. eapply next_block; [exact Hr|].
  rewrite <-HL in Hr. destruct L2 as [|i L2]; simpl hd_j; cbn [negb Z.eqb].
  - destruct (sB =? 1) eqn:E.
    + apply wp_bind, wp_gets, wp_ret, HQ. assert (sB = 1) as -> by lia.
      destruct L as [|i L'] eqn:EL; [by destruct L1|].
      exists (1 + Z.of_nat (length L')). simpl length in *. split; [lia|].
      split; [done|]. split; [by left|]. left. split; [lia|].
      exists [], i, L'. rewrite (rep_root _ _ Hr). by split_and!.
    + assert (sB = 0) as -> by lia. rewrite <-Hm, <-Ha in Hroom. subst L.
      apply (wp_extend s L1 j); [done|lia|done| |].
      * intros h' Hmf Hr' Hst' Hl. apply HQ. split; [|congruence].
        split_and!; [done|done|by eapply heap_step_trans].
      * intros h' i Hmi Hlen Hr' Hst' Hl. apply Hk; [|congruence|done|lia].
        exists i. split_and!; try done. by eapply heap_step_trans.
  - assert (0 < j_addr i) as Hi.
    { pose proof (rep_wf _ _ Hr) as Hw. rewrite HL, Forall_app, !Forall_cons in Hw.
      destruct Hw as (_ & _ & (? & _) & _). done. }
    destruct (j_addr i =? 0) eqn:E; [lia|]. simpl. apply wp_ret, HQ.
    exists (1 + sB * Z.of_nat (length L) + Z.of_nat (length L2)).
    simpl length. split; [lia|]. split; [done|]. split; [done|]. left. split; [lia|].
    exists (L1 ++ [j]), i, L2. rewrite <-app_assoc. by split_and!.
Qed.

Lemma case1_advance size maj bS sB s :
  malloc_case1 size maj bS sB s = advance size maj bS sB Below s.
Proof. done. Qed.
Lemma case5_advance size maj bS sB s : sB = 0 \/ sB = 1 ->
  malloc_case5 size maj bS sB s = advance size maj bS sB (fun np => Continue np bS sB) s.
Proof.
  intros HsB. unfold malloc_case5, advance, bind. destruct (ld32 _ s) as [next t| | |]; [|done..].
  by destruct (next =? 0).
Qed.

Lemma old_usage s L1 j L2 :
  rep s (L1 ++ j :: L2) ->
  mapped_range (h_mem s) (j_addr j) (j_len j) /\ 4096 <= j_len j /\
  0 < j_addr j /\ j_addr j + j_len j <= 4294967296 /\
  rd32 (h_mem s) (j_addr j + J_size) = j_len j /\
  rd32 (h_mem s) (j_addr j + J_usage) = usage_of (j_minors j) /\
  rd32 (h_mem s) (j_addr j + J_first) = hd_n 0 (j_minors j) /\
  24 <= usage_of (j_minors j) <= j_len j.
Proof.
  intros Hr. pose proof (rep_mid_wf _ _ _ _ Hr) as (? & ? & ? & Hf).
  destruct (rep_mid _ _ _ _ Hr) as [(_ & _ & _ & Hs & Hu & Hfst) _].
  pose proof (fits_usage _ _ _ Hf). pose proof (usage_pos (j_minors j)). unfold j_end in *.
  split_and!; try done; [|unfold j_len; lia|lia].
  apply (rep_mapped _ _ Hr), elem_of_app. right. left.
Qed.

(** From CASE 2 down, in a block whose free bytes add up to enough. *)
Lemma place_old h L req size n maj bS sB s :
  at_old h L n maj sB s -> h_locked s = 1 -> sB = 0 \/ sB = 1 ->
  0 <= req < 2147483648 -> size = req + 32 ->
  pages_room (h_mem h) (h_arch h) (new_pages size) ->
  size + 24 <= rd32 (h_mem s) (maj + J_size) - rd32 (h_mem s) (maj + J_usage) ->
  wp (malloc_place req size maj bS sB) (flow_post h L req size n) s.
Proof.
  intros Hold Hlock HsB Hreq Hsz Hroom Hdiff.
  pose proof Hold as (L1 & j & L2 & HL & -> & Hr & Hst & Hm & Ha & Hn).
  assert (Hdone : forall p s' L' x, malloc_done s (L1 ++ j :: L2) req p s' L' x ->
    flow_post h L req size n (Return p) s').
  { intros p s' L' x [? ? Hst' Hg ? ? Hu]. exists L', x. rewrite <-HL in *.
    split; try done; [by eapply heap_step_trans|].
    intros a Hax. apply (hs_owned _ _ _ _ Hst). by apply Hu. }
  rewrite HL in Hr.
  destruct (old_usage _ _ _ _ Hr) as (Hmap & Hlen & Hpos & Hhi & Hjs & Hju & Hjf & Hus).
  rewrite Hjs, Hju in Hdiff. destruct (j_minors j) as [|y l] eqn:Em.
  { unfold usage_of in Hdiff. simpl in Hdiff.
    apply (wp_place_empty s L1 j L2); [done..|lia|]. intros h' Hd _. by eapply Hdone. }
  simpl in Hjf. pose proof (rep_mid_wf _ _ _ _ Hr) as (_ & _ & _ & Hf).
  rewrite Em in Hf. simpl in Hf. destruct Hf as (? & ? & ? & Hf). pose proof (fits_le _ _ _ Hf).
  unfold n_end, j_end in *.
  unfold malloc_place. apply wp_bind, wp_ld32; [eapply mapped_range_sub; [exact Hmap|offs; lia..]|].
  change (get_mem s) with (h_mem s). rewrite Hjf. destruct (n_addr y =? 0) eqn:E; [lia|]. clear E.
  unfold sizeof_major, sizeof_minor.
  rewrite (u32_small (n_addr y - j_addr j)), (u32_small (n_addr y - j_addr j - 24)),
    (u32_small (size + 24)) by lia.
  destruct (_ >=? _) eqn:Eg.
  - set (x := Mnr (j_addr j + 24) size req).
    assert (Hfx : fits (j_addr j + 24) ([] ++ x :: y :: l) (j_end j)).
    { simpl. unfold n_end, j_end. simpl. split_and!; try lia. done. }
    apply wp_malloc_case3; [|lia|].
    + by apply (site_of s L1 j L2 [] (y :: l) x).
    + intros h' Hpl Hap _. eapply Hdone.
      by apply (placed_done s L1 j L2 [] (y :: l) x).
  - apply wp_bind, (wp_malloc_case4 s L1 j L2); [done..| |].
    + intros h' L' x Hd. apply wp_ret. by eapply Hdone.
    + change (wp (malloc_case5 size (j_addr j) bS sB) (flow_post h L req size n) s).
      unfold wp at 1. rewrite case5_advance by done.
      change (wp (advance size (j_addr j) bS sB (fun np => Continue np bS sB)) (flow_post h L req size n) s).
      eapply wp_advance; [done..| |].
      * done.
      * intros maj' s' Hnew Hl -> Hn0. simpl. exists 0. split; [done|].
        split; [done|]. split; [by left|]. by right.
Qed.

Lemma at_old_bet h L n maj sB s :
  at_old h L n maj sB s -> at_old h L n maj sB (set_bestBet maj s).
Proof.
  intros (L1 & j & L2 & HL & -> & Hr & [? Ho ? ?] & Hm & Ha & Hn). exists L1, j, L2.
  destruct (rep_agree s (set_bestBet (j_addr j) s) L) as [Hr' Ho']; try done.
  { right. exists j. split; [|done]. rewrite HL. apply elem_of_app. right. left. }
Qed.
Lemma at_new_bet h L size maj s :
  at_new h L size maj s -> at_new h L size maj (set_bestBet maj s).
Proof.
  intros (j & -> & Hm & Hlen & Hr & [? Ho ? ?]). exists j.
  destruct (rep_agree s (set_bestBet (j_addr j) s) (L ++ [j])) as [Hr' Ho']; try done.
  { right. exists j. split; [|done]. apply elem_of_app. right. left. }
Qed.

(** One iteration. *)
Definition search_body (req size : Z) : Z * Z * Z -> M (heap A) (Z * Z * Z + option Z) :=
  fun '(maj, bestSize, startedBet) =>
    if maj =? 0 then ret (inr None)
    else
      let! jsize := ld32 (maj + J_size) in
      let! usage := ld32 (maj + J_usage) in
      let diff := u32 (jsize - usage) in
      let! bestSize :=
        (if bestSize <? diff then modify (set_bestBet maj) ;! ret diff else ret bestSize) in
      let! r :=
        (if diff <? u32 (size + sizeof_minor) then
           let! r := malloc_case1 size maj bestSize startedBet in
           match r with
           | Below maj => malloc_place req size maj bestSize startedBet
           | r => ret r
           end
         else malloc_place req size maj bestSize startedBet) in
      match r with
      | Return p => ret (inr (Some p))
      | Continue maj bestSize startedBet => ret (inl (maj, bestSize, startedBet))
      | Break | Below _ => ret (inr None)
      end.

Definition search_post h L req (r : option Z) (s : heap A) : Prop :=
  match r with
  | Some p => exists L' x, malloc_done h L req p s L' x
  | None => malloc_failed h L s /\ h_locked s = 1
  end.

Lemma flow_loop h L req size n (m : M (heap A) flow) s :
  wp m (flow_post h L req size n) s ->
  wp (let! r := m in
      match r with
      | Return p => ret (inr (Some p))
      | Continue maj bestSize startedBet => ret (inl (maj, bestSize, startedBet))
      | Break | Below _ => ret (inr None)
      end)
     (fun r s' => match r with
        | inl (maj, _, sB) => exists n', n' < n /\ search_inv h L size n' maj sB s'
        | inr r => search_post h L req r s' end) s.
Proof.
  intros Hm. apply wp_bind. eapply wp_mono; [exact Hm|].
  intros [p|maj bS sB| |m'] s' Hr; simpl in Hr; try apply wp_ret; done.
Qed.

Definition search_try (req size diff maj bestSize startedBet : Z) : M (heap A) flow :=
  if diff <? size + 24 then
    let! r := malloc_case1 size maj bestSize startedBet in
    match r with
    | Below maj => malloc_place req size maj bestSize startedBet
    | r => ret r
    end
  else malloc_place req size maj bestSize startedBet.

Lemma wp_search_head s L1 j L2 req size bS sB (Q : Z * Z * Z + option Z -> heap A -> Prop) :
  rep s (L1 ++ j :: L2) -> 0 <= req < 2147483648 -> size = req + 32 ->
  (forall bS' s1, s1 = s \/ s1 = set_bestBet (j_addr j) s ->
     wp (let! r := search_try req size (j_len j - usage_of (j_minors j)) (j_addr j) bS' sB in
         match r with
         | Return p => ret (inr (Some p))
         | Continue maj bestSize startedBet => ret (inl (maj, bestSize, startedBet))
         | Break | Below _ => ret (inr None)
         end) Q s1) ->
  wp (search_body req size (j_addr j, bS, sB)) Q s.
Proof.
  intros Hr Hreq Hsz HQ.
  destruct (old_usage _ _ _ _ Hr) as (Hmap & Hlen & Hpos & Hhi & Hjs & Hju & Hjf & Hus).
  unfold search_body. destruct (j_addr j =? 0) eqn:E; [lia|]. clear E.
  apply wp_bind, wp_ld32; [eapply mapped_range_sub; [exact Hmap|offs; lia..]|].
  apply wp_bind, wp_ld32; [eapply mapped_range_sub; [exact Hmap|offs; lia..]|].
  change (get_mem s) with (h_mem s). rewrite Hjs, Hju.
  unfold sizeof_minor. rewrite (u32_small (_ - _)), (u32_small (size + 24)) by lia.
  apply wp_bind. destruct (_ <? _) eqn:E.
  - apply wp_bind, wp_modify, wp_ret. apply HQ. by right.
  - apply wp_ret, HQ. by left.
Qed.

Lemma wp_search_body h L req size n maj bS sB s :
  search_inv h L size n maj sB s -> 0 <= req < 2147483648 -> size = req + 32 ->
  pages_room (h_mem h) (h_arch h) (new_pages size) ->
  wp (search_body req size (maj, bS, sB))
    (fun r s' => match r with
       | inl (maj, _, sB) => exists n', n' < n /\ search_inv h L size n' maj sB s'
       | inr r => search_post h L req r s' end) s.
Proof.
  intros (Hlock & HsB & Hat) Hreq Hsz Hroom.
  destruct Hat as [[Hn Hold]|[-> Hnew]].
  - pose proof Hold as (L1 & j & L2 & HL & -> & Hr & _).
    rewrite HL in Hr. apply (wp_search_head s L1 j L2); [done..|].
    intros bS' s1 Hs1. apply flow_loop.
    assert (Hold1 : at_old h L n (j_addr j) sB s1) by (destruct Hs1 as [->| ->]; [done|by apply at_old_bet]).
    assert (Hlock1 : h_locked s1 = 1) by (by destruct Hs1 as [->| ->]).
    assert (Hmem : h_mem s1 = h_mem s) by (by destruct Hs1 as [->| ->]).
    unfold search_try. destruct (_ <? size + 24) eqn:E.
    + apply wp_bind. change (malloc_case1 size (j_addr j) bS' sB)
        with (advance size (j_addr j) bS' sB Below).
      eapply wp_advance; [done..| |].
      * intros [p|maj' b' s'| |m'] t Ht; by try apply wp_ret.
      * intros maj' s' Hn' _ _ _. by apply place_new.
    + apply place_old; [done..|]. rewrite Hmem.
      destruct (old_usage _ _ _ _ Hr) as (_ & _ & _ & _ & -> & -> & _). lia.
  - pose proof Hnew as (j & -> & Hm & Hlen & Hr & _).
    apply (wp_search_head s L j []); [done..|].
    intros bS' s1 Hs1. apply flow_loop. unfold search_try.
    rewrite Hm. change (usage_of []) with 24. destruct (_ <? size + 24) eqn:E; [lia|].
    apply place_new; [|done..]. destruct Hs1 as [->| ->]; [done|by apply at_new_bet].
Qed.

Lemma heap_length L : Forall major_wf L -> apart L -> Z.of_nat (length L) <= 4294967296.
Proof.
  intros Hw Ha.
  assert (Hnd : NoDup (j_addr <$> L)).
  { induction L as [|j L IH]; simpl in *; [constructor|]. apply Forall_cons in Hw as [(? & ? & ? & _) Hw].
    destruct Ha as [Hf Ha]. constructor; [|auto]. intros (k & Hk & Hin)%list_elem_of_fmap.
    rewrite Forall_forall in Hf, Hw. destruct (Hw k Hin) as (? & ? & ? & _).
    destruct (Hf k Hin); unfold j_end, j_len in *; lia. }
  apply (NoDup_submseteq _ (seqZ 0 4294967296)) in Hnd.
  - apply submseteq_length in Hnd. rewrite length_fmap, length_seqZ in Hnd. lia.
  - intros a (k & -> & Hin)%list_elem_of_fmap. apply elem_of_seqZ.
    rewrite Forall_forall in Hw. destruct (Hw k Hin) as (? & ? & ? & _).
    unfold j_end, j_len in *. lia.
Qed.

Lemma wp_malloc_loop h L req size n maj bS sB s (Q : option Z -> heap A -> Prop) :
  search_inv h L size n maj sB s -> n < 17179869184 ->
  0 <= req < 2147483648 -> size = req + 32 ->
  pages_room (h_mem h) (h_arch h) (new_pages size) ->
  (forall r s', search_post h L req r s' -> Q r s') ->
  wp (malloc_loop req size maj bS sB) Q s.
Proof.
  intros Hinv Hn Hreq Hsz Hroom HQ. unfold malloc_loop. fold (search_body req size).
  apply (wp_loop_idx (fun n '(maj, _, sB) s => search_inv h L size n maj sB s) n); [done..|].
  intros k [[maj' bS'] sB'] t Hi. split.
  { destruct Hi as (_ & _ & [[? _]|[-> _]]); lia. }
  eapply wp_mono; [by eapply wp_search_body|]. intros [[[m b] sb]|r] s' Hp; [done|by apply HQ].
Qed.

(** ** [malloc] *)

Definition malloc_post h L req (p : Z) (h' : heap A) : Prop :=
  (p = 0 /\ may_fail /\ heap_inv h' L /\ heap_step h L h' L) \/
  exists L' x, malloc_done h L req p h' L' x.

Lemma rep_locked h L v : rep h L -> rep (set_locked v h) L.
Proof. by intros []. Qed.
Lemma step_locked h L v : heap_step h L (set_locked v h) L.
Proof. by split. Qed.

Lemma wp_lock h (Q : unit -> heap A -> Prop) :
  h_locked h = 0 -> Q tt (set_locked 1 h) -> wp liballoc_lock Q h.
Proof.
  intros Hl HQ. unfold liballoc_lock. apply wp_bind.
  eapply wp_loop_exit with (b := tt).
  - unfold bind, gets. rewrite Hl. done.
  - by apply wp_modify.
Qed.

(** The end of [malloc]. *)
Lemma malloc_finish h L req r s :
  search_post h L req r s ->
  wp (match r with Some p => ret p | None => liballoc_unlock ;! ret 0 end) (malloc_post h L req) s.
Proof.
  destruct r as [p|]; simpl.
  - intros (L' & x & Hd). apply wp_ret. right. by exists L', x.
  - intros [(Hf & Hr & Hst) _]. apply wp_bind, wp_modify, wp_ret. left.
    split_and!; [done|done|split; [done|by apply rep_locked]|].
    eapply heap_step_trans; [exact Hst|apply step_locked].
Qed.

(** The first block. *)
Lemma wp_first_block h s req size (k : Z -> M (heap A) Z) :
  rep s [] -> heap_step h [] s [] -> h_mem s = h_mem h -> h_arch s = h_arch h -> h_locked s = 1 ->
  0 <= req < 2147483648 -> size = req + 32 ->
  pages_room (h_mem h) (h_arch h) (new_pages size) ->
  (forall s', h_locked s' = 1 -> may_fail -> rep s' [] -> heap_step h [] s' [] -> wp (k 0) (malloc_post h [] req) s') ->
  (forall j s', h_locked s' = 1 -> at_new h [] size (j_addr j) s' -> l_bestBet s' = 0 -> 0 < j_addr j ->
     wp (k (j_addr j)) (malloc_post h [] req) s') ->
  wp (let! r := allocate_new_page size in modify (set_memRoot r) ;! ret r)
     (fun r s' => wp (k r) (malloc_post h [] req) s') s.
Proof.
  intros Hr Hst Hm Ha Hl Hreq Hsz Hroom Hnull Hok. rewrite <-Hm, <-Ha in Hroom.
  assert (Hbet : l_bestBet s = 0).
  { destruct (rep_bet _ _ Hr) as [?|(? & Hin & _)]; [done|]. by apply not_elem_of_nil in Hin. }
  apply wp_bind, (wp_allocate_new_page s []); [done|lia|done| |].
  - intros Hf. apply wp_bind, wp_modify. set (s' := set_memRoot _ _).
    destruct (rep_agree s s' []) as [Hr' Ho]; [done|apply agree_refl|done|..|done|done|done|].
    { simpl. by rewrite (rep_root _ _ Hr). } { by left. }
    apply wp_ret, Hnull; try done. eapply heap_step_trans; [exact Hst|]. split; [apply agree_refl|apply Ho|done|done].
  - intros j m a Hf Hlen. apply wp_bind, wp_modify. set (s' := set_memRoot _ _).
    pose proof (fm_wf _ _ _ _ _ Hf) as (? & _).
    destruct (rep_link s [] j m a s') as [Hr' Hst']; try done.
    + destruct (fm_rep _ _ _ _ _ Hf) as [(? & _) _]. done.
    + by left.
    + apply wp_ret, Hok; [done| |done|done]. exists j. split_and!; [done|apply (fm_minors _ _ _ _ _ Hf)|done|done|].
      eapply heap_step_trans; [exact Hst|done].
Qed.

(** Where the search begins. *)
Definition search_start (size root : Z) : M (heap A) (Z * Z * Z) :=
  let! bet := gets l_bestBet in
  if negb (bet =? 0) then
    let! bsize := ld32 (bet + J_size) in
    let! busage := ld32 (bet + J_usage) in
    let bestSize := u32 (bsize - busage) in
    if bestSize >? u32 (size + sizeof_minor) then ret (bet, bestSize, 1)
    else ret (root, bestSize, 0)
  else ret (root, 0, 0).

Lemma wp_search_start s L size (Q : Z * Z * Z -> heap A -> Prop) :
  rep s L -> L <> [] ->
  (forall L1 j L2 bS sB, L = L1 ++ j :: L2 -> (sB = 0 \/ sB = 1) -> Q (j_addr j, bS, sB) s) ->
  wp (search_start size (l_memRoot s)) Q s.
Proof.
  intros Hr Hne HQ. unfold search_start. apply wp_bind, wp_gets.
  assert (Hroot : forall bS, Q (l_memRoot s, bS, 0) s).
  { intros bS. rewrite (rep_root _ _ Hr). destruct L as [|j L]; [done|].
    apply (HQ [] j L); auto. }
  destruct (l_bestBet s =? 0) eqn:E; [by apply wp_ret|].
  destruct (rep_bet _ _ Hr) as [?|(j & Hj & Hb)]; [lia|].
  apply list_elem_of_split in Hj as (L1 & L2 & HL). rewrite HL in Hr.
  destruct (old_usage _ _ _ _ Hr) as (Hmap & Hlen & Hpos & Hhi & Hjs & Hju & Hjf & Hus).
  rewrite Hb. cbn [negb].
  apply wp_bind, wp_ld32; [eapply mapped_range_sub; [exact Hmap|offs; lia..]|].
  apply wp_bind, wp_ld32; [eapply mapped_range_sub; [exact Hmap|offs; lia..]|].
  destruct (_ >? _); apply wp_ret; [by eapply HQ; [|right]|apply Hroot].
Qed.

Lemma wp_search_from h s L req size :
  rep s L -> L <> [] -> heap_step h L s L -> h_mem s = h_mem h -> h_arch s = h_arch h ->
  h_locked s = 1 -> 0 <= req < 2147483648 -> size = req + 32 ->
  pages_room (h_mem h) (h_arch h) (new_pages size) ->
  wp (let! (maj, bestSize, startedBet) := search_start size (l_memRoot s) in
      let! r := malloc_loop req size maj bestSize startedBet in
      match r with Some p => ret p | None => liballoc_unlock ;! ret 0 end)
    (malloc_post h L req) s.
Proof.
  intros Hr Hne Hst Hm Ha Hl Hreq Hsz Hroom. apply wp_bind, (wp_search_start s L); [done..|].
  intros L1 j L2 bS sB HL HsB. pose proof (heap_length _ (rep_wf _ _ Hr) (rep_apart _ _ Hr)) as Hlen.
  apply wp_bind.
  apply (wp_malloc_loop h L req size (1 + sB * Z.of_nat (length L) + Z.of_nat (length L2))).
  - split; [done|]. split; [done|]. left. split; [destruct HsB; subst sB; lia|].
    by exists L1, j, L2.
  - rewrite HL in Hlen |- *. rewrite length_app in *. simpl in *. destruct HsB; subst sB; lia.
  - done.
  - done.
  - done.
  - intros r s' Hp. by apply malloc_finish.
Qed.

Lemma wp_malloc_locked h s L req size :
  rep s L -> heap_step h L s L -> h_mem s = h_mem h -> h_arch s = h_arch h ->
  h_locked s = 1 -> 0 <= req < 2147483648 -> size = req + 32 ->
  pages_room (h_mem h) (h_arch h) (new_pages size) ->
  wp (malloc_locked req size) (malloc_post h L req) s.
Proof.
  intros Hr Hst Hm Ha Hl Hreq Hsz Hroom. unfold malloc_locked. apply wp_bind, wp_gets.
  destruct L as [|j L].
  - assert (l_memRoot s = 0) as -> by apply (rep_root _ _ Hr). simpl (0 =? 0).
    apply wp_bind, (wp_first_block h s req size (fun root => if root =? 0 then _ else _)); try done.
    + intros s' Hl' Hf Hr' Hst'. simpl. apply wp_bind, wp_modify, wp_ret. left.
      split_and!; [done|done|split; [done|by apply rep_locked]|].
      eapply heap_step_trans; [exact Hst'|apply step_locked].
    + intros k s' Hl' Hnew Hb Hk. destruct (j_addr k =? 0) eqn:E; [lia|].
      apply wp_bind, wp_gets. rewrite Hb. simpl negb. cbn iota.
      apply wp_bind, wp_ret, wp_bind.
      apply (wp_malloc_loop h [] req size 0); try done.
      * split; [done|]. split; [by left|]. by right.
      * intros r t Hp. by apply malloc_finish.
  - assert (l_memRoot s = j_addr j) as Hroot by apply (rep_root _ _ Hr).
    pose proof (rep_wf _ _ Hr) as Hw. apply Forall_cons in Hw as [(Hj & _) _].
    destruct (l_memRoot s =? 0) eqn:E; [lia|].
    apply wp_bind, wp_ret. rewrite E.
    pose proof (wp_search_from h s (j :: L) req size Hr ltac:(done) Hst Hm Ha Hl Hreq Hsz Hroom) as Hw.
    revert Hw. unfold search_start, wp at 1. rewrite bind_assoc. done.
Qed.

Lemma wp_malloc h L req :
  heap_inv h L -> 0 <= req < 2147483648 ->
  pages_room (h_mem h) (h_arch h) (new_pages (req + 32)) ->
  wp (malloc req) (malloc_post h L req) h.
Proof.
  intros [Hl Hr] Hreq Hroom. unfold malloc, ALIGNMENT, ALIGN_INFO.
  change (16 + 16) with 32. rewrite u32_small by lia.
  apply wp_bind, wp_lock; [done|]. destruct (req + 32 =? 0) eqn:E; [lia|].
  apply wp_malloc_locked; try done. by apply rep_locked.
Qed.
End malloc.
