(* ===== verification/LiballocFree.v ===== *)
(** * The kernel heap: correctness of [free] and [realloc]

    [free] unlinks the minor behind the pointer; a major left without minors
    goes back to the page provider.  A pointer whose header does not carry the
    magic number (a second free among them) is counted and changes nothing
    else. *)

From stdpp Require Import base numbers list gmap.
From Stdlib Require Import ZArith Lia.
From S2P Require Import Prelude Memory Process Pages Liballoc LiballocInv LiballocProof LiballocMalloc.

Local Open Scope Z_scope.

(** What unlinking [x] writes. *)
Record unlinked (m m' : mem) (maj prev next : Z) (x : mnr) : Prop := {
  ul_link : rd32 m' (link_field maj prev) = next;
  ul_prev : next <> 0 -> rd32 m' (next + N_prev) = prev;
  ul_usage : rd32 m' (maj + J_usage) = rd32 m (maj + J_usage) - (n_size x + 24);
  ul_dead : rd32 m' (n_addr x + N_magic) = LIBALLOC_DEAD;
  ul_agree : agree (untouched 0 maj prev next x) m m';
  ul_space : agree (fun a => n_addr x <= a < n_end x /\
    ~ n_addr x + N_magic <= a < n_addr x + N_magic + 4) m m';
}.

Lemma quiet_0 a : quiet 0 a.
Proof. by intros ?. Qed.

Lemma fits_remove lo l1 x l2 hi : fits lo (l1 ++ x :: l2) hi -> fits lo (l1 ++ l2) hi.
Proof.
  intros [Hf1 (? & ? & ? & Hf2)]%fits_app. apply fits_app. split; [done|].
  eapply fits_mono; [exact Hf2|unfold n_end; lia|lia].
Qed.

Lemma wf_remove j l1 x l2 :
  major_wf j -> j_minors j = l1 ++ x :: l2 -> major_wf (with_minors j (l1 ++ l2)).
Proof.
  intros (? & ? & ? & Hf) Hm. rewrite Hm in Hf. split_and!; [done..|]. by eapply fits_remove.
Qed.

Lemma unlinked_placing m m' j l1 l2 x :
  major_wf j -> j_minors j = l1 ++ x :: l2 ->
  unlinked m m' (j_addr j) (last_n 0 l1) (hd_n 0 l2) x ->
  placing m m' 0 (with_minors j (l1 ++ l2)) l1 l2 x.
Proof.
  intros Hwf Hm Hu. split; [by eapply wf_remove|done| |apply (ul_agree _ _ _ _ _ _ Hu)|].
  - rewrite <-Hm. apply Hwf.
  - intros a _. apply quiet_0.
Qed.

Lemma unlink_major m m' j l1 l2 x prev nxt :
  major_wf j -> j_minors j = l1 ++ x :: l2 ->
  unlinked m m' (j_addr j) (last_n 0 l1) (hd_n 0 l2) x ->
  major_rep m prev j nxt -> major_rep m' prev (with_minors j (l1 ++ l2)) nxt.
Proof.
  intros Hwf Hm Hul [Hma Hs]. pose proof (unlinked_placing _ _ _ _ _ _ Hwf Hm Hul) as Hg.
  destruct Hul as [Hlk Hpv Hus _ _ _]. pose proof Hma as (_ & _ & _ & _ & Hu & _).
  rewrite Hu in Hus. rewrite Hm in *.
  destruct (place_space _ _ _ _ _ _ _ Hg) as (_ & ? & ? & _). split; simpl.
  - rewrite usage_app in Hus by lia. rewrite hd_n_app in *.
    eapply (place_head _ _ _ _ _ _ _ _ _ _ _ _ _ Hg); [|exact Hlk|exact Hma]. simpl. lia.
  - rewrite minors_seg_app in *. simpl in Hs. destruct Hs as (Hs1 & _ & _ & Hs2). split.
    + by eapply (place_first _ _ _ _ _ _ _ _ _ Hg).
    + by eapply (place_second _ _ _ _ _ _ _ _ _ Hg).
Qed.

Section exec.
Context {A : Type} `{PageProvider A}.
Implicit Types (h : heap A) (L : list mjr).

Lemma wp_UNALIGN a h (Q : Z -> heap A -> Prop) :
  0 < a -> a + 56 <= 4294967296 -> align_at (h_mem h) a ->
  mapped (h_mem h) (uptr a - 16) = true ->
  Q (a + 24) h -> wp (UNALIGN (uptr a)) Q h.
Proof.
  intros Ha Hhi Hal Hm HQ. unfold UNALIGN, ALIGN_INFO, ALIGNMENT. pose proof (uptr_range a).
  apply wp_bind, wp_ld8; [lia|done|]. change (get_mem h) with (h_mem h). cbv zeta beta. unfold align_at in Hal. rewrite !Hal.
  assert (s8 (uptr a - (a + 24)) = uptr a - (a + 24)) as ->.
  { unfold s8. rewrite Z.mod_small; lia. }
  rewrite (u32_small (uptr a - (a + 24))) by lia. destruct (_ <? _) eqn:E; [|lia].
  replace (uptr a - (uptr a - (a + 24))) with (a + 24) by lia. rewrite u32_small by lia. by apply wp_ret.
Qed.

Definition after_unlink h (x : mnr) h' : Prop :=
  h_arch h' = h_arch h /\ l_memRoot h' = l_memRoot h /\ l_bestBet h' = l_bestBet h /\
  l_allocated h' = l_allocated h /\ l_inuse h' = u64 (l_inuse h - n_size x) /\
  h_proc h' = h_proc h /\ h_all_unlocked h' = h_all_unlocked h /\ h_locked h' = h_locked h.

Lemma add_inuse_get v h : add_inuse v h = set_mem (get_mem h) (add_inuse v h).
Proof. by destruct h. Qed.

Local Ltac unlinked_tac Ep Hlk :=
  rewrite ?Ep in Hlk; simpl in Hlk;
  change (h_mem ?h) with (get_mem h); lens;
  split; offs; unfold LIBALLOC_DEAD;
  [ rewrite Hlk; reads; lia
  | intros; reads; lia
  | reads; lia
  | reads; lia
  | split; [by rewrite ?ranges_mwrite|]; unfold untouched, n_end; rewrite Hlk; offs;
    intros b (? & ? & ? & ? & ?); reads; done
  | split; [by rewrite ?ranges_mwrite|]; unfold n_end; offs; intros b [? ?]; reads; done ].

(** The minor [x] and its neighbours lie in order in mapped memory. *)
Definition linked_spot (m : mem) (maj prev next : Z) (x : mnr) : Prop :=
  0 < maj /\ maj + 24 <= n_addr x /\ n_end x <= 4294967296 /\
  0 <= n_req x /\ n_req x + 32 <= n_size x /\
  mapped_range m (n_addr x) (24 + n_size x) /\ mapped_range m maj 24 /\
  (prev = 0 \/ maj + 24 <= prev /\ prev + 24 <= n_addr x /\ mapped_range m prev 24) /\
  (next = 0 \/ n_end x <= next /\ next + 24 <= 4294967296 /\ mapped_range m next 24).

Lemma linked_spot_of j l1 x l2 m :
  major_wf j -> j_minors j = l1 ++ x :: l2 -> mapped_range m (j_addr j) (j_len j) ->
  linked_spot m (j_addr j) (last_n 0 l1) (hd_n 0 l2) x.
Proof.
  intros (? & ? & ? & Hf) Hm Hmap. rewrite Hm in Hf.
  apply fits_app in Hf as [Hf1 (? & ? & ? & Hf2)].
  pose proof (fits_le _ _ _ Hf1). pose proof (fits_le _ _ _ Hf2).
  assert (Hsub : forall a n, j_addr j <= a -> a + n <= j_end j -> mapped_range m a n)
    by (intros; eapply mapped_range_sub; [exact Hmap|lia|unfold j_end in *; lia]).
  unfold linked_spot, n_end in *. split_and!; try lia; try (apply Hsub; lia).
  - destruct l1 as [|y l _] using rev_ind; [by left|right]. rewrite last_n_snoc.
    destruct (fits_elem _ _ _ y Hf1) as (? & ? & ? & ?); [apply elem_of_app; right; left|].
    unfold n_end in *. split_and!; [lia|lia|apply Hsub; lia].
  - destruct l2 as [|z l]; [by left|right]. simpl.
    destruct (fits_elem _ _ _ z Hf2) as (? & ? & ? & ?); [left|].
    unfold n_end in *. split_and!; [lia|lia|apply Hsub; lia].
Qed.

(** [unlink_minor] on a linked minor. *)
Lemma wp_unlink_minor h maj prev next x (Q : unit -> heap A -> Prop) :
  linked_spot (h_mem h) maj prev next x ->
  minor_at (h_mem h) (n_addr x) prev next maj (n_size x) (n_req x) ->
  0 <= rd32 (h_mem h) (maj + J_usage) - (n_size x + 24) ->
  (forall h', unlinked (h_mem h) (h_mem h') maj prev next x -> after_unlink h x h' -> Q tt h') ->
  wp (unlink_minor (n_addr x) maj) Q h.
Proof.
  intros (Hmaj & Hlo & Hhi & Hsz0 & Hsz & Hmap & Hmapj & Hpv & Hnx)
    (Hmp & Hmn & Hmb & Hmm & Hms & Hmr) Husage HQ.
  pose proof (rd32_range (h_mem h) (maj + J_usage)). unfold n_end in *.
  change (h_mem h) with (get_mem h) in *. unfold unlink_minor. offs.
Local Ltac side := offs; lens; rewrite ?mapped_range_mwrite;
    match goal with
    | Hm : mapped_range ?m ?a _ |- mapped_range ?m _ _ => eapply mapped_range_sub; [exact Hm|lia|lia]
    end.
  apply wp_bind, wp_ld32; [side|]. rewrite Hms.
  apply wp_bind, wp_modify. rewrite (add_inuse_get (- n_size x) h).
  apply wp_bind, wp_add_usage; [side|]. lens. offs. rewrite u32_small by lia.
  apply wp_bind, wp_st32; [side|]. lens.
  apply wp_bind, wp_ld32; [side|]. lens. reads. rewrite Hmn.
  apply wp_bind, wp_ld32; [side|]. lens. reads. rewrite Hmp.
  assert (Hn : next = 0 \/ mapped_range (get_mem h) next 24) by tauto.
  assert (Hp : prev = 0 \/ mapped_range (get_mem h) prev 24) by tauto.
  assert (Hlk : link_field maj prev = if prev =? 0 then maj + 20 else prev + 4) by done.
  destruct (next =? 0) eqn:En; destruct (prev =? 0) eqn:Ep; cbn [negb];
    first [destruct Hn as [?|Hn]; [lia|] | assert (next = 0) as -> by lia];
    first [destruct Hp as [?|Hp]; [lia|] | assert (prev = 0) as -> by lia];
    repeat (apply wp_bind; (apply wp_ret || (apply wp_st32; [side|]; lens)));
    (apply wp_ret || (apply wp_st32; [side|]; lens));
    (apply HQ; [unlinked_tac Ep Hlk|by split_and!]).
Qed.

(** What a release may do to the rest of memory. *)
Record free_step h L (x : mnr) h' L' : Prop := {
  fs_agree : agree (fun a => ~ owned h L a /\ ~ user_byte x a) (h_mem h) (h_mem h');
  fs_owned : forall a, owned h' L' a -> owned h L a \/ user_byte x a;
  fs_proc : h_proc h' = h_proc h;
  fs_unlocked : h_all_unlocked h' = h_all_unlocked h;
}.

Lemma untouched_agree m m' j l1 l2 x :
  major_wf j -> j_minors j = l1 ++ x :: l2 ->
  unlinked m m' (j_addr j) (last_n 0 l1) (hd_n 0 l2) x ->
  agree (fun a => ~ major_byte j a) m m'.
Proof.
  intros Hwf Hm Hu. pose proof (unlinked_placing _ _ _ _ _ _ Hwf Hm Hu) as Hg.
  pose proof (place_agree _ _ _ _ _ _ _ Hg) as [Hr Hd]. split; [done|]. intros a Ha.
  destruct (decide (n_addr x <= a < n_end x /\ ~ n_addr x + N_magic <= a < n_addr x + N_magic + 4)) as [Hx|Hx].
  { by apply (ul_space _ _ _ _ _ _ Hu). }
  apply Hd. split; [|apply quiet_0]. intros [Hr1 Hr2]. apply Ha. split; [done|].
  assert (Hwf' := Hwf). destruct Hwf' as (? & ? & ? & Hf). rewrite Hm in *.
  intros y Hy Hyu. apply elem_of_app in Hy as [Hy|Hy].
  { eapply Hr2; [|done]. apply elem_of_app. by left. }
  apply elem_of_cons in Hy as [->|Hy].
  { apply Hx. apply fits_app in Hf as [_ (? & ? & ? & _)].
    apply user_byte_range in Hyu; [|done]. offs. lia. }
  eapply Hr2; [|done]. apply elem_of_app. by right.
Qed.

Lemma remove_byte j l1 x l2 a :
  j_minors j = l1 ++ x :: l2 ->
  major_byte (with_minors j (l1 ++ l2)) a -> major_byte j a \/ user_byte x a.
Proof.
  intros Hm [Hr Hb]. destruct (decide (uptr (n_addr x) <= a < uptr (n_addr x) + n_req x)); [by right|left].
  split; [done|]. rewrite Hm. intros y Hy Hu. apply elem_of_mid in Hy as [Hy|[->|Hy]]; [|done|].
  - eapply Hb; [|done]. simpl. apply elem_of_app. by left.
  - eapply Hb; [|done]. simpl. apply elem_of_app. by right.
Qed.

Lemma rep_unlink h h' L1 j l1 x l2 L2 :
  rep h (L1 ++ j :: L2) -> j_minors j = l1 ++ x :: l2 ->
  unlinked (h_mem h) (h_mem h') (j_addr j) (last_n 0 l1) (hd_n 0 l2) x ->
  after_unlink h x h' -> (h_proc h = 0 \/ forall a, log_bytes (h_proc h) a -> ~ user_byte x a) ->
  rep h' (L1 ++ with_minors j (l1 ++ l2) :: L2) /\
  free_step h (L1 ++ j :: L2) x h' (L1 ++ with_minors j (l1 ++ l2) :: L2).
Proof.
  set (j' := with_minors j (l1 ++ l2)).
  intros Hr Hm Hul (Harch & Hroot & Hbet & Hall & Hin & Hp & Hau & _) Hlog.
  pose proof (rep_mid_wf _ _ _ _ Hr) as Hwf.
  pose proof (untouched_agree _ _ _ _ _ _ Hwf Hm Hul) as Ha.
  destruct (rep_update h h' L1 j (l1 ++ l2) L2) as [Hr' Ho]; try done.
  - by eapply wf_remove.
  - eapply agree_mono; [exact Ha|]. tauto.
  - eapply unlink_major; [done..|]. by apply rep_mid.
  - intros a Hb Hp0 Hl. destruct (remove_byte _ _ _ _ _ Hm Hb).
    + by eapply (rep_mid_quiet h L1 j L2).
    + destruct Hlog as [?|Hlog]; [done|by eapply Hlog].
  - destruct Hwf as (_ & _ & _ & Hf). rewrite Hm in Hf.
    destruct (fits_elem _ _ _ x Hf) as (? & ? & ? & ?); [apply elem_of_mid; auto|].
    pose proof (usages_mid L1 j' l1 x l2 L2 eq_refl ltac:(lia)) as Hus.
    replace (with_minors j' (l1 ++ x :: l2)) with j in Hus by (destruct j; simpl in *; by subst).
    rewrite Hin, (rep_inuse _ _ Hr), Hus, <-Z.add_opp_r, u64_add. f_equal. unfold j'. lia.
  - split; [done|]. split; [|intros a Hoa|done..].
    + eapply agree_mono; [exact Ha|]. intros a [Hno _] Hb. apply Hno. left. apply mid_heap_byte. auto.
    + unfold owned. rewrite mid_heap_byte. destruct (Ho a Hoa) as [?|[Hb|[?|?]]]; auto.
      destruct (remove_byte _ _ _ _ _ Hm Hb); auto.
Qed.

(** *** Giving a major back *)

Lemma apart_addr L1 j L2 k :
  Forall major_wf (L1 ++ j :: L2) -> apart (L1 ++ j :: L2) -> k ∈ L1 \/ k ∈ L2 ->
  j_end k <= j_addr j \/ j_end j <= j_addr k.
Proof.
  intros _ (_ & [Hf _] & Hx)%apart_app Hk. rewrite Forall_forall in Hf. destruct Hk as [Hk|Hk].
  - destruct (Hx k j Hk ltac:(left)); lia.
  - destruct (Hf k Hk); lia.
Qed.

(** The words written when [j] leaves the list. *)
Definition unlink_words (L1 L2 : list mjr) (a : Z) : Prop :=
  (exists k, last L1 = Some k /\ j_addr k + J_next <= a < j_addr k + J_next + 4) \/
  (exists k, head L2 = Some k /\ j_addr k + J_prev <= a < j_addr k + J_prev + 4).

Lemma unlink_words_byte L1 L2 a :
  Forall major_wf L1 -> Forall major_wf L2 -> unlink_words L1 L2 a ->
  heap_byte L1 a \/ heap_byte L2 a.
Proof.
  intros Hw1 Hw2 [(k & Hk & Ha)|(k & Hk & Ha)]; [left|right].
  - apply last_Some_elem_of in Hk. exists k. split; [done|]. rewrite Forall_forall in Hw1.
    apply head_major_byte; [auto|]. offs. lia.
  - destruct L2 as [|k' L2]; [done|]. injection Hk as ->. exists k. split; [left|].
    apply Forall_cons in Hw2 as [? _]. apply head_major_byte; [done|]. offs. lia.
Qed.

Lemma release_seg m m' L1 j L2 :
  Forall major_wf (L1 ++ j :: L2) -> apart (L1 ++ j :: L2) ->
  majors_seg m 0 (L1 ++ j :: L2) 0 ->
  agree (fun a => (heap_byte L1 a \/ heap_byte L2 a) /\ ~ unlink_words L1 L2 a) m m' ->
  (forall k, last L1 = Some k -> rd32 m' (j_addr k + J_next) = hd_j 0 L2) ->
  (forall k, head L2 = Some k -> rd32 m' (j_addr k + J_prev) = last_j 0 L1) ->
  majors_seg m' 0 (L1 ++ L2) 0.
Proof.
  intros Hw Hap Hs Ha Hn Hp. rewrite majors_seg_mid in Hs. destruct Hs as (Hs1 & _ & Hs2).
  apply Forall_app in Hw as [Hw1 [_ Hw2]%Forall_cons].
  apply apart_app in Hap as (Hap1 & [Hfj Hap2] & Hx).
  assert (H12 : forall k a i, k ∈ L1 -> i ∈ L2 -> j_addr k <= a < j_end k -> ~ j_addr i <= a < j_end i).
  { intros k a i Hk Hi. destruct (Hx k i Hk ltac:(by right)); lia. }
  assert (Hh1 : forall k a, k ∈ L1 -> j_addr k <= a < j_addr k + 24 -> j_addr k <= a < j_end k).
  { intros k a Hk ?. rewrite Forall_forall in Hw1. destruct (Hw1 k Hk) as (? & ? & ? & Hf).
    pose proof (fits_le _ _ _ Hf). lia. }
  assert (Hh2 : forall k a, k ∈ L2 -> j_addr k <= a < j_addr k + 24 -> j_addr k <= a < j_end k).
  { intros k a Hk ?. rewrite Forall_forall in Hw2. destruct (Hw2 k Hk) as (? & ? & ? & Hf).
    pose proof (fits_le _ _ _ Hf). lia. }
  rewrite majors_seg_app. split.
  - destruct L1 as [|k L1' _] using rev_ind; [done|].
    eapply majors_seg_set_next; [done| |by apply Hn; rewrite last_snoc|exact Hs1].
    eapply agree_mono; [exact Ha|]. intros a Hb. split.
    { left. destruct Hb as [(i & Hi & Hb)|[Hb _]]; [exists i|exists k]; (split; [apply elem_of_app|done]);
        [by left|right; left]. }
    intros [(i & Hi & Hl)|(i & Hi & Hl)].
    + rewrite last_snoc in Hi. injection Hi as <-. destruct Hb as [(i & Hi & [Hb _])|[_ Hb]]; [|done].
      apply apart_app in Hap1 as (_ & _ & Hx1). destruct (Hx1 i k Hi ltac:(left));
        pose proof (Hh1 k a ltac:(apply elem_of_app; right; left) ltac:(offs; lia)); lia.
    + destruct L2 as [|i' L2]; [done|]. injection Hi as ->.
      pose proof (Hh2 i a ltac:(left) ltac:(offs; lia)).
      destruct Hb as [(i' & Hi' & [Hb _])|[[Hb _] _]].
      * eapply (H12 i' a i); [apply elem_of_app; by left|left|done|done].
      * eapply (H12 k a i); [apply elem_of_app; right; left|left|done|done].
  - destruct L2 as [|k L2']; [done|].
    eapply majors_seg_set_prev; [done| |by apply Hp|exact Hs2].
    eapply agree_mono; [exact Ha|]. intros a Hb. split.
    { right. destruct Hb as [(i & Hi & Hb)|[Hb _]]; [exists i|exists k]; (split; [|done]);
        [by right|left]. }
    intros [(i & Hi & Hl)|(i & Hi & Hl)].
    + apply last_Some_elem_of in Hi. pose proof (Hh1 i a Hi ltac:(offs; lia)).
      destruct Hb as [(i' & Hi' & [Hb _])|[[Hb _] _]].
      * eapply (H12 i a i'); [done|by right|done|done].
      * eapply (H12 i a k); [done|left|done|done].
    + injection Hi as <-. destruct Hb as [(i & Hi & [Hb _])|[_ Hb]]; [|done].
      destruct Hap2 as [Hf2 _]. rewrite Forall_forall in Hf2. destruct (Hf2 i Hi);
        pose proof (Hh2 k a ltac:(left) ltac:(offs; lia)); lia.
Qed.

(** The blocks beside [j]. *)
Lemma beside s L1 j L2 :
  rep s (L1 ++ j :: L2) ->
  (forall k, k ∈ L1 \/ k ∈ L2 -> 0 < j_addr k /\ mapped_range (h_mem s) (j_addr k) 24 /\
    (j_addr k + 24 <= j_addr j \/ j_addr j + 24 <= j_addr k)) /\
  (forall k k', k ∈ L1 -> k' ∈ L2 -> j_addr k + 24 <= j_addr k' \/ j_addr k' + 24 <= j_addr k) /\
  ((L1 = [] /\ last_j 0 L1 = 0) \/ exists k, last L1 = Some k /\ last_j 0 L1 = j_addr k /\ k ∈ L1) /\
  ((L2 = [] /\ hd_j 0 L2 = 0) \/ exists k, head L2 = Some k /\ hd_j 0 L2 = j_addr k /\ k ∈ L2) /\
  (if l_memRoot s =? j_addr j then hd_j 0 L2 else l_memRoot s) = hd_j 0 (L1 ++ L2).
Proof.
  intros Hr. destruct (old_usage _ _ _ _ Hr) as (_ & Hlen & Hpos & Hhi & _).
  pose proof (rep_wf _ _ Hr) as Hw. pose proof (rep_apart _ _ Hr) as Hap.
  assert (Hw' : forall k, k ∈ L1 ++ j :: L2 -> 0 < j_addr k /\ j_addr k + 24 <= j_end k).
  { intros k Hk. rewrite Forall_forall in Hw. destruct (Hw k Hk) as (? & ? & ? & Hf).
    pose proof (fits_le _ _ _ Hf). lia. }
  assert (Hother : forall k, k ∈ L1 \/ k ∈ L2 -> 0 < j_addr k /\ mapped_range (h_mem s) (j_addr k) 24 /\
    (j_addr k + 24 <= j_addr j \/ j_addr j + 24 <= j_addr k)).
  { intros k Hk. assert (k ∈ L1 ++ j :: L2) as Hin by (apply elem_of_mid; tauto).
    destruct (Hw' k Hin). split_and!; [done| |].
    - eapply mapped_range_sub; [exact (rep_mapped _ _ Hr k Hin)|lia|unfold j_end in *; lia].
    - destruct (apart_addr _ _ _ k Hw Hap Hk); unfold j_end in *; lia. }
  split_and!; [done| | | |].
  - intros k k' Hk Hk'. destruct (Hw' k ltac:(apply elem_of_mid; tauto)).
    destruct (Hw' k' ltac:(apply elem_of_mid; tauto)).
    apply apart_app in Hap as (_ & _ & Hx). destruct (Hx k k' Hk ltac:(by right)); lia.
  - unfold last_j. destruct (last L1) as [k|] eqn:E; [right|left].
    + exists k. split_and!; [done|done|]. by apply last_Some_elem_of.
    + split; [by apply last_None|done].
  - destruct L2 as [|k L2]; [by left|right]. exists k. split_and!; [done|done|left].
  - rewrite (rep_root _ _ Hr). destruct L1 as [|k L1]; simpl; [by rewrite Z.eqb_refl|].
    destruct (Hother k ltac:(left; left)) as (? & _ & ?). destruct (j_addr k =? j_addr j) eqn:E; [lia|done].
Qed.

(** *** The stores of [release_major] *)

(** Memory when the pointers of the neighbours pass by [j]. *)
Definition skipped (m : mem) (L1 L2 : list mjr) : mem :=
  let m1 := if last_j 0 L1 =? 0 then m else mwrite m (last_j 0 L1 + J_next) (le32 (hd_j 0 L2)) in
  if hd_j 0 L2 =? 0 then m1 else mwrite m1 (hd_j 0 L2 + J_prev) (le32 (last_j 0 L1)).

Lemma skipped_spec s L1 j L2 :
  rep s (L1 ++ j :: L2) -> let m := skipped (h_mem s) L1 L2 in
  agree (fun a => ~ unlink_words L1 L2 a) (h_mem s) m /\
  agree (fun a => j_addr j <= a < j_addr j + 24) (h_mem s) m /\
  (forall k, last L1 = Some k -> rd32 m (j_addr k + J_next) = hd_j 0 L2) /\
  (forall k, head L2 = Some k -> rd32 m (j_addr k + J_prev) = last_j 0 L1).
Proof.
  intros Hr m. destruct (beside _ _ _ _ Hr) as (Hother & Hsep & Hlast & Hhead & _).
  destruct (rep_mid _ _ _ _ Hr) as [(Hpv & Hnx & _) _]. unfold skipped in m.
  assert (Hout : forall b, (forall k, last L1 = Some k -> ~ j_addr k + J_next <= b < j_addr k + J_next + 4) ->
    (forall k, head L2 = Some k -> ~ j_addr k + J_prev <= b < j_addr k + J_prev + 4) -> rd m b = rd (h_mem s) b).
  { intros b H1 H2. unfold m. destruct Hhead as [[_ ->]|(k & Hk & -> & _)]; simpl; [|case_match; [|
      rewrite rd_mwrite_out by (rewrite le32_length; pose proof (H2 _ Hk); lia)]];
      (destruct Hlast as [[_ ->]|(i & Hi & -> & _)]; simpl; [done|]; case_match; [done|];
       by rewrite rd_mwrite_out by (rewrite le32_length; pose proof (H1 _ Hi); lia)). }
  assert (Hran : m_ranges m = m_ranges (h_mem s)) by (unfold m; repeat case_match; by rewrite ?ranges_mwrite).
  split_and!.
  - split; [done|]. intros b Hb. apply Hout; intros k Hk Hx; apply Hb; [left|right]; eauto.
  - split; [done|]. intros b Hb. apply Hout; intros k Hk.
    + destruct (Hother k) as (_ & _ & ?); [left; by apply last_Some_elem_of|]. offs. lia.
    + destruct L2 as [|k' L2]; [done|]. injection Hk as ->. destruct (Hother k) as (_ & _ & ?); [right; left|]. offs. lia.
  - intros k Hk. unfold m. destruct Hlast as [[-> _]|(k' & Hk' & -> & Hin)]; [done|]. assert (k' = k) as -> by congruence.
    destruct (Hother k ltac:(by left)) as (? & _ & _). rewrite (proj2 (Z.eqb_neq (j_addr k) 0)) by lia.
    assert (Hw : rd32 (mwrite (h_mem s) (j_addr k + J_next) (le32 (hd_j 0 L2))) (j_addr k + J_next) = hd_j 0 L2)
      by (apply rd32_mwrite_eq; [done|]; rewrite <-Hnx; apply rd32_range).
    destruct Hhead as [[_ E]|(i & _ & E & Hi)]; rewrite E in *; simpl; [done|]. case_match; [done|].
    rewrite rd32_mwrite_out; [done|]. rewrite le32_length. destruct (Hsep k i Hin Hi); offs; lia.
  - intros k Hk. unfold m. destruct Hhead as [[-> _]|(k' & Hk' & -> & Hin)]; [done|]. assert (k' = k) as -> by congruence.
    destruct (Hother k ltac:(by right)) as (? & _ & _). rewrite (proj2 (Z.eqb_neq (j_addr k) 0)) by lia.
    apply rd32_mwrite_eq; [done|]. rewrite <-Hpv. apply rd32_range.
Qed.

(** A store through a pointer that may be null. *)
Lemma wp_store_if p o v s (Q : unit -> heap A -> Prop) :
  (p = 0 \/ mapped_range (get_mem s) (p + o) 4) ->
  Q tt (set_mem (if p =? 0 then get_mem s else mwrite (get_mem s) (p + o) (le32 v)) s) ->
  wp (if! negb (p =? 0) then st32 (p + o) v) Q s.
Proof.
  intros Hm HQ. destruct (p =? 0) eqn:E; cbn [negb] in *; [apply wp_ret; by rewrite set_get_mem in HQ|].
  apply wp_st32; [|done]. destruct Hm; [lia|done].
Qed.

Lemma wp_modify_if (b : bool) (f : heap A -> heap A) s (Q : unit -> heap A -> Prop) :
  Q tt (if b then f s else s) -> wp (if! b then modify f) Q s.
Proof. destruct b; [by apply wp_modify|by apply wp_ret]. Qed.

(** The state when the block goes to the page provider. *)
Definition skipping L1 j L2 (s : heap A) : heap A :=
  add_allocated (- j_len j) (set_mem (skipped (h_mem s) L1 L2)
    (set_bestBet (if l_bestBet s =? j_addr j then 0 else l_bestBet s) (set_memRoot (hd_j 0 (L1 ++ L2)) s))).

Lemma wp_release_exec s L1 j L2 (Q : unit -> heap A -> Prop) :
  rep s (L1 ++ j :: L2) ->
  wp (liballoc_free (j_addr j) (j_pages j) ;! ret tt) Q (skipping L1 j L2 s) ->
  wp (release_major (j_addr j)) Q s.
Proof.
  intros Hr HQ. destruct (old_usage _ _ _ _ Hr) as (Hmap & Hlen & _ & _ & Hjs & _).
  destruct (rep_mid _ _ _ _ Hr) as [(Hpv & Hnx & Hpg & _) _].
  destruct (beside _ _ _ _ Hr) as (Hother & _ & Hlast & Hhead & Hroot).
  destruct (skipped_spec _ _ _ _ Hr) as (_ & Hag & _).
  assert (Hlk1 : mapped_range (h_mem s) (j_addr j) 24) by (eapply mapped_range_sub; [exact Hmap|lia|lia]). clear Hmap.
  assert (Hmap2 : mapped_range (skipped (h_mem s) L1 L2) (j_addr j) 24) by (eapply agree_mapped_range; [exact Hag|exact Hlk1]).
  rewrite <-(rd32_agree _ _ _ _ Hag) in Hjs by (offs; lia). rewrite <-(rd32_agree _ _ _ _ Hag) in Hpg by (offs; lia).
  unfold release_major. apply wp_bind, wp_ld32; [side|]. change (get_mem s) with (h_mem s). rewrite Hnx.
  apply wp_bind, wp_gets. apply wp_bind, wp_modify_if.
  replace (if l_memRoot s =? j_addr j then _ else s) with (set_memRoot (hd_j 0 (L1 ++ L2)) s)
    by (rewrite <-Hroot; by destruct (l_memRoot s =? j_addr j), s).
  apply wp_bind, wp_gets, wp_bind, wp_modify_if. change (l_bestBet (set_memRoot _ s)) with (l_bestBet s).
  set (s1 := set_memRoot _ s).
  replace (if l_bestBet s =? j_addr j then _ else s1) with (set_bestBet (if l_bestBet s =? j_addr j then 0 else l_bestBet s) s1)
    by (by destruct (l_bestBet s =? j_addr j), s).
  apply wp_bind, wp_ld32; [eapply mapped_range_sub; [exact Hlk1|offs; lia..]|]. change (get_mem _) with (h_mem s). rewrite Hpv.
  apply wp_bind, wp_store_if; [|apply wp_bind, wp_store_if].
  - destruct Hlast as [[_ ->]|(k & _ & -> & Hin)]; [by left|right].
    destruct (Hother k ltac:(by left)) as (_ & Hmk & _). eapply mapped_range_sub; [exact Hmk|offs; lia..].
  - lens. destruct Hhead as [[_ ->]|(k & _ & -> & Hin)]; [by left|right].
    destruct (Hother k ltac:(by right)) as (_ & Hmk & _). destruct (last_j 0 L1 =? 0); rewrite ?mapped_range_mwrite;
      (eapply mapped_range_sub; [exact Hmk|offs; lia..]).
  - lens. change (get_mem _) with (h_mem s). fold (skipped (h_mem s) L1 L2).
    apply wp_bind, wp_ld32; [lens; eapply mapped_range_sub; [exact Hmap2|offs; lia..]|]. lens. rewrite Hjs.
    apply wp_bind, wp_modify, wp_bind, wp_ld32; [eapply mapped_range_sub; [exact Hmap2|offs; lia..]|].
    change (get_mem _) with (skipped (h_mem s) L1 L2). rewrite Hpg. exact HQ.
Qed.

Lemma sum_len_mid L1 j L2 :
  Z.of_nat (sum_list_with (fun j => Z.to_nat (j_len j)) (L1 ++ j :: L2)) =
  Z.of_nat (sum_list_with (fun j => Z.to_nat (j_len j)) (L1 ++ L2)) + Z.max 0 (j_len j).
Proof. rewrite !sum_list_with_app. simpl. lia. Qed.

(** The heap without the block, when the provider has taken its pages. *)
Lemma rep_released s L1 j L2 x m2 a2 :
  let L := L1 ++ j :: L2 in let s1 := skipping L1 j L2 s in let h' := set_pages (m2, a2) s1 in
  let res := reserved (h_mem s) (h_arch s) in
  rep s L -> j_minors j = [] -> pages_ok m2 a2 ->
  (forall a, reserved m2 a2 a -> res a \/ j_addr j <= a < j_end j) ->
  agree (fun a => ~ res a) (h_mem s1) m2 ->
  rep h' (L1 ++ L2) /\ free_step s L x h' (L1 ++ L2).
Proof.
  intros L s1 h' res Hr Hjm Hok Hnew Hag2. destruct (skipped_spec _ _ _ _ Hr) as (Hag & _ & Hn & Hp).
  destruct (beside _ _ _ _ Hr) as (_ & _ & _ & _ & Hroot).
  pose proof Hr as [Hseg Hw Hap Hrt Hbt Hmap Hpg Hsep Hpr Hal Hiu].
  pose proof Hw as Hw'. apply Forall_app in Hw' as [Hw1 [Hwj Hw2]%Forall_cons].
  assert (Hin : forall k, k ∈ L1 ++ L2 -> k ∈ L) by (intros k Hk%elem_of_app; apply elem_of_mid; tauto).
  assert (Hwords : forall a, unlink_words L1 L2 a -> heap_byte L1 a \/ heap_byte L2 a) by (intros; by apply unlink_words_byte).
  assert (Hbeside : forall a, heap_byte L1 a \/ heap_byte L2 a -> ~ res a).
  { intros a [(k & Hk & Hb & _)|(k & Hk & Hb & _)]; (eapply (Hsep k); [apply elem_of_mid; tauto|exact Hb]). }
  assert (Hown : forall a, owned h' (L1 ++ L2) a -> owned s L a).
  { intros a [Hb|Hb].
    - left. apply mid_heap_byte. destruct Hb as (k & [Hk|Hk]%elem_of_app & Hb); [left|right; right]; by exists k.
    - simpl in Hb. destruct (Hnew a Hb) as [Ho|Ho]; [by right|left].
      exists j. split; [apply elem_of_mid; auto|]. split; [done|]. rewrite Hjm. intros y Hy. by apply not_elem_of_nil in Hy. }
  assert (Hagt : agree (fun a => ~ unlink_words L1 L2 a /\ ~ res a) (h_mem s) m2).
  { eapply agree_trans; [eapply agree_mono; [exact Hag|tauto]|]. eapply agree_mono; [exact Hag2|]. by intros a [_ ?]. }
  split; [split|split]; try done.
  - eapply majors_seg_agree; [by apply Forall_app|eapply agree_mono; [exact Hag2|]|].
    + intros a (k & [Hk|Hk]%elem_of_app & Hb); apply Hbeside; [left|right]; by exists k.
    + eapply (release_seg (h_mem s)); try done. eapply agree_mono; [exact Hag|]. tauto.
  - by apply Forall_app.
  - apply apart_app in Hap as (Ha1 & [_ Ha2] & Hx). apply apart_app. split_and!; [done|done|].
    intros k k' Hk Hk'. apply Hx; [done|by right].
  - simpl. destruct Hbt as [->|(k & Hk & ->)]; [left; by destruct (0 =? j_addr j)|].
    destruct (j_addr k =? j_addr j) eqn:E; [by left|right]. exists k. split; [|done].
    apply elem_of_mid in Hk as [?|[->|?]]; [apply elem_of_app; auto|lia|apply elem_of_app; auto].
  - intros k Hk. eapply agree_mapped_range; [exact Hagt|]. by apply Hmap, Hin.
  - intros k a Hk Ha Hb. simpl in Hb. destruct (Hnew a Hb) as [Ho|Ho]; [by apply (Hsep k a (Hin k Hk))|].
    destruct (apart_addr _ _ _ k Hw Hap); [by apply elem_of_app|lia..].
  - destruct Hpr as [?|[[? Hpm] Hq]]; [by left|right]. split.
    + split; [done|]. eapply agree_mapped_range; [exact Hagt|done].
    + intros a Hl Ho. by apply (Hq a Hl), Hown.
  - simpl. rewrite Hal, u64_add. f_equal. unfold L. rewrite sum_len_mid. destruct Hwj as (? & ? & ? & _). unfold j_len. lia.
  - simpl. rewrite Hiu. unfold usages, L. rewrite !sum_list_with_app. simpl. by rewrite Hjm.
  - eapply agree_mono; [exact Hagt|]. intros a [Ho _]. split; [|intros Hre; apply Ho; by right].
    intros Hu. apply Ho. left. apply mid_heap_byte. destruct (Hwords a Hu); auto.
  - intros a Ha. left. by apply Hown.
Qed.

(** An empty block leaves the heap; its pages may become the provider's. *)
Lemma wp_release_major s L1 j L2 x (Q : unit -> heap A -> Prop) :
  rep s (L1 ++ j :: L2) -> j_minors j = [] ->
  (forall h', rep h' (L1 ++ L2) -> free_step s (L1 ++ j :: L2) x h' (L1 ++ L2) ->
     h_locked h' = h_locked s -> Q tt h') ->
  wp (release_major (j_addr j)) Q s.
Proof.
  intros Hr Hjm HQ. apply (wp_release_exec s L1 j L2); [done|]. destruct (skipped_spec _ _ _ _ Hr) as (Hag & _).
  pose proof (rep_pages _ _ Hr) as Hpg. pose proof (rep_sep _ _ Hr) as Hsep.
  assert (Hres1 : agree (reserved (h_mem s) (h_arch s)) (h_mem s) (skipped (h_mem s) L1 L2)).
  { pose proof (rep_wf _ _ Hr) as Hw. apply Forall_app in Hw as [Hw1 [_ Hw2]%Forall_cons].
    eapply agree_mono; [exact Hag|]. intros a Ha Hu.
    destruct (unlink_words_byte _ _ _ Hw1 Hw2 Hu) as [(k & Hk & Hb & _)|(k & Hk & Hb & _)];
      (eapply (Hsep k); [apply elem_of_mid; tauto|exact Hb|done]). }
  destruct (pages_frame _ _ _ Hpg Hres1) as (Hok1 & Hre1 & _).
  apply wp_bind. unfold liballoc_free. apply wp_zoom.
  change (wp (mm_free_pages (j_addr j) (j_pages j)) (fun x p => wp (ret tt) Q (set_pages p (skipping L1 j L2 s)))
    (skipped (h_mem s) L1 L2, h_arch s)).
  eapply wp_mono; [apply mm_free_pages_spec; [exact Hok1|]|].
  { intros a Ha. rewrite Hre1. apply (Hsep j); [apply elem_of_mid; auto|exact Ha]. }
  intros _ [m2 a2] (Hok2 & Hkeep & Hnew & Hag2). apply wp_ret.
  destruct (rep_released s L1 j L2 x m2 a2) as [Hr' Hs]; [done..| | |].
  - intros a Ha. destruct (Hnew a Ha) as [Ho|Ho]; [left; by apply Hre1|right; exact Ho].
  - eapply agree_mono; [exact Hag2|]. intros a Ha Hx. by apply Ha, Hre1.
  - by apply HQ.
Qed.

(** *** [free] *)

(** [x] has left the heap; the second case also gave its block back. *)
Inductive shrunk (x : mnr) : list mjr -> list mjr -> Prop :=
  | shrunk_in L1 j l1 l2 L2 :
      j_minors j = l1 ++ x :: l2 -> l1 ++ l2 <> [] ->
      shrunk x (L1 ++ j :: L2) (L1 ++ with_minors j (l1 ++ l2) :: L2)
  | shrunk_last L1 j L2 :
      j_minors j = [x] -> shrunk x (L1 ++ j :: L2) (L1 ++ L2).

(** The layout after [x] has left [j]. *)
Definition after_free (L1 : list mjr) (j : mjr) (l1 l2 : list mnr) (L2 : list mjr) : list mjr :=
  match l1 ++ l2 with
  | [] => L1 ++ L2
  | _ => L1 ++ with_minors j (l1 ++ l2) :: L2
  end.

Record free_done h L (x : mnr) h' L' : Prop := {
  fd_inv : heap_inv h' L';
  fd_shrunk : shrunk x L L';
  fd_step : free_step h L x h' L';
  fd_dead : length L' = length L ->
    rd32 (h_mem h') (n_addr x + N_magic) = LIBALLOC_DEAD /\ align_at (h_mem h') (n_addr x);
}.

Lemma wp_update_bet s L1 j L2 (Q : unit -> heap A -> Prop) :
  rep s (L1 ++ j :: L2) ->
  (forall b, (b = l_bestBet s \/ b = j_addr j) -> Q tt (set_bestBet b s)) ->
  wp (update_bet (j_addr j)) Q s.
Proof.
  intros Hr HQ. unfold update_bet. apply wp_bind, wp_gets.
  assert (Hsame : Q tt s) by (destruct s; apply HQ; by left).
  destruct (l_bestBet s =? 0) eqn:E; [by apply wp_ret|]. cbn [negb].
  destruct (rep_bet _ _ Hr) as [?|(k & Hk & ->)]; [lia|].
  apply list_elem_of_split in Hk as (K1 & K2 & HK).
  destruct (old_usage _ _ _ _ Hr) as (Hmap & Hlen & _). rewrite HK in Hr.
  destruct (old_usage _ _ _ _ Hr) as (Hmap' & Hlen' & _).
  apply wp_bind, wp_ld32; [eapply mapped_range_sub; [exact Hmap'|offs; lia..]|].
  apply wp_bind, wp_ld32; [eapply mapped_range_sub; [exact Hmap'|offs; lia..]|].
  apply wp_bind, wp_ld32; [eapply mapped_range_sub; [exact Hmap|offs; lia..]|].
  apply wp_bind, wp_ld32; [eapply mapped_range_sub; [exact Hmap|offs; lia..]|].
  destruct (s32 _ <? s32 _); [apply wp_modify, HQ; by right|by apply wp_ret].
Qed.

Lemma rep_set_bet h L b :
  rep h L -> (b = 0 \/ exists j, j ∈ L /\ b = j_addr j) -> rep (set_bestBet b h) L.
Proof. by intros [] ?. Qed.

(** After unlinking: the block is given back, or may become the best bet. *)
Lemma wp_free_tail h s L1 j l1 x l2 L2 (Q : unit -> heap A -> Prop) :
  let L := L1 ++ j :: L2 in let L' := L1 ++ with_minors j (l1 ++ l2) :: L2 in
  rep s L' -> free_step h L x s L' -> j_minors j = l1 ++ x :: l2 ->
  rd32 (h_mem s) (n_addr x + N_magic) = LIBALLOC_DEAD -> align_at (h_mem s) (n_addr x) ->
  (forall h', free_done h L x h' (after_free L1 j l1 l2 L2) -> Q tt h') ->
  wp (let! first := ld32 (j_addr j + J_first) in
      (if first =? 0 then release_major (j_addr j) else update_bet (j_addr j)) ;!
      liballoc_unlock) Q s.
Proof.
  intros L L' Hr [Ha Ho Hp Hu] Hm Hdead Hal HQ. subst L L'. unfold after_free in HQ.
  set (j' := with_minors j (l1 ++ l2)) in *.
  destruct (old_usage _ _ _ _ Hr) as (Hmap & Hlen & _ & _ & _ & _ & Hfst & _).
  change (j_addr j) with (j_addr j'). change (j_minors j') with (l1 ++ l2) in Hfst.
  apply wp_bind, wp_ld32; [eapply mapped_range_sub; [exact Hmap|offs; lia..]|].
  change (get_mem s) with (h_mem s). rewrite Hfst.
  assert (Hy0 : forall y l, l1 ++ l2 = y :: l -> 0 < n_addr y).
  { intros y l E. pose proof (rep_mid_wf _ _ _ _ Hr) as (Hj0 & _ & _ & Hf). simpl in Hf, Hj0.
    rewrite E in Hf. simpl in Hf. lia. }
  destruct (l1 ++ l2) as [|y l] eqn:E.
  - simpl hd_n. simpl (0 =? 0). apply wp_bind, (wp_release_major s L1 j' L2 x); [done|done|].
    intros h' Hr' [Ha' Ho' Hp' Hu'] Hl. apply wp_modify. apply app_eq_nil in E as [-> ->].
    apply HQ. split.
    + split; [done|by apply rep_locked].
    + by apply shrunk_last.
    + split; [|intros a Hoa|simpl; congruence..].
      * eapply agree_trans; [exact Ha|]. eapply agree_mono; [exact Ha'|].
        intros a [? ?]. split; [|done]. intros Hs. destruct (Ho a Hs); done.
      * destruct (Ho' a Hoa) as [Hs|]; [by apply Ho|by right].
    + rewrite !length_app. simpl. lia.
  - specialize (Hy0 y l eq_refl). simpl hd_n. destruct (n_addr y =? 0) eqn:E0; [lia|].
    apply wp_bind, (wp_update_bet s L1 j' L2); [done|]. intros b Hb. apply wp_modify.
    apply HQ. split.
    + split; [done|]. apply rep_locked, rep_set_bet; [done|].
      destruct Hb as [->| ->]; [apply (rep_bet _ _ Hr)|right]. exists j'. split; [|done].
      apply elem_of_mid. auto.
    + unfold j'. rewrite <-E. apply shrunk_in; [done|]. by rewrite E.
    + by split.
    + by split.
Qed.

Lemma wp_free h L1 j l1 x l2 L2 :
  heap_inv h (L1 ++ j :: L2) -> j_minors j = l1 ++ x :: l2 -> 
  (h_proc h = 0 \/ forall a, log_bytes (h_proc h) a -> ~ user_byte x a) ->
  wp (free (uptr (n_addr x)))
    (fun _ h' => free_done h (L1 ++ j :: L2) x h' (after_free L1 j l1 l2 L2)) h.
Proof.
  intros [Hlk Hr] Hm Hlog.
  pose proof (rep_mid_wf _ _ _ _ Hr) as Hwf.
  destruct (old_usage _ _ _ _ Hr) as (Hmap & Hlen & Hpos & Hhi & _ & Hju & _ & Hus).
  destruct (rep_mid _ _ _ _ Hr) as [_ Hms]. rewrite Hm in Hms.
  rewrite minors_seg_app in Hms. simpl in Hms. destruct Hms as (_ & Hx & Hal & _).
  assert (Hf := Hwf). destruct Hf as (_ & _ & _ & Hf). rewrite Hm in Hf.
  destruct (fits_elem _ _ _ x Hf) as (? & ? & ? & ?); [apply elem_of_mid; auto|].
  assert (Hsub : forall a n, j_addr j <= a -> a + n <= j_end j -> mapped_range (h_mem h) a n)
    by (intros; eapply mapped_range_sub; [exact Hmap|lia|unfold j_end in *; lia]).
  pose proof (uptr_range (n_addr x)). unfold n_end, j_end in *.
  unfold free. destruct (uptr (n_addr x) =? 0) eqn:E; [lia|]. clear E.
  apply wp_bind, wp_UNALIGN; [lia|lia|done|apply Hmap; lia|].
  apply wp_bind, wp_lock; [done|].
  unfold sizeof_minor. replace (n_addr x + 24 - 24) with (n_addr x) by lia. rewrite (u32_small (n_addr x)) by lia.
  pose proof Hx as (_ & _ & Hmb & Hmm & _).
  apply wp_bind, wp_ld32; [apply Hsub; offs; lia|]. change (get_mem _) with (h_mem h).
  rewrite Hmm. simpl (negb _). cbn iota.
  apply wp_bind, wp_ld32; [apply Hsub; offs; lia|]. change (get_mem _) with (h_mem h). rewrite Hmb.
  set (h1 := set_locked 1 h).
  apply wp_bind, (wp_unlink_minor h1 (j_addr j) (last_n 0 l1) (hd_n 0 l2) x); [|done|..].
  - by apply linked_spot_of.
  - change (h_mem h1) with (h_mem h). rewrite Hju, Hm, usage_app by lia. pose proof (usage_pos (l1 ++ l2)). lia.
  - intros s Hul Hafter.
    destruct (rep_unlink h1 s L1 j l1 x l2 L2) as [Hr' Hst]; [by apply rep_locked|done..|].
    apply (wp_free_tail h s L1 j l1 x l2 L2); try done.
    + destruct Hst. by split.
    + apply (ul_dead _ _ _ _ _ _ Hul).
    + eapply align_at_agree; [|exact Hal]. eapply agree_mono; [exact (ul_space _ _ _ _ _ _ Hul)|].
      intros b ->. unfold n_end. offs. lia.
Qed.

(** *** A pointer without the magic number *)

(** A pointer whose header does not carry the magic number: the error is
    counted, nothing else changes. *)
Lemma wp_free_bad h a (Q : unit -> heap A -> Prop) :
  h_locked h = 0 -> 0 < a -> a + 56 <= 4294967296 -> mapped_range (h_mem h) a 56 ->
  align_at (h_mem h) a -> rd32 (h_mem h) (a + N_magic) <> LIBALLOC_MAGIC ->
  (forall k : Z, (k = 0 \/ k = 1) -> Q tt (add_counts 0 1 k h)) ->
  wp (free (uptr a)) Q h.
Proof.
  intros Hl Ha Hhi Hmap Hal Hmm HQ. pose proof (uptr_range a).
  unfold free. destruct (uptr a =? 0) eqn:E; [lia|]. clear E.
  apply wp_bind, wp_UNALIGN; [lia|lia|done|apply Hmap; lia|].
  apply wp_bind, wp_lock; [done|].
  unfold sizeof_minor. replace (a + 24 - 24) with a by lia. rewrite (u32_small a) by lia.
  apply wp_bind, wp_ld32; [eapply mapped_range_sub; [exact Hmap|offs; lia..]|].
  change (get_mem _) with (h_mem h). destruct (rd32 _ _ =? _) eqn:E; [lia|]. cbn [negb].
  unfold bad_magic. apply wp_bind, wp_modify, wp_modify.
  match goal with |- context [if ?b then 1 else 0] => set (k := if b then 1 else 0) end.
  assert (set_locked 0 (add_counts 0 1 k (set_locked 1 h)) = add_counts 0 1 k h) as ->.
  { destruct h. simpl in Hl. by subst. }
  apply HQ. unfold k. case_match; [by right|by left].
Qed.
End exec.

(** ** [liballoc_memcpy] *)

Lemma le32_rd32 m a : le32 (rd32 m a) = mread m a 4.
Proof.
  change (mread m a 4) with [rd m (a + 0); rd m (a + 1); rd m (a + 2); rd m (a + 3)].
  unfold le32, rd32. rewrite Z.add_0_r.
  pose proof (rd_range m a). pose proof (rd_range m (a + 1)).
  pose proof (rd_range m (a + 2)). pose proof (rd_range m (a + 3)).
  generalize dependent (rd m (a + 3)). generalize dependent (rd m (a + 2)).
  generalize dependent (rd m (a + 1)). generalize dependent (rd m a). intros r0 ? r1 ? r2 ? r3 ?.
  f_equal; [|f_equal; [|f_equal; [|f_equal]]]; unfold u8; Z.div_mod_to_equations; lia.
Qed.

Section copy.
Context {A : Type}.
Implicit Types (h : heap A).

Lemma wp_liballoc_memcpy d a n h (Q : Z -> heap A -> Prop) :
  0 <= n < 4294967296 -> d < 4294967296 -> a < 4294967296 ->
  mapped_range (h_mem h) d n -> mapped_range (h_mem h) a n ->
  d + n <= a \/ a + n <= d ->
  Q d (set_mem (mwrite (h_mem h) d (mread (h_mem h) a n)) h) ->
  wp (liballoc_memcpy d a n) Q h.
Proof.
  intros Hn Hdlt Halt (Hd0 & Hd1 & Hd) (Ha0 & Ha1 & Ha) Hdis HQ. set (m := h_mem h) in *.
  set (st k := set_mem (mwrite m d (mread m a k)) h).
  assert (Hout : forall k x, 0 <= k <= n -> a <= x < a + n -> rd (mwrite m d (mread m a k)) x = rd m x).
  { intros k x Hk Hx. apply rd_mwrite_out. rewrite length_mread. lia. }
  (* one more chunk of [w] bytes *)
  assert (Hnext : forall k w, 0 <= k -> 0 <= w -> k + w <= n ->
    mwrite (mwrite m d (mread m a k)) (d + k) (mread (mwrite m d (mread m a k)) (a + k) w) =
    mwrite m d (mread m a (k + w))).
  { intros k w Hk Hw Hkw.
    assert (mread m a (k + w) = mread m a k ++ mread m (a + k) w) as ->.
    { unfold mread. rewrite (seqZ_app 0 k w), fmap_app by lia. f_equal.
      rewrite (Z.add_comm 0 k), <-(fmap_add_seqZ k 0), <-list_fmap_compose. apply list_fmap_ext.
      intros i x _. simpl. f_equal. lia. }
    rewrite mwrite_app, length_mread, Z2Nat.id by lia. f_equal.
    unfold mread at 1 3. apply list_fmap_ext. intros i x Hx%lookup_seqZ. apply Hout; lia. }
  unfold liballoc_memcpy. apply wp_bind.
  apply (wp_loop (fun '(p, q, c) t => 0 <= c <= n /\ t = st (n - c) /\
      p = u32 (d + (n - c)) /\ q = u32 (a + (n - c))) (fun '(_, _, c) _ => c)); [|lia|].
  { rewrite Z.sub_diag, !Z.add_0_r. unfold st. rewrite mread_0.
    split_and!; [lia|lia|by destruct h|symmetry; apply u32_small; lia..]. }
  intros [[p q] c] t (Hc & -> & -> & ->). split; [lia|]. destruct (c >=? 4) eqn:E.
  - rewrite !u32_small by lia. unfold st.
    apply wp_bind, wp_ld32.
    { lens. rewrite mapped_range_mwrite. repeat split; [lia..|]. intros x Hx. apply Ha. lia. }
    apply wp_bind, wp_st32.
    { lens. rewrite mapped_range_mwrite. repeat split; [lia..|]. intros x Hx. apply Hd. lia. }
    lens. rewrite le32_rd32, Hnext by lia. apply wp_ret.
    replace (n - c + 4) with (n - (c - 4)) by lia.
    split_and!; [lia|lia|done|f_equal; lia..].
  - apply wp_ret, wp_bind.
    apply (wp_loop (fun '(p, q, c) t => 0 <= c <= n /\ t = st (n - c) /\
      p = u32 (d + (n - c)) /\ q = u32 (a + (n - c))) (fun '(_, _, c) _ => c)); [|lia|].
    { done. }
    clear c Hc E. intros [[p q] c] t (Hc & -> & -> & ->). split; [lia|]. destruct (c >? 0) eqn:E.
    + rewrite !u32_small by lia. unfold st.
      apply wp_bind, wp_copy_byte; [lia|lia|lens; rewrite mapped_mwrite; apply Hd; lia|
        lens; rewrite mapped_mwrite; apply Ha; lia|].
      lens. pose proof (Hnext (n - c) 1 ltac:(lia) ltac:(lia) ltac:(lia)) as Hn1.
      change (mread ?M ?p 1) with [rd M (p + 0)] in Hn1. rewrite Z.add_0_r in Hn1.
      unfold mwrite at 1 in Hn1. rewrite Hn1. apply wp_ret.
      replace (n - c + 1) with (n - (c - 1)) by lia.
      split_and!; [lia|lia|done|f_equal; lia..].
    + apply wp_ret, wp_ret. assert (c = 0) as -> by lia. unfold st. by rewrite Z.sub_0_r.
Qed.
End copy.
