(* ===== verification/LiballocSpec.v ===== *)
(** * The kernel heap: what its users rely on

    The specification of [malloc], [free] and [realloc] in terms of the live
    blocks, [live L p n]: a pointer and its requested size.  The theorems of
    this file are the contract of mm/malloc.c. *)

From stdpp Require Import base numbers list gmap.
From Stdlib Require Import ZArith Lia.
From S2P Require Import Prelude Memory Process Pages Arm Liballoc LiballocInv LiballocProof LiballocMalloc LiballocFree.

Local Open Scope Z_scope.

(** [p] points to a block of [n] bytes that its user has not freed. *)
Definition live (L : list mjr) (p n : Z) : Prop :=
  exists j x, j ∈ L /\ x ∈ j_minors j /\ p = uptr (n_addr x) /\ n = n_req x.

Definition in_block (p n a : Z) : Prop := p <= a < p + n.

Section spec.
Context {A : Type} `{PageProvider A}.
Implicit Types (h : heap A) (L : list mjr).

Lemma uptr_inj_near a b : uptr a = uptr b -> a - 16 < b < a + 16.
Proof. pose proof (uptr_range a). pose proof (uptr_range b). lia. Qed.

(** Two live minors are the same or do not overlap. *)
Lemma live_apart L j j' x y :
  Forall major_wf L -> apart L -> j ∈ L -> j' ∈ L -> x ∈ j_minors j -> y ∈ j_minors j' ->
  x = y \/ n_end x <= n_addr y \/ n_end y <= n_addr x.
Proof.
  intros Hw Ha Hj Hj' Hx Hy. rewrite Forall_forall in Hw.
  destruct (Hw j Hj) as (_ & _ & _ & Hf). destruct (Hw j' Hj') as (_ & _ & _ & Hf').
  destruct (fits_elem _ _ _ _ Hf Hx) as (? & ? & ? & ?).
  destruct (fits_elem _ _ _ _ Hf' Hy) as (? & ? & ? & ?).
  assert (j = j' \/ apart1 j j') as [<-|[|]]; [|by eapply fits_disjoint|right; left; lia|right; right; lia].
  by eapply apart_elem.
Qed.

Lemma live_not_owned h L p n a :
  rep h L -> live L p n -> in_block p n a -> ~ owned h L a.
Proof.
  intros Hr (j & x & Hj & Hx & -> & ->) Ha.
  pose proof (rep_wf _ _ Hr) as Hw. pose proof (rep_apart _ _ Hr) as Hap.
  pose proof (proj1 (Forall_forall _ _) Hw j Hj) as (? & ? & ? & Hf).
  destruct (fits_elem _ _ _ _ Hf Hx) as (? & ? & ? & ?).
  assert (Hu : user_byte x a) by done. pose proof (user_byte_range _ _ ltac:(done) Hu).
  intros [(k & Hk & Hr1 & Hr2)|Hres].
  - destruct (decide (j = k)) as [<-|]; [by eapply Hr2|].
    destruct (apart_elem _ _ _ Hap Hj Hk) as [?|[|]]; [done|lia..].
  - eapply (rep_sep _ _ Hr); [done| |done]. lia.
Qed.

Lemma live_grown x L L' p n :
  grown x L L' -> live L' p n <-> live L p n \/ (p = uptr (n_addr x) /\ n = n_req x).
Proof.
  unfold live. intros [L1 j l1 l2 L2 Hm|L0 j Hm].
  - split.
    + intros (k & y & [?|[->|?]]%elem_of_mid & Hy & Hp & Hn); simpl in Hy.
      * left. exists k, y. rewrite elem_of_mid. tauto.
      * apply elem_of_mid in Hy as [?|[->|?]]; [left|by right|left];
          (exists j, y; rewrite elem_of_mid, Hm, elem_of_app; tauto).
      * left. exists k, y. rewrite elem_of_mid. tauto.
    + intros [(k & y & [?|[->|?]]%elem_of_mid & Hy & Hp & Hn)|[-> ->]].
      * exists k, y. rewrite elem_of_mid. tauto.
      * exists (with_minors j (l1 ++ x :: l2)), y. rewrite !elem_of_mid. simpl.
        rewrite Hm, elem_of_app in Hy. rewrite elem_of_mid. tauto.
      * exists k, y. rewrite elem_of_mid. tauto.
      * exists (with_minors j (l1 ++ x :: l2)), x. rewrite !elem_of_mid. simpl.
        rewrite elem_of_mid. tauto.
  - split.
    + intros (k & y & [?|Hk%list_elem_of_singleton]%elem_of_app & Hy & Hp & Hn); [left; by exists k, y|].
      subst k. simpl in Hy. apply list_elem_of_singleton in Hy as ->. by right.
    + intros [(k & y & Hk & ?)|[-> ->]]; [exists k, y; rewrite elem_of_app; tauto|].
      exists (with_minors j [x]), x. simpl. rewrite elem_of_app, !list_elem_of_singleton. tauto.
Qed.

Lemma live_shrunk x L L' p n :
  shrunk x L L' -> live L p n <-> live L' p n \/ (p = uptr (n_addr x) /\ n = n_req x).
Proof.
  intros [L1 j l1 l2 L2 Hm _|L1 j L2 Hm].
  - assert (grown x (L1 ++ with_minors j (l1 ++ l2) :: L2) (L1 ++ j :: L2)) as Hg.
    { pose proof (grown_in x L1 (with_minors j (l1 ++ l2)) l1 l2 L2 eq_refl) as Hg.
      by replace (with_minors (with_minors j (l1 ++ l2)) (l1 ++ x :: l2)) with j in Hg
        by (destruct j; simpl in *; by subst). }
    by apply live_grown.
  - unfold live. split.
    + intros (k & y & [?|[->|?]]%elem_of_mid & Hy & Hp & Hn).
      * left. exists k, y. rewrite elem_of_app. tauto.
      * rewrite Hm in Hy. apply list_elem_of_singleton in Hy as ->. by right.
      * left. exists k, y. rewrite elem_of_app. tauto.
    + intros [(k & y & Hk%elem_of_app & ?)|[-> ->]]; [exists k, y; rewrite elem_of_mid; tauto|].
      exists j, x. rewrite elem_of_mid, Hm, list_elem_of_singleton. tauto.
Qed.

(** A live pointer determines its minor and its place in the layout. *)
Lemma live_split L p n :
  live L p n -> exists L1 j l1 x l2 L2, L = L1 ++ j :: L2 /\ j_minors j = l1 ++ x :: l2 /\
    p = uptr (n_addr x) /\ n = n_req x.
Proof.
  intros (j & x & (L1 & L2 & ->)%list_elem_of_split & (l1 & l2 & Hm)%list_elem_of_split & -> & ->).
  by exists L1, j, l1, x, l2, L2.
Qed.

Lemma live_unique h L p n m : rep h L -> live L p n -> live L p m -> n = m.
Proof.
  intros Hr (j & x & Hj & Hx & -> & ->) (k & y & Hk & Hy & Hp & ->).
  pose proof (rep_wf _ _ Hr) as Hw. pose proof (uptr_inj_near _ _ Hp).
  pose proof (proj1 (Forall_forall _ _) Hw j Hj) as (_ & _ & _ & Hf).
  pose proof (proj1 (Forall_forall _ _) Hw k Hk) as (_ & _ & _ & Hf').
  destruct (fits_elem _ _ _ _ Hf Hx) as (? & ? & ? & ?).
  destruct (fits_elem _ _ _ _ Hf' Hy) as (? & ? & ? & ?). unfold n_end in *.
  destruct (live_apart _ _ _ _ _ Hw (rep_apart _ _ Hr) Hj Hk Hx Hy) as [->|[|]];
    unfold n_end in *; [done|lia..].
Qed.

Lemma live_facts h L p n :
  rep h L -> live L p n ->
  p mod 16 = 0 /\ 0 < p < 4294967296 /\ 0 <= n /\ mapped_range (h_mem h) p n.
Proof.
  intros Hr (j & x & Hj & Hx & -> & ->). split; [apply uptr_aligned|].
  pose proof (proj1 (Forall_forall _ _) (rep_wf _ _ Hr) j Hj) as (? & ? & ? & Hf).
  destruct (fits_elem _ _ _ _ Hf Hx) as (? & ? & ? & ?). pose proof (uptr_range (n_addr x)).
  unfold n_end, j_end in *. split_and!; [lia..|].
  eapply mapped_range_sub; [exact (rep_mapped _ _ Hr j Hj)|lia|lia].
Qed.

Lemma live_disjoint h L p n q m a :
  rep h L -> live L p n -> live L q m -> p <> q -> in_block p n a -> ~ in_block q m a.
Proof.
  intros Hr (j & x & Hj & Hx & -> & ->) (k & y & Hk & Hy & -> & ->) Hpq Ha Hb.
  pose proof (rep_wf _ _ Hr) as Hw.
  pose proof (proj1 (Forall_forall _ _) Hw j Hj) as (_ & _ & _ & Hf).
  pose proof (proj1 (Forall_forall _ _) Hw k Hk) as (_ & _ & _ & Hf').
  destruct (fits_elem _ _ _ _ Hf Hx) as (? & ? & ? & ?).
  destruct (fits_elem _ _ _ _ Hf' Hy) as (? & ? & ? & ?).
  pose proof (user_byte_range x a ltac:(done) Ha). pose proof (user_byte_range y a ltac:(done) Hb).
  destruct (live_apart _ _ _ _ _ Hw (rep_apart _ _ Hr) Hj Hk Hx Hy) as [->|[|]]; [done|lia..].
Qed.

(** A linked minor's pointer is not the pointer of any other minor. *)
Lemma linked_once h L1 j l1 x l2 L2 m :
  rep h (L1 ++ j :: L2) -> j_minors j = l1 ++ x :: l2 ->
  ~ live (L1 ++ with_minors j (l1 ++ l2) :: L2) (uptr (n_addr x)) m.
Proof.
  intros Hr Hm (k & y & Hk & Hy & Hp & _). pose proof (uptr_inj_near _ _ Hp).
  pose proof (rep_wf _ _ Hr) as Hw. pose proof (rep_apart _ _ Hr) as Hap.
  assert (x ∈ j_minors j) as Hx by (rewrite Hm; apply elem_of_mid; auto).
  assert (Hbeside : k ∈ L1 \/ k ∈ L2 -> False).
  { intros Hk'. pose proof (apart_addr _ _ _ _ Hw Hap Hk').
    rewrite Forall_forall in Hw. destruct (Hw j) as (_ & _ & _ & Hf); [apply elem_of_mid; auto|].
    destruct (Hw k) as (_ & _ & _ & Hf'); [apply elem_of_mid; tauto|].
    destruct (fits_elem _ _ _ _ Hf Hx) as (? & ? & ? & ?).
    destruct (fits_elem _ _ _ _ Hf' Hy) as (? & ? & ? & ?). unfold n_end in *. lia. }
  apply elem_of_mid in Hk as [?|[->|?]]; [auto| |auto].
  simpl in Hy. rewrite Forall_forall in Hw.
  destruct (Hw j) as (_ & _ & _ & Hf); [apply elem_of_mid; auto|]. rewrite Hm in Hf.
  apply fits_app in Hf as [Hf1 (? & ? & ? & Hf2)]. pose proof (fits_le _ _ _ Hf1).
  apply elem_of_app in Hy as [Hy|Hy].
  - destruct (fits_elem _ _ _ _ Hf1 Hy) as (? & ? & ? & ?). unfold n_end in *. lia.
  - destruct (fits_elem _ _ _ _ Hf2 Hy) as (? & ? & ? & ?). unfold n_end in *. lia.
Qed.

(** The pointer that was freed is not live any more; a new one was not. *)
Lemma shrunk_not_live h L x L' m : rep h L -> shrunk x L L' -> ~ live L' (uptr (n_addr x)) m.
Proof.
  intros Hr Hs Hl. destruct Hs as [L1 j l1 l2 L2 Hm _|L1 j L2 Hm]; [exact (linked_once h L1 j l1 x l2 L2 m Hr Hm Hl)|].
  eapply (linked_once h L1 j [] x [] L2 m); [done..|]. destruct Hl as (k & y & Hk & ?).
  exists k, y. split; [|done]. apply elem_of_mid. apply elem_of_app in Hk. tauto.
Qed.
Lemma grown_fresh h L x L' m : rep h L' -> grown x L L' -> ~ live L (uptr (n_addr x)) m.
Proof.
  intros Hr Hg Hl. destruct Hg as [L1 j l1 l2 L2 Hm|L1 j Hm].
  - eapply (linked_once h L1 _ l1 x l2 L2 m); [exact Hr|done|].
    change (with_minors (with_minors j (l1 ++ x :: l2)) (l1 ++ l2)) with (with_minors j (l1 ++ l2)).
    by rewrite with_minors_same.
  - eapply (linked_once h L1 _ [] x [] [] m); [exact Hr|done|]. destruct Hl as (k & y & Hk & ?).
    exists k, y. split; [|done]. apply elem_of_mid. auto.
Qed.

(** What every call keeps of the blocks it is not about. *)
Lemma malloc_done_facts h L req p h' L' x :
  rep h L -> malloc_done h L req p h' L' x ->
  heap_inv h' L' /\ (forall q n, live L' q n <-> live L q n \/ (q = p /\ n = req)) /\
  (forall q n a, live L q n -> in_block q n a -> ~ in_block p req a) /\
  (forall q n a, live L q n -> in_block q n a -> quiet (h_proc h) a ->
     rd (h_mem h') a = rd (h_mem h) a).
Proof.
  intros Hr [Hr' Hl [Ha Ho _ _] Hg -> <- Hu]. split_and!.
  - done.
  - intros q n. by apply live_grown.
  - intros q n a Hq Hb Hb'. eapply (live_not_owned h L); [done|exact Hq|exact Hb|]. by apply Hu.
  - intros q n a Hq Hb Hquiet. apply Ha. split; [|done]. by eapply live_not_owned.
Qed.

Lemma free_done_facts h L x h' L' :
  rep h L -> free_done h L x h' L' ->
  heap_inv h' L' /\
  (forall q n, live L q n <-> live L' q n \/ (q = uptr (n_addr x) /\ n = n_req x)) /\
  (forall n, ~ live L' (uptr (n_addr x)) n) /\
  (forall q n a, live L' q n -> in_block q n a -> rd (h_mem h') a = rd (h_mem h) a).
Proof.
  intros Hr [Hinv Hs [Ha _ _ _] _]. split_and!.
  - done.
  - intros q n. by apply live_shrunk.
  - intros n. by eapply shrunk_not_live.
  - intros q n a Hq Hb. apply Ha.
    assert (live L q n) as Hq' by (eapply live_shrunk; [done|by left]).
    split; [by eapply live_not_owned|].
    eapply (live_disjoint h L q n (uptr (n_addr x)) (n_req x)); [done|done| | |done].
    + eapply live_shrunk; [done|by right].
    + intros ->. by eapply shrunk_not_live.
Qed.

(** C2: malloc of fewer than 2^31 bytes returns, with the lock released and
    the heap well-formed.  Either the page provider had no pages and nothing
    is allocated, or the result is a 16-byte aligned mapped block that
    overlaps no live block and is added to them.  The contents of every live
    block are kept, the log of the running process apart. *)
Theorem malloc_spec h L req :
  heap_inv h L -> 0 <= req < 2147483648 ->
  pages_room (h_mem h) (h_arch h) (new_pages (req + 32)) ->
  wp (malloc req) (fun p h' => exists L', heap_inv h' L' /\
    (forall q n a, live L q n -> in_block q n a -> quiet (h_proc h) a ->
       rd (h_mem h') a = rd (h_mem h) a) /\
    ((p = 0 /\ may_fail /\ L' = L) \/
     (p mod 16 = 0 /\ 0 < p /\ mapped_range (h_mem h') p req /\
      (forall q n, live L' q n <-> live L q n \/ (q = p /\ n = req)) /\
      (forall q n a, live L q n -> in_block q n a -> ~ in_block p req a)))) h.
Proof.
  intros Hinv Hreq Hroom. pose proof Hinv as [_ Hr].
  eapply wp_mono; [by apply wp_malloc|]. intros p h' [(-> & Hf & Hi & [Ha _ _ _])|(L' & x & Hd)].
  - exists L. split; [done|]. split; [|by left].
    intros q n a Hq Hb Hquiet. apply Ha. split; [|done]. by eapply (live_not_owned h L).
  - destruct (malloc_done_facts _ _ _ _ _ _ _ Hr Hd) as (Hi & Hl & Hdis & Hk).
    exists L'. split; [done|]. split; [done|]. right.
    destruct (live_facts h' L' p req) as (? & [? _] & ? & ?); [apply Hi|apply Hl; by right|]. done.
Qed.

(** C3: free of a live block, which must not hold the allocation log of the
    running process, returns with the lock released and the heap
    well-formed; exactly that block stops being live, and every other block
    keeps its contents. *)
Theorem free_spec h L p n :
  heap_inv h L -> live L p n ->
  (h_proc h = 0 \/ forall a, log_bytes (h_proc h) a -> ~ in_block p n a) ->
  wp (free p) (fun _ h' => exists L', heap_inv h' L' /\
    (forall q m, live L q m <-> live L' q m \/ (q = p /\ m = n)) /\
    (forall m, ~ live L' p m) /\
    (forall q m a, live L' q m -> in_block q m a -> rd (h_mem h') a = rd (h_mem h) a)) h.
Proof.
  intros Hinv Hl Hlog. destruct (live_split _ _ _ Hl) as (L1 & j & l1 & x & l2 & L2 & -> & Hm & -> & ->).
  eapply wp_mono; [by apply (wp_free h L1 j l1 x l2 L2)|]. intros [] h' Hd.
  exists (after_free L1 j l1 l2 L2). by apply (free_done_facts h (L1 ++ j :: L2) x); [apply Hinv|].
Qed.


(** *** [realloc] *)

(** The first half of [realloc]: the header behind the pointer. *)
Lemma wp_realloc_head h L1 j l1 x l2 L2 size (Q : Z -> heap A -> Prop) :
  heap_inv h (L1 ++ j :: L2) -> j_minors j = l1 ++ x :: l2 -> size <> 0 ->
  (size <= n_req x ->
     Q (uptr (n_addr x)) (set_h_mem (mwrite (h_mem h) (n_addr x + N_req_size) (le32 size)) h)) ->
  (n_req x < size ->
     wp (let! ptr := malloc size in
         liballoc_memcpy ptr (uptr (n_addr x)) (n_req x) ;! free (uptr (n_addr x)) ;! ret ptr) Q h) ->
  wp (realloc (uptr (n_addr x)) size) Q h.
Proof.
  intros [Hl Hr] Hm Hsz Hle Hgt.
  pose proof (rep_mid_wf _ _ _ _ Hr) as (? & ? & ? & Hf). rewrite Hm in Hf.
  destruct (fits_elem _ _ _ x Hf) as (? & ? & ? & ?); [apply elem_of_mid; auto|].
  destruct (old_usage _ _ _ _ Hr) as (Hmap & _).
  destruct (rep_mid _ _ _ _ Hr) as [_ Hms]. rewrite Hm in Hms.
  rewrite minors_seg_app in Hms. simpl in Hms. destruct Hms as (_ & Hx & Hal & _).
  pose proof Hx as (_ & _ & _ & Hmm & _ & Hrq).
  pose proof (uptr_range (n_addr x)). unfold n_end, j_end in *.
  assert (Hun : forall Q, Q (n_addr x + 24) h -> wp (UNALIGN (uptr (n_addr x))) Q h).
  { intros Q' HQ'. apply wp_UNALIGN; [lia|lia|done|apply Hmap; lia|done]. }
  unfold realloc. destruct (size =? 0) eqn:E; [lia|]. destruct (uptr (n_addr x) =? 0) eqn:E'; [lia|].
  apply wp_bind, Hun, wp_bind, wp_lock; [done|].
  unfold sizeof_minor in *. replace (n_addr x + 24 - 24) with (n_addr x) by lia.
  rewrite (u32_small (n_addr x)) by lia.
  apply wp_bind, wp_ld32; [eapply mapped_range_sub; [exact Hmap|offs; lia..]|].
  change (get_mem _) with (h_mem h). rewrite Hmm. simpl (negb _). cbn iota.
  apply wp_bind, wp_ld32; [eapply mapped_range_sub; [exact Hmap|offs; lia..]|].
  change (get_mem _) with (h_mem h). rewrite Hrq.
  destruct (n_req x >=? size) eqn:E1.
  - specialize (Hle ltac:(lia)).
    assert (Hmp : mapped_range (h_mem h) (n_addr x + N_req_size) 4)
      by (eapply mapped_range_sub; [exact Hmap|offs; lia..]).
    apply wp_bind, wp_st32; [exact Hmp|]. apply wp_bind, wp_modify, wp_ret.
    assert (forall m, set_locked 0 (set_mem m (set_locked 1 h)) = set_h_mem m h) as ->; [|done].
    intros m. destruct h. simpl in *. by subst.
  - assert (set_locked 0 (set_locked 1 h) = h) as Hh by (destruct h; simpl in *; by subst).
    apply wp_bind, wp_modify. rewrite Hh. apply Hgt. lia.
Qed.

(** A smaller size: only the recorded size of the block changes. *)
Definition resized (x : mnr) (n : Z) : mnr := Mnr (n_addr x) (n_size x) n.

Lemma fits_resize lo l1 x n l2 hi :
  0 <= n <= n_req x -> fits lo (l1 ++ x :: l2) hi -> fits lo (l1 ++ resized x n :: l2) hi.
Proof.
  intros Hn [Hf1 (? & ? & ? & Hf2)]%fits_app. apply fits_app. split; [done|].
  simpl. unfold n_end in *. simpl. split_and!; [done|lia|lia|done].
Qed.

Lemma resize_seg m m' j l1 x l2 n :
  major_wf j -> j_minors j = l1 ++ x :: l2 -> 0 <= n < 4294967296 ->
  agree (fun a => ~ n_addr x + N_req_size <= a < n_addr x + N_req_size + 4) m m' ->
  rd32 m' (n_addr x + N_req_size) = n ->
  forall prev nxt, major_rep m prev j nxt -> major_rep m' prev (with_minors j (l1 ++ resized x n :: l2)) nxt.
Proof.
  intros (Hj0 & ? & ? & Hf) Hm Hn Hag Hrd prev nxt [Hma Hs]. rewrite Hm in *.
  pose proof Hf as [Hf1 (? & ? & ? & Hf2)]%fits_app. pose proof (fits_le _ _ _ Hf1).
  pose proof (uptr_range (n_addr x)). unfold n_end in *.
  assert (Hout : forall (l : list mnr) a, (forall y, y ∈ l -> (n_end y <= n_addr x \/ n_end x <= n_addr y) /\
      0 <= n_req y /\ n_req y + 32 <= n_size y) ->
    (exists y, y ∈ l /\ hdr_byte y a) -> ~ n_addr x + N_req_size <= a < n_addr x + N_req_size + 4).
  { intros l a Hd (y & Hy & Hh) Ha. destruct (Hd y Hy) as [? ?].
    apply hdr_byte_range in Hh; [|done]. unfold n_end in *. offs. lia. }
  split.
  - replace (usage_of (j_minors (with_minors j (l1 ++ resized x n :: l2)))) with (usage_of (l1 ++ x :: l2)).
    2:{ simpl. unfold usage_of. by rewrite !sum_list_with_app. }
    replace (hd_n 0 (j_minors (with_minors j (l1 ++ resized x n :: l2)))) with (hd_n 0 (l1 ++ x :: l2)) by (by destruct l1).
    eapply major_at_agree; [|exact Hma]. eapply agree_mono; [exact Hag|]. simpl. intros a Ha. offs. lia.
  - simpl. rewrite minors_seg_app in *. simpl in *. destruct Hs as (Hs1 & Hx & Hal & Hs2). split_and!.
    + eapply minors_seg_agree; [|exact Hs1]. eapply agree_mono; [exact Hag|]. intros a. apply Hout.
      intros y Hy. destruct (fits_elem _ _ _ _ Hf1 Hy) as (? & ? & ? & ?). split; [left; lia|done].
    + destruct Hx as (? & ? & ? & ? & ? & _). unfold minor_at. offs.
      split_and!; [..|done]; (erewrite (rd32_agree _ _ _ _ Hag); [done|lia..]).
    + eapply align_at_agree; [|exact Hal]. eapply agree_mono; [exact Hag|]. intros a ->. offs. lia.
    + eapply minors_seg_agree; [|exact Hs2]. eapply agree_mono; [exact Hag|]. intros a. apply Hout.
      intros y Hy. destruct (fits_elem _ _ _ _ Hf2 Hy) as (? & ? & ? & ?). unfold n_end in *.
      split; [right; lia|done].
Qed.

Lemma rep_resize h L1 j l1 x l2 L2 n :
  let h' := set_h_mem (mwrite (h_mem h) (n_addr x + N_req_size) (le32 n)) h in
  rep h (L1 ++ j :: L2) -> j_minors j = l1 ++ x :: l2 -> 0 <= n <= n_req x -> n < 4294967296 ->
  (h_proc h = 0 \/ forall a, log_bytes (h_proc h) a -> ~ user_byte x a) ->
  rep h' (L1 ++ with_minors j (l1 ++ resized x n :: l2) :: L2) /\
  (forall a, ~ owned h (L1 ++ j :: L2) a -> rd (h_mem h') a = rd (h_mem h) a).
Proof.
  intros h' Hr Hm Hn Hn32 Hlog. pose proof (rep_mid_wf _ _ _ _ Hr) as Hwf.
  assert (Hxj : x ∈ j_minors j) by (rewrite Hm; apply elem_of_mid; auto).
  assert (Hag : agree (fun a => ~ n_addr x + N_req_size <= a < n_addr x + N_req_size + 4) (h_mem h) (h_mem h')).
  { split; [apply ranges_mwrite|]. intros a Ha. apply rd_mwrite_out. rewrite le32_length. lia. }
  assert (Hword : forall a, n_addr x + N_req_size <= a < n_addr x + N_req_size + 4 -> major_byte j a).
  { intros a Ha. apply (hdr_major_byte j x); [done..|]. left. offs. lia. }
  destruct (rep_update h h' L1 j (l1 ++ resized x n :: l2) L2) as [Hr' _]; try done.
  - destruct Hwf as (? & ? & ? & Hf). split_and!; [done..|]. simpl. apply fits_resize; [lia|]. by rewrite <-Hm.
  - eapply agree_mono; [exact Hag|]. intros a [Ha _] Hb. apply Ha. auto.
  - eapply resize_seg; [done|done|lia|exact Hag| |by apply rep_mid].
    apply rd32_mwrite_eq; [done|lia].
  - intros a [Hb1 Hb2] Hp0 Hl.
    destruct (decide (uptr (n_addr x) <= a < uptr (n_addr x) + n_req x)) as [Hu|Hu].
    { destruct Hlog as [?|Hlog]; [done|by eapply Hlog]. }
    eapply (rep_mid_quiet h L1 j L2 a); [done| |done|done]. split; [done|].
    rewrite Hm. intros y Hy Huy.
    apply elem_of_mid in Hy as [Hy|[->|Hy]]; [eapply Hb2; [|done]|done|eapply Hb2; [|done]];
      apply elem_of_mid; auto.
  - unfold h'. simpl. rewrite (rep_inuse _ _ Hr). unfold usages. rewrite !sum_list_with_app. simpl.
    rewrite Hm, !sum_list_with_app. done.
  - split; [done|]. intros a Ha. apply Hag. intros Hw. apply Ha. left. apply mid_heap_byte. auto.
Qed.

Lemma wp_realloc_shrink h L p n size :
  heap_inv h L -> live L p n -> 0 < size <= n -> n < 2147483648 ->
  (h_proc h = 0 \/ forall a, log_bytes (h_proc h) a -> ~ in_block p n a) ->
  wp (realloc p size) (fun r h' => exists L', r = p /\ h_proc h' = h_proc h /\ heap_inv h' L' /\ live L' p size /\
    (forall q m, q <> p -> live L' q m <-> live L q m) /\
    (forall q m a, live L q m -> in_block q m a -> rd (h_mem h') a = rd (h_mem h) a)) h.
Proof.
  intros Hinv Hl Hsz Hn Hlog. pose proof Hinv as [Hlk Hr].
  destruct (live_split _ _ _ Hl) as (L1 & j & l1 & x & l2 & L2 & -> & Hm & -> & ->).
  apply (wp_realloc_head h L1 j l1 x l2 L2); [done|done|lia|intros _|lia].
  destruct (rep_resize h L1 j l1 x l2 L2 size) as [Hr' Hk]; [done|done|lia|lia|done|].
  exists (L1 ++ with_minors j (l1 ++ resized x size :: l2) :: L2). split_and!; [done|done| | | |].
  - split; [done|exact Hr'].
  - eexists _, (resized x size). rewrite elem_of_mid. split_and!; [by auto| |done|done].
    simpl. apply elem_of_mid. auto.
  - intros q m Hq. unfold live.
    split; intros (k & y & Hk' & Hy & -> & ->); apply elem_of_mid in Hk' as [?|[->|?]].
    + exists k, y. rewrite elem_of_mid. tauto.
    + simpl in Hy. exists j, y. rewrite elem_of_mid, Hm, elem_of_mid.
      apply elem_of_mid in Hy as [?|[->|?]]; [tauto|done|tauto].
    + exists k, y. rewrite elem_of_mid. tauto.
    + exists k, y. rewrite elem_of_mid. tauto.
    + rewrite Hm in Hy. eexists (with_minors j (l1 ++ resized x size :: l2)), y.
      rewrite elem_of_mid. simpl. rewrite elem_of_mid.
      apply elem_of_mid in Hy as [?|[->|?]]; [tauto|done|tauto].
    + exists k, y. rewrite elem_of_mid. tauto.
  - intros q m a Hq Hb. apply Hk. by eapply live_not_owned.
Qed.

(** realloc to a nonzero size that is not larger returns the same
    pointer; the block has the new size, its contents and those of every
    other live block are kept. *)
Theorem realloc_shrink h L p n size :
  heap_inv h L -> live L p n -> 0 < size <= n -> n < 2147483648 ->
  (h_proc h = 0 \/ forall a, log_bytes (h_proc h) a -> ~ in_block p n a) ->
  wp (realloc p size) (fun r h' => exists L', r = p /\ heap_inv h' L' /\ live L' p size /\
    (forall q m, q <> p -> live L' q m <-> live L q m) /\
    (forall q m a, live L q m -> in_block q m a -> rd (h_mem h') a = rd (h_mem h) a)) h.
Proof.
  intros. eapply wp_mono; [by apply (wp_realloc_shrink h L p n size)|].
  intros r h' (L' & ? & _ & ?). by exists L'.
Qed.

(** The second half of a growing realloc: the contents move to the new block
    [r], and the old one is released. *)
Lemma wp_move_block h L p n r size (Q : Z -> heap A -> Prop) :
  heap_inv h L -> live L p n -> live L r size -> r <> p -> n <= size ->
  (h_proc h = 0 \/ forall a, log_bytes (h_proc h) a -> ~ in_block p n a) ->
  (forall h' L', heap_inv h' L' -> (forall q m, live L q m <-> live L' q m \/ (q = p /\ m = n)) ->
     (forall m, ~ live L' p m) -> (forall i, 0 <= i < n -> rd (h_mem h') (r + i) = rd (h_mem h) (p + i)) ->
     (forall q m a, q <> p -> q <> r -> live L q m -> in_block q m a -> rd (h_mem h') a = rd (h_mem h) a) -> Q r h') ->
  wp (liballoc_memcpy r p n ;! free p ;! ret r) Q h.
Proof.
  intros [Hlk Hr] Hlp Hlr Hrp Hsz Hlog HQ.
  destruct (live_facts h L p n Hr Hlp) as (_ & Hp0 & Hn0 & Hmapp).
  destruct (live_facts h L r size Hr Hlr) as (Hr16 & Hr0 & _ & Hmapr).
  assert (Hap : r + n <= p \/ p + n <= r).
  { destruct (decide (r + n <= p)); [by left|]. destruct (decide (p + n <= r)); [by right|].
    exfalso. assert (n <> 0) by lia.
    destruct (live_disjoint h L p n r size (Z.max p r) Hr Hlp Hlr ltac:(congruence)); unfold in_block; lia. }
  pose proof Hmapr as (? & ? & _). pose proof Hmapp as (? & ? & _).
  apply wp_bind, wp_liballoc_memcpy; [lia|lia|lia|eapply mapped_range_sub; [exact Hmapr|lia..]|exact Hmapp|done|].
  set (h2 := set_mem _ h).
  assert (Hag2 : agree (fun a => ~ in_block r size a) (h_mem h) (h_mem h2)).
  { split; [apply ranges_mwrite|]. intros a Ha. apply rd_mwrite_out.
    rewrite length_mread, Z2Nat.id by lia. unfold in_block in Ha. lia. }
  assert (Hcopy : forall i, 0 <= i < n -> rd (h_mem h2) (r + i) = rd (h_mem h) (p + i)).
  { intros i Hi. unfold h2. simpl. rewrite rd_mwrite_mread_in by lia. f_equal. lia. }
  destruct (rep_agree h h2 L) as [Hr2 Ho2]; try done.
  { eapply agree_mono; [exact Hag2|]. intros a Ha Hb. by eapply (live_not_owned h L r size a). }
  { apply (rep_bet _ _ Hr). }
  destruct (live_split _ _ _ Hlp) as (M1 & j2 & k1 & x2 & k2 & M2 & HM & Hm2 & Hp2 & Hn2).
  apply wp_bind. rewrite Hp2 at 1. eapply wp_mono.
  { apply (wp_free h2 M1 j2 k1 x2 k2 M2); [by rewrite <-HM|done|].
    change (h_proc h2) with (h_proc h). destruct Hlog as [?|Hlog]; [by left|right].
    intros a Hla Hu. eapply Hlog; [exact Hla|]. unfold in_block. rewrite Hp2, Hn2. exact Hu. }
  intros [] h3 Hfd. apply wp_ret. rewrite <-HM in Hfd.
  destruct (free_done_facts h2 L x2 h3 _ Hr2 Hfd) as (Hi3 & Hl3 & Hnl & Hk3). rewrite <-Hp2, <-Hn2 in *.
  assert (Hkeep : forall q m, q <> p -> live L q m -> live (after_free M1 j2 k1 k2 M2) q m).
  { intros q m Hq Hql. by destruct (proj1 (Hl3 q m) Hql) as [?|[? _]]. }
  pose proof (Hkeep r size Hrp Hlr) as Hlr3. eapply HQ; [exact Hi3|exact Hl3|exact Hnl| |].
  - intros i Hi. rewrite (Hk3 r size) by (done || unfold in_block; lia). by apply Hcopy.
  - intros q m a Hq Hqr Hql Hb. rewrite (Hk3 q m) by auto.
    apply Hag2. by eapply (live_disjoint h L q m r size).
Qed.

(** C16: realloc to a larger size, when the page provider cannot fail, moves
    the block: the old bytes are the first bytes of the new block, the old
    pointer is no longer live, and the other live blocks keep their
    contents (the log of the running process apart). *)
Theorem realloc_grow h L p n size :
  heap_inv h L -> live L p n -> n < size < 2147483648 -> ~ may_fail ->
  pages_room (h_mem h) (h_arch h) (new_pages (size + 32)) ->
  (h_proc h = 0 \/ forall a, log_bytes (h_proc h) a -> ~ in_block p n a) ->
  wp (realloc p size) (fun r h' => exists L', heap_inv h' L' /\ r <> p /\ r mod 16 = 0 /\
    live L' r size /\ (forall m, ~ live L' p m) /\
    (forall q m, q <> p -> live L q m -> live L' q m) /\
    (forall i, 0 <= i < n -> rd (h_mem h') (r + i) = rd (h_mem h) (p + i)) /\
    (forall q m a, q <> p -> live L q m -> in_block q m a -> quiet (h_proc h) a ->
       rd (h_mem h') a = rd (h_mem h) a)) h.
Proof.
  intros Hinv Hl Hsz Hnf Hroom Hlog. pose proof Hinv as [Hlk Hr].
  destruct (live_facts h L p n Hr Hl) as (_ & Hp0 & Hn0 & _).
  assert (Hquiet : forall a, in_block p n a -> quiet (h_proc h) a).
  { intros a Ha H0 Hla. destruct Hlog as [?|Hlog]; [done|]. by eapply Hlog. }
  pose proof Hl as Hl'. destruct (live_split _ _ _ Hl') as (L1 & j & l1 & x & l2 & L2 & -> & Hm & -> & ->).
  set (L := L1 ++ j :: L2) in *. set (p := uptr (n_addr x)) in *. set (n := n_req x) in *.
  apply (wp_realloc_head h L1 j l1 x l2 L2); [done|done|lia|lia|intros _]. fold p n L.
  apply wp_bind. eapply wp_mono; [apply (wp_malloc h L); [done|lia|done]|].
  intros r h1 [(_ & ? & _)|(M & y & Hd)]; [done|].
  destruct (malloc_done_facts _ _ _ _ _ _ _ Hr Hd) as (Hinv1 & Hl1 & Hdis & Hk1). pose proof Hinv1 as [_ Hr1].
  assert (Hlr : live M r size) by (apply Hl1; by right). assert (Hlp : live M p n) by (apply Hl1; by left).
  assert (Hrp : r <> p).
  { intros ->. pose proof (live_unique h1 M p n size Hr1 Hlp Hlr). lia. }
  apply (wp_move_block h1 M p n r size); [done..|lia| |].
  { by rewrite (hs_proc _ _ _ _ (md_step _ _ _ _ _ _ _ Hd)). }
  intros h3 L3 Hi3 Hl3 Hnl Hcopy Hk3.
  assert (Hr3 : live L3 r size) by (destruct (proj1 (Hl3 r size) Hlr) as [?|[? _]]; done).
  exists L3. split_and!; try done.
  - by apply (live_facts h3 L3 r size (proj2 Hi3)).
  - intros q m Hq Hql. destruct (proj1 (Hl3 q m)) as [?|[? _]]; [apply Hl1; by left|done|done].
  - intros i Hi. rewrite Hcopy by done. eapply Hk1; [exact Hl|unfold in_block; lia|apply Hquiet; unfold in_block; lia].
  - intros q m a Hq Hql Hb Hqa. assert (Hqr : q <> r).
    { intros ->. eapply Hdis; [exact Hql|exact Hb|]. by rewrite (live_unique h1 M r m size) in Hb by (done || apply Hl1; by left). }
    rewrite (Hk3 q m) by (done || apply Hl1; by left). by eapply Hk1.
Qed.

(** *** All runs of a client *)

Definition heap_init (m : mem) (a : A) : heap A := Heap m a 0 0 0 0 0 0 0 0 0 0.

Lemma heap_init_inv m a : pages_ok m a -> heap_inv (heap_init m a) [].
Proof.
  intros Hok. split; [done|]. split; simpl; try done.
  - by left.
  - intros j Hj. by apply not_elem_of_nil in Hj.
  - intros j x Hj. by apply not_elem_of_nil in Hj.
  - by left.
Qed.

(** The states of the heap that a client can reach before the scheduler runs
    (no process is logged yet): it allocates, frees pointers it holds, resizes
    them, and writes inside its blocks.  [t] maps the pointers it holds to
    their sizes. *)
Inductive client (h0 : heap A) : heap A -> gmap Z Z -> Prop :=
  | client_start : client h0 h0 ∅
  | client_malloc h t n p h' :
      client h0 h t -> 0 <= n < 2147483648 ->
      pages_room (h_mem h) (h_arch h) (new_pages (n + 32)) ->
      malloc n h = Ret p h' ->
      client h0 h' (if decide (p = 0) then t else <[p := n]> t)
  | client_free h t p n h' :
      client h0 h t -> t !! p = Some n -> free p h = Ret tt h' -> client h0 h' (delete p t)
  | client_realloc h t p n s r h' :
      client h0 h t -> t !! p = Some n -> 0 < s <= n -> realloc p s h = Ret r h' ->
      client h0 h' (<[r := s]> t)
  | client_write h t p n a v :
      client h0 h t -> t !! p = Some n -> in_block p n a ->
      client h0 (set_h_mem (mset (h_mem h) a v) h) t.

Definition client_ok (h : heap A) (t : gmap Z Z) : Prop :=
  h_proc h = 0 /\ exists L, heap_inv h L /\ (forall p n, live L p n <-> t !! p = Some n) /\
    forall p n, live L p n -> n < 2147483648.

Lemma free_spec_pre h L p n :
  heap_inv h L -> live L p n -> h_proc h = 0 ->
  wp (free p) (fun _ h' => exists L', h_proc h' = 0 /\ heap_inv h' L' /\
    (forall q m, live L q m <-> live L' q m \/ (q = p /\ m = n)) /\
    (forall m, ~ live L' p m) /\
    (forall q m a, live L' q m -> in_block q m a -> rd (h_mem h') a = rd (h_mem h) a)) h.
Proof.
  intros Hinv Hl Hlog. destruct (live_split _ _ _ Hl) as (L1 & j & l1 & x & l2 & L2 & -> & Hm & -> & ->).
  eapply wp_mono; [apply (wp_free h L1 j l1 x l2 L2); auto|]. intros [] h' Hd.
  exists (after_free L1 j l1 l2 L2). split.
  - rewrite (fs_proc _ _ _ _ _ (fd_step _ _ _ _ _ Hd)). done.
  - by apply (free_done_facts h (L1 ++ j :: L2) x); [apply Hinv|].
Qed.

(** Each operation of a client keeps [client_ok]. *)
Lemma client_ok_malloc h t n p h' :
  client_ok h t -> 0 <= n < 2147483648 -> pages_room (h_mem h) (h_arch h) (new_pages (n + 32)) ->
  malloc n h = Ret p h' -> client_ok h' (if decide (p = 0) then t else <[p := n]> t).
Proof.
  intros [Hp (L & Hinv & Hl & Hsz)] Hn Hroom Hrun. pose proof Hinv as [_ Hr].
  pose proof (wp_malloc h L n Hinv Hn Hroom) as Hw. unfold wp in Hw. rewrite Hrun in Hw.
  destruct Hw as [(-> & _ & Hi & Hst)|(L' & x & Hd)].
  { rewrite decide_True by done. split; [rewrite (hs_proc _ _ _ _ Hst); done|]. by exists L. }
  destruct (malloc_done_facts _ _ _ _ _ _ _ Hr Hd) as (Hi & Hl' & _).
  pose proof (live_facts h' L' p n (proj2 Hi) ltac:(apply Hl'; by right)) as (_ & [? _] & _).
  rewrite decide_False by lia. split; [by rewrite (hs_proc _ _ _ _ (md_step _ _ _ _ _ _ _ Hd))|].
  exists L'. split_and!; [done| |intros q k [E|[-> ->]]%Hl'; [by eapply Hsz|lia]].
  intros q k. rewrite lookup_insert_Some, Hl', Hl. split.
  - intros [E|[-> ->]]; [|by left]. right. split; [|done]. intros <-.
    eapply (grown_fresh h' L x L'); [apply Hi|apply (md_grown _ _ _ _ _ _ _ Hd)|].
    rewrite <-(md_ptr _ _ _ _ _ _ _ Hd). by apply Hl.
  - intros [[-> ->]|[_ E]]; auto.
Qed.

Lemma client_ok_free h t p n h' :
  client_ok h t -> t !! p = Some n -> free p h = Ret tt h' -> client_ok h' (delete p t).
Proof.
  intros [Hp (L & Hinv & Hl & Hsz)] Ht%Hl Hrun.
  pose proof (free_spec_pre h L p n Hinv Ht Hp) as Hw. unfold wp in Hw. rewrite Hrun in Hw.
  destruct Hw as (L' & Hp' & Hi & Hl' & Hno & _). split; [done|]. exists L'.
  split_and!; [done| |intros q k E; eapply Hsz, Hl'; by left].
  intros q k. rewrite lookup_delete_Some, <-Hl, Hl'. split.
  - intros E. split; [|by left]. intros <-. by eapply Hno.
  - intros [Hne [E|[? _]]]; [done|congruence].
Qed.

Lemma client_ok_realloc h t p n s r h' :
  client_ok h t -> t !! p = Some n -> 0 < s <= n -> realloc p s h = Ret r h' -> client_ok h' (<[r := s]> t).
Proof.
  intros [Hp (L & Hinv & Hl & Hsz)] Ht%Hl Hs Hrun. pose proof (Hsz _ _ Ht).
  pose proof (wp_realloc_shrink h L p n s Hinv Ht ltac:(lia) ltac:(lia) (or_introl Hp)) as Hw.
  unfold wp in Hw. rewrite Hrun in Hw. destruct Hw as (L' & -> & Hp' & Hi & Hlp & Hrest & _).
  split; [congruence|]. exists L'. split; [done|].
  assert (Hall : forall q k, live L' q k <-> <[p := s]> t !! q = Some k).
  { intros q k. rewrite lookup_insert_Some. destruct (decide (p = q)) as [<-|Hne].
    - split; [intros E; left|intros [[_ <-]|[? _]]; done].
      split; [done|]. by eapply (live_unique h' L' p); [apply Hi|..].
    - rewrite Hrest, Hl by done. naive_solver. }
  split; [done|]. intros q k E. apply Hall, lookup_insert_Some in E as [[_ <-]|[_ E]]; [lia|].
  eapply Hsz. by apply Hl.
Qed.

Lemma client_ok_write h t p n b v :
  client_ok h t -> t !! p = Some n -> in_block p n b -> client_ok (set_h_mem (mset (h_mem h) b v) h) t.
Proof.
  intros [Hp (L & Hinv & Hl & Hsz)] Ht%Hl Hb. split; [done|]. exists L. split; [|done].
  destruct Hinv as [Hlk Hr]. split; [done|].
  destruct (rep_agree h (set_h_mem (mset (h_mem h) b v) h) L) as [Hr' _]; try done.
  - split; [done|]. intros c Hc. apply rd_mset_out. intros ->. by eapply (live_not_owned h L p n).
  - apply (rep_bet _ _ Hr).
Qed.

Lemma client_inv m a h t :
  pages_ok m a -> client (heap_init m a) h t -> client_ok h t.
Proof.
  intros Hok. induction 1;
    [|by eapply client_ok_malloc|by eapply client_ok_free|by eapply client_ok_realloc|by eapply client_ok_write].
  split; [done|]. exists []. split; [by apply heap_init_inv|].
  assert (Hno : forall p n, ~ live [] p n) by (intros p n (j & ? & Hj & _); by apply not_elem_of_nil in Hj).
  split; intros p n; [rewrite lookup_empty|intros Hx; by apply Hno in Hx].
  split; [|done]. intros Hx. by apply Hno in Hx.
Qed.

End spec.

(** ** The theorems at work

    A run on the ARM page provider: 1 MB mapped from 0x4000000 up. *)

#[local] Existing Instance Arm.provider.

Definition demo_mem : mem := Mem ∅ [(67108864, 68157440)].
Definition demo0 : heap Arm.state := heap_init demo_mem Arm.init.
Definition run_state {S B} (m : M S B) (s : S) : S := match m s with Ret _ s' => s' | _ => s end.
Definition demo1 : heap Arm.state := run_state (malloc 10) demo0.
Definition demo2 : heap Arm.state := run_state (malloc 20) demo1.

Lemma demo0_inv : heap_inv demo0 [].
Proof. by apply heap_init_inv. Qed.

Lemma demo_room (h : heap Arm.state) n :
  m_ranges (h_mem h) = m_ranges demo_mem ->
  67108864 <= Arm.last_alloc (h_arch h) -> 0 <= n <= 32 ->
  Arm.last_alloc (h_arch h) + n * 16384 <= 68157440 ->
  pages_room (h_mem h) (h_arch h) n.
Proof.
  intros Hr Hlo Hn Hhi. split; [|lia]. destruct (h_mem h) as [bs rs]. simpl in Hr. subst rs.
  eapply mapped_range_intro; [left|unfold PAGE; lia..].
Qed.

Definition demo_p : Z := 67108928.
Definition demo_q : Z := 67109008.

Lemma demo1_run : malloc 10 demo0 = Ret demo_p demo1.
Proof. vm_compute. reflexivity. Qed.
Lemma demo2_run : malloc 20 demo1 = Ret demo_q demo2.
Proof. vm_compute. reflexivity. Qed.

Lemma demo1_facts : exists L, heap_inv demo1 L /\ live L demo_p 10.
Proof.
  assert (Hr : pages_room (h_mem demo0) (h_arch demo0) (new_pages (10 + 32)))
    by (apply demo_room; vm_compute; done || (split; discriminate)).
  pose proof (wp_malloc demo0 [] 10 demo0_inv ltac:(lia) Hr) as Hw.
  unfold wp in Hw. rewrite demo1_run in Hw. destruct Hw as [(? & _)|(L & x & Hd)]; [done|].
  exists L. destruct (malloc_done_facts _ _ _ _ _ _ _ (proj2 demo0_inv) Hd) as (? & Hl & _).
  split; [done|]. apply Hl. by right.
Qed.

Lemma demo1_room n : 0 <= n <= 1000 -> pages_room (h_mem demo1) (h_arch demo1) (new_pages n).
Proof.
  intros Hn. assert (new_pages n = 16) as ->.
  { unfold new_pages. destruct (_ =? 0); Z.div_mod_to_equations; lia. }
  by apply demo_room; vm_compute.
Qed.

Lemma malloc_spec_witness :
  wp (malloc 10) (fun p h' => exists L', heap_inv h' L' /\ p mod 16 = 0) demo0.
Proof.
  eapply wp_mono; [apply (malloc_spec demo0 [] 10); [exact demo0_inv|lia|]|].
  - apply demo_room; vm_compute; done || (split; discriminate).
  - intros p h' (L' & Hi & _ & [(-> & ? & _)|(Hp & _)]); [done|]. by exists L'.
Defined.

Lemma free_spec_witness :
  exists L, live L demo_p 10 /\ wp (free demo_p) (fun _ h' => exists L', heap_inv h' L' /\ ~ live L' demo_p 10) demo1.
Proof.
  destruct demo1_facts as (L & Hi & Hl). exists L. split; [done|].
  eapply wp_mono; [apply (free_spec demo1 L demo_p 10); [exact Hi|exact Hl|by left]|].
  intros _ h' (L' & Hi' & _ & Hno & _). by exists L'.
Defined.

(** The two blocks of [demo2] share a major. *)
Lemma demo2_layout : exists j l1 x l2, heap_inv demo2 ([] ++ j :: []) /\
  j_minors j = l1 ++ x :: l2 /\ l1 ++ l2 <> [] /\ demo_q = uptr (n_addr x).
Proof.
  assert (Hr : pages_room (h_mem demo0) (h_arch demo0) (new_pages (10 + 32)))
    by (apply demo_room; vm_compute; done || (split; discriminate)).
  pose proof (wp_malloc demo0 [] 10 demo0_inv ltac:(lia) Hr) as Hw.
  unfold wp in Hw. rewrite demo1_run in Hw. destruct Hw as [(? & _)|(M & y & Hd1)]; [done|].
  destruct (malloc_done_facts _ _ _ _ _ _ _ (proj2 demo0_inv) Hd1) as (Hi1 & _).
  pose proof (md_grown _ _ _ _ _ _ _ Hd1) as Hg1.
  assert (exists j, M = [with_minors j [y]]) as [j ->].
  { inversion Hg1 as [L1 j l1 l2 L2 Hm HL|L j Hm HL]; [by destruct L1|]. by exists j. }
  pose proof (wp_malloc demo1 _ 20 Hi1 ltac:(lia) (demo1_room 52 ltac:(lia))) as Hw.
  unfold wp in Hw. rewrite demo2_run in Hw. destruct Hw as [(? & _)|(N & x & Hd2)]; [done|].
  destruct (malloc_done_facts _ _ _ _ _ _ _ (proj2 Hi1) Hd2) as (Hi2 & _).
  pose proof (md_grown _ _ _ _ _ _ _ Hd2) as Hg2. pose proof (md_ptr _ _ _ _ _ _ _ Hd2) as Hq.
  inversion Hg2 as [L1 k l1 l2 L2 Hm HL HN|L k Hm HL HN].
  - destruct L1 as [|? [|]]; [|done..]. injection HL as -> ->. simpl in *. subst N.
    eexists _, l1, x, l2. split_and!; [exact Hi2|done|by rewrite <-Hm|done].
  - exfalso. subst N L. destruct Hi2 as [_ Hr2]. pose proof (rep_seg _ _ Hr2) as Hs.
    pose proof (rep_root _ _ Hr2) as Hroot. pose proof (rep_wf _ _ Hr2) as Hwf.
    simpl in Hs, Hroot. destruct Hs as ((_ & Hn & _) & _). rewrite <-Hroot in Hn.
    apply Forall_cons in Hwf as [_ [(Hk & _) _]%Forall_cons]. simpl in Hk.
    assert (rd32 (h_mem demo2) (l_memRoot demo2 + J_next) = 0) as E by (vm_compute; reflexivity).
    lia.
Qed.


Lemma realloc_shrink_witness : wp (realloc demo_p 5) (fun r h' => r = demo_p) demo1.
Proof.
  destruct demo1_facts as (L & Hi & Hl).
  eapply wp_mono; [apply (realloc_shrink demo1 L demo_p 10 5); [exact Hi|exact Hl|lia|lia|by left]|].
  by intros r h' (L' & -> & _).
Defined.

Lemma realloc_grow_witness : wp (realloc demo_p 20) (fun r h' => r <> demo_p /\ r mod 16 = 0) demo1.
Proof.
  destruct demo1_facts as (L & Hi & Hl).
  eapply wp_mono; [apply (realloc_grow demo1 L demo_p 10 20);
    [exact Hi|exact Hl|lia|by intros []|by apply (demo1_room 52)|by left]|].
  by intros r h' (L' & _ & ? & ? & _).
Defined.

