(* ===== verification/Allocator.v ===== *)
(** * The allocator interface

    What the rest of the kernel relies on of [malloc] and [free]
    (include/mm.h).  A client is proved against the class; mm/malloc.c
    discharges it for any page provider. *)

From stdpp Require Import base numbers list gmap.
From Stdlib Require Import ZArith Lia.
From S2P Require Import Prelude Memory Process Pages Liballoc LiballocInv LiballocProof LiballocMalloc LiballocFree LiballocSpec.

Local Open Scope Z_scope.

(** [G] is the ghost description of the heap: which blocks are live. *)
Class Allocator (S G : Type) `{HasMem S} := {
  malloc : Z -> M S Z;
  free : Z -> M S unit;
  heap_ok : S -> G -> Prop;
  heap_byte : S -> G -> Z -> Prop;      (* bytes of the allocator *)
  block : G -> Z -> Z -> Prop;          (* live blocks *)
  log_byte : S -> Z -> Prop;            (* the log of the running process *)
  room : S -> Z -> Prop;                (* the pages for a request are there *)
  out_of_memory : Prop;                 (* requests may fail *)

  block_law s g p n :
    heap_ok s g -> block g p n ->
    p mod 16 = 0 /\ 0 < p < 4294967296 /\ 0 <= n /\ mapped_range (get_mem s) p n /\
    forall a, in_block p n a -> ~ heap_byte s g a;

  log_law s g a : heap_ok s g -> log_byte s a -> ~ heap_byte s g a;

  (** Only the allocator's bytes matter to it. *)
  frame_law s g m :
    heap_ok s g -> agree (heap_byte s g) (get_mem s) m ->
    heap_ok (set_mem m s) g /\ (forall a, heap_byte (set_mem m s) g a <-> heap_byte s g a) /\
    (forall a, log_byte (set_mem m s) a <-> log_byte s a) /\
    (forall n, room s n -> room (set_mem m s) n);

  malloc_law s g n :
    heap_ok s g -> 0 <= n < 2147483648 -> room s n ->
    wp (malloc n) (fun p s' => exists g', heap_ok s' g' /\
      agree (fun a => ~ heap_byte s g a /\ ~ log_byte s a) (get_mem s) (get_mem s') /\
      (forall a, log_byte s' a <-> log_byte s a) /\
      (forall a, heap_byte s' g' a -> heap_byte s g a) /\
      ((p = 0 /\ out_of_memory /\ g' = g) \/
       (p <> 0 /\ (forall a, in_block p n a -> heap_byte s g a) /\
        forall q k, block g' q k <-> block g q k \/ (q = p /\ k = n)))) s;

  free_law s g p n :
    heap_ok s g -> block g p n -> (forall a, log_byte s a -> ~ in_block p n a) ->
    wp (free p) (fun _ s' => exists g', heap_ok s' g' /\
      agree (fun a => ~ heap_byte s g a /\ ~ in_block p n a) (get_mem s) (get_mem s') /\
      (forall a, log_byte s' a <-> log_byte s a) /\
      (forall a, heap_byte s' g' a -> heap_byte s g a \/ in_block p n a) /\
      (forall q k, block g q k <-> block g' q k \/ (q = p /\ k = n)) /\
      forall k, ~ block g' p k) s;
}.

Section liballoc.
Context {A : Type} `{PageProvider A}.

Definition lib_log (h : heap A) (a : Z) : Prop := h_proc h <> 0 /\ log_bytes (h_proc h) a.

Lemma not_lib_log h a : ~ lib_log h a <-> quiet (h_proc h) a.
Proof. unfold lib_log, quiet. tauto. Qed.

#[export] Program Instance liballoc_allocator : Allocator (heap A) (list mjr) := {|
  malloc := Liballoc.malloc;
  free := Liballoc.free;
  heap_ok := heap_inv;
  heap_byte := owned;
  block := live;
  log_byte := lib_log;
  room h n := pages_room (h_mem h) (h_arch h) (new_pages (n + 32));
  out_of_memory := may_fail;
|}.
Next Obligation.
  intros s g p n [_ Hr] Hl. destruct (live_facts _ _ _ _ Hr Hl) as (? & ? & ? & ?).
  split_and!; [done|lia|lia|done|done|]. intros a Ha. exact (live_not_owned s g p n a Hr Hl Ha).
Qed.
Next Obligation.
  intros s g a [_ Hr] [Hp Hl] Ho. by eapply (rep_quiet s g).
Qed.
Next Obligation.
  intros s g m [Hl Hr] Ha. destruct (rep_agree s (set_mem m s) g) as [Hr' Ho]; try done.
  { apply (rep_bet _ _ Hr). }
  split_and!; [split; done|exact Ho|done|].
  intros n. eapply pages_frame; [apply (rep_pages _ _ Hr)|].
  eapply agree_mono; [exact Ha|]. by right.
Qed.
Next Obligation.
  intros s g n Hi Hn Hroom. eapply wp_mono; [by apply (wp_malloc s g n)|].
  intros p s' [(-> & Hf & Hi' & [Ha Ho Hp _])|(g' & x & Hd)].
  - exists g. split_and!; [done| | |exact Ho|by left].
    + eapply agree_mono; [exact Ha|]. intros a [? ?%not_lib_log]. done.
    + intros a. unfold lib_log. by rewrite Hp.
  - destruct (malloc_done_facts _ _ _ _ _ _ _ (proj2 Hi) Hd) as (Hi' & Hl & _).
    destruct Hd as [_ _ [Ha Ho Hp _] _ Hpx Hrq Hu]. exists g'. split_and!; [done| | |exact Ho|right].
    + eapply agree_mono; [exact Ha|]. intros a [? ?%not_lib_log]. done.
    + intros a. unfold lib_log. by rewrite Hp.
    + destruct (live_facts s' g' p n (proj2 Hi') ltac:(apply Hl; by right)) as (_ & ? & _).
      split_and!; [lia| |exact Hl]. intros a Hb. apply Hu. by rewrite Hpx, <-Hrq in Hb.
Qed.
Next Obligation.
  intros s g p n Hi Hl Hlog.
  destruct (live_split _ _ _ Hl) as (L1 & j & l1 & x & l2 & L2 & -> & Hm & -> & ->).
  eapply wp_mono; [apply (wp_free s L1 j l1 x l2 L2); [done|done|]|].
  { destruct (decide (h_proc s = 0)); [by left|right]. intros a Ha. by apply Hlog. }
  intros [] s' Hd. exists (after_free L1 j l1 l2 L2).
  destruct (free_done_facts s (L1 ++ j :: L2) x s' _ (proj2 Hi) Hd) as (Hi' & Hl' & Hno & _).
  destruct Hd as [_ _ [Ha Ho Hp _] _].
  split_and!; [done|exact Ha| |exact Ho|done|done].
  intros a. unfold lib_log. by rewrite Hp.
Qed.
End liballoc.
