(* ===== verification/Phymem.v ===== *)
(** * Physical pages: [mm/phymem.c]

    A bitmap over the pages between [__phy_start] and [__phy_end], allocated
    from the kernel heap when main() knows the size of memory. *)

From stdpp Require Import base numbers list gmap.
From Stdlib Require Import ZArith Lia.
From S2P Require Import Prelude Memory Bitmap Pages Arm Liballoc LiballocInv LiballocSpec Allocator.

Local Open Scope Z_scope.

Definition PHY_STATE_INIT_ZER : Z := 0.
Definition PHY_STATE_INIT_ONE : Z := 1.
Definition PHY_STATE_INIT_TWO : Z := 2.

(** The static variables of the file over the state [S] of the rest. *)
Record phymem (S : Type) : Type := Phymem {
  phy_base : S;
  __phy_start : Z;
  __phy_size : Z;
  __phy_end : Z;
  __phy_state : Z;
  phy_bitmap : Z;
}.
Arguments Phymem {S}. Arguments phy_base {S}. Arguments __phy_start {S}. Arguments __phy_size {S}.
Arguments __phy_end {S}. Arguments __phy_state {S}. Arguments phy_bitmap {S}.

Definition set_phy_base {S} (b : S) (s : phymem S) : phymem S :=
  Phymem b (__phy_start s) (__phy_size s) (__phy_end s) (__phy_state s) (phy_bitmap s).

#[export] Program Instance phymem_HasMem {S} `{HasMem S} : HasMem (phymem S) :=
  {| get_mem s := get_mem (phy_base s); set_mem m s := set_phy_base (set_mem m (phy_base s)) s |}.
Next Obligation. intros. simpl. apply get_set_mem. Qed.
Next Obligation. intros S ? []. unfold set_phy_base. simpl. by rewrite set_get_mem. Qed.
Next Obligation. intros. unfold set_phy_base. simpl. by rewrite set_set_mem. Qed.

Section ops.
Context {S G : Type} `{Allocator S G}.
Notation PM := (M (phymem S)).

Definition on_base {B} (m : M S B) : PM B := zoom phy_base set_phy_base m.

Definition phymem_init_level_one (start : Z) : PM unit :=
  modify (fun s => Phymem (phy_base s) start (__phy_size s) (__phy_end s) PHY_STATE_INIT_ONE (phy_bitmap s)).

Definition phymem_init_level_two (end_ : Z) : PM unit :=
  let! st := gets __phy_state in
  if negb (st =? PHY_STATE_INIT_ONE) then halt  (* panic *)
  else
    modify (fun s => Phymem (phy_base s) (__phy_start s) (__phy_size s) end_ (__phy_state s) (phy_bitmap s)) ;!
    let! start := gets __phy_start in
    if end_ <? start then halt
    else
      let size := u32 (end_ - start) in
      modify (fun s => Phymem (phy_base s) (__phy_start s) size (__phy_end s) (__phy_state s) (phy_bitmap s)) ;!
      let pages := size / 4096 + 1 in
      let bytes := pages / 8 + 1 in
      let! p := on_base (malloc bytes) in
      modify (fun s => Phymem (phy_base s) (__phy_start s) (__phy_size s) (__phy_end s) (__phy_state s) p) ;!
      memset p 0 bytes ;!
      modify (fun s => Phymem (phy_base s) (__phy_start s) (__phy_size s) (__phy_end s) PHY_STATE_INIT_TWO (phy_bitmap s)).

Definition phymem_alloc_pages (pages : Z) : PM Z :=
  let! st := gets __phy_state in
  if negb (st =? PHY_STATE_INIT_TWO) then halt
  else
    let! b := gets phy_bitmap in
    let! start := bitmap_find_zero b pages in
    let! base := gets __phy_start in
    ret (u32 (base + start * 4096)).

Definition phymem_free_pages (start pages : Z) : PM unit :=
  let! st := gets __phy_state in
  if negb (st =? PHY_STATE_INIT_TWO) then halt
  else
    let! b := gets phy_bitmap in
    let! base := gets __phy_start in
    let ps := s32 (u32 (start - base) / 4096) in
    for_up (Z.to_nat pages) ps (fun i => unset_bitmap b i).

(** [memset] takes the size as an [int]. *)
Definition phymem_alloc (size : Z) : PM Z :=
  let ps := size / 4096 + 1 in
  let! r := phymem_alloc_pages ps in
  memset r 0 (s32 size) ;!
  ret r.

Definition phymem_free (ptr size : Z) : PM unit :=
  phymem_free_pages ptr (size / 4096 + 1).
End ops.

(** ** Correctness *)

Section spec.
Context {S G : Type} `{Allocator S G}.
Implicit Types (s : phymem S).

(** The allocator is initialised; pages from [h * 8] on have not been given
    out. *)
Record phy_ready (s : phymem S) (h : Z) : Prop := {
  pr_state : __phy_state s = PHY_STATE_INIT_TWO;
  pr_pool : pool (get_mem s) (phy_bitmap s) (((__phy_end s - __phy_start s) / 4096 + 1) / 8 + 1) h;
  pr_range : 0 <= __phy_start s <= __phy_end s /\ __phy_end s < 4294967296;
}.

(** phymem_init_level_two, after level one, allocates a bitmap from the
    kernel heap that covers every page of the range, with every page free. *)
Theorem phymem_init_spec s g e :
  __phy_state s = PHY_STATE_INIT_ONE -> 0 <= __phy_start s <= e -> e < 4294967296 ->
  heap_ok (phy_base s) g -> ~ out_of_memory ->
  room (phy_base s) (((e - __phy_start s) / 4096 + 1) / 8 + 1) ->
  wp (phymem_init_level_two e) (fun _ s' =>
    phy_ready s' 0 /\ __phy_start s' = __phy_start s /\ __phy_end s' = e /\
    (e - __phy_start s) / 4096 < 8 * (((e - __phy_start s) / 4096 + 1) / 8 + 1) /\
    exists g', heap_ok (phy_base s') g' /\
      block g' (phy_bitmap s') (((e - __phy_start s) / 4096 + 1) / 8 + 1)) s.
Proof.
  destruct s as [b st sz en state bm]. simpl. intros -> Hst He Hok Hoom Hroom.
  set (len := ((e - st) / 4096 + 1) / 8 + 1) in *.
  assert (Hlen : 0 < len < 2147483648) by (unfold len; Z.div_mod_to_equations; lia).
  unfold phymem_init_level_two. apply wp_bind, wp_gets. simpl (negb _). cbn iota.
  apply wp_bind, wp_modify, wp_bind, wp_gets. simpl. destruct (e <? st) eqn:E; [lia|].
  rewrite (u32_small (e - st)) by lia. fold len.
  apply wp_bind, wp_modify, wp_bind. unfold on_base. apply wp_zoom. simpl.
  eapply wp_mono; [apply malloc_law; [exact Hok|lia|exact Hroom]|].
  intros p b' (g' & Hok' & Hag & _ & Hsub & [(_ & ? & _)|(Hp0 & Hin & Hbl)]); [done|].
  destruct (block_law b' g' p len Hok') as (_ & Hp & _ & Hmap & Hnot); [apply Hbl; by right|].
  unfold set_phy_base. simpl. apply wp_bind, wp_modify. simpl.
  apply wp_bind, wp_memset; [lia|exact Hmap|]. apply wp_modify. simpl.
  set (m := mwrite _ _ _).
  destruct (frame_law b' g' m Hok') as (Hok2 & _).
  { split; [apply ranges_mwrite|]. intros a Ha. apply rd_mwrite_out.
    rewrite length_replicate, Z2Nat.id by lia.
    destruct (decide (p <= a < p + len)); [|lia]. exfalso. by eapply Hnot. }
  split_and!; [|done|done|unfold len; Z.div_mod_to_equations; lia|].
  - split; simpl; [done| |lia]. apply pool_zero; [lia| |].
    + simpl. rewrite get_set_mem. unfold m. by rewrite mapped_range_mwrite.
    + intros k Hk. simpl. rewrite get_set_mem. apply (rd_mwrite_in _ _ _ _ 0); [|lia].
      apply lookup_replicate. split; [done|lia].
  - exists g'. split; [exact Hok2|]. apply Hbl. by right.
Qed.

Definition bitmap_len (s : phymem S) : Z := ((__phy_end s - __phy_start s) / 4096 + 1) / 8 + 1.

(** Two runs of pages starting at [h] bytes into the bitmap. *)
Lemma wp_phymem_alloc_pages s h n (Q : Z -> phymem S -> Prop) :
  phy_ready s h -> 2 <= n -> 8 * h + n <= (__phy_end s - __phy_start s) / 4096 ->
  (forall s', phy_ready s' (h + run_bytes n) ->
     __phy_start s' = __phy_start s -> __phy_end s' = __phy_end s -> phy_bitmap s' = phy_bitmap s ->
     agree (fun a => ~ phy_bitmap s <= a < phy_bitmap s + bitmap_len s) (get_mem s) (get_mem s') ->
     s' = set_mem (get_mem s') s ->
     Q (__phy_start s + 8 * h * 4096) s') ->
  wp (phymem_alloc_pages n) Q s.
Proof.
  intros [Hst Hp [Hr He]] Hn Hfit HQ. unfold phymem_alloc_pages.
  pose proof (pool_h _ _ _ _ Hp).
  assert (Hb : 8 * h + n <= 8 * bitmap_len s) by (unfold bitmap_len; Z.div_mod_to_equations; lia).
  assert (8 * bitmap_len s < 2147483648) by (unfold bitmap_len; Z.div_mod_to_equations; lia).
  apply wp_bind, wp_gets. rewrite Hst. simpl (negb _). cbn iota.
  apply wp_bind, wp_gets, wp_bind. eapply wp_find_zero_pool; [exact Hp|done|done|done|].
  apply wp_bind, wp_gets, wp_ret.
  rewrite u32_small; [|simpl; Z.div_mod_to_equations; lia].
  apply HQ; try done.
  - split; [done| |done]. simpl. rewrite get_set_mem. by apply pool_after.
  - simpl. rewrite get_set_mem. split; [apply ranges_set_bits|].
    intros a Ha. eapply rd_set_bits_pool; [exact Hp|done|done|]. fold (bitmap_len s). lia.
  - by rewrite get_set_mem.
Qed.

(** A series of requests, each for two or more pages. *)
Fixpoint phymem_series (reqs : list Z) : M (phymem S) (list Z) :=
  match reqs with
  | [] => ret []
  | n :: reqs =>
      let! p := phymem_alloc_pages n in
      let! ps := phymem_series reqs in
      ret (p :: ps)
  end.

Definition pages_for (reqs : list Z) : Z := foldr (fun n k => 8 * run_bytes n + k) 0 reqs.

(** C15: as long as the pages last, requests for two or more physical pages
    are answered with page-aligned runs inside the range, and no two of the
    runs overlap. *)
Theorem phymem_series_disjoint s h reqs :
  phy_ready s h -> Forall (fun n => 2 <= n) reqs ->
  8 * h + pages_for reqs <= (__phy_end s - __phy_start s) / 4096 ->
  wp (phymem_series reqs) (fun ps _ =>
    Forall2 (fun p n => (p - __phy_start s) mod 4096 = 0 /\
      __phy_start s + 8 * h * 4096 <= p /\ p + n * 4096 <= __phy_end s) ps reqs /\
    forall i j p q n k, ps !! i = Some p -> ps !! j = Some q -> reqs !! i = Some n ->
      reqs !! j = Some k -> (i < j)%nat -> p + n * 4096 <= q) s.
Proof.
  revert s h. induction reqs as [|n reqs IH]; intros s h Hs Hn Hfit; simpl.
  { apply wp_ret. split; [constructor|]. by intros. }
  apply Forall_cons in Hn as [Hn Hreqs]. simpl in Hfit.
  assert (0 <= pages_for reqs).
  { clear -Hreqs. induction Hreqs; simpl; [lia|]. unfold run_bytes. Z.div_mod_to_equations. lia. }
  assert (n <= 8 * run_bytes n) by (unfold run_bytes; Z.div_mod_to_equations; lia).
  pose proof (pr_range _ _ Hs) as Hr. pose proof (pool_h _ _ _ _ (pr_pool _ _ Hs)).
  apply wp_bind, (wp_phymem_alloc_pages s h n); [done|lia|lia|].
  intros s' Hs' Hst Hen Hbm _ _. apply wp_bind.
  eapply wp_mono; [apply (IH s' (h + run_bytes n)); [done|done|rewrite Hst, Hen; lia]|].
  intros ps s'' [Hall Hdis]. apply wp_ret. rewrite Hst, Hen in Hall. split.
  - constructor.
    + split_and!; [|lia|Z.div_mod_to_equations; lia].
      replace (__phy_start s + 8 * h * 4096 - __phy_start s) with (8 * h * 4096) by lia.
      apply Z.mod_mul. lia.
    + eapply Forall2_impl; [exact Hall|]. simpl. intros p k (? & ? & ?). split_and!; [done|lia|done].
  - intros [|i] [|j] p q a b Hp Hq Ha Hb Hij; simpl in *; [lia| |lia|eapply Hdis; eauto; lia].
    injection Hp as <-. injection Ha as <-.
    destruct (Forall2_lookup_l _ _ _ _ _ Hall Hq) as (b' & _ & _ & ? & _). lia.
Qed.

(** A request for one page is always answered with the first page of the
    range, whatever is allocated: two live one-page allocations are the same
    page. *)
Theorem phymem_one_page_same s :
  __phy_state s = PHY_STATE_INIT_TWO -> mapped_range (get_mem s) (phy_bitmap s) 1 ->
  0 <= __phy_start s < 4294967296 ->
  exists s', (let! p := phymem_alloc_pages 1 in let! q := phymem_alloc_pages 1 in ret (p, q)) s =
    Ret (__phy_start s, __phy_start s) s'.
Proof.
  intros Hst Hm Hr.
  assert (Hone : forall t (Q : Z -> phymem S -> Prop), __phy_state t = PHY_STATE_INIT_TWO ->
    mapped_range (get_mem t) (phy_bitmap t) 1 -> 0 <= __phy_start t < 4294967296 ->
    Q (__phy_start t) (set_mem (set_bit (get_mem t) (phy_bitmap t) 0) t) -> wp (phymem_alloc_pages 1) Q t).
  { intros t Q Ht Hmt Hrt HQ. unfold phymem_alloc_pages. apply wp_bind, wp_gets. rewrite Ht.
    simpl (negb _). cbn iota. apply wp_bind, wp_gets, wp_bind, wp_find_zero_one; [done|].
    apply wp_bind, wp_gets, wp_ret. simpl. rewrite Z.add_0_r, u32_small by done. exact HQ. }
  assert (Hw : wp (let! p := phymem_alloc_pages 1 in let! q := phymem_alloc_pages 1 in ret (p, q))
    (fun r _ => r = (__phy_start s, __phy_start s)) s).
  { apply wp_bind, Hone; [done..|]. apply wp_bind, Hone; [done| |done|by apply wp_ret].
    simpl. by rewrite get_set_mem. }
  apply wp_inv in Hw as (r & s' & -> & ->). by exists s'.
Qed.

(** Freeing pages clears exactly their bits and nothing else in memory;
    the range keeps its bounds. *)
Theorem phymem_free_pages_spec s p n :
  __phy_state s = PHY_STATE_INIT_TWO -> 0 <= __phy_start s <= p -> p < 4294967296 -> 0 <= n ->
  (p - __phy_start s) mod 4096 = 0 ->
  let ps := (p - __phy_start s) / 4096 in
  mapped_range (get_mem s) (phy_bitmap s) ((ps + n - 1) / 8 + 1) ->
  wp (phymem_free_pages p n) (fun _ s' =>
    (forall i, 0 <= i -> bit (get_mem s') (phy_bitmap s) i =
       bit (get_mem s) (phy_bitmap s) i && negb ((ps <=? i) && (i <? ps + n))) /\
    __phy_start s' = __phy_start s /\ __phy_end s' = __phy_end s /\ phy_bitmap s' = phy_bitmap s) s.
Proof.
  intros Hst Hr Hp Hn Hal ps Hm. unfold phymem_free_pages.
  apply wp_bind, wp_gets. rewrite Hst. simpl (negb _). cbn iota.
  apply wp_bind, wp_gets, wp_bind, wp_gets.
  rewrite (u32_small (p - __phy_start s)) by lia. fold ps.
  assert (0 <= ps < 2147483648) by (unfold ps; Z.div_mod_to_equations; lia).
  rewrite s32_small by lia. apply wp_unset_loop; [lia|by rewrite Z2Nat.id by lia|].
  split_and!; try done. intros i Hi. simpl. rewrite get_set_mem.
  rewrite bit_unset_bits by lia. rewrite Z2Nat.id by lia. done.
Qed.
End spec.

(** ** The theorems at work *)

#[local] Existing Instance Arm.provider.

(** A range of 1 MB whose bitmap of 33 bytes is at 4096. *)
Definition demo_phy : phymem mem :=
  Phymem (Mem ∅ [(4096, 8192)]) 3162112 1048576 4210688 PHY_STATE_INIT_TWO 4096.

Lemma demo_phy_ready : phy_ready demo_phy 0.
Proof.
  split; [done| |vm_compute; split; [split|]; discriminate || reflexivity].
  apply pool_zero; [vm_compute; discriminate| |].
  - eapply mapped_range_intro; [left|vm_compute; discriminate..].
  - intros k Hk. reflexivity.
Qed.

Lemma phymem_init_spec_witness :
  wp (phymem_init_level_two 4210688) (fun _ s' => phy_ready s' 0)
    (Phymem demo0 3162112 0 0 PHY_STATE_INIT_ONE 0).
Proof.
  eapply wp_mono; [eapply (phymem_init_spec (G := list mjr) _ [])|].
  - reflexivity.
  - simpl. lia.
  - lia.
  - exact demo0_inv.
  - by intros [].
  - apply (demo_room demo0); vm_compute; done || (split; discriminate).
  - by intros _ s' [? _].
Defined.

Lemma phymem_series_disjoint_witness :
  wp (phymem_series [2; 9; 20]) (fun ps _ => length ps = 3%nat) demo_phy.
Proof.
  eapply wp_mono; [apply (phymem_series_disjoint demo_phy 0 [2; 9; 20])|].
  - exact demo_phy_ready.
  - repeat constructor; lia.
  - vm_compute. discriminate.
  - intros ps s' [Hall _]. by apply Forall2_length in Hall.
Defined.

Lemma phymem_one_page_same_witness :
  exists s', (let! p := phymem_alloc_pages 1 in let! q := phymem_alloc_pages 1 in ret (p, q)) demo_phy =
    Ret (3162112, 3162112) s'.
Proof.
  apply (phymem_one_page_same demo_phy); [reflexivity| |vm_compute; split; discriminate || reflexivity].
  eapply mapped_range_intro; [left|vm_compute; discriminate..].
Defined.

Lemma phymem_free_pages_spec_witness :
  wp (phymem_free_pages 3170304 3) (fun _ s' => bit (get_mem s') 4096 2 = false) demo_phy.
Proof.
  eapply wp_mono; [apply (phymem_free_pages_spec demo_phy 3170304 3)|].
  - reflexivity.
  - vm_compute; split; discriminate.
  - lia.
  - lia.
  - reflexivity.
  - eapply mapped_range_intro; [left|vm_compute; discriminate..].
  - intros _ s' [Hb _]. exact (Hb 2 ltac:(lia)).
Defined.
