(* ===== verification/Paging.v ===== *)
(** * Paging on x86: [arch/x86/paging.c]

    The kernel's page tables, the page directories of user processes, and the
    pages of the kernel heap: 1024 pages at 0xC0000000, which are the 4 MB of
    physical memory from 0x400000.  [X86] is the page provider of the heap on
    this architecture. *)

From stdpp Require Import base numbers list gmap.
From Stdlib Require Import ZArith Lia.
From S2P Require Import Prelude Memory Bitmap Pages Arm Liballoc LiballocInv LiballocProof LiballocSpec Allocator Phymem.

Local Open Scope Z_scope.

Definition KHEAP_VIRTUAL_START : Z := 3221225472.  (* 0xC0000000 *)
Definition KERNEL_PAGE : Z := 3.

(** ** The kernel heap's pages *)

Module X86.

(** The address of the static array [kheap_bitmap], of 128 bytes. *)
Record state : Type := State { kheap_bitmap : Z }.

Definition mm_alloc_pages (pages : Z) : M (mem * state) Z :=
  let! b := gets (fun s => kheap_bitmap s.2) in
  let! n := bitmap_find_zero b (u32 pages) in
  ret (u32 (KHEAP_VIRTUAL_START + n * 4096)).

(** The statement after the first [return] is never reached. *)
Definition mm_free_pages (ptr pages : Z) : M (mem * state) Z := ret 0.

Definition kheap_pool (m : mem) (a : state) (h : Z) : Prop := pool m (kheap_bitmap a) 128 h.

Definition pages_ok (m : mem) (a : state) : Prop :=
  exists h, kheap_pool m a h /\ kheap_bitmap a + 128 <= KHEAP_VIRTUAL_START /\
    mapped_range m KHEAP_VIRTUAL_START (1024 * PAGE).
Definition reserved (m : mem) (a : state) (x : Z) : Prop :=
  kheap_bitmap a <= x < kheap_bitmap a + 128 \/
  exists h, kheap_pool m a h /\ KHEAP_VIRTUAL_START + 8 * h * PAGE <= x < KHEAP_VIRTUAL_START + 1024 * PAGE.
Definition pages_room (m : mem) (a : state) (n : Z) : Prop :=
  exists h, kheap_pool m a h /\ 8 * h + n <= 1024.

Lemma pool_agree m m' b len h :
  agree (fun x => b <= x < b + len) m m' -> pool m b len h -> pool m' b len h.
Proof.
  intros [Hr Hd] [? Hm Hu Hc]. split; [done| | |].
  - unfold mapped_range, mapped in *. by rewrite Hr.
  - intros k Hk. rewrite Hd by lia. auto.
  - intros k Hk. rewrite Hd by lia. auto.
Qed.

Lemma pool_unique m b len h h' : pool m b len h -> pool m b len h' -> h = h'.
Proof.
  intros [? _ Hu Hc] [? _ Hu' Hc'].
  destruct (Z.lt_trichotomy h h') as [Hlt|[?|Hlt]]; [|done|].
  - specialize (Hu' h ltac:(lia)). rewrite (Hc h) in Hu' by lia. done.
  - specialize (Hu h' ltac:(lia)). rewrite (Hc' h') in Hu by lia. done.
Qed.

#[export] Program Instance provider : PageProvider state := {|
  Pages.mm_alloc_pages := mm_alloc_pages;
  Pages.mm_free_pages := mm_free_pages;
  Pages.pages_ok := pages_ok;
  Pages.reserved := reserved;
  Pages.pages_room := pages_room;
  Pages.may_fail := False;
|}.
Next Obligation.
  intros m m' a (h & Hp & Hlo & Hmap) Ha.
  assert (Hb : agree (fun x => kheap_bitmap a <= x < kheap_bitmap a + 128) m m').
  { eapply agree_mono; [exact Ha|]. by left. }
  assert (Hb' : agree (fun x => kheap_bitmap a <= x < kheap_bitmap a + 128) m' m).
  { destruct Hb as [Hr Hd]. split; [done|]. intros x Hx. by rewrite Hd. }
  split_and!.
  - exists h. split_and!; [by eapply pool_agree|done|]. by eapply agree_mapped_range.
  - intros x. unfold reserved, kheap_pool.
    split; (intros [?|(k & Hk & ?)]; [by left|right; exists k; split; [by eapply pool_agree|done]]).
  - intros n (k & Hk & ?). exists k. split; [by eapply pool_agree|done].
Qed.
Next Obligation.
  intros m a n (h & Hp & Hlo & Hmap) Hn (h' & Hp' & Hfit).
  assert (h' = h) as -> by (eapply pool_unique; done). pose proof (pool_h _ _ _ _ Hp).
  unfold KHEAP_VIRTUAL_START, PAGE in *.
  assert (Hrun : n <= 8 * run_bytes n) by (unfold run_bytes; Z.div_mod_to_equations; lia).
  unfold mm_alloc_pages. apply wp_bind, wp_gets, wp_bind. simpl. rewrite u32_small by lia.
  apply (wp_find_zero_pool _ 128 h n); [exact Hp|lia|lia|lia|].
  apply wp_ret. simpl. unfold KHEAP_VIRTUAL_START. rewrite u32_small by lia.
  set (m' := set_bits _ _ _ _).
  assert (Hp2 : pool m' (kheap_bitmap a) 128 (h + run_bytes n)) by (apply pool_after; [done|lia|lia]).
  assert (Hag : agree (fun x => ~ kheap_bitmap a <= x < kheap_bitmap a + 128) m m').
  { split; [apply ranges_set_bits|]. intros x Hx.
    eapply rd_set_bits_pool; [exact Hp|lia|lia|lia]. }
  right. split_and!.
  - lia.
  - eapply agree_mapped_range; [exact Hag|]. eapply mapped_range_sub; [exact Hmap|lia|lia].
  - exists (h + run_bytes n). split_and!; [exact Hp2|done|]. by eapply agree_mapped_range.
  - intros x Hx. right. exists h. split; [exact Hp|]. unfold KHEAP_VIRTUAL_START, PAGE. lia.
  - intros x [Hx|(k & Hk & Hx)]; (split; [|intros Hx']); unfold KHEAP_VIRTUAL_START, PAGE in *.
    + by left.
    + simpl in *. lia.
    + right. exists h. split; [exact Hp|]. unfold KHEAP_VIRTUAL_START, PAGE.
      assert (k = h + run_bytes n) as -> by (eapply pool_unique; done). lia.
    + assert (k = h + run_bytes n) as -> by (eapply pool_unique; done). lia.
  - eapply agree_mono; [exact Hag|]. intros x Hx Hb. apply Hx. by left.
Qed.
Next Obligation.
  intros m a p n Hok Hp. unfold mm_free_pages. apply wp_ret. split_and!; auto. done.
Qed.

End X86.

(** ** Page tables *)

#[local] Arguments for_up : simpl never.

Section ops.
Context {S : Type} `{HasMem S}.

Definition make_page_pte (addr_aligned flags : Z) : Z := Z.lor addr_aligned flags.

Definition initialize_pt (pt startaddr : Z) : M S unit :=
  for_up 1024 0 (fun i => st32 (pt + 4 * i) (make_page_pte (u32 (startaddr + i * 4096)) KERNEL_PAGE)).

(** [while ((uint32_t)p & ~0xfffff000) p = p + 1;] *)
Definition page_align (p : Z) : M S Z :=
  loop (fun p => if Z.land p 4095 =? 0 then ret (inr p) else ret (inl (u32 (p + 1)))) p.

(** [pd] is the address of an array of addresses of page tables. *)
Definition replace_page (pd vaddr page : Z) : M S unit :=
  let vid := vaddr / 4194304 in
  let pageid := vaddr mod 4194304 in
  let! pt := ld32 (pd + 4 * vid) in
  st32 (pt + 4 * pageid) page.
End ops.

(** The static variables of the file, and the control registers. *)
Record paging (S : Type) : Type := Pg {
  pg_phy : phymem S;
  pg_kheap_bitmap : Z;
  page_directory : Z;
  __kernel_heap_pt : Z;
  __first_pt : Z;
  cr3 : Z;
  cr0 : Z;
}.
Arguments Pg {S}. Arguments pg_phy {S}. Arguments pg_kheap_bitmap {S}. Arguments page_directory {S}.
Arguments __kernel_heap_pt {S}. Arguments __first_pt {S}. Arguments cr3 {S}. Arguments cr0 {S}.

Definition set_pg_phy {S} (p : phymem S) (s : paging S) : paging S :=
  Pg p (pg_kheap_bitmap s) (page_directory s) (__kernel_heap_pt s) (__first_pt s) (cr3 s) (cr0 s).

#[export] Program Instance paging_HasMem {S} `{HasMem S} : HasMem (paging S) :=
  {| get_mem s := get_mem (pg_phy s); set_mem m s := set_pg_phy (set_mem m (pg_phy s)) s |}.
Next Obligation. intros. unfold set_pg_phy. cbn [pg_phy]. apply get_set_mem. Qed.
Next Obligation. intros S ? []. unfold set_pg_phy. cbn [pg_phy]. by rewrite set_get_mem. Qed.
Next Obligation. intros. unfold set_pg_phy. cbn [pg_phy]. by rewrite set_set_mem. Qed.

Section paging_ops.
Context {S G : Type} `{Allocator S G}.
Notation PM := (M (paging S)).

Definition on_phy {B} (m : M (phymem S) B) : PM B := zoom pg_phy set_pg_phy m.

Definition paging_init : PM Z :=
  let page_aligned_end := Z.land 3145728 4294963200 + 4096 in
  modify (fun s => Pg (pg_phy s) (pg_kheap_bitmap s) page_aligned_end (__kernel_heap_pt s) (__first_pt s) (cr3 s) (cr0 s)) ;!
  let! pd := gets page_directory in
  for_up 1024 0 (fun i => st32 (pd + 4 * i) (Z.lor 0 2)) ;!
  let page_aligned_end := page_aligned_end + 4096 in
  modify (fun s => Pg (pg_phy s) (pg_kheap_bitmap s) (page_directory s) page_aligned_end (__first_pt s) (cr3 s) (cr0 s)) ;!
  let page_aligned_end := page_aligned_end + 4096 in
  modify (fun s => Pg (pg_phy s) (pg_kheap_bitmap s) (page_directory s) (__kernel_heap_pt s) page_aligned_end (cr3 s) (cr0 s)) ;!
  let! first := gets __first_pt in
  let! kheap := gets __kernel_heap_pt in
  initialize_pt first 0 ;!
  initialize_pt kheap 4194304 ;!
  st32 (pd + 4 * 768) (Z.lor kheap 3) ;!
  st32 (pd + 4 * 0) (Z.lor first 3) ;!
  let! kb := gets pg_kheap_bitmap in
  for_up 128 0 (fun i => st8 (kb + i) 0) ;!
  on_phy (phymem_init_level_one (page_aligned_end + 4096)) ;!
  modify (fun s => Pg (pg_phy s) (pg_kheap_bitmap s) (page_directory s) (__kernel_heap_pt s) (__first_pt s)
            (page_directory s) (Z.lor (cr0 s) 2147483648)) ;!
  ret 0.

Definition create_new_page_directory (vaddr paddr : Z) : PM Z :=
  let! pd := on_phy (on_base (malloc 8192)) in
  let! pd := page_align pd in
  let! kheap := gets __kernel_heap_pt in
  st32 (pd + 4 * 768) (Z.lor kheap 3) ;!
  let! first := gets __first_pt in
  st32 (pd + 4 * 0) (Z.lor first 3) ;!
  let! pt := on_phy (on_base (malloc 8192)) in
  let! pt := page_align pt in
  initialize_pt pt paddr ;!
  let e := pd + 4 * (vaddr / 4194304) in
  st32 e (Z.lor pt 3) ;!
  let! v := ld32 e in
  st32 e (u32 (v - 3221225472)) ;!
  let! v := ld32 e in
  st32 e (u32 (v + 4194304)) ;!
  ret (u32 (u32 (pd - 3221225472) + 4194304)).

(** [paged] is the address of a variable of the caller. *)
Definition arch_setup_paged (paged palloc : Z) : PM unit :=
  let! pd := create_new_page_directory 4194304 palloc in
  st32 paged pd.
End paging_ops.

(** ** Address translation

    What the processor does with a directory: [rdp] reads a word of physical
    memory. *)

Definition entry_base (e : Z) : Z := Z.land e 4294963200.
Definition present (e : Z) : bool := Z.testbit e 0.

Definition walk (rdp : Z -> Z) (dir va : Z) : option Z :=
  let pde := rdp (dir + 4 * (va / 4194304)) in
  if present pde then
    let pte := rdp (entry_base pde + 4 * (va / 4096 mod 1024)) in
    if present pte then Some (entry_base pte + va mod 4096) else None
  else None.

Lemma entry_base_eq x : 0 <= x < 4294967296 -> entry_base x = x / 4096 * 4096.
Proof.
  intros Hx. unfold entry_base. change 4294963200 with (Z.shiftl (Z.ones 20) 12).
  change 4096 with (2 ^ 12). apply Z.bits_inj'. intros n Hn. rewrite Z.land_spec.
  destruct (decide (n < 12)).
  - rewrite Z.shiftl_spec_low, Z.mul_pow2_bits_low by lia. apply andb_false_r.
  - rewrite Z.shiftl_spec, Z.mul_pow2_bits, Z.div_pow2_bits by lia.
    replace (n - 12 + 12) with n by lia.
    destruct (decide (n < 32)).
    + rewrite Z.ones_spec_low by lia. apply andb_true_r.
    + rewrite Z.ones_spec_high by lia.
      rewrite <-(Z.mod_small x (2 ^ 32)) by (change (2 ^ 32) with 4294967296; lia).
      rewrite Z.mod_pow2_bits_high by lia. done.
Qed.

Lemma lor_page a f : a mod 4096 = 0 -> 0 <= f < 4096 -> Z.lor a f = a + f.
Proof.
  intros Hal Hf. assert (Hd : Z.land a f = 0); [|rewrite <-Z.add_lor_land, Hd; lia].
  apply Z.bits_inj'. intros n Hn. rewrite Z.land_spec, Z.bits_0. destruct (decide (n < 12)).
  - replace a with (a / 2 ^ 12 * 2 ^ 12) by (change (2 ^ 12) with 4096; Z.div_mod_to_equations; lia).
    rewrite Z.mul_pow2_bits_low by lia. done.
  - replace f with (f mod 2 ^ 12) by (apply Z.mod_small; change (2 ^ 12) with 4096; lia).
    rewrite Z.mod_pow2_bits_high by lia. apply andb_false_r.
Qed.

Lemma entry_present a : 0 <= a -> a + 3 < 4294967296 -> a mod 4096 = 0 ->
  present (a + 3) = true /\ entry_base (a + 3) = a.
Proof.
  intros. split.
  - unfold present. rewrite Z.bit0_odd, Z.odd_add. replace (Z.odd a) with false; [done|].
    symmetry. rewrite Zodd_mod. destruct (a mod 2 =? 1) eqn:E; [Z.div_mod_to_equations; lia|done].
  - rewrite entry_base_eq by lia. Z.div_mod_to_equations. lia.
Qed.

(** A table of [n] words written by a loop. *)
Definition table_at (m : mem) (t : Z) (f : Z -> Z) (n : Z) : Prop :=
  forall i, 0 <= i < n -> rd32 m (t + 4 * i) = f i.

Lemma table_agree P m m' t f n :
  agree P m m' -> table_at m t f n -> (forall a, t <= a < t + 4 * n -> P a) -> table_at m' t f n.
Proof.
  intros Ha Ht HP i Hi. rewrite <-(Ht i Hi). apply (rd32_agree _ _ _ _ Ha); apply HP; lia.
Qed.

Section tables.
Context {S : Type} `{HasMem S}.

Lemma wp_fill_table t n (f : Z -> Z) (Q : unit -> S -> Prop) s :
  (forall i, 0 <= i < Z.of_nat n -> 0 <= f i < 4294967296) ->
  mapped_range (get_mem s) t (4 * Z.of_nat n) ->
  (forall m, agree (fun a => ~ t <= a < t + 4 * Z.of_nat n) (get_mem s) m ->
     table_at m t f (Z.of_nat n) -> Q tt (set_mem m s)) ->
  wp (for_up n 0 (fun i => st32 (t + 4 * i) (f i))) Q s.
Proof.
  intros Hf Hm HQ.
  apply (wp_for_up (fun k s' => exists m, s' = set_mem m s /\
    agree (fun a => ~ t <= a < t + 4 * Z.of_nat n) (get_mem s) m /\ table_at m t f k)).
  - exists (get_mem s). split_and!; [by lens|apply agree_refl|]. intros i ?. lia.
  - intros k s' Hk (m & -> & Hag & Ht). apply wp_st32.
    { lens. eapply agree_mapped_range; [exact Hag|]. eapply mapped_range_sub; [exact Hm|lia|lia]. }
    lens. exists (mwrite m (t + 4 * k) (le32 (f k))). split_and!; [done| |].
    + eapply agree_trans; [exact Hag|]. split; [apply ranges_mwrite|]. intros a Ha.
      apply rd_mwrite_out. rewrite le32_length. lia.
    + intros i Hi. destruct (decide (i = k)) as [->|].
      * rewrite rd32_mwrite_same. apply u32_small, Hf. lia.
      * rewrite rd32_mwrite_out by (rewrite le32_length; lia). apply Ht. lia.
  - intros s' (m & -> & Hag & Ht). by apply HQ.
Qed.

Lemma wp_zero_bytes t n (Q : unit -> S -> Prop) s :
  mapped_range (get_mem s) t (Z.of_nat n) ->
  (forall m, agree (fun a => ~ t <= a < t + Z.of_nat n) (get_mem s) m ->
     (forall a, t <= a < t + Z.of_nat n -> rd m a = 0) -> Q tt (set_mem m s)) ->
  wp (for_up n 0 (fun i => st8 (t + i) 0)) Q s.
Proof.
  intros Hm HQ. pose proof Hm as (? & ? & Hmp).
  apply (wp_for_up (fun k s' => exists m, s' = set_mem m s /\
    agree (fun a => ~ t <= a < t + Z.of_nat n) (get_mem s) m /\
    forall a, t <= a < t + k -> rd m a = 0)).
  - exists (get_mem s). split_and!; [by lens|apply agree_refl|]. intros i ?. lia.
  - intros k s' Hk (m & -> & Hag & Hz). apply wp_st8; [lia| |].
    { lens. unfold mapped. rewrite (proj1 Hag). apply Hmp. lia. }
    lens. exists (mset m (t + k) 0). split_and!; [done| |].
    + eapply agree_trans; [exact Hag|]. split; [done|]. intros a Ha. apply rd_mset_out. lia.
    + intros a Ha. rewrite rd_mset. case_decide; [done|]. apply Hz. lia.
  - intros s' (m & -> & Hag & Hz). by apply HQ.
Qed.

Lemma wp_initialize_pt pt startaddr (Q : unit -> S -> Prop) s :
  startaddr mod 4096 = 0 -> mapped_range (get_mem s) pt 4096 ->
  (forall m, agree (fun a => ~ pt <= a < pt + 4096) (get_mem s) m ->
     table_at m pt (fun i => u32 (startaddr + i * 4096) + 3) 1024 -> Q tt (set_mem m s)) ->
  wp (initialize_pt pt startaddr) Q s.
Proof.
  intros Hal Hm HQ. unfold initialize_pt, make_page_pte, KERNEL_PAGE.
  assert (Hpte : forall i, Z.lor (u32 (startaddr + i * 4096)) 3 = u32 (startaddr + i * 4096) + 3 /\
    0 <= u32 (startaddr + i * 4096) + 3 < 4294967296).
  { intros i. assert (u32 (startaddr + i * 4096) mod 4096 = 0)
      by (unfold u32; Z.div_mod_to_equations; lia).
    pose proof (u32_range (startaddr + i * 4096)). split; [apply lor_page; [done|lia]|].
    Z.div_mod_to_equations; lia. }
  apply (wp_fill_table pt 1024 (fun i => Z.lor (u32 (startaddr + i * 4096)) 3)).
  - intros i _. destruct (Hpte i) as [-> ?]. done.
  - exact Hm.
  - intros m Hag Ht. apply HQ; [exact Hag|]. intros i Hi. rewrite (Ht i Hi). apply Hpte.
Qed.

(** The next multiple of the page size. *)
Lemma wp_page_align p (Q : Z -> S -> Prop) s :
  0 <= p -> p + 4096 <= 4294967296 ->
  (forall q, q mod 4096 = 0 -> p <= q < p + 4096 -> Q q s) ->
  wp (page_align p) Q s.
Proof.
  intros Hp Hhi HQ. unfold page_align.
  apply (wp_loop (fun q t => t = s /\ p <= q <= p + (- p) mod 4096) (fun q _ => p + 4096 - q)).
  - split; [done|]. Z.div_mod_to_equations. lia.
  - lia.
  - intros q t [-> Hq]. split; [Z.div_mod_to_equations; lia|].
    assert (Z.land q 4095 = q mod 4096) as -> by exact (Z.land_ones q 12 ltac:(lia)).
    destruct (q mod 4096 =? 0) eqn:E.
    + apply wp_ret, HQ; [lia|]. Z.div_mod_to_equations. lia.
    + apply wp_ret. rewrite u32_small by (Z.div_mod_to_equations; lia).
      split; [|lia]. split; [done|]. Z.div_mod_to_equations. lia.
Qed.
End tables.

(** *** The kernel's own tables *)

Section init_spec.
Context {S G : Type} `{Allocator S G}.
Implicit Types (s : paging S).

Lemma walk_some rdp dir va pt pa :
  rdp (dir + 4 * (va / 4194304)) = pt + 3 -> rdp (pt + 4 * (va / 4096 mod 1024)) = pa + 3 ->
  0 <= pt -> pt + 3 < 4294967296 -> pt mod 4096 = 0 ->
  0 <= pa -> pa + 3 < 4294967296 -> pa mod 4096 = 0 ->
  walk rdp dir va = Some (pa + va mod 4096).
Proof.
  intros Hd Ht ??????. unfold walk. rewrite Hd.
  destruct (entry_present pt) as [-> ->]; [done..|]. rewrite Ht.
  by destruct (entry_present pa) as [-> ->].
Qed.

(** The memory image that [paging_init] leaves. *)
Record kernel_tables (m : mem) (pd kpt fpt : Z) : Prop := {
  kt_kernel : table_at m kpt (fun i => u32 (4194304 + i * 4096) + 3) 1024;
  kt_first : table_at m fpt (fun i => u32 (0 + i * 4096) + 3) 1024;
  kt_dir : forall i, 0 <= i < 1024 -> rd32 m (pd + 4 * i) =
    if i =? 768 then kpt + 3 else if i =? 0 then fpt + 3 else 2;
}.

(** The four steps that fill the tables: the directory, the two page tables,
    the two entries, and the bitmap, which is elsewhere. *)
Lemma kernel_tables_intro m1 m2 m3 m5 kb :
  let m4 := mwrite (mwrite m3 3152896 (le32 3153923)) 3149824 (le32 3158019) in
  (kb + 128 <= 3149824 \/ 3162112 <= kb) -> table_at m1 3149824 (fun _ => 2) 1024 ->
  agree (fun a => ~ 3158016 <= a < 3158016 + 4096) m1 m2 -> table_at m2 3158016 (fun i => u32 (0 + i * 4096) + 3) 1024 ->
  agree (fun a => ~ 3153920 <= a < 3153920 + 4096) m2 m3 -> table_at m3 3153920 (fun i => u32 (4194304 + i * 4096) + 3) 1024 ->
  agree (fun a => ~ kb <= a < kb + 128) m4 m5 -> kernel_tables m5 3149824 3153920 3158016.
Proof.
  intros m4 Hdis Ht1 Ha2 Ht2 Ha3 Ht3 Ha5.
  assert (Ha35 : agree (fun a => ~ 3149824 <= a < 3149828 /\ ~ 3152896 <= a < 3152900 /\ ~ kb <= a < kb + 128) m3 m5).
  { eapply agree_trans; [|eapply agree_mono; [exact Ha5|tauto]]. unfold m4. split; [by rewrite !ranges_mwrite|].
    intros a Ha. by rewrite !rd_mwrite_out by (rewrite le32_length; lia). }
  split.
  - eapply table_agree; [exact Ha35|exact Ht3|]. intros a Ha. cbv beta. lia.
  - eapply table_agree; [exact Ha35| |intros a Ha; cbv beta; lia].
    eapply table_agree; [exact Ha3|exact Ht2|]. intros a Ha. cbv beta. lia.
  - intros i Hi. rewrite (rd32_agree _ _ _ _ Ha5) by lia. unfold m4. destruct (i =? 768) eqn:E.
    { assert (i = 768) as -> by lia. reads. done. }
    destruct (i =? 0) eqn:E0.
    { assert (i = 0) as -> by lia. reads. done. }
    reads. rewrite (rd32_agree _ _ _ _ Ha3), (rd32_agree _ _ _ _ Ha2) by (cbv beta; lia). by apply Ht1.
Qed.

Lemma wp_paging_init s (Q : Z -> paging S -> Prop) :
  mapped_range (get_mem s) 3149824 12288 ->
  mapped_range (get_mem s) (pg_kheap_bitmap s) 128 ->
  (pg_kheap_bitmap s + 128 <= 3149824 \/ 3162112 <= pg_kheap_bitmap s) ->
  (forall s', kernel_tables (get_mem s') 3149824 3153920 3158016 ->
     pool (get_mem s') (pg_kheap_bitmap s) 128 0 ->
     page_directory s' = 3149824 -> __kernel_heap_pt s' = 3153920 -> __first_pt s' = 3158016 ->
     cr3 s' = 3149824 -> cr0 s' = Z.lor (cr0 s) 2147483648 ->
     __phy_start (pg_phy s') = 3162112 -> __phy_state (pg_phy s') = PHY_STATE_INIT_ONE -> Q 0 s') ->
  wp paging_init Q s.
Proof.
  intros Hm Hkb Hdis HQ. unfold paging_init. change (Z.land 3145728 4294963200 + 4096) with 3149824.
  cbv zeta. change (3149824 + 4096) with 3153920. change (3153920 + 4096) with 3158016.
  change (3158016 + 4096) with 3162112.
  assert (Hsub : forall a n, 3149824 <= a -> a + n <= 3162112 -> mapped_range (get_mem s) a n)
    by (intros; eapply mapped_range_sub; [exact Hm|lia|lia]).
  apply wp_bind, wp_modify, wp_bind, wp_gets, wp_bind.
  apply (wp_fill_table _ 1024 (fun _ => 2)); [intros; lia|apply Hsub; simpl; lia|].
  intros m1 Ha1 Ht1. simpl in Ha1, Ht1 |- *.
  apply wp_bind, wp_modify, wp_bind, wp_modify, wp_bind, wp_gets, wp_bind, wp_gets, wp_bind. simpl.
  apply wp_initialize_pt; [done|simpl; rewrite get_set_mem; eapply agree_mapped_range; [exact Ha1|apply Hsub; lia]|].
  intros m2 Ha2 Ht2. simpl in Ha2. rewrite get_set_mem in Ha2.
  apply wp_bind, wp_initialize_pt; [done|simpl; rewrite get_set_mem|].
  { eapply agree_mapped_range; [exact Ha2|]. eapply agree_mapped_range; [exact Ha1|apply Hsub; lia]. }
  intros m3 Ha3 Ht3. simpl in Ha3. rewrite get_set_mem in Ha3.
  assert (Hr3 : forall a n, mapped_range (get_mem s) a n -> mapped_range m3 a n).
  { intros a n Ha. eapply agree_mapped_range; [exact Ha3|]. eapply agree_mapped_range; [exact Ha2|].
    by eapply agree_mapped_range. }
  change (Z.lor 3153920 3) with 3153923. change (Z.lor 3158016 3) with 3158019.
  change (3149824 + 4 * 768) with 3152896. change (3149824 + 4 * 0) with 3149824.
  apply wp_bind, wp_st32; [lens; apply Hr3, Hsub; lia|]. lens.
  apply wp_bind, wp_st32; [lens; rewrite mapped_range_mwrite; apply Hr3, Hsub; lia|]. lens.
  apply wp_bind, wp_gets, wp_bind. apply (wp_zero_bytes _ 128); [lens; rewrite !mapped_range_mwrite; by apply Hr3|]. lens.
  intros m5 Ha5 Hz5. change (Z.of_nat 128) with 128 in *. unfold set_mem at 1. simpl.
  apply wp_bind. unfold on_phy. apply wp_zoom, wp_modify. simpl.
  apply wp_bind, wp_modify, wp_ret. simpl in Ha5, Hz5 |- *. apply HQ; try done; simpl; rewrite get_set_mem.
  - by apply (kernel_tables_intro m1 m2 m3 m5 (pg_kheap_bitmap s)).
  - apply pool_zero; [lia| |intros k Hk; apply Hz5; lia].
    eapply agree_mapped_range; [exact Ha5|]. rewrite !mapped_range_mwrite. by apply Hr3.
Qed.

(** C8: after paging_init the processor translates the first 4 MB to
    themselves and the 4 MB from 0xC0000000 to the physical memory from
    0x400000, and no other address; paging is on, the kernel heap's bitmap is
    an empty pool, and the physical allocator starts behind the tables. *)
Theorem paging_init_spec s :
  mapped_range (get_mem s) 3149824 12288 ->
  mapped_range (get_mem s) (pg_kheap_bitmap s) 128 ->
  (pg_kheap_bitmap s + 128 <= 3149824 \/ 3162112 <= pg_kheap_bitmap s) ->
  wp paging_init (fun _ s' =>
    (forall va, 0 <= va < 4294967296 -> walk (rd32 (get_mem s')) (cr3 s') va =
       if va <? 4194304 then Some va
       else if (3221225472 <=? va) && (va <? 3225419776) then Some (va - 3221225472 + 4194304)
       else None) /\
    Z.testbit (cr0 s') 31 = true /\
    pool (get_mem s') (pg_kheap_bitmap s) 128 0 /\
    __phy_start (pg_phy s') = 3162112 /\ __phy_state (pg_phy s') = PHY_STATE_INIT_ONE) s.
Proof.
  intros Hm Hkb Hdis. apply wp_paging_init; [done..|].
  intros s' [Hk Hf Hd] Hpool _ _ _ -> -> ? ?. split_and!; [|by rewrite Z.lor_spec, orb_true_r|done..].
  intros va Hva.
  assert (Hi : 0 <= va / 4194304 < 1024) by (Z.div_mod_to_equations; lia).
  pose proof (Hd _ Hi) as Hdir.
  assert (Hj : 0 <= va / 4096 mod 1024 < 1024) by (apply Z.mod_pos_bound; lia).
  destruct (va <? 4194304) eqn:E1.
  - assert (va / 4194304 = 0) as E by (Z.div_mod_to_equations; lia). rewrite E in Hdir. simpl in Hdir.
    erewrite walk_some with (pt := 3158016) (pa := va / 4096 * 4096).
    + f_equal. Z.div_mod_to_equations. lia.
    + rewrite E. exact Hdir.
    + rewrite Hf by done. rewrite u32_small by (Z.div_mod_to_equations; lia). Z.div_mod_to_equations. lia.
    + lia.
    + lia.
    + done.
    + Z.div_mod_to_equations. lia.
    + Z.div_mod_to_equations. lia.
    + apply Z.mod_mul. lia.
  - destruct ((3221225472 <=? va) && (va <? 3225419776)) eqn:E2.
    + apply andb_true_iff in E2 as [E2 E3].
      assert (va / 4194304 = 768) as E by (Z.div_mod_to_equations; lia). rewrite E in Hdir. simpl in Hdir.
      erewrite walk_some with (pt := 3153920) (pa := 4194304 + (va - 3221225472) / 4096 * 4096).
      * f_equal. Z.div_mod_to_equations. lia.
      * rewrite E. exact Hdir.
      * rewrite Hk by done. rewrite u32_small by (Z.div_mod_to_equations; lia). Z.div_mod_to_equations. lia.
      * lia.
      * lia.
      * done.
      * Z.div_mod_to_equations. lia.
      * Z.div_mod_to_equations. lia.
      * Z.div_mod_to_equations. lia.
    + unfold walk. rewrite Hdir. destruct (va / 4194304 =? 768) eqn:E; [|destruct (va / 4194304 =? 0) eqn:E'].
      * exfalso. apply andb_false_iff in E2. Z.div_mod_to_equations. lia.
      * exfalso. Z.div_mod_to_equations. lia.
      * done.
Qed.
End init_spec.

(** *** User page directories *)

(** A word of physical memory, found through the kernel's own mapping: low
    memory is mapped to itself, the kernel heap is at 0xC0000000. *)
Definition phys_rd (m : mem) (p : Z) : Z :=
  rd32 m (if p <? 4194304 then p else u32 (p - 4194304 + 3221225472)).

(** Addresses of the kernel heap's 4 MB window. *)
Definition in_window (p n : Z) : Prop := 3221225472 <= p /\ p + n <= 3225419776.

Section directory.
Context {S G : Type} `{Allocator S G}.
Implicit Types (s : paging S).

Notation base s := (phy_base (pg_phy s)).

Definition page_of (p : Z) : Z := p + (- p) mod 4096.

(** The tables of a new directory. *)
Record user_tables (m : mem) (pd pt kpt fpt vid paddr : Z) : Prop := {
  ut_kernel : rd32 m (pd + 4 * 768) = kpt + 3;
  ut_first : rd32 m (pd + 4 * 0) = fpt + 3;
  ut_user : rd32 m (pd + 4 * vid) = u32 (u32 (pt + 3 - 3221225472) + 4194304);
  ut_table : table_at m pt (fun i => u32 (paddr + i * 4096) + 3) 1024;
}.

(** A state whose base has been replaced and written to. *)
Definition with_base (s : paging S) (b : S) : paging S := set_pg_phy (set_phy_base b (pg_phy s)) s.
Lemma with_base_mem s b m : set_mem m (with_base s b) = with_base s (set_mem m b).
Proof. by destruct s as [[] ? ? ? ? ? ?]. Qed.
Lemma with_base_twice s b b' : with_base (with_base s b) b' = with_base s b'.
Proof. done. Qed.

(** [pd] is a page inside a block [p] of two pages that [malloc] gave in [b],
    leaving [b'] and the bookkeeping [g']. *)
Record page_given (b : S) (g : G) (p pd : Z) (b' : S) (g' : G) : Prop := {
  pv_ok : heap_ok b' g';
  pv_align : pd mod 4096 = 0;
  pv_lo : p <= pd;
  pv_hi : pd + 4096 <= p + 8192;
  pv_pos : 0 < pd;
  pv_mapped : mapped_range (get_mem b') p 8192;
  pv_agree : agree (fun a => ~ heap_byte b g a /\ ~ log_byte b a) (get_mem b) (get_mem b');
  pv_log : forall a, log_byte b' a <-> log_byte b a;
  pv_sub : forall a, heap_byte b' g' a -> heap_byte b g a;
  pv_in : forall a, in_block p 8192 a -> heap_byte b g a;
  pv_out : forall a, in_block p 8192 a -> ~ heap_byte b' g' a;
  pv_block : forall q k, block g' q k <-> block g q k \/ (q = p /\ k = 8192);
}.

Lemma wp_page_malloc {B} s g (k : Z -> M (paging S) B) (Q : B -> paging S -> Prop) :
  heap_ok (base s) g -> room (base s) 8192 -> ~ out_of_memory ->
  (forall p pd b' g', malloc 8192 (base s) = Ret p b' -> page_given (base s) g p pd b' g' ->
     wp (k pd) Q (with_base s b')) ->
  wp (let! pd := on_phy (on_base (malloc 8192)) in let! pd := page_align pd in k pd) Q s.
Proof.
  intros Hok Hroom Hoom HQ. apply wp_bind. unfold on_phy, on_base. apply wp_zoom, wp_zoom.
  pose proof (malloc_law (base s) g 8192 Hok ltac:(lia) Hroom) as Hw.
  apply wp_inv in Hw as (p & b & Hrun & g1 & Hok1 & Hag & Hlog & Hsub & [(_ & ? & _)|(Hp0 & Hin & Hbl)]); [done|].
  eapply wp_eq; [exact Hrun|].
  destruct (block_law b g1 p 8192 Hok1) as (_ & Hp & _ & Hmap & Hnot); [apply Hbl; by right|].
  change (set_pg_phy (set_phy_base b (pg_phy s)) s) with (with_base s b).
  pose proof Hmap as (_ & Hhi & _). apply wp_bind, wp_page_align; [lia|lia|]. intros pd Hal Hpd.
  apply (HQ p pd b g1 Hrun). split; try done; lia.
Qed.

(** A page and a half further on: two pages of different blocks are apart. *)
Lemma pages_apart b g p pd b' g' b1 p2 pt b2 g2 :
  page_given b g p pd b' g' -> page_given b1 g' p2 pt b2 g2 ->
  (forall a, in_block p2 8192 a -> heap_byte b' g' a) -> pd + 4096 <= pt \/ pt + 4096 <= pd.
Proof.
  intros H1 H2 Hin. pose proof (pv_align _ _ _ _ _ _ H1). pose proof (pv_align _ _ _ _ _ _ H2).
  assert (pd <> pt); [|Z.div_mod_to_equations; lia]. intros <-.
  apply (pv_out _ _ _ _ _ _ H1 pd); [|apply Hin]; destruct H1, H2; unfold in_block; lia.
Qed.

(** Writing in a block that was given keeps the heap's invariant. *)
Lemma given_write b g p pd b' g' m :
  page_given b g p pd b' g' -> agree (fun a => ~ pd <= a < pd + 4096) (get_mem b') m ->
  heap_ok (set_mem m b') g' /\ (forall a, heap_byte (set_mem m b') g' a <-> heap_byte b' g' a) /\
  (forall a, log_byte (set_mem m b') a <-> log_byte b' a) /\ (room b' 8192 -> room (set_mem m b') 8192).
Proof.
  intros [Hok _ ?? _ _ _ _ _ _ Hout _] Hm.
  destruct (frame_law b' g' m Hok) as (Hok' & Hhb & Hlb & Hrm); [|by split_and!; [|done..|apply Hrm]].
  eapply agree_mono; [exact Hm|]. intros a Ha Hx. apply (Hout a); [unfold in_block; lia|exact Ha].
Qed.

(** The first half: the directory's page, with the kernel's entries. *)
Lemma wp_new_directory s g (k : Z -> M (paging S) Z) (Q : Z -> paging S -> Prop) :
  let kpt := __kernel_heap_pt s in let fpt := __first_pt s in
  heap_ok (base s) g -> room (base s) 8192 -> ~ out_of_memory ->
  0 <= kpt -> kpt + 4096 < 4294967296 -> kpt mod 4096 = 0 ->
  0 <= fpt -> fpt + 4096 < 4294967296 -> fpt mod 4096 = 0 ->
  (forall p pd b0 b g1, malloc 8192 (base s) = Ret p b0 -> (room b0 8192 -> room b 8192) ->
     page_given (base s) g p pd b g1 ->
     rd32 (get_mem b) (pd + 4 * 768) = kpt + 3 -> rd32 (get_mem b) (pd + 4 * 0) = fpt + 3 ->
     wp (k pd) Q (with_base s b)) ->
  wp (let! pd := on_phy (on_base (malloc 8192)) in
      let! pd := page_align pd in
      let! kheap := gets __kernel_heap_pt in
      st32 (pd + 4 * 768) (Z.lor kheap 3) ;!
      let! first := gets __first_pt in
      st32 (pd + 4 * 0) (Z.lor first 3) ;!
      k pd) Q s.
Proof.
  intros kpt fpt Hok Hroom Hoom Hk0 Hk1 Hk Hf0 Hf1 Hf HQ.
  apply (wp_page_malloc s g); [done..|]. intros p pd b1 g1 Hrun Hg. pose proof Hg as [? Hal Hlo Hhi Hpos Hmap ??? Hin ??].
  apply wp_bind, wp_gets. change (__kernel_heap_pt (with_base s b1)) with kpt. rewrite lor_page by (done || lia).
  apply wp_bind, wp_st32; [simpl; eapply mapped_range_sub; [exact Hmap|lia|lia]|].
  rewrite with_base_mem. apply wp_bind, wp_gets. change (__first_pt (with_base s _)) with fpt. rewrite lor_page by (done || lia).
  apply wp_bind, wp_st32.
  { simpl. rewrite get_set_mem, mapped_range_mwrite. eapply mapped_range_sub; [exact Hmap|lia|lia]. }
  rewrite with_base_mem, set_set_mem. simpl. rewrite get_set_mem.
  match goal with |- wp _ _ (with_base _ (set_mem ?M _)) => set (m1 := M) end.
  assert (Hag1 : agree (fun a => ~ pd <= a < pd + 4096) (get_mem b1) m1).
  { split; [unfold m1; by rewrite !ranges_mwrite|]. intros a Ha. unfold m1. by rewrite !rd_mwrite_out by (rewrite le32_length; lia). }
  destruct (given_write _ _ _ _ _ _ _ Hg Hag1) as (Hok1' & Hhb & Hlb & Hrm).
  apply (HQ p pd b1 (set_mem m1 b1) g1 Hrun Hrm); [|rewrite get_set_mem; unfold m1; by reads..].
  destruct Hg. split; try done; rewrite ?get_set_mem.
  - by eapply agree_mapped_range; [exact Hag1|].
  - eapply agree_trans; [done|]. eapply agree_mono; [exact Hag1|]. intros a [Hna _] Hx. apply Hna, Hin. unfold in_block. lia.
  - intros a. by rewrite Hlb.
  - intros a. rewrite Hhb. auto.
  - intros a Ha. rewrite Hhb. auto.
Qed.

(** The entry of the program's table, written in three steps. *)
Lemma wp_user_entry {X B} `{HasMem X} (x : X) e pt (k : M X B) (Q : B -> X -> Prop) :
  mapped_range (get_mem x) e 4 -> 0 <= pt -> pt + 4096 <= 4294967296 -> pt mod 4096 = 0 ->
  (forall m', rd32 m' e = u32 (u32 (pt + 3 - 3221225472) + 4194304) ->
     agree (fun a => ~ e <= a < e + 4) (get_mem x) m' -> wp k Q (set_mem m' x)) ->
  wp (st32 e (Z.lor pt 3) ;!
      let! v := ld32 e in
      st32 e (u32 (v - 3221225472)) ;!
      let! v := ld32 e in
      st32 e (u32 (v + 4194304)) ;! k) Q x.
Proof.
  intros He Hlo Hhi Hal HQ. rewrite lor_page by (done || lia).
  apply wp_bind, wp_st32; [exact He|]. lens. apply wp_bind, wp_ld32; [lens; by rewrite mapped_range_mwrite|].
  lens. rewrite rd32_mwrite_same, (u32_small (pt + 3)) by (Z.div_mod_to_equations; lia).
  apply wp_bind, wp_st32; [lens; by rewrite mapped_range_mwrite|]. lens.
  apply wp_bind, wp_ld32; [lens; by rewrite !mapped_range_mwrite|]. lens. rewrite rd32_mwrite_same.
  pose proof (u32_range (pt + 3 - 3221225472)). rewrite (u32_small (u32 _)) by lia.
  apply wp_bind, wp_st32; [lens; by rewrite !mapped_range_mwrite|]. lens. apply HQ.
  - rewrite rd32_mwrite_same. pose proof (u32_range (u32 (pt + 3 - 3221225472) + 4194304)). by rewrite (u32_small (u32 _)) by lia.
  - split; [by rewrite !ranges_mwrite|]. intros a Ha. by rewrite !rd_mwrite_out by (rewrite le32_length; lia).
Qed.

Lemma wp_create_directory s g vaddr paddr (Q : Z -> paging S -> Prop) :
  let kpt := __kernel_heap_pt s in let fpt := __first_pt s in let vid := vaddr / 4194304 in
  heap_ok (base s) g -> room (base s) 8192 ->
  (forall p b, malloc 8192 (base s) = Ret p b -> room b 8192) -> ~ out_of_memory ->
  0 <= kpt -> kpt + 4096 < 4294967296 -> kpt mod 4096 = 0 ->
  0 <= fpt -> fpt + 4096 < 4294967296 -> fpt mod 4096 = 0 ->
  1 <= vid < 1024 -> vid <> 768 -> paddr mod 4096 = 0 ->
  (forall pd pt b g' q n, heap_ok b g' -> pd mod 4096 = 0 -> pt mod 4096 = 0 ->
     block g' q 8192 -> q <= pd -> pd + 4096 <= q + 8192 ->
     block g' n 8192 -> n <= pt -> pt + 4096 <= n + 8192 -> 0 < pd -> 0 < pt ->
     (forall q n, block g q n -> block g' q n) ->
     (forall a, in_block q 8192 a -> heap_byte (base s) g a) ->
     (forall a, in_block n 8192 a -> heap_byte (base s) g a) ->
     user_tables (get_mem b) pd pt kpt fpt vid paddr ->
     agree (fun a => ~ heap_byte (base s) g a /\ ~ log_byte (base s) a) (get_mem (base s)) (get_mem b) ->
     Q (u32 (u32 (pd - 3221225472) + 4194304)) (with_base s b)) ->
  wp (create_new_page_directory vaddr paddr) Q s.
Proof.
  intros kpt fpt vid Hok Hroom Hroom2 Hoom Hk0 Hk1 Hk Hf0 Hf1 Hf Hv Hv' Hpa HQ.
  unfold create_new_page_directory.
  apply (wp_new_directory s g (fun pd => let! pt := on_phy (on_base (malloc 8192)) in _)); try done.
  intros p pd b0 b g1 Hrun Hrm H1 Hpk Hpf. apply (wp_page_malloc (with_base s b) g1 _ Q); [apply H1|by eapply Hrm, Hroom2|done|].
  change (phy_base (pg_phy (with_base s b))) with b. intros p2 pt b2 g2 _ H2.
  pose proof (pages_apart _ _ _ _ _ _ _ _ _ _ _ H1 H2 (pv_in _ _ _ _ _ _ H2)) as Hsep.
  pose proof H1 as [_ Hal Hlo Hhi Hpd0 Hmap Hag0 Hlog0 Hsub0 Hin0 Hout Hbl1].
  pose proof H2 as [_ Halt Hlo2 Hhi2 Hpt0 Hmap2 Hag _ Hsub Hin Hnot Hbl2].
  change (with_base (with_base s b) b2) with (with_base s b2). pose proof Hmap2 as (_ & ? & _).
  apply wp_bind, wp_initialize_pt; [done|simpl; eapply mapped_range_sub; [exact Hmap2|lia|lia]|].
  intros m3 Ha3 Ht3. simpl in Ha3. rewrite with_base_mem.
  assert (Hmapd3 : mapped_range m3 pd 4096).
  { eapply agree_mapped_range; [exact Ha3|]. eapply agree_mapped_range; [exact Hag|]. eapply mapped_range_sub; [exact Hmap|lia|lia]. }
  fold vid. apply wp_user_entry; [simpl; rewrite get_set_mem; eapply mapped_range_sub; [exact Hmapd3|lia|lia]|lia|lia|done|].
  intros m4 Hent Ha34. simpl in Ha34. rewrite get_set_mem in Ha34. rewrite with_base_mem, set_set_mem. apply wp_ret.
  assert (Hnl : forall a, in_block p 8192 a -> ~ heap_byte b g1 a /\ ~ log_byte b a).
  { intros a Ha. split; [by apply Hout|]. rewrite Hlog0. intros Hl. eapply log_law; [exact Hok|exact Hl|by apply Hin0]. }
  assert (Hw4 : forall o, 0 <= o <= 4092 -> o + 4 <= 4 * vid \/ 4 * vid + 4 <= o -> rd32 m4 (pd + o) = rd32 (get_mem b) (pd + o)).
  { intros o Ho Hx. rewrite (rd32_agree _ _ _ _ Ha34) by (cbv beta; lia). unfold rd32.
    rewrite !(proj2 Ha3) by lia. rewrite !(proj2 Hag) by (apply Hnl; unfold in_block; lia). done. }
  assert (Hag24 : agree (heap_byte b2 g2) (get_mem b2) m4).
  { eapply agree_trans; eapply agree_mono; [exact Ha3| |exact Ha34|]; intros a Ha Hx.
    - apply (Hnot a); [unfold in_block; lia|exact Ha].
    - apply (Hout a); [unfold in_block; lia|by apply Hsub]. }
  destruct (frame_law b2 g2 m4 (pv_ok _ _ _ _ _ _ H2) Hag24) as (Hok3 & _).
  apply (HQ pd pt (set_mem m4 b2) g2 p p2); try done; rewrite ?get_set_mem.
  - apply Hbl2. left. apply Hbl1. by right.
  - apply Hbl2. by right.
  - intros q n ?. apply Hbl2. left. apply Hbl1. by left.
  - intros a Ha. by apply Hsub0, Hin.
  - split; [rewrite Hw4 by lia; exact Hpk|rewrite Hw4 by lia; exact Hpf|exact Hent|].
    eapply table_agree; [exact Ha34|exact Ht3|]. intros a Ha. cbv beta. lia.
  - eapply agree_trans; [exact Hag0|]. eapply agree_trans; [eapply agree_mono; [exact Hag|]|
      eapply agree_trans; [eapply agree_mono; [exact Ha3|]|eapply agree_mono; [exact Ha34|]]]; intros a [Hnh Hnlg].
    + rewrite Hlog0. split; [intros Hx; by apply Hnh, Hsub0|done].
    + intros Hx. apply Hnh, Hsub0, Hin. unfold in_block. lia.
    + intros Hx. apply Hnh, Hin0. unfold in_block. lia.
Qed.

Lemma phys_rd_low m p : p < 4194304 -> phys_rd m p = rd32 m p.
Proof. intros. unfold phys_rd. destruct (p <? 4194304) eqn:?; [done|lia]. Qed.

Lemma phys_rd_window m p o :
  in_window p 4096 -> 0 <= o -> o + 4 <= 4096 -> phys_rd m (p - 3221225472 + 4194304 + o) = rd32 m (p + o).
Proof.
  intros [] ??. unfold phys_rd. destruct (_ <? 4194304) eqn:?; [lia|].
  f_equal. rewrite u32_small by lia. lia.
Qed.

(** What the processor translates with the directory [dir]: the 4 MB around
    [vaddr] to [paddr], the first 4 MB to themselves, the kernel heap. *)
Record address_space (m : mem) (dir vaddr paddr : Z) : Prop := {
  as_user : forall va, 0 <= va < 4294967296 -> va / 4194304 = vaddr / 4194304 ->
    walk (phys_rd m) dir va = Some (paddr + va mod 4194304);
  as_low : forall va, 0 <= va < 4194304 -> walk (phys_rd m) dir va = Some va;
  as_heap : forall va, 3221225472 <= va < 3225419776 ->
    walk (phys_rd m) dir va = Some (va - 3221225472 + 4194304);
}.

Ltac page_lia := Z.div_mod_to_equations; lia.

Section walks.
Variables (m : mem) (pd : Z).
Hypothesis Hpd : in_window pd 4096.
Notation dir := (pd - 3221225472 + 4194304).

Lemma walk_entry e pa va :
  0 <= va < 4294967296 -> rd32 m (pd + 4 * (va / 4194304)) = e + 3 ->
  phys_rd m (e + 4 * (va / 4096 mod 1024)) = pa + 3 ->
  0 <= e -> e + 3 < 4294967296 -> e mod 4096 = 0 -> 0 <= pa -> pa + 3 < 4294967296 -> pa mod 4096 = 0 ->
  walk (phys_rd m) dir va = Some (pa + va mod 4096).
Proof.
  intros Hva Hd Ht ??????. eapply walk_some; try done.
  assert (0 <= va / 4194304 < 1024) by page_lia. by rewrite phys_rd_window by (done || lia).
Qed.

(** A table in low memory. *)
Lemma walk_table t f va :
  0 <= va < 4294967296 -> table_at m t f 1024 -> 0 <= t -> t + 4096 < 4194304 -> t mod 4096 = 0 ->
  rd32 m (pd + 4 * (va / 4194304)) = t + 3 ->
  let pa := f (va / 4096 mod 1024) - 3 in
  0 <= pa -> pa + 3 < 4294967296 -> pa mod 4096 = 0 -> walk (phys_rd m) dir va = Some (pa + va mod 4096).
Proof.
  intros Hva Ht ???? pa ???. assert (Hj : 0 <= va / 4096 mod 1024 < 1024) by page_lia.
  apply (walk_entry t); try done; [|lia]. rewrite phys_rd_low by lia. rewrite Ht by done. unfold pa. lia.
Qed.

Lemma walk_user pt kpt fpt vaddr paddr va :
  in_window pt 4096 -> pt mod 4096 = 0 -> user_tables m pd pt kpt fpt (vaddr / 4194304) paddr ->
  paddr mod 4096 = 0 -> 0 <= paddr -> paddr + 4194304 <= 4294967296 ->
  0 <= va < 4294967296 -> va / 4194304 = vaddr / 4194304 -> walk (phys_rd m) dir va = Some (paddr + va mod 4194304).
Proof.
  intros Hpt Hal [_ _ Uu Ut] ??? Hva E. pose proof Hpt as [? ?].
  assert (Hj : 0 <= va / 4096 mod 1024 < 1024) by page_lia.
  rewrite (u32_small (pt + 3 - 3221225472)), u32_small in Uu by lia.
  replace (paddr + va mod 4194304) with (paddr + va / 4096 mod 1024 * 4096 + va mod 4096) by page_lia.
  apply (walk_entry (pt - 3221225472 + 4194304)); try done; try page_lia.
  - rewrite E, Uu. lia.
  - rewrite phys_rd_window by (done || lia). rewrite Ut by done. rewrite u32_small by page_lia. done.
Qed.
End walks.

(** The tables of a new directory make an address space. *)
Lemma user_tables_space m pd pt kpt fpt vaddr paddr :
  in_window pd 4096 -> in_window pt 4096 -> pt mod 4096 = 0 ->
  (forall p, p = kpt \/ p = fpt -> 0 <= p /\ p + 4096 < 4194304 /\ p mod 4096 = 0) ->
  table_at m kpt (fun i => u32 (4194304 + i * 4096) + 3) 1024 ->
  table_at m fpt (fun i => u32 (0 + i * 4096) + 3) 1024 ->
  user_tables m pd pt kpt fpt (vaddr / 4194304) paddr ->
  paddr mod 4096 = 0 -> 0 <= paddr -> paddr + 4194304 <= 4294967296 ->
  address_space m (pd - 3221225472 + 4194304) vaddr paddr.
Proof.
  intros Hpd Hpt Hal Hlow Hk Hf Hu ???. destruct (Hlow kpt) as (? & ? & ?); [by left|].
  destruct (Hlow fpt) as (? & ? & ?); [by right|]. pose proof Hu as [Uk Uf _ _]. split.
  - intros va Hva E. by eapply walk_user.
  - intros va Hva. assert (E : va / 4194304 = 0) by page_lia.
    replace (Some va) with (Some (u32 (0 + va / 4096 mod 1024 * 4096) + 3 - 3 + va mod 4096))
      by (f_equal; rewrite u32_small by page_lia; page_lia).
    apply (walk_table m pd Hpd fpt (fun i => u32 (0 + i * 4096) + 3)); rewrite ?E, ?u32_small; done || page_lia.
  - intros va Hva. assert (E : va / 4194304 = 768) by page_lia.
    replace (Some (va - 3221225472 + 4194304)) with (Some (u32 (4194304 + va / 4096 mod 1024 * 4096) + 3 - 3 + va mod 4096))
      by (f_equal; rewrite u32_small by page_lia; page_lia).
    apply (walk_table m pd Hpd kpt (fun i => u32 (4194304 + i * 4096) + 3)); rewrite ?E, ?u32_small; done || page_lia.
Qed.

(** The kernel's own tables are in low memory, outside the heap. *)
Definition tables_safe s (g : G) : Prop :=
  forall p, p = __kernel_heap_pt s \/ p = __first_pt s ->
    0 <= p /\ p + 4096 < 4194304 /\ p mod 4096 = 0 /\
    forall a, p <= a < p + 4096 -> ~ heap_byte (base s) g a /\ ~ log_byte (base s) a.

Lemma wp_create_space s g vaddr paddr (Q : Z -> paging S -> Prop) :
  heap_ok (base s) g -> room (base s) 8192 ->
  (forall p b, malloc 8192 (base s) = Ret p b -> room b 8192) -> ~ out_of_memory ->
  kernel_tables (get_mem s) (page_directory s) (__kernel_heap_pt s) (__first_pt s) -> tables_safe s g ->
  (forall p, (forall a, in_block p 8192 a -> heap_byte (base s) g a) -> in_window p 8192) ->
  4194304 <= vaddr < 4294967296 -> vaddr / 4194304 <> 768 ->
  paddr mod 4096 = 0 -> 0 <= paddr -> paddr + 4194304 <= 4294967296 ->
  (forall dir s' g', heap_ok (base s') g' -> (forall q n, block g q n -> block g' q n) ->
     address_space (get_mem s') dir vaddr paddr -> Q dir s') ->
  wp (create_new_page_directory vaddr paddr) Q s.
Proof.
  intros Hok Hroom Hroom2 Hoom [Hk Hf _] Hlow Hwin Hv Hv' Hpa Hp0 Hp1 HQ.
  destruct (Hlow (__kernel_heap_pt s)) as (? & ? & ? & Hkh); [by left|].
  destruct (Hlow (__first_pt s)) as (? & ? & ? & Hfh); [by right|].
  apply (wp_create_directory s g); try done; try lia; [page_lia|].
  intros pd pt b g' q n Hok' Hpd Hpt _ ? ? _ ? ? _ _ Hkeep Hinq Hinn Hu Hag.
  destruct (Hwin q Hinq) as [? ?]. destruct (Hwin n Hinn) as [? ?].
  assert (Htab : forall t f, (forall a, t <= a < t + 4096 -> ~ heap_byte (base s) g a /\ ~ log_byte (base s) a) ->
    table_at (get_mem s) t f 1024 -> table_at (get_mem b) t f 1024).
  { intros t f Hout Ht. eapply table_agree; [exact Hag|exact Ht|]. intros a Ha. apply Hout. lia. }
  rewrite (u32_small (pd - 3221225472)), u32_small by lia.
  apply (HQ _ (with_base s b) g'); [done..|].
  apply (user_tables_space _ pd pt (__kernel_heap_pt s) (__first_pt s)); try done; try (split; lia); [|by apply Htab..].
  intros p [-> | ->]; done.
Qed.

(** C7: a directory made by create_new_page_directory, once loaded, maps
    the 4 MB around vaddr to the physical memory from paddr, and keeps the
    kernel's identity mapping of the first 4 MB and its heap window; the
    blocks already handed out by the heap are kept. *)
Theorem create_directory_spec s g vaddr paddr :
  heap_ok (base s) g -> room (base s) 8192 ->
  (forall p b, malloc 8192 (base s) = Ret p b -> room b 8192) -> ~ out_of_memory ->
  kernel_tables (get_mem s) (page_directory s) (__kernel_heap_pt s) (__first_pt s) ->
  tables_safe s g ->
  (forall p, (forall a, in_block p 8192 a -> heap_byte (base s) g a) -> in_window p 8192) ->
  4194304 <= vaddr < 4294967296 -> vaddr / 4194304 <> 768 ->
  paddr mod 4096 = 0 -> 0 <= paddr -> paddr + 4194304 <= 4294967296 ->
  wp (create_new_page_directory vaddr paddr) (fun dir s' => exists g',
    heap_ok (base s') g' /\ (forall q n, block g q n -> block g' q n) /\
    address_space (get_mem s') dir vaddr paddr) s.
Proof.
  intros. apply (wp_create_space s g); [done..|]. intros dir s' g' ? ? ?. by exists g'.
Qed.
End directory.

(** *** [replace_page] *)

Section replace.
Context {S : Type} `{HasMem S}.
Implicit Types (s : S).

(** replace_page indexes the page table with the offset in bytes
    within the 4 MB region, not with the page's number: for a page other than
    the first of its region no entry of the table changes, and the word is
    written past the table's end. *)
Theorem replace_page_misses s pd vaddr page pt :
  0 <= vaddr < 4294967296 -> vaddr mod 4096 = 0 -> vaddr mod 4194304 <> 0 ->
  mapped_range (get_mem s) (pd + 4 * (vaddr / 4194304)) 4 ->
  rd32 (get_mem s) (pd + 4 * (vaddr / 4194304)) = pt ->
  mapped_range (get_mem s) (pt + 4 * (vaddr mod 4194304)) 4 ->
  wp (replace_page pd vaddr page) (fun _ s' =>
    (forall i, 0 <= i < 1024 -> rd32 (get_mem s') (pt + 4 * i) = rd32 (get_mem s) (pt + 4 * i)) /\
    exists a, pt + 16384 <= a /\ rd32 (get_mem s') a = u32 page) s.
Proof.
  intros Hv Hal Hne Hd <- Hm. unfold replace_page. cbv zeta.
  apply wp_bind, wp_ld32; [done|]. apply wp_st32; [done|]. lens.
  assert (4096 <= vaddr mod 4194304) by (Z.div_mod_to_equations; lia).
  split.
  - intros i Hi. rewrite rd32_mwrite_out by (rewrite le32_length; lia). done.
  - eexists. split; [|apply rd32_mwrite_same]. lia.
Qed.
End replace.

(** *** The theorems at work *)

#[local] Existing Instance X86.provider.

(** 4 MB of low memory and the kernel heap's window; the bitmap at 0x2000. *)
Definition demo_ranges : list (Z * Z) := [(4096, 4194304); (3221225472, 3225419776)].
Definition demo_pg : paging (heap X86.state) :=
  Pg (Phymem (heap_init (Mem ∅ demo_ranges) (X86.State 8192)) 0 0 0 0 0) 8192 0 0 0 0 0.

Lemma demo_low m a n : m_ranges m = demo_ranges -> 4096 <= a -> 0 <= n -> a + n <= 4194304 -> mapped_range m a n.
Proof. destruct m as [bs rs]. simpl. intros ->. intros. eapply mapped_range_intro; [left|lia..]. Qed.
Lemma demo_high m a n :
  m_ranges m = demo_ranges -> 3221225472 <= a -> 0 <= n -> a + n <= 3225419776 -> mapped_range m a n.
Proof. destruct m as [bs rs]. simpl. intros ->. intros. eapply mapped_range_intro; [right; left|lia..]. Qed.

Definition demo_paged : paging (heap X86.state) := run_state (paging_init) demo_pg.

Lemma paging_init_spec_witness :
  wp (paging_init) (fun _ s' => walk (rd32 (get_mem s')) (cr3 s') 3221225473 = Some 4194305) demo_pg.
Proof.
  eapply wp_mono; [apply (paging_init_spec demo_pg)|].
  - by apply demo_low.
  - by apply demo_low.
  - left. done.
  - intros _ s' [Hw _]. apply Hw. lia.
Defined.

Lemma demo_paged_facts :
  kernel_tables (get_mem demo_paged) 3149824 3153920 3158016 /\ pool (get_mem demo_paged) 8192 128 0 /\
  page_directory demo_paged = 3149824 /\ __kernel_heap_pt demo_paged = 3153920 /\
  __first_pt demo_paged = 3158016.
Proof.
  assert (Hw : wp paging_init (fun _ s' => s' = demo_paged /\
    kernel_tables (get_mem s') 3149824 3153920 3158016 /\ pool (get_mem s') 8192 128 0 /\
    page_directory s' = 3149824 /\ __kernel_heap_pt s' = 3153920 /\ __first_pt s' = 3158016) demo_pg).
  { assert (Hw : wp paging_init (fun _ s' =>
      kernel_tables (get_mem s') 3149824 3153920 3158016 /\ pool (get_mem s') 8192 128 0 /\
      page_directory s' = 3149824 /\ __kernel_heap_pt s' = 3153920 /\ __first_pt s' = 3158016) demo_pg).
    { apply wp_paging_init; [by apply demo_low|by apply demo_low|by left|].
      intros s' ? ? ? ? ? _ _ _ _. by split_and!. }
    apply wp_inv in Hw as (r & s' & Hrun & HQ). eapply wp_eq; [exact Hrun|]. split; [|exact HQ].
    unfold demo_paged, run_state. by rewrite Hrun. }
  apply wp_inv in Hw as (_ & s' & _ & -> & Hk). exact Hk.
Qed.

Lemma heap_eq (h : heap X86.state) a :
  (h_arch h, h_proc h, h_locked h, h_all_unlocked h, l_memRoot h, l_bestBet h, l_allocated h, l_inuse h,
   l_warningCount h, l_errorCount h, l_possibleOverruns h) = (a, 0, 0, 0, 0, 0, 0, 0, 0, 0, 0) ->
  h = heap_init (h_mem h) a.
Proof. destruct h. simpl. intros [=]. by subst. Qed.

Lemma demo_base : phy_base (pg_phy demo_paged) = heap_init (get_mem demo_paged) (X86.State 8192).
Proof. apply heap_eq. vm_compute. reflexivity. Qed.
Lemma demo_paged_ranges : m_ranges (get_mem demo_paged) = demo_ranges.
Proof. vm_compute. reflexivity. Qed.

Lemma demo_heap_ok : heap_inv (phy_base (pg_phy demo_paged)) [].
Proof.
  rewrite demo_base. apply heap_init_inv. exists 0. destruct demo_paged_facts as (_ & Hp & _).
  split_and!; [exact Hp|done|]. apply demo_high; [apply demo_paged_ranges|done..].
Qed.

(** A pool checked by evaluation. *)
Definition pool_check (m : mem) (b : Z) (h n : nat) : bool :=
  forallb (fun k => Z.odd (rd m (b + Z.of_nat k))) (seq 0 h) &&
  forallb (fun k => rd m (b + Z.of_nat k) =? 0) (seq h n).

Lemma pool_checked m b h n :
  pool_check m b h n = true -> mapped_range m b (Z.of_nat (h + n)) ->
  pool m b (Z.of_nat (h + n)) (Z.of_nat h).
Proof.
  intros [H1 H2]%andb_true_iff Hm. rewrite forallb_forall in H1, H2.
  split; [lia|done| |]; intros k Hk.
  - specialize (H1 (Z.to_nat k)). rewrite Z2Nat.id in H1 by lia. apply H1, in_seq. lia.
  - specialize (H2 (Z.to_nat k)). rewrite Z2Nat.id in H2 by lia. apply Z.eqb_eq, H2, in_seq. lia.
Qed.

Definition demo_heap1 : heap X86.state := run_state (Liballoc.malloc 8192) (phy_base (pg_phy demo_paged)).

Lemma demo_heap1_room : X86.pages_room (h_mem demo_heap1) (h_arch demo_heap1) (new_pages (8192 + 32)).
Proof.
  assert (Ha : h_arch demo_heap1 = X86.State 8192) by (vm_compute; reflexivity). rewrite Ha.
  exists 2. split; [|vm_compute; discriminate].
  apply (pool_checked _ 8192 2 126); [vm_compute; reflexivity|].
  apply demo_low; [vm_compute; reflexivity|done..].
Qed.

(** What a fresh heap owns: the bitmap and the pages of the window. *)
Lemma fresh_bytes m a :
  pool m 8192 128 0 -> owned (heap_init m (X86.State 8192)) [] a ->
  8192 <= a < 8320 \/ 3221225472 <= a < 3225419776.
Proof.
  intros Hp [(j & Hj & _)|[Ha|(h & Hh & Ha)]]; [by apply elem_of_nil in Hj|by left|].
  simpl in Hh. assert (h = 0) as -> by (by eapply X86.pool_unique). right.
  unfold KHEAP_VIRTUAL_START, PAGE in Ha. lia.
Qed.

Lemma demo_heap1_eq p b : Liballoc.malloc 8192 (phy_base (pg_phy demo_paged)) = Ret p b -> b = demo_heap1.
Proof. intros Hrun. unfold demo_heap1, run_state. by rewrite Hrun. Qed.

#[local] Opaque demo_paged demo_heap1.

Lemma create_directory_spec_witness :
  wp (create_new_page_directory (G := list mjr) 4194304 8388608) (fun dir s' =>
    walk (phys_rd (get_mem s')) dir 4198404 = Some 8392708) demo_paged.
Proof.
  destruct demo_paged_facts as (Hk & Hp & Epd & Ekpt & Efpt).
  assert (Hbyte : forall a, owned (phy_base (pg_phy demo_paged)) [] a ->
    8192 <= a < 8320 \/ 3221225472 <= a < 3225419776).
  { rewrite demo_base. intros a. by apply fresh_bytes. }
  eapply wp_mono; [apply (create_directory_spec demo_paged [] 4194304 8388608)|].
  - exact demo_heap_ok.
  - exists 0. rewrite demo_base. split; [exact Hp|vm_compute; discriminate].
  - intros p b Hrun. assert (b = demo_heap1) as ->; [|exact demo_heap1_room].
    by apply (demo_heap1_eq p).
  - intros [].
  - rewrite Epd, Ekpt, Efpt. exact Hk.
  - unfold tables_safe. rewrite Ekpt, Efpt. intros p Hpp. split_and!; [lia|lia|by destruct Hpp as [->| ->]|].
    intros a Ha. split; [intros Hb; apply Hbyte in Hb; lia|].
    rewrite demo_base. intros [Hl _]. by apply Hl.
  - intros p Hall. assert (Hlo := Hall p). assert (Hhi := Hall (p + 8191)).
    destruct (Hbyte p) as [?|?]; [apply Hall; unfold in_block; lia| |];
      (destruct (Hbyte (p + 8191)) as [?|?]; [apply Hall; unfold in_block; lia| |]); [lia| | lia|split; lia].
    destruct (Hbyte 8320) as [?|?]; [apply Hall; unfold in_block; lia|lia|lia].
  - lia.
  - done.
  - done.
  - lia.
  - lia.
  - intros dir s' (g' & _ & _ & [Hu _ _]). rewrite (Hu 4198404); [reflexivity|lia|reflexivity].
Defined.

(** The second page of the region at 4 MB, in a table at 0x6000 the directory
    at 0x5000 names. *)
Lemma replace_page_misses_witness :
  wp (replace_page 20480 4198400 7) (fun _ s' => rd32 (get_mem s') (24576 + 4) = 0)
    (mwrite (Mem ∅ demo_ranges) 20484 (le32 24576)).
Proof.
  eapply wp_mono; [apply (replace_page_misses _ 20480 4198400 7 24576)|].
  - lia.
  - done.
  - done.
  - by apply demo_low.
  - done.
  - by apply demo_low.
  - intros _ s' [Hi _]. change (24576 + 4) with (24576 + 4 * 1). rewrite (Hi 1) by lia. reflexivity.
Defined.
