(* ===== verification/Isolation.v ===== *)
(** * What a program can reach: mm/phymem.c and arch/x86/paging.c together

    [elf_start] and [sys_fork] give a program physical pages for its size and
    a directory that maps 4 MB from there.  The pages are taken from the end of
    the kernel's image, below 4 MB, and the kernel heap is at 4 MB: the window
    of a program covers memory of the kernel. *)

From stdpp Require Import base numbers list gmap.
From Stdlib Require Import ZArith Lia.
From S2P Require Import Prelude Memory Bitmap Process Pages Arm Liballoc LiballocInv LiballocProof LiballocSpec Allocator Phymem Paging.

Local Open Scope Z_scope.

Section alloc.
Context {S G : Type} `{Allocator S G}.

Lemma wp_phymem_alloc (s : phymem S) h size (Q : Z -> phymem S -> Prop) :
  let p := __phy_start s + 8 * h * 4096 in
  phy_ready s h -> 4096 <= size < 2147483648 -> 8 * h + (size / 4096 + 1) <= (__phy_end s - __phy_start s) / 4096 ->
  mapped_range (get_mem s) p size ->
  (forall m, agree (fun a => ~ phy_bitmap s <= a < phy_bitmap s + bitmap_len s /\ ~ p <= a < p + size) (get_mem s) m ->
     Q p (set_mem m s)) ->
  wp (phymem_alloc size) Q s.
Proof.
  intros p Hs Hsz Hfit Hm HQ. unfold phymem_alloc.
  apply wp_bind, (wp_phymem_alloc_pages s h); [done|Z.div_mod_to_equations; lia|lia|].
  intros s' _ Hst _ Hbm Hag Hs'. fold p. apply wp_bind. rewrite s32_small by lia.
  apply wp_memset; [lia|by eapply agree_mapped_range|]. apply wp_ret. rewrite Hs', set_set_mem, get_set_mem.
  apply HQ. eapply agree_trans; [eapply agree_mono; [exact Hag|by intros a [? _]]|].
  split; [by rewrite ranges_mwrite|]. intros a [_ Ha]. apply rd_mwrite_out. rewrite length_replicate. lia.
Qed.
End alloc.

Section program.
Context {S G : Type} `{Allocator S G}.
Implicit Types (s : paging S).
Notation base s := (phy_base (pg_phy s)).

(** The memory of a new program, and its directory: kernel/exec/elf.c, lines 49
    and 53, arch/x86/fork.c, lines 31 and 37. *)
Definition new_program (exec_len : Z) : M (paging S) (Z * Z) :=
  let! palloc := on_phy (phymem_alloc exec_len) in
  let! dir := create_new_page_directory 4194304 palloc in
  ret (palloc, dir).

(** The kernel has started, and no program has: [len] bytes of physical memory
    from [p] are to be a program's.  They and the bitmap of the physical pages
    are apart from the heap and from the kernel's tables. *)
Record kernel_started s (g : G) (p len : Z) : Prop := {
  ks_heap : heap_ok (base s) g;
  ks_tables : kernel_tables (get_mem s) (page_directory s) (__kernel_heap_pt s) (__first_pt s);
  ks_safe : tables_safe s g;
  ks_window : forall q, (forall a, in_block q 8192 a -> heap_byte (base s) g a) -> in_window q 8192;
  ks_phy : phy_ready (pg_phy s) 0;
  ks_start : __phy_start (pg_phy s) = p /\ p mod 4096 = 0;
  ks_room : len / 4096 + 1 <= (__phy_end (pg_phy s) - p) / 4096;
  ks_mapped : mapped_range (get_mem s) p len;
  ks_apart : forall a, phy_bitmap (pg_phy s) <= a < phy_bitmap (pg_phy s) + bitmap_len (pg_phy s) \/ p <= a < p + len ->
    ~ heap_byte (base s) g a /\
    (a < page_directory s \/ page_directory s + 4096 <= a) /\
    (a < __kernel_heap_pt s \/ __kernel_heap_pt s + 4096 <= a) /\ (a < __first_pt s \/ __first_pt s + 4096 <= a);
}.

Lemma kernel_tables_agree m m' pd kpt fpt :
  agree (fun a => pd <= a < pd + 4096 \/ kpt <= a < kpt + 4096 \/ fpt <= a < fpt + 4096) m m' ->
  kernel_tables m pd kpt fpt -> kernel_tables m' pd kpt fpt.
Proof.
  intros Hag [Hk Hf Hd]. split.
  - eapply table_agree; [exact Hag|exact Hk|]. intros a Ha. right. left. lia.
  - eapply table_agree; [exact Hag|exact Hf|]. intros a Ha. right. right. lia.
  - intros i Hi. rewrite (rd32_agree _ _ _ _ Hag) by (left; lia). by apply Hd.
Qed.

(** The physical pages are taken: the kernel is as before. *)
Lemma started_after s g p len m :
  kernel_started s g p len ->
  agree (fun a => ~ phy_bitmap (pg_phy s) <= a < phy_bitmap (pg_phy s) + bitmap_len (pg_phy s) /\ ~ p <= a < p + len)
    (get_mem s) m ->
  let s' := set_mem m s in
  heap_ok (base s') g /\ kernel_tables m (page_directory s) (__kernel_heap_pt s) (__first_pt s) /\
  tables_safe s' g /\ (forall q, (forall a, in_block q 8192 a -> heap_byte (base s') g a) -> in_window q 8192).
Proof.
  intros [Hok Ht Hsafe Hwin _ _ _ _ Hap] Hag s'.
  assert (Hheap : agree (heap_byte (base s) g) (get_mem (base s)) m).
  { eapply agree_mono; [exact Hag|]. intros a Ha. split; intros Hx; (destruct (Hap a) as [Hn _]; [tauto|done]). }
  destruct (frame_law _ _ m Hok Hheap) as (Hok' & Hhb & Hlb & _). change (set_mem m (base s)) with (base s') in *.
  split_and!; [done| | |].
  - eapply kernel_tables_agree; [|exact Ht]. eapply agree_mono; [exact Hag|]. intros a Ha.
    split; intros Hx; (destruct (Hap a) as (_ & ? & ? & ?); [tauto|lia]).
  - intros q Hq. destruct (Hsafe q Hq) as (? & ? & ? & Hout). split_and!; [done..|]. intros a Ha. rewrite Hhb, Hlb. by apply Hout.
  - intros q Hq. apply Hwin. intros a Ha. by apply Hhb, Hq.
Qed.

(** C9: A program can write the kernel's heap.  The first program is given the
    physical pages from [p], where the kernel's image ends, and its directory
    maps the 4 MB at 0x400000 to the 4 MB from [p]; the kernel heap is kept at
    physical 4 MB.  So the byte [k] of the heap, which the kernel sees at
    0xC0000000 + k, is also in the program's own window, at 8 MB - p + k, for
    every k below p. *)
Theorem program_reaches_heap s g p exec_len :
  kernel_started s g p exec_len -> 4096 <= exec_len < 2147483648 -> p <= 4194304 ->
  (forall r t, phymem_alloc exec_len (pg_phy s) = Ret r t ->
     room (phy_base t) 8192 /\ forall q b, malloc 8192 (phy_base t) = Ret q b -> room b 8192) ->
  ~ out_of_memory ->
  wp (new_program exec_len) (fun '(palloc, dir) s' => palloc = p /\
    forall k, 0 <= k < p ->
      4194304 <= 8388608 - p + k < 8388608 /\
      walk (phys_rd (get_mem s')) dir (3221225472 + k) = Some (4194304 + k) /\
      walk (phys_rd (get_mem s')) dir (8388608 - p + k) = Some (4194304 + k)) s.
Proof.
  intros Hks Hlen Hp Hroom Hoom. destruct (ks_start _ _ _ _ Hks) as [Hst Hmod].
  assert (Hp0 : 0 <= p) by (destruct (pr_range _ _ (ks_phy _ _ _ _ Hks)); lia).
  unfold new_program. apply wp_bind. unfold on_phy. apply wp_zoom.
  assert (Hw : wp (phymem_alloc exec_len) (fun r t => r = p /\ exists m, t = set_mem m (pg_phy s) /\
    agree (fun a => ~ phy_bitmap (pg_phy s) <= a < phy_bitmap (pg_phy s) + bitmap_len (pg_phy s) /\ ~ p <= a < p + exec_len)
      (get_mem s) m) (pg_phy s)).
  { eapply (wp_phymem_alloc _ 0); [apply (ks_phy _ _ _ _ Hks)|done|rewrite Hst; apply (ks_room _ _ _ _ Hks)| |];
      rewrite Hst, Z.mul_0_r, Z.mul_0_l, Z.add_0_r.
    - apply (ks_mapped _ _ _ _ Hks).
    - intros m Hm. split; [done|]. by exists m. }
  apply wp_inv in Hw as (r & t & Hrun & -> & m & -> & Hag). eapply wp_eq; [exact Hrun|].
  destruct (Hroom _ _ Hrun) as [Hroom1 Hroom2]. destruct (started_after s g p exec_len m Hks Hag) as (Hok & Htab & Hsafe & Hwin).
  change (set_pg_phy (set_mem m (pg_phy s)) s) with (set_mem m s).
  apply wp_bind, (wp_create_space _ g); try done.
  - by rewrite get_set_mem.
  - lia.
  - intros dir s' g' _ _ [Hu _ Hh]. apply wp_ret. split; [done|]. intros k Hk. split; [lia|]. split.
    + rewrite Hh by lia. f_equal. lia.
    + rewrite (Hu (8388608 - p + k)) by (Z.div_mod_to_equations; lia). f_equal. Z.div_mod_to_equations. lia.
Qed.
End program.

(** ** The theorem at work: a program of 8 KB, on the machine of Paging.v *)

#[local] Existing Instance X86.provider.

(** The bitmap of the physical pages is at 0x3000. *)
Definition start_phymem (s : paging (heap X86.state)) : paging (heap X86.state) :=
  set_pg_phy (Phymem (phy_base (pg_phy s)) 3162112 5226496 8388608 PHY_STATE_INIT_TWO 12288) s.
Definition demo_started : paging (heap X86.state) := start_phymem demo_paged.
Definition demo_palloc : phymem (heap X86.state) := run_state (phymem_alloc 8192) (pg_phy demo_started).
Definition demo_palloc_heap : heap X86.state := run_state (Liballoc.malloc 8192) (phy_base demo_palloc).

Lemma demo_room_x86 (h : heap X86.state) (k : nat) :
  h_arch h = X86.State 8192 -> m_ranges (h_mem h) = demo_ranges -> (k < 100)%nat ->
  pool_check (h_mem h) 8192 k (128 - k) = true -> X86.pages_room (h_mem h) (h_arch h) (new_pages (8192 + 32)).
Proof.
  intros Ha Hr Hk Hp. rewrite Ha. exists (Z.of_nat k).
  assert (new_pages (8192 + 32) <= 200) by (vm_compute; discriminate). split; [|lia].
  assert (Hpool := pool_checked (h_mem h) 8192 k (128 - k) Hp). replace (Z.of_nat (k + (128 - k))) with 128 in Hpool by lia.
  apply Hpool, demo_low; [exact Hr|lia..].
Qed.

Lemma demo_kernel_started s :
  kernel_tables (get_mem s) 3149824 3153920 3158016 -> pool (get_mem s) 8192 128 0 ->
  page_directory s = 3149824 -> __kernel_heap_pt s = 3153920 -> __first_pt s = 3158016 ->
  phy_base (pg_phy s) = heap_init (get_mem s) (X86.State 8192) -> m_ranges (get_mem s) = demo_ranges ->
  pool_check (get_mem s) 12288 0 160 = true ->
  kernel_started (start_phymem s) ([] : list mjr) 3162112 8192.
Proof.
  intros Hk Hp Epd Ekpt Efpt Hb Hr Hbit.
  assert (Hbyte : forall a, owned (phy_base (pg_phy s)) [] a -> 8192 <= a < 8320 \/ 3221225472 <= a < 3225419776).
  { rewrite Hb. intros a. by apply fresh_bytes. }
  assert (Hlen : bitmap_len (pg_phy (start_phymem s)) = 160) by done.
  split; simpl; rewrite ?Epd, ?Ekpt, ?Efpt; change (phy_bitmap (pg_phy (start_phymem s))) with 12288; rewrite ?Hlen.
  - change (heap_inv (phy_base (pg_phy s)) []). rewrite Hb. apply heap_init_inv. exists 0. split_and!; [exact Hp|done|].
    by apply demo_high.
  - exact Hk.
  - unfold tables_safe. simpl. rewrite Ekpt, Efpt. intros p Hpp. split_and!; [lia|lia|by destruct Hpp as [->| ->]|].
    intros a Ha. split; [intros Hx; apply Hbyte in Hx; lia|]. rewrite Hb. intros [Hl _]. by apply Hl.
  - intros q Hall. assert (Hlo := Hall q). assert (Hhi := Hall (q + 8191)).
    destruct (Hbyte q) as [?|?]; [apply Hall; unfold in_block; lia| |];
      (destruct (Hbyte (q + 8191)) as [?|?]; [apply Hall; unfold in_block; lia| |]); [lia| | lia|split; lia].
    destruct (Hbyte 8320) as [?|?]; [apply Hall; unfold in_block; lia|lia|lia].
  - split; [done| |done]. apply (pool_checked (get_mem s) 12288 0 160 Hbit). by apply demo_low.
  - done.
  - done.
  - by apply demo_low.
  - intros a Ha. change (bitmap_len _) with 160 in Ha. split; [intros Hx; apply Hbyte in Hx; lia|]. split_and!; lia.
Qed.

Lemma demo_palloc_facts :
  h_arch (phy_base demo_palloc) = X86.State 8192 /\ h_arch demo_palloc_heap = X86.State 8192 /\
  m_ranges (h_mem (phy_base demo_palloc)) = demo_ranges /\ m_ranges (h_mem demo_palloc_heap) = demo_ranges /\
  pool_check (h_mem (phy_base demo_palloc)) 8192 0 128 = true /\ pool_check (h_mem demo_palloc_heap) 8192 2 126 = true /\
  pool_check (get_mem demo_paged) 12288 0 160 = true.
Proof. vm_compute. repeat split. Qed.

Lemma demo_palloc_eq r t : phymem_alloc 8192 (pg_phy demo_started) = Ret r t -> t = demo_palloc.
Proof. intros Hrun. unfold demo_palloc, run_state. by rewrite Hrun. Qed.
Lemma demo_palloc_heap_eq q b : Liballoc.malloc 8192 (phy_base demo_palloc) = Ret q b -> b = demo_palloc_heap.
Proof. intros Hrun. unfold demo_palloc_heap, run_state. by rewrite Hrun. Qed.

#[local] Opaque demo_paged demo_palloc demo_palloc_heap.

Lemma program_reaches_heap_witness :
  wp (new_program (G := list mjr) 8192) (fun '(palloc, dir) s' => palloc = 3162112 /\
    walk (phys_rd (get_mem s')) dir (3221225472 + 64) = walk (phys_rd (get_mem s')) dir (5226496 + 64)) demo_started.
Proof.
  destruct demo_paged_facts as (Hk & Hp & Epd & Ekpt & Efpt).
  destruct demo_palloc_facts as (Ha & Hb & Hc & Hd & He & Hf & Hbit).
  eapply wp_mono; [apply (program_reaches_heap demo_started [] 3162112 8192)|].
  - exact (demo_kernel_started demo_paged Hk Hp Epd Ekpt Efpt demo_base demo_paged_ranges Hbit).
  - lia.
  - lia.
  - intros r t Hrun. rewrite (demo_palloc_eq r t Hrun). split.
    + exact (demo_room_x86 _ 0 Ha Hc ltac:(lia) He).
    + intros q b Hrun2. rewrite (demo_palloc_heap_eq q b Hrun2). exact (demo_room_x86 _ 2 Hb Hd ltac:(lia) Hf).
  - intros [].
  - intros [palloc dir] s' [-> Hw]. split; [done|]. destruct (Hw 64 ltac:(lia)) as (_ & -> & Hu).
    symmetry. exact Hu.
Defined.
