(* ===== verification/Layer.v ===== *)
(** * Static variables over a lower state

    The static variables of a source file are a record [V]; the state of the
    component is the state [S] below it (memory, heap, ...) together with
    them.  The memory and the allocator of the lower state are those of the
    layer. *)

From stdpp Require Import base numbers list gmap.
From Stdlib Require Import ZArith Lia.
From S2P Require Import Prelude Memory Pages LiballocSpec Allocator.

Local Open Scope Z_scope.

Record layer (S V : Type) : Type := Layer { lower : S; vars : V }.
Arguments Layer {S V}. Arguments lower {S V}. Arguments vars {S V}.

Definition set_lower {S V} (b : S) (s : layer S V) : layer S V := Layer b (vars s).
Definition set_vars {S V} (v : V) (s : layer S V) : layer S V := Layer (lower s) v.

#[export] Program Instance layer_HasMem {S V} `{HasMem S} : HasMem (layer S V) :=
  {| get_mem s := get_mem (lower s); set_mem m s := set_lower (set_mem m (lower s)) s |}.
Next Obligation. intros. simpl. apply get_set_mem. Qed.
Next Obligation. intros S V ? []. unfold set_lower. simpl. by rewrite set_get_mem. Qed.
Next Obligation. intros. unfold set_lower. simpl. by rewrite set_set_mem. Qed.

Section layers.
Context {S V : Type}.

(** Running an operation of the lower state, reading and assigning the
    static variables. *)
Definition below {B} (m : M S B) : M (layer S V) B := zoom lower set_lower m.
Definition var {B} (f : V -> B) : M (layer S V) B := gets (fun s => f (vars s)).
Definition assign (f : V -> V) : M (layer S V) unit := modify (fun s => set_vars (f (vars s)) s).

Lemma wp_below {B} (m : M S B) (Q : B -> layer S V -> Prop) s :
  wp m (fun b t => Q b (set_lower t s)) (lower s) -> wp (below m) Q s.
Proof. apply wp_zoom. Qed.
Lemma wp_var {B} (f : V -> B) (Q : B -> layer S V -> Prop) s : Q (f (vars s)) s -> wp (var f) Q s.
Proof. done. Qed.
Lemma wp_assign f (Q : unit -> layer S V -> Prop) s :
  Q tt (set_vars (f (vars s)) s) -> wp (assign f) Q s.
Proof. done. Qed.

Lemma vars_set_mem `{HasMem S} m (s : layer S V) : vars (set_mem m s) = vars s.
Proof. done. Qed.
Lemma lower_set_mem `{HasMem S} m (s : layer S V) : lower (set_mem m s) = set_mem m (lower s).
Proof. done. Qed.
Lemma get_mem_set_vars `{HasMem S} v (s : layer S V) : get_mem (set_vars v s) = get_mem s.
Proof. done. Qed.
Lemma get_mem_set_lower `{HasMem S} b (s : layer S V) : get_mem (set_lower b s) = get_mem b.
Proof. done. Qed.
Lemma get_mem_lower `{HasMem S} (s : layer S V) : get_mem (lower s) = get_mem s.
Proof. done. Qed.
End layers.

(** The allocator of the lower state. *)
#[export] Program Instance layer_allocator {S V G} `{Allocator S G} : Allocator (layer S V) G := {|
  malloc n := below (malloc n);
  free p := below (free p);
  heap_ok s := heap_ok (lower s);
  heap_byte s := heap_byte (lower s);
  block := block (S := S);
  log_byte s := log_byte (lower s);
  room s := room (lower s);
  out_of_memory := out_of_memory (S := S);
|}.
Next Obligation. intros S V G ? ? s g p n. apply (block_law (lower s) g p n). Qed.
Next Obligation. intros S V G ? ? s g a. apply (log_law (lower s) g a). Qed.
Next Obligation. intros S V G ? ? s g m. apply (frame_law (lower s) g m). Qed.
Next Obligation.
  intros S V G ? ? s g n ???. apply wp_below. eapply wp_mono; [by apply (malloc_law (lower s) g n)|].
  intros p t (g' & ?). by exists g'.
Qed.
Next Obligation.
  intros S V G ? ? s g p n ???. apply wp_below. eapply wp_mono; [by apply (free_law (lower s) g p n)|].
  intros [] t (g' & ?). by exists g'.
Qed.

#[export] Hint Rewrite @vars_set_mem @get_mem_set_vars @get_mem_set_lower : lens.

(** ** What a successful [malloc] leaves *)

Section gave.
Context {S G : Type} `{Allocator S G}.

Record gave (s : S) (g : G) (n p : Z) (s' : S) (g' : G) : Prop := {
  gv_ok : heap_ok s' g';
  gv_agree : agree (fun a => ~ heap_byte s g a /\ ~ log_byte s a) (get_mem s) (get_mem s');
  gv_log : forall a, log_byte s' a <-> log_byte s a;
  gv_sub : forall a, heap_byte s' g' a -> heap_byte s g a;
  gv_in : forall a, in_block p n a -> heap_byte s g a;
  gv_block : forall q k, block g' q k <-> block g q k \/ (q = p /\ k = n);
  gv_addr : 0 < p < 4294967296 /\ p mod 16 = 0;
  gv_mapped : mapped_range (get_mem s') p n;
  gv_out : forall a, in_block p n a -> ~ heap_byte s' g' a /\ ~ log_byte s' a;
}.

(** The heap is as before, and no memory outside it and the log changed. *)
Record refused (s : S) (g : G) (s' : S) : Prop := {
  rf_oom : out_of_memory;
  rf_ok : heap_ok s' g;
  rf_agree : agree (fun a => ~ heap_byte s g a /\ ~ log_byte s a) (get_mem s) (get_mem s');
  rf_log : forall a, log_byte s' a <-> log_byte s a;
  rf_sub : forall a, heap_byte s' g a -> heap_byte s g a;
}.

Lemma wp_malloc_gave s g n (Q : Z -> S -> Prop) :
  heap_ok s g -> 0 <= n < 2147483648 -> room s n ->
  (forall s', refused s g s' -> Q 0 s') ->
  (forall p s' g', gave s g n p s' g' -> Q p s') ->
  wp (malloc n) Q s.
Proof.
  intros Hok Hn Hroom Hno Hyes. eapply wp_mono; [by apply (malloc_law s g n)|].
  intros p s' (g' & Hok' & Hag & Hlog & Hsub & [(-> & ? & ->)|(Hp & Hin & Hbl)]); [by apply Hno|].
  destruct (block_law s' g' p n Hok') as (? & ? & _ & ? & Hout); [apply Hbl; by right|].
  apply (Hyes p s' g'). split; try done.
  intros a Ha. split; [by apply Hout|]. rewrite Hlog. intros Hl. eapply log_law; [exact Hok|exact Hl|auto].
Qed.

(** The owner of a new block may write in it. *)
Lemma gave_write s g n p s' g' m :
  gave s g n p s' g' -> agree (fun a => ~ in_block p n a) (get_mem s') m ->
  heap_ok (set_mem m s') g' /\ (forall a, heap_byte (set_mem m s') g' a <-> heap_byte s' g' a) /\
  (forall a, log_byte (set_mem m s') a <-> log_byte s' a) /\
  (forall k, room s' k -> room (set_mem m s') k).
Proof.
  intros Hg Ha. apply frame_law; [apply (gv_ok _ _ _ _ _ _ Hg)|]. eapply agree_mono; [exact Ha|].
  intros a Hb Hin. by destruct (gv_out _ _ _ _ _ _ Hg a Hin).
Qed.
End gave.

(** A proof may use the equation of the run. *)
Lemma wp_run {S A} (m : M S A) (Q : A -> S -> Prop) s :
  wp m (fun a s' => m s = Ret a s' -> Q a s') s -> wp m Q s.
Proof. unfold wp. destruct (m s); auto. Qed.

Lemma malloc_layer_run {S V G} `{Allocator S G} (s : layer S V) n p s' :
  malloc n s = Ret p s' -> malloc n (lower s) = Ret p (lower s').
Proof. simpl. unfold below, zoom. destruct (malloc n (lower s)); intros [=]. by subst. Qed.

(** The same with the static variables above the heap. *)
Lemma wp_malloc_layer {S V G} `{Allocator S G} (s : layer S V) (g : G) n (Q : Z -> layer S V -> Prop) :
  heap_ok s g -> 0 <= n < 2147483648 -> room s n ->
  (forall s', vars s' = vars s -> refused s g s' -> Q 0 s') ->
  (forall p s' g', vars s' = vars s -> gave s g n p s' g' -> Q p s') ->
  wp (malloc n) Q s.
Proof.
  intros Hok Hn Hroom Hno Hyes. simpl. apply wp_below, (wp_malloc_gave (lower s) g n); [done..| |].
  - intros t Hr. apply Hno; [done|]. destruct Hr. by split.
  - intros p t g' Hg. apply (Hyes p _ g'); [done|]. destruct Hg. by split.
Qed.
