(* ===== verification/Tables.v ===== *)
(** * Tables of pointers

    The kernel keeps its devices, listeners, mounts and file handles in fixed
    arrays of pointers, where 0 marks a free slot, and takes the first free
    slot for a new entry. *)

From stdpp Require Import base numbers list gmap.
From Stdlib Require Import ZArith Lia.
From S2P Require Import Prelude Memory Pages.

Local Open Scope Z_scope.

(** [for (i = i0; i < i0 + n; i++)] with a local that the body assigns. *)
Fixpoint for_acc {S B} (n : nat) (i : Z) (b : B) (f : Z -> B -> M S B) : M S B :=
  match n with
  | O => ret b
  | Datatypes.S n' => let! b := f i b in for_acc n' (i + 1) b f
  end.

Lemma wp_for_acc {S B} (I : Z -> B -> S -> Prop) n i (b : B) f (Q : B -> S -> Prop) (s : S) :
  I i b s ->
  (forall j b s, i <= j < i + Z.of_nat n -> I j b s -> wp (f j b) (fun b' s' => I (j + 1) b' s') s) ->
  (forall b s, I (i + Z.of_nat n) b s -> Q b s) ->
  wp (for_acc n i b f) Q s.
Proof.
  revert i b s. induction n as [|n IH]; intros i b s HI Hf HQ; simpl.
  - apply wp_ret, HQ. by replace (i + Z.of_nat 0) with i by lia.
  - apply wp_bind. eapply wp_mono; [apply Hf; [lia|done]|].
    intros b' s' HI'. apply IH; [done| |].
    + intros. apply Hf; [lia|done].
    + intros b'' t Ht. apply HQ. by replace (i + Z.of_nat (Datatypes.S n)) with (i + 1 + Z.of_nat n) by lia.
Qed.

(** Entry [i] of the table at [b]. *)
Definition slot (m : mem) (b i : Z) : Z := rd32 m (b + 4 * i).

(** [i] is the first free slot. *)
Definition first_free (m : mem) (b i : Z) : Prop :=
  slot m b i = 0 /\ forall j, 0 <= j < i -> slot m b j <> 0.

Section find.
Context {S : Type} `{HasMem S}.

(** The loop that looks for a free slot and handles it. *)
Definition find_slot {B} (n : nat) (b : Z) (body : Z -> M S B) : M S (option B) :=
  for_find n 0 (fun i =>
    let! v := ld32 (b + 4 * i) in
    if v =? 0 then let! r := body i in ret (Some r) else ret None).

Lemma wp_find_slot {B} n b (body : Z -> M S B) Q s :
  mapped_range (get_mem s) b (4 * Z.of_nat n) ->
  (forall i, 0 <= i < Z.of_nat n -> first_free (get_mem s) b i ->
     wp (body i) (fun r s' => Q (Some r) s') s) ->
  ((forall i, 0 <= i < Z.of_nat n -> slot (get_mem s) b i <> 0) -> Q None s) ->
  wp (find_slot n b body) Q s.
Proof.
  intros Hm Hfree Hfull.
  apply (wp_for_find (fun i s' => s' = s /\ forall j, 0 <= j < i -> slot (get_mem s) b j <> 0)).
  - split; [done|]. intros. lia.
  - intros i s' Hi [-> Hj]. apply wp_bind, wp_ld32.
    { eapply mapped_range_sub; [exact Hm|lia|lia]. }
    destruct (rd32 (get_mem s) (b + 4 * i) =? 0) eqn:E.
    + apply wp_bind. eapply wp_mono; [apply (Hfree i); [lia|split; [unfold slot; lia|done]]|].
      intros r s' HQ. by apply wp_ret.
    + apply wp_ret. split; [done|]. intros j Hj'.
      destruct (decide (j = i)) as [->|]; [unfold slot; lia|apply Hj; lia].
  - intros s' [-> Hj]. apply Hfull. intros i Hi. apply Hj. lia.
Qed.
End find.

(** A table after an assignment to one slot. *)
Lemma slot_write m b i v j :
  0 <= v < 4294967296 ->
  slot (mwrite m (b + 4 * i) (le32 v)) b j = if decide (j = i) then v else slot m b j.
Proof.
  intros Hv. unfold slot. destruct (decide (j = i)) as [->|].
  - rewrite rd32_mwrite_same. by apply u32_small.
  - apply rd32_mwrite_out. rewrite le32_length. lia.
Qed.

(** A table filled with zeros. *)
Lemma rd32_zero m a : (forall k, a <= k < a + 4 -> rd m k = 0) -> rd32 m a = 0.
Proof. intros Hz. unfold rd32. rewrite !Hz by lia. done. Qed.

Lemma first_free_unique m b i j : 0 <= i -> 0 <= j -> first_free m b i -> first_free m b j -> i = j.
Proof.
  intros ?? [Hi Hi'] [Hj Hj'].
  destruct (Z.lt_trichotomy i j) as [Hlt|[?|Hlt]]; [|done|].
  - by destruct (Hj' i ltac:(lia)).
  - by destruct (Hi' j ltac:(lia)).
Qed.

(** ** 16-bit words *)

Lemma le16_length v : length (le16 v) = 2%nat.
Proof. done. Qed.

Lemma rd16_mwrite_same m a v : rd16 (mwrite m a (le16 v)) a = u16 v.
Proof.
  unfold rd16, le16, mwrite. rewrite rd_mset. destruct (decide _); [lia|].
  rewrite rd_mset. destruct (decide _); [|done]. rewrite rd_mset. destruct (decide _); [|done].
  rewrite !u8_u8. unfold u8, u16. Z.div_mod_to_equations. lia.
Qed.

Lemma rd16_mwrite_out m a l b :
  b + 2 <= a \/ a + Z.of_nat (length l) <= b -> rd16 (mwrite m a l) b = rd16 m b.
Proof. intros. unfold rd16. rewrite !rd_mwrite_out by lia. done. Qed.

Lemma rd16_agree P m m' a : agree P m m' -> P a -> P (a + 1) -> rd16 m' a = rd16 m a.
Proof. intros [_ Hd] ??. unfold rd16. by rewrite !Hd. Qed.

Section word16.
Context {S : Type} `{HasMem S}.

Lemma wp_ld16 a (Q : Z -> S -> Prop) s :
  mapped_range (get_mem s) a 2 -> Q (rd16 (get_mem s) a) s -> wp (ld16 a) Q s.
Proof.
  intros (? & ? & Hm) HQ. unfold ld16.
  repeat (apply wp_bind, wp_ld8; [lia|apply Hm; lia|]). by apply wp_ret.
Qed.

Lemma wp_st16 a v (Q : unit -> S -> Prop) s :
  mapped_range (get_mem s) a 2 ->
  Q tt (set_mem (mwrite (get_mem s) a (le16 v)) s) -> wp (st16 a v) Q s.
Proof.
  intros (? & ? & Hm) HQ. unfold st16.
  apply wp_bind, wp_st8; [lia|apply Hm; lia|].
  apply wp_st8; [lia|lens; apply Hm; lia|]. lens.
  unfold le16 in HQ. simpl in HQ. rewrite !mset_u8 in HQ. exact HQ.
Qed.
End word16.
