(* ===== verification/Device.v ===== *)
(** * The device core: [drivers/device.c] *)

From stdpp Require Import base numbers list gmap.
From Stdlib Require Import ZArith Lia.
From S2P Require Import Prelude Memory Pages Arm Liballoc LiballocInv LiballocSpec Allocator Layer Tables.

Local Open Scope Z_scope.

Definition MAX_DEVICES : Z := 128.

(** [struct device] *)
Definition D_valid : Z := 0.    (* uint8_t *)
Definition D_id : Z := 4.
Definition D_flags : Z := 8.    (* uint8_t *)
Definition D_name : Z := 12.
Definition D_fs : Z := 16.
Definition D_read : Z := 20.
Definition D_write : Z := 24.
Definition D_priv : Z := 28.
Definition sizeof_device : Z := 32.

Record device_vars : Type := DeviceVars { device_list : Z; device_count : Z }.

Section ops.
Context {S G : Type} `{Allocator S G}.
Notation DM := (M (layer S device_vars)).

Definition device_core_init : DM Z :=
  let! p := malloc (MAX_DEVICES * 4) in
  assign (fun v => DeviceVars p (device_count v)) ;!
  if p =? 0 then ret 1
  else memset p 0 (MAX_DEVICES * 4) ;! ret 0.

(** [dev->valid] is not read when [dev] is 0. *)
Definition device_register (dev : Z) : DM Z :=
  let! valid := if dev =? 0 then ret 0 else ld8 (dev + D_valid) in
  if valid =? 0 then ret 1
  else
    let! l := var device_list in
    let! _ := find_slot 128 l (fun i =>
      st32 (l + 4 * i) dev ;!
      assign (fun v => DeviceVars (device_list v) (s32 (device_count v + 1)))) in
    ret 0.

Definition get_device (i : Z) : DM Z :=
  let! l := var device_list in
  ld32 (l + 4 * i).

Definition device_get_count : DM Z := var device_count.
End ops.

(** ** Correctness *)

(** The table at [l] holds the devices [ds], in order, and is empty behind
    them; [c] is the counter. *)
Record devices (m : mem) (v : device_vars) (ds : list Z) : Prop := {
  ds_mapped : mapped_range m (device_list v) (4 * MAX_DEVICES);
  ds_len : Z.of_nat (length ds) <= MAX_DEVICES;
  ds_count : device_count v = Z.of_nat (length ds);
  ds_slots : forall i, 0 <= i < MAX_DEVICES -> slot m (device_list v) i = nth (Z.to_nat i) ds 0;
  ds_nonnull : Forall (fun d => 0 < d < 4294967296) ds;
}.

Lemma nth_nonnull ds i : Forall (fun d => 0 < d < 4294967296) ds -> (i < length ds)%nat -> 0 < nth i ds 0.
Proof. rewrite Forall_forall. intros Hf Hi. apply Hf, list_elem_of_In, nth_In. done. Qed.

Lemma devices_free m v ds i :
  devices m v ds -> 0 <= i < MAX_DEVICES -> first_free m (device_list v) i -> i = Z.of_nat (length ds).
Proof.
  intros [_ Hl _ Hs Hn] Hi [Hz Hb]. rewrite Hs in Hz by done.
  destruct (Z.lt_trichotomy i (Z.of_nat (length ds))) as [Hlt|[?|Hlt]]; [|done|].
  - pose proof (nth_nonnull ds (Z.to_nat i) Hn ltac:(lia)). lia.
  - destruct (Hb (Z.of_nat (length ds))); [lia|]. rewrite Hs by lia.
    by rewrite nth_overflow by lia.
Qed.

Section spec.
Context {S G : Type} `{Allocator S G}.
Implicit Types (s : layer S device_vars).

(** device_core_init, with the heap able to give 512 bytes, leaves an
    empty device table in a live block, and returns 0; when the heap gives
    nothing it returns 1. *)
Theorem device_core_init_spec s g :
  heap_ok s g -> room s 512 -> device_count (vars s) = 0 ->
  wp device_core_init (fun r s' => exists g', heap_ok s' g' /\
    ((r = 1 /\ out_of_memory /\ g' = g) \/
     (r = 0 /\ devices (get_mem s') (vars s') [] /\
      block g' (device_list (vars s')) 512))) s.
Proof.
  intros Hok Hroom Hc. unfold device_core_init. apply wp_bind, (wp_malloc_layer s g 512); [done|lia|done| |].
  - intros s1 Hv [? Hok' _ _ _]. apply wp_bind, wp_assign, wp_ret.
    exists g. split; [exact Hok'|]. by left.
  - intros p s1 g' Hv [Hok' _ _ _ _ Hbl [? ?] Hm Hout]. apply wp_bind, wp_assign.
    destruct (p =? 0) eqn:E; [lia|]. apply wp_bind, wp_memset; [done|exact Hm|].
    apply wp_ret. change (Z.to_nat (MAX_DEVICES * 4)) with 512%nat. set (m' := mwrite _ _ _).
    exists g'. split.
    { apply (frame_law (lower s1) g' m' Hok'). split; [unfold m'; apply ranges_mwrite|].
      intros a Ha. unfold m'. rewrite rd_mwrite_out; [done|]. rewrite length_replicate.
      destruct (Z_lt_dec a p); [by left|]. destruct (Z_le_dec (p + 512) a); [right; lia|].
      destruct (Hout a) as [Hx _]; [unfold in_block; lia|]. done. }
    right. split; [done|]. split; [|apply Hbl; by right].
    lens. simpl. split; simpl.
    + unfold m'. rewrite mapped_range_mwrite. exact Hm.
    + done.
    + by rewrite Hv.
    + intros i Hi. transitivity 0; [|by destruct (Z.to_nat i)]. unfold slot. apply rd32_zero.
      intros k Hk. unfold m', MAX_DEVICES in *. rewrite (rd_mwrite_in _ _ _ _ 0); [done| |lia].
      apply lookup_replicate. split; [done|lia].
    + constructor.
Qed.

(** device_register appends a valid device behind the registered ones
    and counts it; an invalid device is refused with 1 and nothing changes;
    with 128 devices registered the table is left as it is, and the function
    still returns 0. *)
Theorem device_register_spec s ds dev :
  devices (get_mem s) (vars s) ds -> 0 < dev < 4294967296 -> mapped_range (get_mem s) dev 1 ->
  wp (device_register dev) (fun r s' =>
    if rd (get_mem s) dev =? 0 then r = 1 /\ s' = s
    else r = 0 /\
      (if Z.of_nat (length ds) <? MAX_DEVICES then devices (get_mem s') (vars s') (ds ++ [dev])
       else s' = s)) s.
Proof.
  intros Hd Hdev (_ & _ & Hmap). unfold device_register. pose proof Hd as [Hm Hl Hc Hs Hn].
  destruct (dev =? 0) eqn:E; [lia|]. unfold D_valid. rewrite Z.add_0_r.
  apply wp_bind, wp_ld8; [lia|apply Hmap; lia|].
  destruct (rd (get_mem s) dev =? 0) eqn:Ev; [by apply wp_ret|].
  apply wp_bind, wp_var, wp_bind, wp_find_slot; [exact Hm| |].
  - intros i Hi Hf. pose proof (devices_free _ _ _ _ Hd Hi Hf) as ->.
    apply wp_bind, wp_st32; [eapply mapped_range_sub; [exact Hm|unfold MAX_DEVICES; lia..]|].
    apply wp_assign, wp_ret. split; [done|]. rewrite (proj2 (Z.ltb_lt _ _)) by (unfold MAX_DEVICES; lia).
    lens. split; simpl.
    + rewrite mapped_range_mwrite. exact Hm.
    + rewrite length_app. simpl. unfold MAX_DEVICES. lia.
    + rewrite Hc, length_app, s32_small; simpl; lia.
    + intros j Hj. rewrite slot_write by lia. destruct (decide (j = Z.of_nat (length ds))) as [->|Hne].
      * rewrite Nat2Z.id, app_nth2, Nat.sub_diag by lia. done.
      * rewrite Hs by done. destruct (decide (j < Z.of_nat (length ds))).
        { by rewrite app_nth1 by lia. }
        rewrite !nth_overflow; [done|rewrite ?length_app; simpl; lia..].
    + apply Forall_app. split; [done|]. constructor; [done|constructor].
  - intros Hfull. apply wp_ret. split; [done|].
    destruct (Z.of_nat (length ds) <? MAX_DEVICES) eqn:El; [|done]. exfalso.
    apply (Hfull (Z.of_nat (length ds))); [unfold MAX_DEVICES in *; lia|].
    rewrite Hs by (unfold MAX_DEVICES in *; lia). by rewrite nth_overflow by lia.
Qed.
End spec.

(** ** The theorems at work *)

#[local] Existing Instance Arm.provider.

Lemma device_core_init_spec_witness :
  wp (device_core_init (G := list mjr)) (fun r s' => r = 0 /\ devices (get_mem s') (vars s') [])
    (Layer demo0 (DeviceVars 0 0)).
Proof.
  eapply wp_mono; [apply (device_core_init_spec (Layer demo0 (DeviceVars 0 0)) [])|].
  - exact demo0_inv.
  - apply (demo_room demo0); vm_compute; done || (split; discriminate).
  - done.
  - intros r s' (g' & _ & [(_ & [] & _)|(-> & ? & _)]). done.
Defined.

Definition demo_device_mem : mem := mset (Mem ∅ [(4096, 8192)]) 8000 1.

(** The empty table at 0x1000, and a valid device at 8000. *)
Lemma device_register_spec_witness :
  wp (device_register 8000) (fun r s' => r = 0 /\ devices (get_mem s') (vars s') [8000])
    (Layer demo_device_mem (DeviceVars 4096 0)).
Proof.
  eapply wp_mono; [apply (device_register_spec _ [] 8000)|].
  - split; simpl; try done.
    + eapply mapped_range_intro; [left|vm_compute; discriminate..].
    + intros i Hi. transitivity 0; [|by destruct (Z.to_nat i)].     unfold slot. apply rd32_zero.
      intros k Hk. unfold demo_device_mem, MAX_DEVICES in *. rewrite rd_mset.
      destruct (decide (k = 8000)); [lia|done].
  - lia.
  - eapply mapped_range_intro; [left|vm_compute; discriminate..].
  - intros r s' Hr. exact Hr.
Defined.
