(* ===== verification/Current.v ===== *)
(** * The running process

    [get_process()] is [__p] of kernel/scheduler.c: the scheduler assigns it,
    the heap reads it to log allocations, the system calls read it.  The heap's
    state holds the variable; the class reaches it from any state above. *)

From stdpp Require Import base numbers list gmap.
From Stdlib Require Import ZArith Lia.
From S2P Require Import Prelude Memory Pages Liballoc LiballocSpec Allocator Phymem Layer.

Local Open Scope Z_scope.

Class Current (S : Type) `{HasMem S} := {
  cur_process : S -> Z;
  set_current : Z -> S -> S;
  cur_set p s : cur_process (set_current p s) = p;
  mem_set_current p s : get_mem (set_current p s) = get_mem s;
  cur_set_mem m s : cur_process (set_mem m s) = cur_process s;
}.

Definition set_h_proc {A} (p : Z) (h : heap A) : heap A :=
  Heap (h_mem h) (h_arch h) (l_memRoot h) (l_bestBet h) (l_allocated h) (l_inuse h) (l_warningCount h)
    (l_errorCount h) (l_possibleOverruns h) (h_locked h) (h_all_unlocked h) p.

#[export] Program Instance heap_current {A} : Current (heap A) :=
  {| cur_process := h_proc; set_current := set_h_proc |}.
Solve All Obligations with done.

#[export] Program Instance phymem_current {S} `{Current S} : Current (phymem S) :=
  {| cur_process s := cur_process (phy_base s);
     set_current p s := set_phy_base (set_current p (phy_base s)) s |}.
Next Obligation. intros. apply cur_set. Qed.
Next Obligation. intros. simpl. apply mem_set_current. Qed.
Next Obligation. intros. simpl. apply cur_set_mem. Qed.

#[export] Program Instance layer_current {S V} `{Current S} : Current (layer S V) :=
  {| cur_process s := cur_process (lower s);
     set_current p s := set_lower (set_current p (lower s)) s |}.
Next Obligation. intros. apply cur_set. Qed.
Next Obligation. intros. simpl. apply mem_set_current. Qed.
Next Obligation. intros. simpl. apply cur_set_mem. Qed.

Definition get_process {S} `{Current S} : M S Z := gets cur_process.

(** The physical allocator keeps the heap below it. *)
#[export] Program Instance phymem_allocator {S G} `{Allocator S G} : Allocator (phymem S) G := {|
  malloc n := on_base (malloc n);
  free p := on_base (free p);
  heap_ok s := heap_ok (phy_base s);
  heap_byte s := heap_byte (phy_base s);
  block := block (S := S);
  log_byte s := log_byte (phy_base s);
  room s := room (phy_base s);
  out_of_memory := out_of_memory (S := S);
|}.
Next Obligation. intros S G ? ? s g p n. apply (block_law (phy_base s) g p n). Qed.
Next Obligation. intros S G ? ? s g a. apply (log_law (phy_base s) g a). Qed.
Next Obligation. intros S G ? ? s g m. apply (frame_law (phy_base s) g m). Qed.
Next Obligation.
  intros S G ? ? s g n ???. apply wp_zoom. eapply wp_mono; [by apply (malloc_law (phy_base s) g n)|].
  intros p t (g' & ?). by exists g'.
Qed.
Next Obligation.
  intros S G ? ? s g p n ???. apply wp_zoom. eapply wp_mono; [by apply (free_law (phy_base s) g p n)|].
  intros [] t (g' & ?). by exists g'.
Qed.

#[export] Hint Rewrite @mem_set_current @cur_set_mem @cur_set : lens.
