(* ===== verification/Sched.v ===== *)
(** * Processes and threads: [kernel/scheduler.c]

    The process table is the array [processes] in memory; a process and its
    threads are the structures of [Process].  The interrupt flag
    ([interrupt_ctl], arch/x86/x86.c), cr3, and the variables of the file are
    the static variables of the layer.  The stack switch in assembly
    ([switch_to_thread]) is in Switch.v: here a context switch ends with
    [__new__thread] naming the thread to run.  The idle task, which writes to a
    terminal, is in Arch.v. *)

From stdpp Require Import base numbers list gmap.
From Stdlib Require Import ZArith Lia.
From S2P Require Import Prelude Memory CString Process Pages Arm Liballoc LiballocInv LiballocProof LiballocSpec Allocator Phymem Layer Tables Current.

Local Open Scope Z_scope.

Record sched_vars : Type := SchedVars {
  processes : Z;              (* address of the array *)
  scheduler_status : Z;
  last_process : Z;           (* uint8_t *)
  __lastpid : Z;              (* uint8_t *)
  __old__thread : Z;
  __new__thread : Z;
  __t : Z;
  kernel_stack : Z;
  __irq_enabled : Z;
  init_ready : Z;
  task : Z;
  reg_cr3 : Z;
  VFS_INITIALIZED : Z;
}.

Definition set_last_process (n : Z) (v : sched_vars) : sched_vars :=
  SchedVars (processes v) (scheduler_status v) n (__lastpid v) (__old__thread v) (__new__thread v) (__t v)
    (kernel_stack v) (__irq_enabled v) (init_ready v) (task v) (reg_cr3 v) (VFS_INITIALIZED v).
Definition set_lastpid (n : Z) (v : sched_vars) : sched_vars :=
  SchedVars (processes v) (scheduler_status v) (last_process v) n (__old__thread v) (__new__thread v) (__t v)
    (kernel_stack v) (__irq_enabled v) (init_ready v) (task v) (reg_cr3 v) (VFS_INITIALIZED v).
Definition set_threads (old new t : Z) (v : sched_vars) : sched_vars :=
  SchedVars (processes v) (scheduler_status v) (last_process v) (__lastpid v) old new t
    (kernel_stack v) (__irq_enabled v) (init_ready v) (task v) (reg_cr3 v) (VFS_INITIALIZED v).
Definition set_irq (n : Z) (v : sched_vars) : sched_vars :=
  SchedVars (processes v) (scheduler_status v) (last_process v) (__lastpid v) (__old__thread v) (__new__thread v)
    (__t v) (kernel_stack v) n (init_ready v) (task v) (reg_cr3 v) (VFS_INITIALIZED v).
Definition set_status (n : Z) (v : sched_vars) : sched_vars :=
  SchedVars (processes v) n (last_process v) (__lastpid v) (__old__thread v) (__new__thread v) (__t v)
    (kernel_stack v) (__irq_enabled v) (init_ready v) (task v) (reg_cr3 v) (VFS_INITIALIZED v).
Definition set_kernel_stack (n : Z) (v : sched_vars) : sched_vars :=
  SchedVars (processes v) (scheduler_status v) (last_process v) (__lastpid v) (__old__thread v) (__new__thread v)
    (__t v) n (__irq_enabled v) (init_ready v) (task v) (reg_cr3 v) (VFS_INITIALIZED v).
Definition set_running (n k : Z) (v : sched_vars) : sched_vars :=
  SchedVars (processes v) (scheduler_status v) (last_process v) (__lastpid v) (__old__thread v) (__new__thread v)
    (__t v) (kernel_stack v) (__irq_enabled v) n k (reg_cr3 v) (VFS_INITIALIZED v).

Section ops.
Context {S G : Type} `{Current S} `{!Allocator S G}.
Notation SM := (M (layer (phymem S) sched_vars)).

(** Addresses of the string literals, and of [idle_task] (Arch.v). *)
Variables (str_bin str_root str_idletsk : Z) (idle_task_addr : Z).
Variable str_initializing : Z.
(** fs/vfs.c, kernel/dbus.c and tty/tty.c sit above the scheduler. *)
Variable vfs_open : Z -> SM Z.
Variable tty_write : Z -> Z -> Z -> SM unit.
Variable tty_flush : Z -> SM unit.
Variable dbus_send_init_killed : SM unit.

Definition interrupt_ctl (e : Z) : SM Z :=
  assign (set_irq (if e =? 0 then 0 else 1)) ;! ret 0.
Definition interrupts_enabled : SM Z := var __irq_enabled.

(** *** Context switches *)

Definition next_process : SM Z :=
  loop (fun _ =>
    let! l := var last_process in
    let l := u8 (l + 1) in
    let l := if MAX_PROCESSES <=? l then 0 else l in
    assign (set_last_process l) ;!
    let! ps := var processes in
    let! p := ld32 (ps + 4 * l) in
    if p =? 0 then ret (inl tt) else ret (inr p)) tt.

Definition next_thread (p : Z) : SM Z :=
  loop (fun _ =>
    let! l := ld8 (p + P_lastthread) in
    st8 (p + P_lastthread) (u8 (l + 1)) ;!
    let! l := ld8 (p + P_lastthread) in
    (if! MAX_THREADS <=? l then st8 (p + P_lastthread) 0) ;!
    let! l := ld8 (p + P_lastthread) in
    let! t := ld32 (p + P_threads + 4 * l) in
    if t =? 0 then ret (inl tt) else ret (inr t)) tt.

Definition scheduler_switch : SM unit :=
  modify (set_current 0) ;!
  let! p := next_process in
  modify (set_current p) ;!
  let! t := next_thread p in
  assign (fun v => set_threads (__new__thread v) t t v).

(** [int 0x2f] is handled by the context switch (arch/x86/x86.c). *)
Definition schedule_noirq : SM unit :=
  let! v := var (fun v => v) in
  if negb (init_ready v =? 0) && negb (task v =? 0) && negb (__irq_enabled v =? 0)
  then scheduler_switch else ret tt.

(** *** Threads *)

(** [*--sp = w] for each word. *)
Fixpoint push_all (sp : Z) (l : list Z) : SM Z :=
  match l with
  | [] => ret sp
  | w :: l => let sp := u32 (sp - 4) in st32 sp w ;! push_all sp l
  end.

(** eflags, cs, eip, eax, ebx, ecx, edx, esi, edi, ebp, ds, fs, es, gs *)
Definition initial_frame (entry stacktop : Z) : list Z :=
  [514; 8; entry; 0; 0; 0; 0; 0; 0; stacktop; 16; 16; 16; 16].

(** The stack of a new thread, and its place in the process. *)
Definition thread_setup (p s t stack : Z) : SM unit :=
  st32 (t + T_stackbot) stack ;!
  let! _ := memset stack 0 THREAD_STACK_SIZE in
  let stacktop := Z.land (u32 (stack + 4000)) 4294967280 in
  st32 (t + T_stacktop) stacktop ;!
  let! sp := push_all stacktop (initial_frame s stacktop) in
  st32 (t + T_stack) sp ;!
  st32 (t + T_paged) (p + P_paged) ;!
  let! threadslen := ld8 (p + P_threadslen) in
  st32 (p + P_threads + 4 * threadslen) t ;!
  let! threadslen := ld8 (p + P_threadslen) in
  st8 (p + P_threadslen) (u8 (threadslen + 1)).

Definition create_new_thread (p s a : Z) : SM Z :=
  let irq e := if! negb (a =? 0) then (let! _ := interrupt_ctl e in ret tt) in
  let err := irq 1 ;! ret (- EIO) in
  irq 0 ;!
  if (p =? 0) || (s =? 0) then err
  else
    let! threadslen := ld8 (p + P_threadslen) in
    if threadslen + 1 >? MAX_THREADS then err
    else
      let! t := malloc sizeof_thread in
      if t =? 0 then err
      else
        let! _ := memset t 0 sizeof_thread in
        st32 (t + T_ip) s ;!
        let! stack := malloc THREAD_STACK_SIZE in
        if stack =? 0 then free t ;! err
        else thread_setup p s t stack ;! irq 1 ;! ret 0.

(** *** Processes *)

(** The common part of the two functions: they differ in the working
    directory, and [k] goes on with the process and its name. *)
Definition new_process (namebuf dir : Z) (k : Z -> Z -> SM Z) : SM Z :=
  let! _ := interrupt_ctl 0 in
  let! p := malloc sizeof_process in
  if p =? 0 then let! _ := interrupt_ctl 1 in ret 0
  else
    let! _ := memset p 0 sizeof_process in
    let! n := strlen namebuf in
    let! name := malloc (u32 (n + 1)) in
    if name =? 0 then free p ;! let! _ := interrupt_ctl 1 in ret 0
    else
      let! n := strlen namebuf in
      memcpy name namebuf (u32 (n + 1)) ;!
      st32 (p + P_namebuf) name ;!
      st8 (p + P_lastthread) 0 ;!
      st8 (p + P_threadslen) 0 ;!
      st8 (p + P_tty_id) 0 ;!
      let! vi := var VFS_INITIALIZED in
      (if! negb (vi =? 0) then (let! d := vfs_open dir in st32 (p + P_workdir) d)) ;!
      let! cr3 := var reg_cr3 in
      st32 (p + P_paged) cr3 ;!
      let! pid := var __lastpid in
      st8 (p + P_pid) pid ;!
      assign (fun v => set_lastpid (u8 (__lastpid v + 1)) v) ;!
      k p name.

Definition create_new_process_nothread (namebuf : Z) : SM Z :=
  new_process namebuf str_bin (fun p _ => let! _ := interrupt_ctl 1 in ret p).

Definition create_new_process (namebuf addr : Z) : SM Z :=
  new_process namebuf str_root (fun p name =>
    let! rc := create_new_thread p addr 0 in
    if rc =? 0 then let! _ := interrupt_ctl 1 in ret p
    else free name ;! free p ;! let! _ := interrupt_ctl 1 in ret 0).

Definition is_pid_running (pid : Z) : SM Z :=
  let! ps := var processes in
  let! r := for_find 32 0 (fun i =>
    let! q := ld32 (ps + 4 * i) in
    if q =? 0 then ret None
    else
      let! qpid := ld8 (q + P_pid) in
      if qpid =? pid then ret (Some 1) else ret None) in
  ret (default 0 r).

Definition scheduler_kill_self : SM Z :=
  let! _ := interrupt_ctl 0 in
  let! p := get_process in
  let! pid := ld8 (p + P_pid) in
  (if! pid =? 2 then dbus_send_init_killed) ;!
  assign (fun v => set_threads 0 (__new__thread v) (__t v) v) ;!
  let! ps := var processes in
  let! _ := for_find 32 0 (fun i =>
    let! q := ld32 (ps + 4 * i) in
    if q =? 0 then ret None
    else
      let! p := get_process in
      if q =? p then st32 (ps + 4 * i) 0 ;! ret (Some tt) else ret None) in
  let! p := get_process in
  let! name := ld32 (p + P_namebuf) in
  free name ;!
  let! palloc := ld32 (p + P_palloc) in
  let! palloc_len := ld32 (p + P_palloc_len) in
  below (phymem_free palloc palloc_len) ;!
  let! t0 := ld32 (p + P_threads) in
  let! bot := ld32 (t0 + T_stackbot) in
  free bot ;!
  loop (fun i =>
    let! allocs := ld32 (p + P_allocs) in
    if i <? allocs then
      let! b := ld32 (p + P_allocation_table + 4 * i) in
      free b ;! ret (inl (i + 1))
    else ret (inr tt)) 0 ;!
  free p ;!
  let! _ := interrupt_ctl 1 in
  schedule_noirq ;!
  ret 1.

Definition scheduler_kill_pid (pid : Z) : SM Z :=
  let! _ := interrupt_ctl 0 in
  let! p := get_process in
  let! mypid := ld8 (p + P_pid) in
  if pid =? mypid then scheduler_kill_self
  else
    let! ps := var processes in
    let! killed := for_acc 32 0 0 (fun i killed =>
      let! q := ld32 (ps + 4 * i) in
      if q =? 0 then ret killed
      else
        let! qpid := ld8 (q + P_pid) in
        if qpid =? pid then st32 (ps + 4 * i) 0 ;! ret 1 else ret killed) in
    let! _ := interrupt_ctl 1 in
    ret (if killed =? 0 then 1 else 0).

(** Returns the process's pid, or 0. *)
Definition scheduler_add_process (p : Z) : SM Z :=
  let! _ := interrupt_ctl 0 in
  let out := let! _ := interrupt_ctl 1 in ret 0 in
  let! threadslen := if p =? 0 then ret 0 else ld8 (p + P_threadslen) in
  if threadslen =? 0 then out
  else
    let! ps := var processes in
    let! placed := find_slot 32 ps (fun i => ret i) in
    match placed with
    | None => out
    | Some i =>
        st32 (ps + 4 * i) p ;!
        let! _ := interrupt_ctl 1 in
        ld8 (p + P_pid)
    end.

Definition scheduler_ctl (enable : Z) : SM Z :=
  assign (set_status (u8 enable)) ;! ret 0.

(** *** Starting up *)

(** [switch_to_thread] never returns. *)
Definition __start_sched : SM unit :=
  let! ks := malloc 8192 in
  assign (set_kernel_stack ks) ;!
  assign (fun v => set_kernel_stack (u32 (kernel_stack v + 8188)) v) ;!
  assign (fun v => set_kernel_stack (Z.land (kernel_stack v) 268435440) v) ;!
  let! _ := interrupt_ctl 1 in
  let! ps := var processes in
  let! p0 := ld32 ps in
  let! t0 := ld32 (p0 + P_threads) in
  assign (fun v => set_threads (__old__thread v) t0 (__t v) v).

Definition scheduler_init : SM unit :=
  tty_write 0 str_initializing 24 ;!
  tty_flush 0 ;!
  let! ps := var processes in
  let! _ := memset ps 0 (4 * MAX_PROCESSES) in
  let! p := create_new_process str_idletsk idle_task_addr in
  let! rc := scheduler_add_process p in
  if negb (rc =? 0) then halt
  else __start_sched.
End ops.

(** ** Round robin *)

(** [j] is the first position after [last], cyclically among [n], where [f]
    is not zero. *)
Definition next_at (f : Z -> Z) (n last d : Z) : Prop :=
  1 <= d <= n /\ f ((last + d) mod n) <> 0 /\ forall k, 1 <= k < d -> f ((last + k) mod n) = 0.

Lemma next_at_exists f n last i :
  0 < n -> 0 <= i < n -> f i <> 0 -> exists d, next_at f n last d.
Proof.
  intros Hn Hi Hf.
  assert (Hd : exists d, 1 <= d <= n /\ (last + d) mod n = i).
  { exists ((i - last - 1) mod n + 1). pose proof (Z.mod_pos_bound (i - last - 1) n Hn). split; [lia|].
    replace (last + ((i - last - 1) mod n + 1)) with ((last + 1) + (i - last - 1) mod n) by lia.
    rewrite Z.add_mod_idemp_r by lia. replace (last + 1 + (i - last - 1)) with i by lia.
    by apply Z.mod_small. }
  destruct Hd as (d & Hd & Hdi). rewrite <-Hdi in Hf. clear Hi Hdi i.
  assert (Hleast : forall k : nat, Z.of_nat k <= n ->
    (forall e, 1 <= e <= Z.of_nat k -> f ((last + e) mod n) = 0) \/ exists e, next_at f n last e).
  { induction k as [|k IH]; intros Hk; [left; lia|].
    destruct IH as [Hz|?]; [lia| |by right].
    destruct (decide (f ((last + Z.of_nat (Datatypes.S k)) mod n) = 0)) as [E|E].
    - left. intros e He. destruct (decide (e = Z.of_nat (Datatypes.S k))) as [->|]; [done|]. apply Hz. lia.
    - right. exists (Z.of_nat (Datatypes.S k)). split_and!; [lia|lia|done|]. intros e He. apply Hz. lia. }
  destruct (Hleast (Z.to_nat d)) as [Hz|?]; [lia| |done].
  destruct Hf. apply Hz. lia.
Qed.

Lemma next_at_le f n last d e :
  next_at f n last d -> 1 <= e <= n -> f ((last + e) mod n) <> 0 -> d <= e.
Proof.
  intros (? & ? & Hz) He Hf. destruct (Z_le_dec d e); [done|]. destruct Hf. apply Hz. lia.
Qed.

Lemma next_at_ext f f' n last d :
  0 < n -> (forall i, 0 <= i < n -> f' i = f i) -> next_at f n last d -> next_at f' n last d.
Proof.
  intros Hn He (? & ? & Hz). split_and!; try lia.
  - rewrite He; [done|]. by apply Z.mod_pos_bound.
  - intros k Hk. rewrite He; [by apply Hz|]. by apply Z.mod_pos_bound.
Qed.

Lemma succ_wrap n k : 0 < n -> (if n <=? k mod n + 1 then 0 else k mod n + 1) = (k + 1) mod n.
Proof.
  intros Hn. pose proof (Z.mod_pos_bound k n Hn).
  rewrite <-(Z.add_mod_idemp_l k) by lia. destruct (n <=? k mod n + 1) eqn:E.
  - replace (k mod n + 1) with n by lia. by rewrite Z.mod_same by lia.
  - symmetry. apply Z.mod_small. lia.
Qed.

Section spec.
Context {S : Type} `{Current S}.
Implicit Types (s : layer (phymem S) sched_vars).

(** A process that can be switched to. *)
Record runnable (m : mem) (p : Z) : Prop := {
  ru_mapped : process_mapped m p;
  ru_last : rd m (p + P_lastthread) < MAX_THREADS;
  ru_thread : exists j, 0 <= j < MAX_THREADS /\ slot m (p + P_threads) j <> 0;
}.

Definition all_but (p : Z) (m m' : mem) : Prop := agree (fun a => a <> p + P_lastthread) m m'.

Lemma all_but_mset p m m' v : all_but p m m' -> all_but p m (mset m' (p + P_lastthread) v).
Proof.
  intros [Hr Hd]. split; [done|]. intros a Ha. rewrite rd_mset. destruct (decide _); [done|]. by apply Hd.
Qed.

Lemma wp_next_process s (Q : Z -> layer (phymem S) sched_vars -> Prop) d :
  let ps := processes (vars s) in let l := last_process (vars s) in
  0 <= l < MAX_PROCESSES -> mapped_range (get_mem s) ps (4 * MAX_PROCESSES) ->
  next_at (slot (get_mem s) ps) MAX_PROCESSES l d ->
  (let i := (l + d) mod MAX_PROCESSES in
   Q (slot (get_mem s) ps i) (set_vars (set_last_process i (vars s)) s)) ->
  wp next_process Q s.
Proof.
  intros ps l Hl Hm (Hd & Hocc & Hz) HQ. unfold next_process, MAX_PROCESSES in *.
  apply (wp_loop_idx (fun n _ s' => exists k, 0 <= k < d /\ n = d - k /\
           s' = set_vars (set_last_process ((l + k) mod 32) (vars s)) s) d); [|lia|].
  { exists 0. split_and!; [lia|lia|lia|]. rewrite Z.add_0_r, Z.mod_small by lia. by destruct s as [? []]. }
  intros n [] s' (k & Hk & -> & ->). split; [lia|].
  pose proof (Z.mod_pos_bound (l + k) 32 ltac:(lia)).
  apply wp_bind, wp_var. simpl. rewrite u8_small by lia. rewrite succ_wrap by lia.
  apply wp_bind, wp_assign, wp_bind, wp_var. simpl.
  pose proof (Z.mod_pos_bound (l + k + 1) 32 ltac:(lia)).
  apply wp_bind, wp_ld32. { eapply mapped_range_sub; [exact Hm|fold ps; lia..]. }
  change (rd32 _ _) with (slot (get_mem s) ps ((l + k + 1) mod 32)).
  destruct (slot (get_mem s) ps ((l + k + 1) mod 32) =? 0) eqn:E; apply wp_ret.
  - exists (d - (k + 1)). split; [lia|]. exists (k + 1). rewrite Z.add_assoc.
    destruct (decide (k + 1 = d)) as [<-|]; [rewrite Z.add_assoc in Hocc; lia|].
    split_and!; [lia|lia|lia|done].
  - destruct (decide (k + 1 = d)) as [<-|].
    + rewrite Z.add_assoc in HQ. exact HQ.
    + specialize (Hz (k + 1) ltac:(lia)). rewrite Z.add_assoc in Hz. lia.
Qed.

(** One round of [next_thread] moves the position of the process on, cyclically. *)
Lemma wp_next_position {B} s p k (K : unit -> M (layer (phymem S) sched_vars) B) Q :
  0 <= p + P_lastthread < 4294967296 -> mapped (get_mem s) (p + P_lastthread) = true ->
  rd (get_mem s) (p + P_lastthread) = k mod 16 ->
  (forall m, all_but p (get_mem s) m -> rd m (p + P_lastthread) = (k + 1) mod 16 -> wp (K tt) Q (set_mem m s)) ->
  wp (let! l := ld8 (p + P_lastthread) in
      st8 (p + P_lastthread) (u8 (l + 1)) ;!
      let! l := ld8 (p + P_lastthread) in
      bind (if! MAX_THREADS <=? l then st8 (p + P_lastthread) 0) K) Q s.
Proof.
  intros Hb Hm Hrd HQ. pose proof (Z.mod_pos_bound k 16 ltac:(lia)). change MAX_THREADS with 16.
  apply wp_bind, wp_ld8; [done..|]. rewrite Hrd, (u8_small (_ + 1)) by lia.
  apply wp_bind, wp_st8; [done..|]. set (m1 := mset _ _ _).
  assert (Hag : all_but p (get_mem s) m1) by apply all_but_mset, agree_refl.
  assert (Hr1 : rd m1 (p + P_lastthread) = k mod 16 + 1).
  { unfold m1. rewrite rd_mset, decide_True by done. apply u8_small. lia. }
  apply wp_bind, wp_ld8; [done|by lens|]. lens. rewrite Hr1. apply wp_bind.
  pose proof (succ_wrap 16 k ltac:(lia)) as Hw. destruct (16 <=? k mod 16 + 1).
  - apply wp_st8; [done|by lens|]. lens. apply HQ; [by apply all_but_mset|]. by rewrite rd_mset, decide_True.
  - apply wp_ret, HQ; [done|]. congruence.
Qed.

(** The table of threads and the position in the structure of a process. *)
Lemma thread_fields s p m : process_mapped (get_mem s) p -> all_but p (get_mem s) m ->
  (0 <= p + P_lastthread < 4294967296 /\ mapped m (p + P_lastthread) = true) /\
  mapped_range m (p + P_threads) (4 * MAX_THREADS) /\
  forall i, 0 <= i < MAX_THREADS -> rd32 m (p + P_threads + 4 * i) = slot (get_mem s) (p + P_threads) i.
Proof.
  intros [Hp Hm] Hag. unfold sizeof_process, P_threads, P_filehandles, P_lastthread, P_allocation_table,
    MAX_ALLOCATIONS_PER_PROCESS, MAX_THREADS in *.
  pose proof (proj2 (agree_mapped_range _ _ _ _ _ Hag) Hm) as Hm'. split; [split|split].
  - destruct Hm as (? & ? & _). lia.
  - destruct Hm' as (? & ? & Hm'). apply Hm'. lia.
  - eapply mapped_range_sub; [exact Hm'|lia..].
  - intros i Hi. apply (rd32_agree _ _ _ _ Hag); unfold P_lastthread; lia.
Qed.

Lemma wp_next_thread s p (Q : Z -> layer (phymem S) sched_vars -> Prop) d :
  runnable (get_mem s) p ->
  let l := rd (get_mem s) (p + P_lastthread) in
  next_at (slot (get_mem s) (p + P_threads)) MAX_THREADS l d ->
  (forall m, all_but p (get_mem s) m -> rd m (p + P_lastthread) = (l + d) mod MAX_THREADS ->
     Q (slot (get_mem s) (p + P_threads) ((l + d) mod MAX_THREADS)) (set_mem m s)) ->
  wp (next_thread p) Q s.
Proof.
  intros [Hpm Hl _] l (Hd & Hocc & Hz) HQ. unfold next_thread.
  pose proof (rd_range (get_mem s) (p + P_lastthread)) as Hl0. fold l in Hl0, Hl. change MAX_THREADS with 16 in *.
  apply (wp_loop_idx (fun n _ s' => exists k m, 0 <= k < d /\ n = d - k /\ s' = set_mem m s /\
           all_but p (get_mem s) m /\ rd m (p + P_lastthread) = (l + k) mod 16) d); [|lia|].
  { exists 0, (get_mem s). split_and!; [lia|lia|lia|by lens|apply agree_refl|].
    rewrite Z.add_0_r, Z.mod_small by lia. done. }
  intros n [] s' (k & m & Hk & -> & -> & Hag & Hrd). split; [lia|].
  destruct (thread_fields s p m Hpm Hag) as ((Hb & Hbm) & _).
  apply (wp_next_position _ _ (l + k)); [done|by lens|by lens|]. lens. intros m1 Ha1 Hr1.
  assert (Hag1 : all_but p (get_mem s) m1) by (by eapply agree_trans).
  destruct (thread_fields s p m1 Hpm Hag1) as ((_ & Hbm1) & Htm & Hthr).
  pose proof (Z.mod_pos_bound (l + k + 1) 16 ltac:(lia)).
  apply wp_bind, wp_ld8; [done|by lens|]. lens. rewrite Hr1.
  apply wp_bind, wp_ld32. { lens. eapply mapped_range_sub; [exact Htm|unfold MAX_THREADS; lia..]. }
  lens. rewrite Hthr by (unfold MAX_THREADS; lia).
  destruct (slot (get_mem s) (p + P_threads) ((l + k + 1) mod 16) =? 0) eqn:E; apply wp_ret.
  - exists (d - (k + 1)). split; [lia|]. exists (k + 1), m1. rewrite Z.add_assoc.
    destruct (decide (k + 1 = d)) as [<-|]; [rewrite Z.add_assoc in Hocc; lia|].
    split_and!; [lia|lia|lia|done..].
  - destruct (decide (k + 1 = d)) as [<-|].
    + rewrite Z.add_assoc in HQ. by apply HQ.
    + specialize (Hz (k + 1) ltac:(lia)). rewrite Z.add_assoc in Hz. lia.
Qed.

(** A context switch, for the next process and its next thread. *)
Lemma wp_switch s (Q : unit -> layer (phymem S) sched_vars -> Prop) d e :
  let v := vars s in let ps := processes v in let l := last_process v in let m := get_mem s in
  0 <= l < MAX_PROCESSES -> mapped_range m ps (4 * MAX_PROCESSES) ->
  next_at (slot m ps) MAX_PROCESSES l d ->
  let i := (l + d) mod MAX_PROCESSES in let p := slot m ps i in
  runnable m p ->
  next_at (slot m (p + P_threads)) MAX_THREADS (rd m (p + P_lastthread)) e ->
  let j := (rd m (p + P_lastthread) + e) mod MAX_THREADS in
  let t := slot m (p + P_threads) j in
  (forall s', all_but p m (get_mem s') -> rd (get_mem s') (p + P_lastthread) = j ->
     cur_process s' = p -> vars s' = set_threads (__new__thread v) t t (set_last_process i v) -> Q tt s') ->
  wp scheduler_switch Q s.
Proof.
  intros v ps l m Hl Hm Hd i p Hrun He j t HQ. unfold scheduler_switch.
  apply wp_bind, wp_modify, wp_bind, (wp_next_process _ _ d).
  { done. }
  { lens. exact Hm. }
  { lens. exact Hd. }
  cbv zeta. change (vars (set_current 0 s)) with v. fold ps l i.
  rewrite mem_set_current. fold m p.
  apply wp_bind, wp_modify, wp_bind, (wp_next_thread _ _ _ e).
  { lens. exact Hrun. }
  { lens. exact He. }
  lens. fold m. intros m' Hag Hr. apply wp_assign. fold j t.
  apply HQ; [by rewrite get_mem_set_vars, get_set_mem|by rewrite get_mem_set_vars, get_set_mem| |done].
  unfold set_vars. simpl. rewrite cur_set_mem. apply cur_set.
Qed.

(** The processes of the table can all be switched to, and there is one. *)
Record sched_wf (s : layer (phymem S) sched_vars) : Prop := {
  sw_last : 0 <= last_process (vars s) < MAX_PROCESSES;
  sw_mapped : mapped_range (get_mem s) (processes (vars s)) (4 * MAX_PROCESSES);
  sw_some : exists i, 0 <= i < MAX_PROCESSES /\ slot (get_mem s) (processes (vars s)) i <> 0;
  sw_run : forall i, 0 <= i < MAX_PROCESSES -> let p := slot (get_mem s) (processes (vars s)) i in
    p <> 0 -> runnable (get_mem s) p /\
      (p + sizeof_process <= processes (vars s) \/ processes (vars s) + 4 * MAX_PROCESSES <= p);
  sw_apart : forall i j, 0 <= i < MAX_PROCESSES -> 0 <= j < MAX_PROCESSES ->
    let p := slot (get_mem s) (processes (vars s)) i in
    let q := slot (get_mem s) (processes (vars s)) j in
    p <> 0 -> q <> 0 -> p = q \/ p + sizeof_process <= q \/ q + sizeof_process <= p;
}.

Ltac offsets := unfold sizeof_process, P_threads, P_lastthread, P_filehandles, P_allocation_table,
  MAX_ALLOCATIONS_PER_PROCESS, MAX_THREADS, MAX_PROCESSES in *.

Lemma switch_keeps s s' p :
  let ps := processes (vars s) in
  sched_wf s -> (exists i, 0 <= i < MAX_PROCESSES /\ p = slot (get_mem s) ps i) -> p <> 0 ->
  all_but p (get_mem s) (get_mem s') -> rd (get_mem s') (p + P_lastthread) < MAX_THREADS ->
  processes (vars s') = ps -> 0 <= last_process (vars s') < MAX_PROCESSES ->
  sched_wf s' /\ forall i, 0 <= i < MAX_PROCESSES -> slot (get_mem s') ps i = slot (get_mem s) ps i.
Proof.
  intros ps [Hl Hm Hs Hr Ha] (i0 & Hi0 & Hpi) Hp Hag Hlt Hps Hl'. fold ps in Hm, Hs, Hr, Ha.
  assert (Htab : forall i, 0 <= i < MAX_PROCESSES -> slot (get_mem s') ps i = slot (get_mem s) ps i).
  { intros i Hi. destruct (Hr i0 Hi0) as [_ Hd]; [congruence|]. rewrite <-Hpi in Hd. clear Ha Hr.
    apply (rd32_agree _ _ _ _ Hag); offsets; lia. }
  split; [|exact Htab]. split; rewrite ?Hps; try done.
  - by eapply agree_mapped_range.
  - destruct Hs as (i & Hi & Hx). exists i. by rewrite Htab.
  - intros i Hi q Hq. unfold q in *. clear q. rewrite Htab in * by done. set (q := slot (get_mem s) ps i) in *.
    destruct (Hr i Hi Hq) as [[[Hq0 Hqm] Hql (j & Hj & Hjt)] Hsep]. fold q in Hq0, Hqm, Hql, Hjt, Hsep.
    split; [|done]. assert (Hpq := Ha i i0 Hi Hi0 Hq ltac:(congruence)). fold q in Hpq. rewrite <-Hpi in Hpq.
    split.
    + split; [done|]. by eapply agree_mapped_range.
    + destruct (decide (q = p)) as [->|]; [done|]. rewrite (proj2 Hag); [done|offsets; lia].
    + exists j. split; [done|]. unfold slot. rewrite (rd32_agree _ _ _ _ Hag); [exact Hjt|offsets; lia..].
  - intros i j Hi Hj p' q'. unfold p', q'. rewrite !Htab by done. by apply Ha.
Qed.

Lemma wp_switch_wf s (Q : unit -> layer (phymem S) sched_vars -> Prop) :
  sched_wf s ->
  (forall s' d e, let v := vars s in let ps := processes v in let m := get_mem s in
     next_at (slot m ps) MAX_PROCESSES (last_process v) d ->
     let i := (last_process v + d) mod MAX_PROCESSES in let p := slot m ps i in
     let l := rd m (p + P_lastthread) in
     next_at (slot m (p + P_threads)) MAX_THREADS l e ->
     let j := (l + e) mod MAX_THREADS in let t := slot m (p + P_threads) j in
     sched_wf s' -> (forall i, 0 <= i < MAX_PROCESSES -> slot (get_mem s') ps i = slot m ps i) ->
     all_but p m (get_mem s') -> rd (get_mem s') (p + P_lastthread) = j ->
     cur_process s' = p -> vars s' = set_threads (__new__thread v) t t (set_last_process i v) ->
     Q tt s') ->
  wp scheduler_switch Q s.
Proof.
  intros Hwf HQ. pose proof Hwf as [Hl Hm (i0 & Hi0 & Hx) Hr Ha].
  destruct (next_at_exists _ MAX_PROCESSES (last_process (vars s)) i0 ltac:(unfold MAX_PROCESSES; lia) Hi0 Hx)
    as [d Hd].
  pose proof (Z.mod_pos_bound (last_process (vars s) + d) MAX_PROCESSES ltac:(unfold MAX_PROCESSES; lia)) as Hi.
  destruct (Hr _ Hi) as [Hrun _]; [apply Hd|]. pose proof Hrun as [_ _ (j0 & Hj0 & Hy)].
  destruct (next_at_exists _ MAX_THREADS (rd (get_mem s)
    (slot (get_mem s) (processes (vars s)) ((last_process (vars s) + d) mod MAX_PROCESSES) + P_lastthread))
    j0 ltac:(unfold MAX_THREADS; lia) Hj0 Hy) as [e He].
  apply (wp_switch s Q d e); try done. intros s' Hag Hrd Hcur Hv.
  set (p := slot (get_mem s) (processes (vars s)) ((last_process (vars s) + d) mod MAX_PROCESSES)) in *.
  destruct (switch_keeps s s' p) as [Hwf' Htab]; try done.
  - eexists. split; [exact Hi|reflexivity].
  - apply Hd.
  - rewrite Hrd. apply Z.mod_pos_bound. unfold MAX_THREADS. lia.
  - by rewrite Hv.
  - rewrite Hv. exact Hi.
  - by apply (HQ s' d e).
Qed.

(** C11: a context switch runs the next process of the table after the last
    one, cyclically, on its next thread after its last one, passing over the
    free slots only; the table and the set of runnable processes are kept.
    With one process in the table the switch always terminates. *)
Theorem scheduler_switch_spec s :
  sched_wf s ->
  let v := vars s in let ps := processes v in let m := get_mem s in
  wp scheduler_switch (fun _ s' => exists d e,
    next_at (slot m ps) MAX_PROCESSES (last_process v) d /\
    let i := (last_process v + d) mod MAX_PROCESSES in let p := slot m ps i in
    next_at (slot m (p + P_threads)) MAX_THREADS (rd m (p + P_lastthread)) e /\
    let j := (rd m (p + P_lastthread) + e) mod MAX_THREADS in
    cur_process s' = p /\ last_process (vars s') = i /\
    __new__thread (vars s') = slot m (p + P_threads) j /\ __old__thread (vars s') = __new__thread v /\
    rd (get_mem s') (p + P_lastthread) = j /\ sched_wf s' /\
    forall k, 0 <= k < MAX_PROCESSES -> slot (get_mem s') ps k = slot m ps k) s.
Proof.
  intros Hwf v ps m. apply (wp_switch_wf s); [done|].
  intros s' d e v' ps' m' Hd i p l He j t Hwf' Htab Hag Hr Hcur Hv.
  exists d, e. rewrite Hv. by split_and!.
Qed.

(** [n] context switches, and nothing in between. *)
Definition switches (n : nat) : M (layer (phymem S) sched_vars) unit :=
  for_up n 0 (fun _ => scheduler_switch).

Lemma for_up_shift n i (f : Z -> M (layer (phymem S) sched_vars) unit) s :
  (forall a b, f a = f b) -> for_up n i f s = for_up n 0 f s.
Proof.
  intros Hf. revert i s. induction n as [|n IH]; intros i s; [done|]. simpl. rewrite (Hf i 0).
  apply bind_ext; [done|]. intros [] t. rewrite (IH (i + 1)), (IH 1). done.
Qed.

(** C4: no process starves: as long as the table stays as it is, every
    process in it is running after at most 32 context switches, whatever the
    position the scheduler starts from. *)
Theorem scheduler_no_starvation s i :
  sched_wf s -> 0 <= i < MAX_PROCESSES -> slot (get_mem s) (processes (vars s)) i <> 0 ->
  exists n, (1 <= n <= 32)%nat /\
    wp (switches n) (fun _ s' =>
      cur_process s' = slot (get_mem s) (processes (vars s)) i /\ last_process (vars s') = i) s.
Proof.
  intros Hwf Hi Hocc.
  assert (Hex : exists d, 1 <= d <= MAX_PROCESSES /\ i = (last_process (vars s) + d) mod MAX_PROCESSES).
  { pose proof (sw_last _ Hwf). unfold MAX_PROCESSES in *.
    exists ((i - last_process (vars s) - 1) mod 32 + 1). split; [Z.div_mod_to_equations; lia|].
    Z.div_mod_to_equations; lia. }
  destruct Hex as (d & Hd & Hdi).
  enough (Hgen : exists n, (1 <= n <= Z.to_nat d)%nat /\ wp (switches n) (fun _ s' =>
    cur_process s' = slot (get_mem s) (processes (vars s)) i /\ last_process (vars s') = i) s).
  { destruct Hgen as (n & Hn & Hw). exists n. unfold MAX_PROCESSES in Hd. split; [lia|done]. }
  revert s Hwf Hocc Hd Hdi. induction (Z.lt_wf 0 d) as [d _ IH]. intros s Hwf Hocc Hd Hdi.
  assert (Hw : wp scheduler_switch (fun _ s' => (cur_process s' = slot (get_mem s) (processes (vars s)) i /\
      last_process (vars s') = i) \/
    (sched_wf s' /\ processes (vars s') = processes (vars s) /\
     (forall k, 0 <= k < MAX_PROCESSES -> slot (get_mem s') (processes (vars s)) k = slot (get_mem s) (processes (vars s)) k) /\
     exists d', 1 <= d' < d /\ i = (last_process (vars s') + d') mod MAX_PROCESSES)) s).
  { apply wp_switch_wf; [done|]. intros s' e f v ps m He i' p l _ j t Hwf' Htab _ _ Hcur Hv.
    assert (Hle : e <= d) by (eapply next_at_le; [exact He|done|];
      change (slot (get_mem s) (processes (vars s)) ((last_process (vars s) + d) mod MAX_PROCESSES) <> 0); by rewrite <-Hdi).
    destruct (decide (e = d)) as [->|].
    - left. rewrite Hcur, Hv. assert (i' = i) as Hii by done. split; [|exact Hii]. unfold p. by rewrite Hii.
    - right. rewrite Hv. split_and!; [done|done|done|]. exists (d - e). destruct He as [? _]. split; [lia|].
      simpl. unfold i', v. rewrite Z.add_mod_idemp_l by (unfold MAX_PROCESSES; lia).
      rewrite Hdi. f_equal. lia. }
  apply wp_inv in Hw as ([] & s' & Hrun & [Hdone|(Hwf' & Hps & Htab & d' & Hd' & Hi')]).
  - exists 1%nat. split; [lia|]. unfold switches. simpl. apply wp_bind. eapply wp_eq; [exact Hrun|]. by apply wp_ret.
  - destruct (IH d' ltac:(lia) s') as (n & Hn & Hw); [done|by rewrite Hps, Htab|unfold MAX_PROCESSES in *; lia|done|].
    exists (Datatypes.S n). split; [lia|]. unfold switches. simpl. apply wp_bind. eapply wp_eq; [exact Hrun|].
    unfold wp. rewrite for_up_shift by done. rewrite Hps, Htab in Hw by done. exact Hw.
Qed.

(** Interrupts come on again, and nothing else changes. *)
Lemma wp_irq_ret s e (r : Z) (Q : Z -> layer (phymem S) sched_vars -> Prop) :
  Q r (set_vars (set_irq (if e =? 0 then 0 else 1) (vars s)) s) ->
  wp (let! _ := interrupt_ctl e in ret r) Q s.
Proof. intros HQ. exact HQ. Qed.

(** A process that can be put in the table. *)
Definition addable (m : mem) (ps p : Z) : Prop :=
  p = 0 \/ process_mapped m p /\ (p + sizeof_process <= ps \/ ps + 4 * MAX_PROCESSES <= p).

Lemma wp_add_process s p (Q : Z -> layer (phymem S) sched_vars -> Prop) :
  let ps := processes (vars s) in let m := get_mem s in
  mapped_range m ps (4 * MAX_PROCESSES) -> addable m ps p ->
  (forall s', vars s' = set_irq 1 (vars s) -> lower s' = lower s ->
     p = 0 \/ rd m (p + P_threadslen) = 0 \/ (forall i, 0 <= i < MAX_PROCESSES -> slot m ps i <> 0) -> Q 0 s') ->
  (forall s' i, p <> 0 -> rd m (p + P_threadslen) <> 0 -> 0 <= i < MAX_PROCESSES -> first_free m ps i ->
     vars s' = set_irq 1 (vars s) -> lower s' = set_mem (mwrite m (ps + 4 * i) (le32 p)) (lower s) ->
     Q (rd m (p + P_pid)) s') ->
  wp (scheduler_add_process p) Q s.
Proof.
  intros ps m Hm Hp Hno Hyes. unfold scheduler_add_process. apply wp_bind, wp_bind, wp_assign, wp_ret.
  change (if 0 =? 0 then 0 else 1) with 0. set (s1 := set_vars _ s).
  destruct (decide (p = 0)) as [->|Hp0].
  { simpl. apply wp_bind, wp_ret. simpl. apply wp_irq_ret, Hno; [done|done|by left]. }
  destruct Hp as [?|[[Hpos Hpm] Hsep]]; [done|]. destruct (p =? 0) eqn:E; [lia|].
  assert (Hf : forall o, 0 <= o < sizeof_process -> 0 <= p + o < 4294967296 /\ mapped m (p + o) = true).
  { intros o Ho. destruct Hpm as (? & ? & Hpm). split; [lia|]. apply Hpm. lia. }
  destruct (Hf 0) as [? _]; [offsets; lia|].
  destruct (Hf P_threadslen) as [? ?]; [offsets; unfold P_threadslen; lia|].
  destruct (Hf P_pid) as [? ?]; [offsets; unfold P_pid; lia|].
  apply wp_bind, wp_ld8; [done|done|]. change (rd (get_mem s1)) with (rd m).
  destruct (rd m (p + P_threadslen) =? 0) eqn:Et.
  { apply wp_irq_ret, Hno; [done|done|]. right. left. lia. }
  apply wp_bind, wp_var, wp_bind, wp_find_slot; [exact Hm| |].
  - intros i Hi Hfree. apply wp_ret. change (processes (vars s1)) with ps in *. change (get_mem s1) with m in *.
    change (Z.of_nat 32) with MAX_PROCESSES in Hi.
    apply wp_bind, wp_st32; [eapply mapped_range_sub; [exact Hm|offsets; lia..]|].
    apply wp_bind, wp_bind, wp_assign, wp_ret. lens. change (get_mem s1) with m.
    apply wp_ld8; [done|lens; by rewrite mapped_mwrite|]. lens.
    rewrite rd_mwrite_out by (rewrite le32_length; offsets; unfold P_pid; lia).
    by apply (Hyes _ i); [|lia|..].
  - intros Hfull. apply wp_irq_ret, Hno; [done|done|]. right. right. exact Hfull.
Qed.

(** scheduler_add_process puts a process that has a thread in the first
    free slot of the table and returns its pid; without a thread, or with the
    table full, it returns 0 and changes no memory.  The interrupts are on
    afterwards. *)
Theorem scheduler_add_process_spec s p :
  let ps := processes (vars s) in let m := get_mem s in
  mapped_range m ps (4 * MAX_PROCESSES) ->
  addable m ps p ->
  wp (scheduler_add_process p) (fun r s' =>
    __irq_enabled (vars s') = 1 /\ processes (vars s') = ps /\
    ((r = 0 /\ get_mem s' = m /\
      (p = 0 \/ rd m (p + P_threadslen) = 0 \/ forall i, 0 <= i < MAX_PROCESSES -> slot m ps i <> 0)) \/
     (r = rd m (p + P_pid) /\ rd m (p + P_threadslen) <> 0 /\
      exists i, 0 <= i < MAX_PROCESSES /\ first_free m ps i /\
        forall j, slot (get_mem s') ps j = if decide (j = i) then p else slot m ps j))) s.
Proof.
  intros ps m Hm Hp. apply wp_add_process; [done..| |].
  - intros s' Hv Hl Hwhy. rewrite Hv. split_and!; [done|done|]. left. split_and!; [done| |done].
    by rewrite <-get_mem_lower, Hl.
  - intros s' i Hp0 Ht Hi Hfree Hv Hl. rewrite Hv. split_and!; [done|done|]. right. split_and!; [done|done|].
    exists i. split_and!; [lia|lia|done|]. intros j. rewrite <-get_mem_lower, Hl, get_set_mem, slot_write; [done|].
    destruct Hp as [?|[[? (? & ? & ?)] _]]; [done|]. offsets. lia.
Qed.

(** The process in slot [j] has this pid. *)
Variable dbus : M (layer (phymem S) sched_vars) unit.
Context {G : Type} `{!Allocator S G}.

Definition pid_at (m : mem) (ps pid j : Z) : bool :=
  negb (slot m ps j =? 0) && (rd m (slot m ps j + P_pid) =? pid).

Definition pids_readable (m : mem) (ps : Z) : Prop :=
  forall i, 0 <= i < MAX_PROCESSES -> slot m ps i <> 0 ->
    process_mapped m (slot m ps i) /\
    (slot m ps i + sizeof_process <= ps \/ ps + 4 * MAX_PROCESSES <= slot m ps i).

Lemma pid_byte m p : process_mapped m p -> 0 <= p + P_pid < 4294967296 /\ mapped m (p + P_pid) = true.
Proof.
  intros (? & ? & ? & Hm). unfold P_pid. offsets. split; [lia|]. apply Hm. lia.
Qed.

Lemma wp_is_pid_running s pid (Q : Z -> layer (phymem S) sched_vars -> Prop) :
  let ps := processes (vars s) in let m := get_mem s in
  mapped_range m ps (4 * MAX_PROCESSES) -> pids_readable m ps ->
  (forall i, 0 <= i < MAX_PROCESSES -> pid_at m ps pid i = true -> Q 1 s) ->
  ((forall i, 0 <= i < MAX_PROCESSES -> pid_at m ps pid i = false) -> Q 0 s) ->
  wp (is_pid_running pid) Q s.
Proof.
  intros ps m Hm Hpids Hyes Hno. unfold is_pid_running. apply wp_bind, wp_var, wp_bind.
  apply (wp_for_find (fun i s' => s' = s /\ forall j, 0 <= j < i -> pid_at m ps pid j = false)).
  - split; [done|lia].
  - intros i s' Hi [-> Hj]. apply wp_bind, wp_ld32; [eapply mapped_range_sub; [exact Hm|fold ps; offsets; lia..]|].
    fold ps m. change (rd32 m (ps + 4 * i)) with (slot m ps i).
    assert (Hstep : pid_at m ps pid i = false -> s = s /\ forall j, 0 <= j < i + 1 -> pid_at m ps pid j = false).
    { intros Hx. split; [done|]. intros j ?. destruct (decide (j = i)) as [->|]; [done|]. apply Hj. lia. }
    assert (Hat : pid_at m ps pid i = negb (slot m ps i =? 0) && (rd m (slot m ps i + P_pid) =? pid)) by done.
    destruct (slot m ps i =? 0) eqn:E; [by apply wp_ret, Hstep|].
    destruct (Hpids i) as [Hpm _]; [offsets; lia|lia|]. destruct (pid_byte _ _ Hpm).
    apply wp_bind, wp_ld8; [done|done|]. fold m.
    destruct (rd m (slot m ps i + P_pid) =? pid) eqn:Ep; apply wp_ret; [|by apply Hstep].
    apply wp_ret. apply (Hyes i); [offsets; lia|done].
  - intros s' [-> Hj]. apply wp_ret, Hno. intros i Hi. apply Hj. offsets. lia.
Qed.

(** The table with the slots below [i] that hold [pid] cleared. *)
Definition cleared (m0 m : mem) (ps pid i : Z) : Prop :=
  agree (fun a => a < ps \/ ps + 4 * MAX_PROCESSES <= a) m0 m /\
  forall j, 0 <= j < MAX_PROCESSES ->
    slot m ps j = if (j <? i) && pid_at m0 ps pid j then 0 else slot m0 ps j.

Lemma cleared_step m0 m ps pid i v :
  cleared m0 m ps pid i -> 0 <= i < MAX_PROCESSES ->
  v = (if pid_at m0 ps pid i then 0 else slot m0 ps i) ->
  cleared m0 (mwrite m (ps + 4 * i) (le32 v)) ps pid (i + 1).
Proof.
  intros [[Hr Hd] Hs] Hi ->. split.
  - split; [by rewrite ranges_mwrite|]. intros a Ha. rewrite rd_mwrite_out; [by apply Hd|].
    rewrite le32_length. offsets. lia.
  - intros j Hj. rewrite slot_write.
    2:{ destruct (pid_at m0 ps pid i); [lia|apply rd32_range]. }
    destruct (decide (j = i)) as [->|Hne].
    + by rewrite (proj2 (Z.ltb_lt i (i + 1))) by lia.
    + rewrite Hs by done. by replace (j <? i + 1) with (j <? i) by bool_lia.
Qed.

Lemma cleared_skip m0 m ps pid i :
  cleared m0 m ps pid i -> 0 <= i -> pid_at m0 ps pid i = false -> cleared m0 m ps pid (i + 1).
Proof.
  intros [Ha Hs] Hi Hf. split; [done|]. intros j Hj. rewrite Hs by done.
  destruct (decide (j = i)) as [->|]; [by rewrite Hf, !andb_false_r|].
  by replace (j <? i + 1) with (j <? i) by bool_lia.
Qed.

Lemma wp_clear_pid (s : layer (phymem S) sched_vars) pid :
  let ps := processes (vars s) in let m := get_mem s in
  mapped_range m ps (4 * MAX_PROCESSES) -> pids_readable m ps ->
  wp (for_acc 32 0 0 (fun i killed =>
        let! q := ld32 (ps + 4 * i) in
        if q =? 0 then ret killed
        else
          let! qpid := ld8 (q + P_pid) in
          if qpid =? pid then st32 (ps + 4 * i) 0 ;! ret 1 else ret killed))
    (fun k s' => exists m', s' = set_mem m' s /\ cleared m m' ps pid MAX_PROCESSES /\
       (k <> 0 <-> exists j, 0 <= j < MAX_PROCESSES /\ pid_at m ps pid j = true)) s.
Proof.
  intros ps m Hm Hpids.
  apply (wp_for_acc (fun i k s' => exists m', s' = set_mem m' s /\ cleared m m' ps pid i /\
    (k <> 0 <-> exists j, 0 <= j < i /\ pid_at m ps pid j = true))).
  - exists m. split_and!.
    + unfold m. by rewrite set_get_mem.
    + split; [apply agree_refl|]. intros j Hj. by rewrite (proj2 (Z.ltb_ge _ _)) by lia.
    + split; [done|]. intros (j & ? & _). lia.
  - intros i k s' Hi (m' & -> & Hcl & Hk).
    apply wp_bind, wp_ld32.
    { lens. eapply agree_mapped_range; [apply Hcl|]. eapply mapped_range_sub; [exact Hm|offsets; lia..]. }
    lens. change (rd32 m' (ps + 4 * i)) with (slot m' ps i).
    assert (Hi' : slot m' ps i = slot m ps i).
    { rewrite (proj2 Hcl) by (offsets; lia). by rewrite (proj2 (Z.ltb_ge _ _)) by lia. }
    rewrite Hi'.
    assert (Hstep : pid_at m ps pid i = false -> k <> 0 <-> exists j, 0 <= j < i + 1 /\ pid_at m ps pid j = true).
    { intros Hx. rewrite Hk. split; intros (j & Hj & Hp); exists j; (split; [|done]); [lia|].
      destruct (decide (j = i)) as [->|]; [congruence|lia]. }
    assert (Hat : pid_at m ps pid i = negb (slot m ps i =? 0) && (rd m (slot m ps i + P_pid) =? pid)) by done.
    destruct (slot m ps i =? 0) eqn:E0.
    { apply wp_ret. exists m'. split_and!; [done|apply cleared_skip; [done|lia|done]|by apply Hstep]. }
    destruct (Hpids i) as [Hpm Hsep]; [offsets; lia|lia|]. destruct (pid_byte _ _ Hpm).
    apply wp_bind, wp_ld8; [done| |].
    { lens. destruct Hcl as [[Hr _] _]. unfold mapped. rewrite Hr. done. }
    lens. assert (Hpid : rd m' (slot m ps i + P_pid) = rd m (slot m ps i + P_pid)).
    { destruct Hcl as [[_ Hd] _]. apply Hd. unfold P_pid. offsets. lia. }
    rewrite Hpid. destruct (rd m (slot m ps i + P_pid) =? pid) eqn:Ep.
    + apply wp_bind, wp_st32.
      { lens. eapply agree_mapped_range; [apply Hcl|]. eapply mapped_range_sub; [exact Hm|offsets; lia..]. }
      lens. apply wp_ret. eexists. split; [done|]. split.
      * apply cleared_step; [done|offsets; lia|]. by rewrite Hat.
      * split; [|done]. intros _. exists i. split; [lia|done].
    + apply wp_ret. exists m'. split_and!; [done|apply cleared_skip; [done|lia|done]|by apply Hstep].
  - intros k s' Hk. exact Hk.
Qed.

Lemma wp_kill_other (s : layer (phymem S) sched_vars) pid (Q : Z -> layer (phymem S) sched_vars -> Prop) :
  let ps := processes (vars s) in let m := get_mem s in
  mapped_range m ps (4 * MAX_PROCESSES) -> pids_readable m ps ->
  process_mapped m (cur_process s) -> pid <> rd m (cur_process s + P_pid) ->
  (forall m' r s', cleared m m' ps pid MAX_PROCESSES ->
     (r = 0 <-> exists j, 0 <= j < MAX_PROCESSES /\ pid_at m ps pid j = true) ->
     vars s' = set_irq 1 (vars s) -> lower s' = set_mem m' (lower s) -> Q r s') ->
  wp (scheduler_kill_pid dbus pid) Q s.
Proof.
  intros ps m Hm Hpids Hcur Hne HQ. unfold scheduler_kill_pid. apply wp_bind, wp_bind, wp_assign, wp_ret.
  change (if 0 =? 0 then 0 else 1) with 0. set (s1 := set_vars _ s).
  apply wp_bind, wp_gets, wp_bind. change (cur_process s1) with (cur_process s).
  destruct (pid_byte _ _ Hcur). apply wp_ld8; [done|done|]. change (get_mem s1) with m.
  destruct (pid =? rd m (cur_process s + P_pid)) eqn:E; [lia|].
  apply wp_bind, wp_var, wp_bind. change (processes (vars s1)) with ps.
  eapply wp_mono; [apply (wp_clear_pid s1 pid); done|].
  intros k s' (m' & -> & Hcl & Hk). apply wp_irq_ret, (HQ m'); [done| |done|done].
  change (k <> 0 <-> exists j, 0 <= j < MAX_PROCESSES /\ pid_at m ps pid j = true) in Hk. rewrite <-Hk.
  destruct (k =? 0) eqn:Ek; lia.
Qed.

Lemma cleared_slot m m' ps pid j :
  cleared m m' ps pid MAX_PROCESSES -> 0 <= j < MAX_PROCESSES ->
  slot m' ps j = if pid_at m ps pid j then 0 else slot m ps j.
Proof. intros [_ Hs] Hj. rewrite Hs by done. by rewrite (proj2 (Z.ltb_lt _ _)) by (offsets; lia). Qed.

(** C20: scheduler_kill_pid, for a pid other than the running process's,
    removes the processes with that pid from the table and no other, returns
    0 exactly when there was one, and is_pid_running then answers 0. *)
Theorem scheduler_kill_pid_spec (s : layer (phymem S) sched_vars) pid :
  let ps := processes (vars s) in let m := get_mem s in
  mapped_range m ps (4 * MAX_PROCESSES) -> pids_readable m ps ->
  process_mapped m (cur_process s) -> pid <> rd m (cur_process s + P_pid) ->
  wp (scheduler_kill_pid dbus pid) (fun r s' =>
    __irq_enabled (vars s') = 1 /\
    (forall j, 0 <= j < MAX_PROCESSES ->
       slot (get_mem s') ps j = if pid_at m ps pid j then 0 else slot m ps j) /\
    (r = 0 <-> exists j, 0 <= j < MAX_PROCESSES /\ pid_at m ps pid j = true) /\
    wp (is_pid_running pid) (fun b _ => b = 0) s') s.
Proof.
  intros ps m Hm Hpids Hcur Hne. apply wp_kill_other; [done..|]. intros m' r s' Hcl Hr Hv Hl.
  rewrite <-get_mem_lower, Hl, get_set_mem, Hv. assert (Hall := fun j => cleared_slot m m' ps pid j Hcl).
  split_and!; [done|done|done|]. destruct Hcl as [Hag _].
  assert (Hpid' : forall j, 0 <= j < MAX_PROCESSES -> slot m' ps j <> 0 ->
    slot m' ps j = slot m ps j /\ pid_at m ps pid j = false /\
    rd m' (slot m ps j + P_pid) = rd m (slot m ps j + P_pid)).
  { intros j Hj Hx. rewrite Hall in Hx |- * by done.
    destruct (pid_at m ps pid j); [done|]. split_and!; [done|done|].
    destruct (Hpids j Hj Hx) as [_ Hsep]. apply Hag. unfold P_pid. offsets. lia. }
  assert (Hm' : get_mem s' = m') by by rewrite <-get_mem_lower, Hl, get_set_mem.
  apply wp_is_pid_running; rewrite ?Hm', ?Hv; change (processes (set_irq 1 (vars s))) with ps.
  - by eapply agree_mapped_range.
  - intros j Hj Hx. destruct (Hpid' j Hj Hx) as (-> & _ & _). rewrite Hall in Hx by done.
    destruct (pid_at m ps pid j) eqn:Epj; [done|]. destruct (Hpids j Hj Hx) as [[Hp0 Hpm] Hsep].
    split; [|done]. split; [done|]. by eapply agree_mapped_range.
  - intros j Hj Hx. exfalso. unfold pid_at in Hx. apply andb_true_iff in Hx as [Hx1 Hx2].
    destruct (Hpid' j Hj) as (E1 & E2 & E3); [lia|]. rewrite E1 in Hx1, Hx2. rewrite E3 in Hx2.
    unfold pid_at in E2. rewrite Hx1, Hx2 in E2. done.
  - done.
Qed.

(** *** New threads *)

Lemma wp_push_all l sp s (Q : Z -> layer (phymem S) sched_vars -> Prop) :
  let n := 4 * Z.of_nat (length l) in
  n <= sp < 4294967296 -> mapped_range (get_mem s) (sp - n) n ->
  Forall (fun w => 0 <= w < 4294967296) l ->
  (forall m, agree (fun a => ~ sp - n <= a < sp) (get_mem s) m ->
     (forall k w, l !! k = Some w -> rd32 m (sp - 4 * (Z.of_nat k + 1)) = w) -> Q (sp - n) (set_mem m s)) ->
  wp (push_all sp l) Q s.
Proof.
  revert sp s. induction l as [|w l IH]; intros sp s n Hsp Hm Hl HQ; unfold n in *; clear n; simpl.
  { apply wp_ret. rewrite <-(set_get_mem s). replace sp with (sp - 4 * Z.of_nat (length (@nil Z))) by (simpl; lia).
    apply HQ; [apply agree_refl|done]. }
  simpl length in *. rewrite Nat2Z.inj_succ in *. apply Forall_cons in Hl as [Hw Hl].
  rewrite u32_small by lia.
  apply wp_bind, wp_st32; [eapply mapped_range_sub; [exact Hm|lia..]|].
  apply IH; [lia| |done|].
  - lens. rewrite mapped_range_mwrite. eapply mapped_range_sub; [exact Hm|lia..].
  - lens. intros m Hag Hr. replace (sp - 4 - 4 * Z.of_nat (length l)) with (sp - 4 * Z.succ (Z.of_nat (length l))) by lia.
    lens. apply HQ.
    + eapply agree_trans; [|eapply agree_mono; [exact Hag|cbv beta; lia]].
      split; [by rewrite ranges_mwrite|]. intros a Ha. apply rd_mwrite_out. rewrite le32_length. lia.
    + intros [|k] w' Hk; simpl in Hk.
      * injection Hk as <-. replace (sp - 4 * (Z.of_nat 0 + 1)) with (sp - 4) by lia.
        rewrite (rd32_agree _ _ _ _ Hag) by (cbv beta; lia). rewrite rd32_mwrite_same. by apply u32_small.
      * replace (sp - 4 * (Z.of_nat (Datatypes.S k) + 1)) with (sp - 4 - 4 * (Z.of_nat k + 1)) by lia. by apply Hr.
Qed.

(** What a new thread looks like in memory. *)
Record thread_ready (m : mem) (p entry t stack n : Z) : Prop := {
  th_stack : let top := rd32 m (t + T_stacktop) in
    top mod 16 = 0 /\ stack <= top - 56 /\ top <= stack + THREAD_STACK_SIZE /\
    rd32 m (t + T_stack) = top - 56 /\
    forall k w, initial_frame entry top !! k = Some w -> rd32 m (top - 4 * (Z.of_nat k + 1)) = w;
  th_bot : rd32 m (t + T_stackbot) = stack;
  th_paged : rd32 m (t + T_paged) = p + P_paged;
  th_slot : forall k, 0 <= k < MAX_THREADS ->
    k = n -> slot m (p + P_threads) k = t;
  th_len : rd m (p + P_threadslen) = n + 1;
}.

Lemma align16 x : 0 <= x < 4294967296 -> Z.land x 4294967280 = x / 16 * 16.
Proof.
  intros Hx. change 4294967280 with (Z.shiftl (Z.ones 28) 4). change 16 with (2 ^ 4).
  apply Z.bits_inj'. intros n Hn. rewrite Z.land_spec. destruct (decide (n < 4)).
  - rewrite Z.shiftl_spec_low, Z.mul_pow2_bits_low by lia. apply andb_false_r.
  - rewrite Z.shiftl_spec, Z.mul_pow2_bits, Z.div_pow2_bits by lia.
    replace (n - 4 + 4) with n by lia. destruct (decide (n < 32)).
    + rewrite Z.ones_spec_low by lia. apply andb_true_r.
    + rewrite Z.ones_spec_high by lia. rewrite <-(Z.mod_small x (2 ^ 32)) by (change (2 ^ 32) with 4294967296; lia).
      rewrite Z.mod_pow2_bits_high by lia. done.
Qed.

(** Bytes of the process that a new thread changes. *)
Definition thread_field (p n a : Z) : Prop :=
  a = p + P_threadslen \/ p + P_threads + 4 * n <= a < p + P_threads + 4 * n + 4.

(** The stack of a new thread with its first frame, and the words of the thread
    that name it. *)
Record stacked (m m' : mem) (entry t stack top : Z) : Prop := {
  sk_agree : agree (fun a => ~ t + T_stack <= a < t + T_stack + 12 /\ ~ in_block stack THREAD_STACK_SIZE a) m m';
  sk_top : stack + 56 <= top <= stack + 4000 /\ top mod 16 = 0;
  sk_words : rd32 m' (t + T_stacktop) = top /\ rd32 m' (t + T_stackbot) = stack /\ rd32 m' (t + T_stack) = top - 56;
  sk_frame : forall k w, initial_frame entry top !! k = Some w -> rd32 m' (top - 4 * (Z.of_nat k + 1)) = w;
}.

Lemma wp_stack_frame s entry t stack (k : M (layer (phymem S) sched_vars) unit) (Q : unit -> layer (phymem S) sched_vars -> Prop) :
  let m := get_mem s in
  mapped_range m t sizeof_thread -> mapped_range m stack THREAD_STACK_SIZE -> 0 <= t -> 0 <= stack -> 0 <= entry < 4294967296 ->
  (stack + THREAD_STACK_SIZE <= t \/ t + sizeof_thread <= stack) ->
  (forall m' top, stacked m m' entry t stack top -> wp k Q (set_mem m' s)) ->
  wp (st32 (t + T_stackbot) stack ;!
      let! _ := memset stack 0 THREAD_STACK_SIZE in
      let stacktop := Z.land (u32 (stack + 4000)) 4294967280 in
      st32 (t + T_stacktop) stacktop ;!
      let! sp := push_all stacktop (initial_frame entry stacktop) in
      st32 (t + T_stack) sp ;! k) Q s.
Proof.
  intros m Htm Hsm Ht0 Hs0 He Hd HQ. pose proof Htm as (_ & Ht1 & _). pose proof Hsm as (_ & Hs1 & _).
  unfold in_block, T_stackbot, T_stacktop, T_stack, sizeof_thread, THREAD_STACK_SIZE in *.
  apply wp_bind, wp_st32; [eapply mapped_range_sub; [exact Htm|lia..]|].
  apply wp_bind, wp_memset; [lia|lens; by rewrite mapped_range_mwrite|]. lens. cbv zeta.
  rewrite u32_small by lia. rewrite align16 by lia. set (top := (stack + 4000) / 16 * 16).
  assert (Htop : stack + 3985 <= top <= stack + 4000 /\ top mod 16 = 0).
  { unfold top. split; [Z.div_mod_to_equations; lia|apply Z.mod_mul; lia]. }
  clearbody top. destruct Htop as [Htop Halign].
  apply wp_bind, wp_st32; [lens; rewrite !mapped_range_mwrite; eapply mapped_range_sub; [exact Htm|lia..]|]. lens.
  match goal with |- wp _ _ (set_mem ?M _) => set (m1 := M) end.
  assert (Hm1 : agree (fun a => ~ (t + 8 <= a < t + 16) /\ ~ (stack <= a < stack + 4096)) m m1).
  { split; [unfold m1; by rewrite !ranges_mwrite|]. intros a Ha. unfold m1.
    rewrite !rd_mwrite_out by (rewrite ?le32_length, ?length_replicate; lia). done. }
  assert (H1top : rd32 m1 (t + 8) = top) by (unfold m1; rewrite rd32_mwrite_same; apply u32_small; lia).
  assert (H1bot : rd32 m1 (t + 12) = stack).
  { unfold m1. rewrite rd32_mwrite_out by (rewrite le32_length; lia).
    rewrite rd32_mwrite_out by (rewrite length_replicate; lia). rewrite rd32_mwrite_same. apply u32_small. lia. }
  clearbody m1. apply wp_bind, wp_push_all; [simpl; lia| | |].
  { lens. eapply agree_mapped_range; [exact Hm1|]. eapply mapped_range_sub; [exact Hsm|simpl; lia..]. }
  { repeat constructor; lia. }
  simpl length. lens. intros m2 Hm2 Hframe. change (4 * Z.of_nat 14) with 56 in *.
  apply wp_bind, wp_st32.
  { lens. eapply agree_mapped_range; [exact Hm2|]. eapply agree_mapped_range; [exact Hm1|].
    eapply mapped_range_sub; [exact Htm|lia..]. }
  lens. apply (HQ _ top).
  assert (Hm3 : agree (fun a => ~ (t + 4 <= a < t + 8)) m2 (mwrite m2 (t + 4) (le32 (top - 56)))).
  { split; [by rewrite ranges_mwrite|]. intros a Ha. by rewrite rd_mwrite_out by (rewrite le32_length; lia). }
  unfold in_block, T_stackbot, T_stacktop, T_stack, THREAD_STACK_SIZE. split.
  - split; [by rewrite (proj1 Hm3), (proj1 Hm2), (proj1 Hm1)|]. intros a Ha. unfold T_stack, in_block, THREAD_STACK_SIZE in Ha.
    rewrite (proj2 Hm3), (proj2 Hm2) by lia. apply Hm1. lia.
  - lia.
  - unfold T_stackbot, T_stacktop, T_stack. split_and!.
    + rewrite (rd32_agree _ _ _ _ Hm3), (rd32_agree _ _ _ _ Hm2) by (cbv beta; lia). exact H1top.
    + rewrite (rd32_agree _ _ _ _ Hm3), (rd32_agree _ _ _ _ Hm2) by (cbv beta; lia). exact H1bot.
    + rewrite rd32_mwrite_same. apply u32_small. lia.
  - intros i w Hk. rewrite <-(Hframe i w Hk). apply lookup_lt_Some in Hk. simpl in Hk.
    apply (rd32_agree _ _ _ _ Hm3); cbv beta; lia.
Qed.

(** The last writes of [thread_setup], with [n] threads before. *)
Definition placed (m : mem) (p t n : Z) : mem :=
  mset (mwrite (mwrite m (t + T_paged) (le32 (p + P_paged))) (p + P_threads + 4 * n) (le32 t)) (p + P_threadslen) (u8 (n + 1)).

Lemma placed_agree m p t n : 0 <= n < MAX_THREADS ->
  agree (fun a => ~ (t + T_paged <= a < t + T_paged + 4) /\ ~ thread_field p n a) m (placed m p t n).
Proof.
  intros Hn. unfold placed, thread_field. split; [unfold mset; cbn [m_ranges]; by rewrite !ranges_mwrite|]. intros a Ha.
  rewrite rd_mset. destruct (decide _); [lia|]. by rewrite !rd_mwrite_out by (rewrite le32_length; lia).
Qed.

Lemma thread_ready_intro m m3 p entry t stack top n :
  0 <= p + P_paged < 4294967296 -> 0 <= t < 4294967296 -> 0 <= n < MAX_THREADS ->
  (t + sizeof_thread <= p \/ p + sizeof_process <= t) -> (stack + THREAD_STACK_SIZE <= p \/ p + sizeof_process <= stack) ->
  (stack + THREAD_STACK_SIZE <= t \/ t + sizeof_thread <= stack) ->
  stacked m m3 entry t stack top -> thread_ready (placed m3 p t n) p entry t stack n.
Proof.
  intros Hp Ht Hn Hd1 Hd2 Hd3 [_ [Htop Hal] (Wt & Wb & Ws) Hf]. pose proof (placed_agree m3 p t n Hn) as Hag.
  unfold thread_field, T_paged, T_stacktop, T_stackbot, T_stack, P_threadslen, P_paged, sizeof_thread, THREAD_STACK_SIZE in *. offsets.
  assert (Hto : forall o, 0 <= o <= 16 -> rd32 (placed m3 p t n) (t + o) = rd32 m3 (t + o)).
  { intros o Ho. apply (rd32_agree _ _ _ _ Hag); cbv beta; lia. }
  split; unfold T_stackbot, T_stacktop, T_stack, T_paged, P_threadslen, P_paged, THREAD_STACK_SIZE; offsets.
  - rewrite Hto, Wt by lia. cbv zeta. split_and!; [done|lia|lia|by rewrite Hto|].
    intros k w Hk. rewrite <-(Hf k w Hk). apply lookup_lt_Some in Hk. simpl in Hk. apply (rd32_agree _ _ _ _ Hag); cbv beta; lia.
  - by rewrite Hto.
  - unfold placed, T_paged, P_threadslen, P_paged. offsets. rewrite rd32_mset_out by lia.
    rewrite rd32_mwrite_out by (rewrite le32_length; lia). rewrite rd32_mwrite_same. apply u32_small. lia.
  - intros k Hk ->. unfold slot, placed, T_paged, P_threadslen. offsets. rewrite rd32_mset_out by lia. rewrite rd32_mwrite_same. apply u32_small. lia.
  - unfold placed, P_threadslen. rewrite rd_mset. destruct (decide _); [|done]. rewrite u8_u8. apply u8_small. lia.
Qed.

Lemma wp_thread_setup s p entry t stack (Q : unit -> layer (phymem S) sched_vars -> Prop) :
  let m := get_mem s in let n := rd m (p + P_threadslen) in
  process_mapped m p -> mapped_range m t sizeof_thread -> mapped_range m stack THREAD_STACK_SIZE ->
  0 <= t -> 0 <= stack -> n < MAX_THREADS -> 0 <= entry < 4294967296 ->
  (t + sizeof_thread <= p \/ p + sizeof_process <= t) ->
  (stack + THREAD_STACK_SIZE <= p \/ p + sizeof_process <= stack) ->
  (stack + THREAD_STACK_SIZE <= t \/ t + sizeof_thread <= stack) ->
  (forall m', thread_ready m' p entry t stack n -> rd32 m' (t + T_ip) = rd32 m (t + T_ip) ->
     agree (fun a => ~ in_block t sizeof_thread a /\ ~ in_block stack THREAD_STACK_SIZE a /\ ~ thread_field p n a) m m' ->
     Q tt (set_mem m' s)) ->
  wp (thread_setup p entry t stack) Q s.
Proof.
  intros m n [Hp0 Hpm] Htm Hsm Ht0 Hs0 Hn He Hd1 Hd2 Hd3 HQ.
  pose proof (rd_range m (p + P_threadslen)) as Hn0. fold n in Hn0. pose proof Hpm as (_ & Hp1 & Hpb). pose proof Htm as (_ & Ht1 & _).
  unfold thread_setup. apply wp_stack_frame; [done..|]. intros m3 top Hst. pose proof (sk_agree _ _ _ _ _ _ Hst) as H3. fold m in H3, Hst.
  assert (Hmap3 : forall a k, mapped_range m a k -> mapped_range m3 a k) by (intros a k Hk; by eapply agree_mapped_range).
  assert (Hlen : 0 <= p + P_threadslen < 4294967296 /\ mapped m3 (p + P_threadslen) = true /\ rd m3 (p + P_threadslen) = n).
  { unfold P_threadslen in *. split_and!; [offsets; lia..|apply (Hmap3 _ _ Hpm); offsets; lia|]. apply H3.
    unfold in_block, T_stack, sizeof_thread, THREAD_STACK_SIZE in *. offsets. lia. }
  destruct Hlen as (Hl0 & Hlm & Hl).
  apply wp_bind, wp_st32; [lens; eapply Hmap3, mapped_range_sub; [exact Htm|unfold T_paged, sizeof_thread; lia..]|]. lens.
  assert (Hlen2 : forall v, rd (mwrite m3 (t + T_paged) (le32 v)) (p + P_threadslen) = n).
  { intros v. rewrite rd_mwrite_out; [done|]. rewrite le32_length. unfold T_paged, P_threadslen, sizeof_thread in *. offsets. lia. }
  apply wp_bind, wp_ld8; [lia|lens; by rewrite mapped_mwrite|]. lens. rewrite Hlen2.
  apply wp_bind, wp_st32; [lens; rewrite mapped_range_mwrite; eapply Hmap3, mapped_range_sub; [exact Hpm|offsets; lia..]|]. lens.
  apply wp_bind, wp_ld8; [lia|lens; by rewrite !mapped_mwrite|]. lens.
  rewrite rd_mwrite_out by (rewrite le32_length; unfold P_threadslen; offsets; lia). rewrite Hlen2.
  apply wp_st8; [lia|lens; by rewrite !mapped_mwrite|]. lens. fold (placed m3 p t n).
  pose proof (placed_agree m3 p t n ltac:(lia)) as H4. apply HQ.
  - apply (thread_ready_intro m m3 p entry t stack top); unfold P_paged, sizeof_thread in *; offsets; try lia; done.
  - unfold T_ip. unfold T_paged, T_stack, thread_field, in_block, P_threadslen, sizeof_thread, THREAD_STACK_SIZE in *. offsets.
    rewrite (rd32_agree _ _ _ _ H4), (rd32_agree _ _ _ _ H3) by (cbv beta; lia). done.
  - eapply agree_trans; [eapply agree_mono; [exact H3|]|eapply agree_mono; [exact H4|]]; intros a Ha;
      unfold T_paged, T_stack, in_block, sizeof_thread in *; split_and!; tauto || lia.
Qed.

Lemma ranges_apart p n q k :
  0 < n -> 0 < k -> (forall a, p <= a < p + n -> ~ in_block q k a) -> q + k <= p \/ p + n <= q.
Proof.
  intros Hn Hk Hd. unfold in_block in Hd.
  destruct (Z_le_dec (q + k) p); [by left|]. destruct (Z_le_dec (p + n) q); [by right|].
  exfalso. apply (Hd (Z.max p q)); lia.
Qed.

Lemma wp_irq a e s (Q : unit -> layer (phymem S) sched_vars -> Prop) :
  (forall i, (a <> 0 -> i = if e =? 0 then 0 else 1) -> Q tt (set_vars (set_irq i (vars s)) s)) ->
  wp (if! negb (a =? 0) then (let! _ := interrupt_ctl e in ret tt)) Q s.
Proof.
  intros HQ. destruct (a =? 0) eqn:E.
  - apply wp_ret. assert (Hs : s = set_vars (set_irq (__irq_enabled (vars s)) (vars s)) s) by (by destruct s as [? []]).
    rewrite Hs. apply HQ. lia.
  - apply wp_bind, wp_bind, wp_assign, wp_ret, wp_ret. by apply HQ.
Qed.

(** *** The steps of [create_new_thread] *)

Section new_thread.
Variables (s : layer (phymem S) sched_vars) (g : G) (p entry a : Z).
Notation m := (get_mem s).
Notation n := (rd (get_mem s) (p + P_threadslen)).
Hypothesis Hok : heap_ok s g.
Hypothesis Hp : process_mapped m p.
Hypothesis He : 0 <= entry < 4294967296.
Hypothesis Hheap : forall b, p <= b < p + sizeof_process -> ~ heap_byte s g b.
Hypothesis Hlog : forall b, thread_field p n b -> ~ log_byte s b.

(** What the function promises of its result and final state. *)
Definition thread_made (r : Z) (s' : layer (phymem S) sched_vars) : Prop := exists g', heap_ok s' g' /\
  (a <> 0 -> __irq_enabled (vars s') = 1) /\ (forall q k, block g q k -> block g' q k) /\
  ((r = - EIO /\ (entry = 0 \/ MAX_THREADS <= n \/ out_of_memory) /\
    rd (get_mem s') (p + P_threadslen) = n) \/
   (r = 0 /\ exists t stack, thread_ready (get_mem s') p entry t stack n /\
      rd32 (get_mem s') (t + T_ip) = entry /\
      block g' t sizeof_thread /\ block g' stack THREAD_STACK_SIZE)).

Lemma wp_thread_error s' g' :
  heap_ok s' g' -> (entry = 0 \/ MAX_THREADS <= n \/ out_of_memory (S := S)) ->
  rd (get_mem s') (p + P_threadslen) = n -> (forall q k, block g q k -> block g' q k) ->
  wp (if! negb (a =? 0) then (let! _ := interrupt_ctl 1 in ret tt) ;! ret (- EIO)) thread_made s'.
Proof.
  intros Hok' Hwhy Hlen Hkeep. apply wp_bind, wp_irq. intros e2 He2. apply wp_ret. exists g'.
  split_and!; [exact Hok'|exact He2|exact Hkeep|]. left. by split_and!.
Qed.

Lemma len_byte : p <= p + P_threadslen < p + sizeof_process.
Proof. unfold P_threadslen. offsets. lia. Qed.

Lemma len_kept s' : refused s g s' -> rd (get_mem s') (p + P_threadslen) = n.
Proof.
  intros [_ _ Hag _ _]. rewrite (proj2 Hag); [done|]. split; [apply Hheap, len_byte|]. apply Hlog. by left.
Qed.

(** The structure [t] was allocated and cleared, and the entry point stored. *)
Section thread.
Variables (t : Z) (s1 : layer (phymem S) sched_vars) (g1 : G) (m1 : mem).
Hypothesis Hg1 : gave s g sizeof_thread t s1 g1.
Hypothesis Hm1 : agree (fun b => ~ in_block t sizeof_thread b) (get_mem s1) m1.
Hypothesis Hip : rd32 m1 (t + T_ip) = entry.
Notation s1' := (set_mem m1 s1).

Lemma thread_apart : t + sizeof_thread <= p \/ p + sizeof_process <= t.
Proof.
  apply ranges_apart; [offsets; lia|unfold sizeof_thread; lia|]. intros b Hb Hbt. by apply (Hheap b), (gv_in _ _ _ _ _ _ Hg1).
Qed.

Lemma thread_len : rd m1 (p + P_threadslen) = n.
Proof.
  pose proof len_byte as Hb. rewrite (proj2 Hm1) by (intros Hbt; by apply (Hheap _ Hb), (gv_in _ _ _ _ _ _ Hg1)).
  apply (gv_agree _ _ _ _ _ _ Hg1). split; [by apply Hheap|]. apply Hlog. by left.
Qed.

Lemma thread_mapped b k : mapped_range m b k -> mapped_range m1 b k.
Proof. intros Hk. eapply agree_mapped_range; [exact Hm1|]. eapply agree_mapped_range; [apply (gv_agree _ _ _ _ _ _ Hg1)|done]. Qed.

(** The heap after the stores into [t]. *)
Lemma thread_heap :
  heap_ok s1' g1 /\ (forall b, heap_byte s1' g1 b <-> heap_byte s1 g1 b) /\
  (forall b, log_byte s1' b <-> log_byte s b) /\ (forall k, room s1 k -> room s1' k).
Proof.
  destruct (gave_write _ _ _ _ _ _ m1 Hg1 Hm1) as (? & ? & Hl & ?). split_and!; [done..| |done].
  intros b. rewrite Hl. apply (gv_log _ _ _ _ _ _ Hg1).
Qed.

(** A byte of the process stays as the next [malloc] leaves the heap. *)
Lemma process_kept s2 b :
  agree (fun b => ~ heap_byte s1' g1 b /\ ~ log_byte s1' b) (get_mem s1') (get_mem s2) ->
  ~ heap_byte s1 g1 b -> ~ log_byte s b -> rd (get_mem s2) b = rd m1 b.
Proof.
  intros Hag Hb Hl. destruct thread_heap as (_ & Hhb & Hlb & _). rewrite (proj2 Hag); [by lens|]. by rewrite Hhb, Hlb.
Qed.

Lemma process_not_heap b : p <= b < p + sizeof_process -> ~ heap_byte s1 g1 b.
Proof. intros Hb Hx. by apply (Hheap b Hb), (gv_sub _ _ _ _ _ _ Hg1). Qed.

(** Without a stack, the structure is given back. *)
Lemma wp_no_stack s2 :
  refused s1' g1 s2 ->
  wp (free t ;! if! negb (a =? 0) then (let! _ := interrupt_ctl 1 in ret tt) ;! ret (- EIO)) thread_made s2.
Proof.
  intros [Hoom Hok2 Hag2 Hlog2 Hsub2]. destruct thread_heap as (_ & Hhb1 & Hlb1 & _). pose proof Hg1 as [_ _ _ _ Hin1 Hbl1 _ _ Hout1].
  apply wp_bind. eapply wp_mono; [apply (free_law s2 g1 t sizeof_thread)|].
  - exact Hok2.
  - apply Hbl1. by right.
  - intros b Hb Hbt. destruct (Hout1 b Hbt) as [_ Hx]. apply Hx, (gv_log _ _ _ _ _ _ Hg1), Hlb1. by apply Hlog2.
  - intros [] s3 (g3 & Hok3 & Hag3 & _ & _ & Hbl3 & _).
    apply (wp_thread_error s3 g3); [exact Hok3|by right; right| |].
    + pose proof len_byte as Hb0. rewrite (proj2 Hag3), (process_kept s2); [exact thread_len|done|by apply process_not_heap|apply Hlog; by left|].
      split; [intros Hx; by apply (process_not_heap _ Hb0), Hhb1, Hsub2|]. intros Hx. by apply (Hheap _ Hb0), Hin1.
    + intros q k Hq. destruct (proj1 (Hbl3 q k)) as [?|[-> ->]]; [apply Hbl1; by left|done|].
      exfalso. destruct (block_law _ _ _ _ Hok Hq) as (_ & _ & _ & _ & Hx).
      apply (Hx t); [unfold in_block, sizeof_thread; lia|]. apply Hin1. unfold in_block, sizeof_thread. lia.
Qed.

(** With a stack, the thread is made. *)
Lemma wp_with_stack stack s2 g2 :
  n < MAX_THREADS -> gave s1' g1 THREAD_STACK_SIZE stack s2 g2 ->
  wp (thread_setup p entry t stack ;! if! negb (a =? 0) then (let! _ := interrupt_ctl 1 in ret tt) ;! ret 0) thread_made s2.
Proof.
  intros Hn Hg2. pose proof Hg2 as [Hok2 Hag2 _ Hsub2 Hin2 Hbl2 [Hs0 _] Hsm Hout2]. destruct thread_heap as (_ & Hhb1 & Hlb1 & _).
  pose proof Hg1 as [_ _ _ Hsub1 _ Hbl1 [Ht0 _] Htm Hout1].
  assert (Hst : forall b, in_block stack THREAD_STACK_SIZE b -> heap_byte s1 g1 b) by (intros b Hb; by apply Hhb1, Hin2).
  assert (Htb : forall b, in_block t sizeof_thread b -> ~ heap_byte s1 g1 b /\ ~ log_byte s b).
  { intros b Hb. destruct (Hout1 b Hb) as [? Hl]. split; [done|]. intros Hx. by apply Hl, (gv_log _ _ _ _ _ _ Hg1). }
  assert (Hlen2 : rd (get_mem s2) (p + P_threadslen) = n).
  { rewrite (process_kept s2); [exact thread_len|done|apply process_not_heap, len_byte|apply Hlog; by left]. }
  assert (Hmap2 : forall b k, mapped_range m1 b k -> mapped_range (get_mem s2) b k).
  { intros b k Hk. eapply agree_mapped_range; [exact Hag2|]. by lens. }
  apply wp_bind, wp_thread_setup; rewrite ?Hlen2.
  - split; [apply Hp|apply Hmap2, thread_mapped, Hp].
  - apply Hmap2. eapply agree_mapped_range; [exact Hm1|exact Htm].
  - exact Hsm.
  - lia.
  - lia.
  - exact Hn.
  - done.
  - exact thread_apart.
  - apply ranges_apart; [offsets; lia|unfold THREAD_STACK_SIZE; lia|].
    intros b Hb Hbt. by apply (process_not_heap b Hb), Hst.
  - apply ranges_apart; [unfold sizeof_thread; lia|unfold THREAD_STACK_SIZE; lia|].
    intros b Hb Hbt. by apply (proj1 (Htb b Hb)), Hst.
  - intros m' Hth Hip' Hag'. apply wp_bind, wp_irq. intros e2 He2. apply wp_ret.
    destruct (frame_law s2 g2 m' Hok2) as (Hok' & _).
    { eapply agree_mono; [exact Hag'|]. intros b Hb. assert (Hb1 : heap_byte s1 g1 b) by (by apply Hhb1, Hsub2).
      split_and!; [intros Hx; exact (proj1 (Htb b Hx) Hb1)|intros Hx; by destruct (Hout2 b Hx)|]. intros Hx.
      apply (process_not_heap b); [|done]. unfold thread_field, P_threadslen in Hx. pose proof (rd_range m (p + P_threadslen)).
      unfold P_threadslen in *. offsets. lia. }
    exists g2. split_and!; [exact Hok'|exact He2|intros q k Hq; apply Hbl2; left; apply Hbl1; by left|].
    right. split; [done|]. exists t, stack. rewrite get_mem_set_vars, get_set_mem. split_and!; [exact Hth| | |].
    + rewrite Hip', <-Hip. unfold rd32. rewrite !(process_kept s2) by (done || apply Htb; unfold in_block, T_ip, sizeof_thread; lia). done.
    + apply Hbl2. left. apply Hbl1. by right.
    + apply Hbl2. by right.
Qed.
End thread.
End new_thread.

End spec.

(** ** The theorems at work

    Two processes, at 0x2000 with pid 0 and at 0x3000 with pid 5, in slots 0
    and 3 of the table at 0x1000; each has one thread, counted, in slot 0. *)

#[local] Existing Instance Arm.provider.

Definition demo_words : list (Z * Z) :=
  [(4096, 8192); (4108, 12288); (8192 + P_threads, 7); (12288 + P_threads, 9);
   (8192 + 4, 256); (12288 + 4, 256); (12288 + P_pid, 5)].
Definition demo_sched_mem : mem :=
  foldl (fun m '(a, v) => mwrite m a (le32 v)) (Mem ∅ [(4096, 65536); (67108864, 68157440)]) demo_words.
Definition demo_sched : layer (phymem (heap Arm.state)) sched_vars :=
  Layer (Phymem (set_h_proc 8192 (heap_init demo_sched_mem Arm.init)) 0 0 0 0 0)
    (SchedVars 4096 0 0 6 0 0 0 0 1 1 1 0 0).

Lemma demo_sched_mapped a n : 4096 <= a -> 0 <= n -> a + n <= 65536 -> mapped_range demo_sched_mem a n.
Proof.
  intros. assert (E : m_ranges demo_sched_mem = [(4096, 65536); (67108864, 68157440)]) by reflexivity.
  destruct demo_sched_mem as [bs rs]. simpl in E. subst rs. eapply mapped_range_intro; [left|lia..].
Qed.

Lemma demo_slots i : 0 <= i < MAX_PROCESSES ->
  slot demo_sched_mem 4096 i = if i =? 0 then 8192 else if i =? 3 then 12288 else 0.
Proof.
  intros Hi. assert (Hall : forallb (fun k => slot demo_sched_mem 4096 (Z.of_nat k) =?
    (if Z.of_nat k =? 0 then 8192 else if Z.of_nat k =? 3 then 12288 else 0)) (seq 0 32) = true) by (vm_compute; reflexivity).
  rewrite forallb_forall in Hall. specialize (Hall (Z.to_nat i)). rewrite Z2Nat.id in Hall by lia.
  apply Z.eqb_eq, Hall, in_seq. unfold MAX_PROCESSES in Hi. lia.
Qed.

Lemma demo_slot_cases i : 0 <= i < MAX_PROCESSES -> slot demo_sched_mem 4096 i <> 0 ->
  slot demo_sched_mem 4096 i = 8192 \/ slot demo_sched_mem 4096 i = 12288.
Proof. intros Hi. rewrite demo_slots by done. destruct (i =? 0); [by left|]. destruct (i =? 3); [by right|done]. Qed.

Lemma demo_wf : sched_wf demo_sched.
Proof.
  split; change (get_mem demo_sched) with demo_sched_mem; change (processes (vars demo_sched)) with 4096.
  - done.
  - by apply demo_sched_mapped.
  - exists 0. split; [done|]. vm_compute. discriminate.
  - intros i Hi. cbv zeta. intros Hp. destruct (demo_slot_cases i Hi Hp) as [->| ->].
    + split; [|right; vm_compute; discriminate]. split; [split; [done|by apply demo_sched_mapped]|vm_compute; reflexivity|].
      exists 0. split; [done|vm_compute; discriminate].
    + split; [|right; vm_compute; discriminate]. split; [split; [done|by apply demo_sched_mapped]|vm_compute; reflexivity|].
      exists 0. split; [done|vm_compute; discriminate].
  - intros i j Hi Hj. cbv zeta. intros Hp Hq. unfold sizeof_process, P_threads, P_filehandles, P_allocation_table,
      MAX_ALLOCATIONS_PER_PROCESS, MAX_THREADS.
    destruct (demo_slot_cases i Hi Hp) as [->| ->], (demo_slot_cases j Hj Hq) as [->| ->]; lia.
Qed.

Lemma scheduler_switch_spec_witness : wp scheduler_switch (fun _ s' => sched_wf s') demo_sched.
Proof.
  eapply wp_mono; [apply (scheduler_switch_spec demo_sched), demo_wf|].
  by intros [] s' (d & e & _ & _ & _ & _ & _ & _ & _ & ? & _).
Defined.

Lemma scheduler_no_starvation_witness :
  exists n, (1 <= n <= 32)%nat /\ wp (switches n) (fun _ s' => cur_process s' = 12288 /\ last_process (vars s') = 3) demo_sched.
Proof.
  assert (E : slot (get_mem demo_sched) (processes (vars demo_sched)) 3 = 12288) by (vm_compute; reflexivity).
  destruct (scheduler_no_starvation demo_sched 3) as (n & Hn & Hw); [apply demo_wf|done|by rewrite E|].
  exists n. split; [done|]. by rewrite E in Hw.
Defined.

Lemma scheduler_add_process_spec_witness :
  wp (scheduler_add_process 12288) (fun r s' => r = 5 \/ r = 0) demo_sched.
Proof.
  eapply wp_mono; [apply (scheduler_add_process_spec demo_sched 12288)|].
  - by apply demo_sched_mapped.
  - right. split; [split; [done|by apply demo_sched_mapped]|right; vm_compute; discriminate].
  - intros r s' (_ & _ & [(-> & _)|(-> & _)]); [by right|by left].
Defined.

Lemma scheduler_kill_pid_spec_witness :
  wp (scheduler_kill_pid (G := list mjr) (ret tt) 5) (fun r s' => r = 0 /\ slot (get_mem s') 4096 3 = 0) demo_sched.
Proof.
  eapply wp_mono; [apply (scheduler_kill_pid_spec (ret tt) (G := list mjr) demo_sched 5)|].
  - by apply demo_sched_mapped.
  - intros i Hi. change (slot (get_mem demo_sched) (processes (vars demo_sched)) i) with (slot demo_sched_mem 4096 i).
    intros Hx. destruct (demo_slot_cases i Hi Hx) as [->| ->];
      (split; [split; [done|by apply demo_sched_mapped]|right; vm_compute; discriminate]).
  - split; [done|by apply demo_sched_mapped].
  - vm_compute. discriminate.
  - intros r s' (_ & Hs & Hr & _). split; [apply Hr; exists 3; split; [done|vm_compute; reflexivity]|].
    change 4096 with (processes (vars demo_sched)). rewrite (Hs 3) by done. vm_compute. reflexivity.
Defined.

Lemma demo_room_arm (h : heap Arm.state) n :
  m_ranges (h_mem h) = [(4096, 65536); (67108864, 68157440)] ->
  67108864 <= Arm.last_alloc (h_arch h) -> 0 <= n ->
  Arm.last_alloc (h_arch h) + n * 16384 <= 68157440 ->
  pages_room (h_mem h) (h_arch h) n.
Proof.
  intros Hr Hlo Hn Hhi. split; [|lia]. destruct (h_mem h) as [bs rs]. simpl in Hr. subst rs.
  eapply mapped_range_intro; [right; left|unfold PAGE; lia..].
Qed.

Definition demo_after : phymem (heap Arm.state) :=
  run_state (malloc (Allocator := phymem_allocator (G := list mjr)) sizeof_thread) (lower demo_sched).

