(* ===== verification/SchedInv.v ===== *)
(** * The process table under any sequence of operations

    The operations of kernel/scheduler.c that read and change the table are
    the alphabet of a machine; its states are well formed when the table names
    processes that can run, the running one among them.  The theorem is the
    soundness of this invariant: no sequence of operations faults or fails to
    return, and all of them end in a well-formed state. *)

From stdpp Require Import base numbers list gmap.
From Stdlib Require Import ZArith Lia.
From S2P Require Import Prelude Memory Process Pages Arm Liballoc LiballocInv LiballocSpec Allocator Phymem Layer Tables Current Sched.

Local Open Scope Z_scope.

Inductive sched_op : Type :=
  | OpSwitch                 (* the timer *)
  | OpYield                  (* schedule_noirq *)
  | OpAdd (p : Z)
  | OpKill (pid : Z)
  | OpRunning (pid : Z)
  | OpCtl (enable : Z)
  | OpInterrupts (e : Z).

#[export] Instance sched_op_eq_dec : EqDecision sched_op.
Proof. solve_decision. Defined.

Section machine.
Context {S G : Type} `{Current S} `{!Allocator S G}.
Notation sched := (layer (phymem S) sched_vars).
Implicit Types (s : sched).
Variable dbus : M sched unit.

Definition run_op (o : sched_op) : M sched Z :=
  match o with
  | OpSwitch => scheduler_switch ;! ret 0
  | OpYield => schedule_noirq ;! ret 0
  | OpAdd p => scheduler_add_process p
  | OpKill pid => scheduler_kill_pid dbus pid
  | OpRunning pid => is_pid_running pid
  | OpCtl enable => scheduler_ctl enable
  | OpInterrupts e => interrupt_ctl e
  end.

Fixpoint run_ops (l : list sched_op) : M sched (list Z) :=
  match l with
  | [] => ret []
  | o :: l => let! r := run_op o in let! rs := run_ops l in ret (r :: rs)
  end.

(** The running process is in the table. *)
Record sched_ok s : Prop := {
  so_wf : sched_wf s;
  so_current : exists i, 0 <= i < MAX_PROCESSES /\ slot (get_mem s) (processes (vars s)) i = cur_process s /\ cur_process s <> 0;
}.

(** [p] can run, and shares no memory with the table and the other processes. *)
Record newcomer s (p : Z) : Prop := {
  nc_run : runnable (get_mem s) p;
  nc_table : p + sizeof_process <= processes (vars s) \/ processes (vars s) + 4 * MAX_PROCESSES <= p;
  nc_apart : forall j, 0 <= j < MAX_PROCESSES -> let q := slot (get_mem s) (processes (vars s)) j in
    q <> 0 -> p = q \/ p + sizeof_process <= q \/ q + sizeof_process <= p;
}.

(** A process does not kill itself here: that is [scheduler_kill_self]. *)
Definition legal (o : sched_op) s : Prop :=
  match o with
  | OpAdd p => p = 0 \/ newcomer s p
  | OpKill pid => pid <> rd (get_mem s) (cur_process s + P_pid)
  | _ => True
  end.

Fixpoint legal_all (l : list sched_op) s : Prop :=
  match l with
  | [] => True
  | o :: l => legal o s /\ forall r s', run_op o s = Ret r s' -> legal_all l s'
  end.

Ltac offs := unfold sizeof_process, P_threads, P_lastthread, P_filehandles, P_allocation_table,
  MAX_ALLOCATIONS_PER_PROCESS, MAX_THREADS, MAX_PROCESSES in *.

(** ** Each operation keeps the invariant *)

(** A process keeps running when only the table is written. *)
Lemma runnable_agree (m m' : mem) ps p :
  agree (fun a => a < ps \/ ps + 4 * MAX_PROCESSES <= a) m m' ->
  p + sizeof_process <= ps \/ ps + 4 * MAX_PROCESSES <= p -> runnable m p -> runnable m' p.
Proof.
  intros Hag Hsep [[Hp Hm] Hl (j & Hj & Ht)]. split.
  - split; [done|]. by eapply agree_mapped_range.
  - rewrite (proj2 Hag); [done|]. offs. lia.
  - exists j. split; [done|]. unfold slot. rewrite (rd32_agree _ _ _ _ Hag); [exact Ht|offs; lia..].
Qed.

(** The table after a write: each slot is free, as it was, or the newcomer. *)
Lemma table_changed s s' m' p :
  let ps := processes (vars s) in let m := get_mem s in
  sched_ok s -> p = 0 \/ newcomer s p ->
  agree (fun a => a < ps \/ ps + 4 * MAX_PROCESSES <= a) m m' ->
  (forall j, 0 <= j < MAX_PROCESSES -> slot m' ps j = 0 \/ slot m' ps j = slot m ps j \/ slot m' ps j = p) ->
  (exists i, 0 <= i < MAX_PROCESSES /\ slot m' ps i = cur_process s) ->
  get_mem s' = m' -> processes (vars s') = ps -> last_process (vars s') = last_process (vars s) ->
  cur_process s' = cur_process s -> sched_ok s'.
Proof.
  intros ps m [[Hl Hm Hs Hr Ha] Hc] Hp Hag Hslots (i & Hi & Hic) Hm' Hps Hl' Hcur. fold ps m in Hm, Hs, Hr, Ha, Hc.
  assert (Hcur0 : cur_process s <> 0) by (destruct Hc as (? & _ & _ & ?); done).
  (* what is in the table afterwards *)
  assert (Hq : forall j, 0 <= j < MAX_PROCESSES -> slot m' ps j <> 0 ->
    (exists k, 0 <= k < MAX_PROCESSES /\ slot m ps k = slot m' ps j /\ slot m ps k <> 0) \/
    (slot m' ps j = p /\ newcomer s p)).
  { intros j Hj Hne. destruct (Hslots j Hj) as [?|[He|He]]; [done|left; exists j; by rewrite <-He|right].
    split; [done|]. destruct Hp as [->|]; [by rewrite He in Hne|done]. }
  split; [split|]; rewrite ?Hm', ?Hps, ?Hl'; try done.
  - by eapply agree_mapped_range.
  - exists i. split; [done|]. by rewrite Hic.
  - intros j Hj q Hne. unfold q in *. destruct (Hq j Hj Hne) as [(k & Hk & <- & Hnk)|[-> [Hrun Htab Hap]]].
    + destruct (Hr k Hk Hnk) as [Hrun Hsep]. split; [|done]. by eapply runnable_agree.
    + split; [|done]. by eapply runnable_agree.
  - intros j k Hj Hk q q' Hne Hne'. unfold q, q' in *.
    destruct (Hq j Hj Hne) as [(j' & Hj' & <- & Hnj)|[-> [_ _ Hap]]],
      (Hq k Hk Hne') as [(k' & Hk' & <- & Hnk)|[-> [_ _ Hap']]]; [by apply Ha|..|by left].
    + destruct (Hap' j' Hj' Hnj) as [?|[?|?]]; auto.
    + exact (Hap k' Hk' Hnk).
  - exists i. by rewrite Hic, Hcur.
Qed.

Lemma wp_switch_ok s (Q : unit -> sched -> Prop) :
  sched_ok s -> (forall s', sched_ok s' -> Q tt s') -> wp scheduler_switch Q s.
Proof.
  intros [Hwf _] HQ. apply wp_switch_wf; [done|].
  intros s' d e v ps m Hd i p l _ j t Hwf' Htab _ _ Hcur Hv. apply HQ. split; [done|].
  exists i. split; [apply Z.mod_pos_bound; unfold MAX_PROCESSES; lia|]. rewrite Hv, Hcur.
  change (processes _) with ps. rewrite Htab by (apply Z.mod_pos_bound; unfold MAX_PROCESSES; lia).
  split; [done|]. apply Hd.
Qed.

Lemma wp_add_ok s p (Q : Z -> sched -> Prop) :
  sched_ok s -> p = 0 \/ newcomer s p -> (forall r s', sched_ok s' -> Q r s') -> wp (scheduler_add_process p) Q s.
Proof.
  intros Hok Hp HQ. pose proof Hok as [[Hl Hm Hs Hr Ha] (c & Hc & Hcs & Hc0)].
  set (ps := processes (vars s)) in *. set (m := get_mem s) in *.
  assert (Hp32 : 0 <= p < 4294967296).
  { destruct Hp as [->|[[[? (? & ? & ?)] _ _] _ _]]; [lia|]. offs. lia. }
  apply wp_add_process; [done| | |].
  - destruct Hp as [?|[[Hpm _ _] Htab _]]; [by left|by right].
  - intros s' Hv Hlow _. apply HQ. apply (table_changed s s' m p); try done; rewrite ?Hv; try done.
    + intros j Hj. right. by left.
    + by exists c.
    + by rewrite <-get_mem_lower, Hlow.
    + change (cur_process s') with (cur_process (lower s')). by rewrite Hlow.
  - intros s' i Hp0 _ Hi [Hfree _] Hv Hlow. fold ps m in Hlow, Hfree. apply HQ.
    apply (table_changed s s' (mwrite m (ps + 4 * i) (le32 p)) p); try done; rewrite ?Hv; try done.
    + split; [apply ranges_mwrite|]. intros a Ha'. apply rd_mwrite_out. rewrite le32_length. offs. lia.
    + intros j Hj. fold ps. rewrite slot_write by done. destruct (decide (j = i)); auto.
    + exists c. split; [done|]. fold ps. rewrite slot_write by done. destruct (decide (c = i)) as [->|]; [congruence|done].
    + by rewrite <-get_mem_lower, Hlow, get_set_mem.
    + change (cur_process s') with (cur_process (lower s')). rewrite Hlow. exact (cur_set_mem _ (lower s)).
Qed.

Lemma sched_ok_pids s : sched_ok s -> pids_readable (get_mem s) (processes (vars s)).
Proof. intros [[_ _ _ Hr _] _] i Hi Hne. destruct (Hr i Hi Hne) as [[? _ _] ?]. by split. Qed.

Lemma sched_ok_current s : sched_ok s -> process_mapped (get_mem s) (cur_process s).
Proof. intros [[_ _ _ Hr _] (c & Hc & Hcs & Hc0)]. rewrite <-Hcs in *. by destruct (Hr c Hc Hc0) as [[? _ _] _]. Qed.

Lemma wp_kill_ok s pid (Q : Z -> sched -> Prop) :
  sched_ok s -> pid <> rd (get_mem s) (cur_process s + P_pid) -> (forall r s', sched_ok s' -> Q r s') ->
  wp (scheduler_kill_pid dbus pid) Q s.
Proof.
  intros Hok Hpid HQ. apply wp_kill_other; [apply Hok|by apply sched_ok_pids|by apply sched_ok_current|done|].
  intros m' r s' Hcl _ Hv Hlow. apply HQ. destruct (so_current _ Hok) as (c & Hc & Hcs & Hc0).
  assert (Hslots := fun j => cleared_slot _ _ _ _ j Hcl).
  apply (table_changed s s' m' 0); try done; rewrite ?Hv; try done.
  - by left.
  - apply Hcl.
  - intros j Hj. rewrite Hslots by done. destruct (pid_at _ _ _ _); auto.
  - exists c. split; [done|]. rewrite Hslots by done. unfold pid_at. rewrite Hcs.
    by rewrite (proj2 (Z.eqb_neq _ pid)), andb_false_r by congruence.
  - by rewrite <-get_mem_lower, Hlow, get_set_mem.
  - change (cur_process s') with (cur_process (lower s')). rewrite Hlow. exact (cur_set_mem _ (lower s)).
Qed.

(** Variables that the table does not depend on. *)
Lemma sched_ok_vars s v :
  sched_ok s -> processes v = processes (vars s) -> last_process v = last_process (vars s) -> sched_ok (set_vars v s).
Proof.
  intros [[Hl Hm Hs Hr Ha] Hc] Hps Hlp. split; [split|]; change (vars (set_vars v s)) with v; rewrite ?Hps, ?Hlp; done.
Qed.

Lemma wp_op_ok o s : sched_ok s -> legal o s -> wp (run_op o) (fun _ s' => sched_ok s') s.
Proof.
  intros Hok Hleg. destruct o as [| |p|pid|pid|n|e]; simpl in *.
  - apply wp_bind, wp_switch_ok; [done|]. intros s' Hok'. by apply wp_ret.
  - apply wp_bind. unfold schedule_noirq. apply wp_bind, wp_var. destruct (_ && _).
    + apply wp_switch_ok; [done|]. intros s' Hok'. by apply wp_ret.
    + by apply wp_ret, wp_ret.
  - by apply wp_add_ok.
  - by apply wp_kill_ok.
  - apply wp_is_pid_running; [apply Hok|by apply sched_ok_pids|done..].
  - apply wp_bind, wp_assign, wp_ret. by apply sched_ok_vars.
  - apply wp_bind, wp_assign, wp_ret. by apply sched_ok_vars.
Qed.

Lemma wp_ops_ok l s : sched_ok s -> legal_all l s -> wp (run_ops l) (fun _ s' => sched_ok s') s.
Proof.
  revert s. induction l as [|o l IH]; intros s Hok Hleg; [by apply wp_ret|].
  destruct Hleg as [Ho Hl]. simpl. apply wp_bind. pose proof (wp_op_ok o s Hok Ho) as Hw.
  apply wp_inv in Hw as (r & s' & Hrun & Hok'). eapply wp_eq; [exact Hrun|].
  apply wp_bind. eapply wp_mono; [apply IH; [exact Hok'|by apply (Hl r)]|]. intros rs s'' Hok''. by apply wp_ret.
Qed.

(** C12: The process table is always well formed.  From a state in which the
    table names processes that can run, with separate structures, the running
    one among them, every sequence of timer ticks, yields, additions, kills of
    other processes and queries returns, without a fault, and ends in such a
    state. *)
Theorem sched_ops_sound l s : sched_ok s -> legal_all l s -> wp (run_ops l) (fun _ s' => sched_ok s') s.
Proof. exact (wp_ops_ok l s). Qed.
End machine.

(** ** The theorem at work

    The first process of the demo runs.  The second one is added once more, and
    then killed in both of its slots. *)

#[local] Existing Instance Arm.provider.

Definition demo_running : layer (phymem (heap Arm.state)) sched_vars := set_current 8192 demo_sched.
Definition demo_sched_ops : list sched_op := [OpAdd 12288; OpKill 5; OpRunning 5; OpSwitch; OpYield].

Lemma demo_ok : sched_ok demo_running.
Proof.
  split.
  - destruct demo_wf. by split.
  - exists 0. split; [done|]. split; [vm_compute; reflexivity|done].
Qed.

Lemma demo_newcomer : newcomer demo_running 12288.
Proof.
  destruct demo_wf as [_ _ _ Hr Ha].
  assert (E : slot (get_mem demo_sched) (processes (vars demo_sched)) 3 = 12288) by (vm_compute; reflexivity).
  specialize (Hr 3 ltac:(done)). assert (Ha3 := fun j => Ha 3 j ltac:(done)). cbv zeta in Hr, Ha3. rewrite E in Hr, Ha3.
  split; [by apply Hr|by apply Hr|]. intros j Hj q Hq. by apply Ha3.
Qed.

Lemma sched_ops_sound_witness :
  wp (run_ops (G := list mjr) (ret tt) demo_sched_ops) (fun _ s' => sched_ok s') demo_running.
Proof.
  apply (sched_ops_sound (G := list mjr) (ret tt) demo_sched_ops demo_running).
  - exact demo_ok.
  - simpl. split; [right; exact demo_newcomer|]. intros r s' Hrun. split; [|done].
    assert (s' = run_state (scheduler_add_process 12288) demo_running) as -> by (unfold run_state; by rewrite Hrun).
    vm_compute. discriminate.
Defined.
