(* ===== verification/Mutex.v ===== *)
(** * Mutexes: [kernel/mutex.c]

    The lock is a test of a byte, in a loop that yields, and then a store to
    it.  The threads of the kernel are modelled by the positions they may be
    interrupted at; [step] lets any thread run at any time, [coop] switches
    only where the code yields or is not between the test and the store. *)

From stdpp Require Import base numbers list gmap.
From Stdlib Require Import ZArith Lia.
From S2P Require Import Prelude Memory Layer.

Local Open Scope Z_scope.

(** The layer's variable is [__all_unlocked]. *)
Section ops.
Context {S : Type} `{HasMem S}.
Notation MM := (M (layer S Z)).
Variable schedule_noirq : MM unit.

(** [printk] is not modelled. *)
Definition unlock_all_mutexes : MM unit := assign (fun _ => 1).

(** [m->locked && !__all_unlocked] *)
Definition lock_test (m : Z) : MM bool :=
  let! l := ld8 m in
  let! u := var (fun u => u) in
  ret (negb (l =? 0) && (u =? 0)).
(** [m->locked = v] *)
Definition lock_set (m v : Z) : MM unit := st8 m v.

Definition mutex_lock (m : Z) : MM unit :=
  loop (fun _ =>
    let! busy := lock_test m in
    if (busy : bool) then schedule_noirq ;! ret (inl tt) else ret (inr tt)) tt ;!
  lock_set m 1.

Definition mutex_unlock (m : Z) : MM unit := lock_set m 0 ;! schedule_noirq.

(** A free lock is taken at once. *)
Lemma wp_lock_free s m (Q : unit -> layer S Z -> Prop) :
  0 <= m < 4294967296 -> mapped (get_mem s) m = true -> rd (get_mem s) m = 0 ->
  Q tt (set_mem (mset (get_mem s) m 1) s) -> wp (mutex_lock m) Q s.
Proof.
  intros Hl Hm Hz HQ. unfold mutex_lock. apply wp_bind. apply (wp_loop_exit _ _ tt); [|by apply wp_st8].
  apply wp_ret_eq. apply wp_bind. unfold lock_test. apply wp_bind, wp_ld8; [done|done|].
  apply wp_bind, wp_var, wp_ret. rewrite Hz. simpl. by apply wp_ret.
Qed.
End ops.

(** ** Interleavings *)

(** Where a thread is: outside, before the test, in the call to
    [schedule_noirq] of the loop, between the test and the store, inside the
    critical section, in the call to [schedule_noirq] of [mutex_unlock]. *)
Inductive pc : Type := Outside | Testing | Spinning | Storing | Inside | Leaving.

#[export] Instance pc_eq_dec : EqDecision pc.
Proof. solve_decision. Defined.

Definition kernel : Type := layer mem Z.

Record sys : Type := Sys { sys_state : kernel; sys_pcs : gmap nat pc }.

Definition at_pc (s : sys) (i : nat) (c : pc) : Prop := sys_pcs s !! i = Some c.

(** What a thread at position [c] does next, to the state and to itself. *)
Definition thread_step (m : Z) (c : pc) : M kernel pc :=
  match c with
  | Outside => ret Testing
  | Testing => let! busy := lock_test m in ret (if (busy : bool) then Spinning else Storing)
  | Spinning => ret Testing
  | Storing => lock_set m 1 ;! ret Inside
  | Inside => lock_set m 0 ;! ret Leaving
  | Leaving => ret Outside
  end.

(** Thread [i] makes a step on the mutex at [m]. *)
Inductive step (m : Z) (i : nat) : sys -> sys -> Prop :=
  | Step s pcs c c' s' :
      pcs !! i = Some c -> thread_step m c s = Ret c' s' ->
      step m i (Sys s pcs) (Sys s' (<[i := c']> pcs)).

(** With interrupts on, the timer may switch threads anywhere. *)
Inductive preemptive (m : Z) (s0 : sys) : sys -> Prop :=
  | Pre_init : preemptive m s0 s0
  | Pre_step s s' i : preemptive m s0 s -> step m i s s' -> preemptive m s0 s'.

(** Without, the running thread [cur] goes on until it reaches a position
    outside the test and the store. *)
Inductive coop (m : Z) (s0 : sys) : nat -> sys -> Prop :=
  | Coop_init cur : coop m s0 cur s0
  | Coop_step s s' cur : coop m s0 cur s -> step m cur s s' -> coop m s0 cur s'
  | Coop_switch s cur cur' :
      coop m s0 cur s -> ~ at_pc s cur Testing -> ~ at_pc s cur Storing -> coop m s0 cur' s.

(** Before the first lock: the mutex is free and all threads are outside. *)
Record quiet_start (m : Z) (s : sys) : Prop := {
  qs_mapped : 0 <= m < 4294967296 /\ mapped (get_mem (sys_state s)) m = true;
  qs_free : rd (get_mem (sys_state s)) m = 0;
  qs_locks : vars (sys_state s) = 0;
  qs_out : forall i c, at_pc s i c -> c = Outside;
}.

Definition exclusive (s : sys) : Prop :=
  forall i j, at_pc s i Inside -> at_pc s j Inside -> i = j.

(** ** Mutual exclusion *)

(** The invariant of cooperative runs.  Only the running thread is between
    the test and the store, and then the mutex is free. *)
Record coop_inv (m : Z) (cur : nat) (s : sys) : Prop := {
  ci_mapped : 0 <= m < 4294967296 /\ mapped (get_mem (sys_state s)) m = true;
  ci_locks : vars (sys_state s) = 0;
  ci_storing : forall i, at_pc s i Storing -> i = cur /\ rd (get_mem (sys_state s)) m = 0;
  ci_inside : forall i, at_pc s i Inside -> rd (get_mem (sys_state s)) m = 1;
  ci_excl : exclusive s;
}.

Lemma lookup_pcs_insert pcs i (c c' : pc) k :
  (<[i := c]> pcs : gmap nat pc) !! k = Some c' -> (k = i /\ c' = c) \/ (k <> i /\ pcs !! k = Some c').
Proof.
  destruct (decide (k = i)) as [->|].
  - rewrite lookup_insert_eq. intros [= ->]. by left.
  - rewrite lookup_insert_ne by done. by right.
Qed.

Ltac pcs := repeat match goal with
  | H : <[_ := _]> _ !! _ = Some _ |- _ => apply lookup_pcs_insert in H as [[? ?]|[? H]]; subst
  end; try done.

Lemma thread_step_cases m c (s s' : kernel) c' :
  0 <= m < 4294967296 -> mapped (get_mem s) m = true -> vars s = 0 ->
  thread_step m c s = Ret c' s' ->
  mapped (get_mem s') m = true /\ vars s' = 0 /\
  match c with
  | Outside => c' = Testing /\ s' = s
  | Testing => s' = s /\ c' = if rd (get_mem s) m =? 0 then Storing else Spinning
  | Spinning => c' = Testing /\ s' = s
  | Storing => c' = Inside /\ rd (get_mem s') m = 1
  | Inside => c' = Leaving /\ rd (get_mem s') m = 0
  | Leaving => c' = Outside /\ s' = s
  end.
Proof.
  intros Hm Hmap Hv Hrun.
  assert (Hw : wp (thread_step m c) (fun r t => mapped (get_mem t) m = true /\ vars t = 0 /\
    match c with
    | Outside => r = Testing /\ t = s
    | Testing => t = s /\ r = if rd (get_mem s) m =? 0 then Storing else Spinning
    | Spinning => r = Testing /\ t = s
    | Storing => r = Inside /\ rd (get_mem t) m = 1
    | Inside => r = Leaving /\ rd (get_mem t) m = 0
    | Leaving => r = Outside /\ t = s
    end) s).
  { destruct c; simpl.
    1,3,6: by apply wp_ret.
    - apply wp_bind, wp_bind, wp_ld8; [done|done|]. apply wp_bind, wp_var, wp_ret, wp_ret. rewrite Hv.
      split_and!; [done|done|done|]. simpl. by destruct (rd (lower s) m =? 0).
    - apply wp_bind, wp_st8; [done|done|]. apply wp_ret. simpl. split_and!; try done.
      rewrite rd_mset. by destruct (decide (m = m)).
    - apply wp_bind, wp_st8; [done|done|]. apply wp_ret. simpl. split_and!; try done.
      rewrite rd_mset. by destruct (decide (m = m)). }
  unfold wp in Hw. rewrite Hrun in Hw. exact Hw.
Qed.

Lemma coop_inv_step m cur s s' : coop_inv m cur s -> step m cur s s' -> coop_inv m cur s'.
Proof.
  intros [[Hm Hmap] Hv Hst Hin Hex] Hs. destruct Hs as [s pcs c c' s' Hc Hrun].
  unfold exclusive, at_pc in *. simpl in *.
  destruct (thread_step_cases _ _ _ _ _ Hm Hmap Hv Hrun) as (Hmap' & Hv' & Hcase).
  assert (Hone : forall i, pcs !! i = Some Inside -> c <> Storing).
  { intros i Hi ->. destruct (Hst _ Hc) as [_ ?]. specialize (Hin _ Hi). congruence. }
  assert (Hoth : forall i, i <> cur -> pcs !! i = Some Storing -> False).
  { intros i Hi Hx. by destruct (Hst _ Hx). }
  destruct c; destruct Hcase as [Hc1 Hc2]; subst;
    try (destruct (rd (get_mem s) m =? 0) eqn:E; [apply Z.eqb_eq in E|]);
    (split; unfold exclusive, at_pc in *; simpl in *; [done|done| | |]);
    try (intros i j Hi Hj; pcs; first [by eapply Hex|by exfalso; eapply Hone|by exfalso; eauto]; fail);
    intros i Hi; pcs; try (by exfalso; eapply Hoth); try (by exfalso; eapply Hone); eauto.
  all: match goal with Hn : _ <> _ |- _ => destruct Hn; by eapply Hex end.
Qed.

Lemma coop_reachable m s0 cur s : quiet_start m s0 -> coop m s0 cur s -> coop_inv m cur s.
Proof.
  intros [Hm Hf Hv Ho]. induction 1 as [cur|s s' cur _ IH Hs|s cur cur' _ IH Ht Hs].
  - split; try done.
    + intros i Hi. by apply Ho in Hi.
    + intros i Hi. by apply Ho in Hi.
    + intros i j Hi _. by apply Ho in Hi.
  - by eapply coop_inv_step.
  - destruct IH as [Hm' Hv' Hst Hin Hex]. split; try done. intros i Hi.
    destruct (Hst i Hi) as [-> _]. done.
Qed.

(** C10: when threads are switched only where they yield, or anywhere but
    between the test and the store of mutex_lock, no two threads are ever
    inside a critical section of the mutex. *)
Theorem mutex_exclusive m s0 cur s : quiet_start m s0 -> coop m s0 cur s -> exclusive s.
Proof. intros Hq Hc. by destruct (coop_reachable _ _ _ _ Hq Hc). Qed.

Definition demo_sys : sys :=
  Sys (Layer (Mem ∅ [(4096, 8192)]) 0) {[0%nat := Outside; 1%nat := Outside]}.

Lemma demo_quiet : quiet_start 4096 demo_sys.
Proof.
  split; [done|done|done|]. unfold at_pc, demo_sys. simpl. intros i c Hi. pcs. by apply lookup_singleton_Some in Hi as [_ <-].
Qed.

Lemma coop_go m s0 cur s pcs c c' s' :
  coop m s0 cur (Sys s pcs) -> pcs !! cur = Some c -> thread_step m c s = Ret c' s' ->
  coop m s0 cur (Sys s' (<[cur := c']> pcs)).
Proof. intros Hc Hp Hr. eapply Coop_step; [exact Hc|by econstructor]. Qed.

Lemma pre_go m s0 i s pcs c c' s' :
  preemptive m s0 (Sys s pcs) -> pcs !! i = Some c -> thread_step m c s = Ret c' s' ->
  preemptive m s0 (Sys s' (<[i := c']> pcs)).
Proof. intros Hc Hp Hr. eapply Pre_step; [exact Hc|by econstructor]. Qed.

Lemma mutex_exclusive_witness : exists s, coop 4096 demo_sys 0 s /\ at_pc s 0 Inside /\ exclusive s.
Proof.
  pose proof (Coop_init 4096 demo_sys 0) as Hc. unfold demo_sys in Hc at 2.
  do 3 (eapply coop_go in Hc; [|vm_compute; reflexivity|vm_compute; reflexivity]).
  eexists. split_and!; [exact Hc|vm_compute; reflexivity|].
  by apply (mutex_exclusive 4096 demo_sys 0 _ demo_quiet).
Defined.

(** C21: with the timer interrupt on, mutex_lock does not exclude: two threads
    that both pass the test before either stores are inside the critical section
    together. *)
Theorem mutex_preempted m s0 :
  quiet_start m s0 -> at_pc s0 0 Outside -> at_pc s0 1 Outside ->
  exists s, preemptive m s0 s /\ at_pc s 0 Inside /\ at_pc s 1 Inside.
Proof.
  intros [[Hm Hmap] Hf Hv _] H0 H1. destruct s0 as [s pcs]. unfold at_pc in *. simpl in *.
  assert (Htest : thread_step m Testing s = Ret Storing s).
  { apply wp_ret_eq. simpl. apply wp_bind, wp_bind, wp_ld8; [done|done|]. apply wp_bind, wp_var, wp_ret, wp_ret.
    split; [|done]. change (get_mem s) with (lower s). by rewrite Hf. }
  assert (Hset : forall t : kernel, mapped (get_mem t) m = true ->
    exists t', thread_step m Storing t = Ret Inside t' /\ mapped (get_mem t') m = true).
  { intros t Ht. assert (Hw : wp (thread_step m Storing) (fun r t' => r = Inside /\ mapped (get_mem t') m = true) t).
    { simpl. apply wp_bind, wp_st8; [done|done|]. by apply wp_ret. }
    apply wp_inv in Hw as (r & t' & Hrun & -> & ?). by exists t'. }
  destruct (Hset s Hmap) as (s1 & Hs1 & Hmap1). destruct (Hset s1 Hmap1) as (s2 & Hs2 & _).
  pose proof (Pre_init m (Sys s pcs)) as Hp.
  eapply (pre_go _ _ 0) in Hp; [|exact H0|reflexivity].
  eapply (pre_go _ _ 1) in Hp; [|rewrite lookup_insert_ne by done; exact H1|reflexivity].
  eapply (pre_go _ _ 0) in Hp; [|rewrite lookup_insert_ne by done; apply lookup_insert_eq|exact Htest].
  eapply (pre_go _ _ 1) in Hp; [|rewrite lookup_insert_ne by done; apply lookup_insert_eq|exact Htest].
  eapply (pre_go _ _ 0) in Hp; [|rewrite lookup_insert_ne by done; apply lookup_insert_eq|exact Hs1].
  eapply (pre_go _ _ 1) in Hp; [|rewrite lookup_insert_ne by done; apply lookup_insert_eq|exact Hs2].
  eexists. split; [exact Hp|]. simpl. split.
  - rewrite lookup_insert_ne by done. apply lookup_insert_eq.
  - apply lookup_insert_eq.
Qed.

Lemma mutex_preempted_witness :
  exists s, preemptive 4096 demo_sys s /\ ~ exclusive s.
Proof.
  destruct (mutex_preempted 4096 demo_sys demo_quiet) as (s & Hp & H0 & H1); [vm_compute; reflexivity..|].
  exists s. split; [done|]. intros He. by specialize (He _ _ H0 H1).
Defined.
