(* ===== verification/Hal.v ===== *)
(** * Port input and output: [arch/x86/hal.c]

    What a device answers is a function of the port operations so far: the
    environment of a run.  A driver is judged by the trace of its operations. *)

From stdpp Require Import base numbers list gmap.
From Stdlib Require Import ZArith Lia.
From S2P Require Import Prelude Memory Layer.

Local Open Scope Z_scope.

(** An operation of width [w] bits on a port. *)
Inductive io : Type :=
  | In (w port v : Z)
  | Out (w port v : Z).

Record ports : Type := Ports {
  io_env : list io -> Z -> Z -> Z;   (* trace so far, width, port *)
  io_trace : list io;
}.

Class HasPorts (S : Type) := {
  get_ports : S -> ports;
  set_ports : ports -> S -> S;
  get_set_ports p s : get_ports (set_ports p s) = p;
}.

Definition machine (S : Type) : Type := layer S ports.

#[export] Program Instance machine_ports {S} : HasPorts (layer S ports) :=
  {| get_ports := vars; set_ports p s := set_vars p s |}.
Next Obligation. done. Qed.

#[export] Program Instance layer_ports {S V} `{HasPorts S} : HasPorts (layer S V) | 10 :=
  {| get_ports s := get_ports (lower s); set_ports p s := set_lower (set_ports p (lower s)) s |}.
Next Obligation. intros. apply get_set_ports. Qed.

Section ops.
Context {S : Type} `{HasPorts S}.

Definition io_event (e : io) : M S unit :=
  modify (fun s => set_ports (Ports (io_env (get_ports s)) (io_trace (get_ports s) ++ [e])) s).

Definition inport (w portid : Z) : M S Z :=
  let! p := gets get_ports in
  let v := io_env p (io_trace p) w portid mod 2 ^ w in
  io_event (In w portid v) ;!
  ret v.
Definition outport (w portid value : Z) : M S unit := io_event (Out w portid (value mod 2 ^ w)).

Definition inportb : Z -> M S Z := inport 8.
Definition inportw : Z -> M S Z := inport 16.
Definition inportl : Z -> M S Z := inport 32.
Definition outportb : Z -> Z -> M S unit := outport 8.
Definition outportw : Z -> Z -> M S unit := outport 16.
Definition outportl : Z -> Z -> M S unit := outport 32.
End ops.

Section rules.
Context {S : Type} `{HasPorts S}.
Implicit Types (s : S).

Definition with_event (e : io) (s : S) : S :=
  set_ports (Ports (io_env (get_ports s)) (io_trace (get_ports s) ++ [e])) s.

Lemma wp_outport w p v (Q : unit -> S -> Prop) s :
  Q tt (with_event (Out w p (v mod 2 ^ w)) s) -> wp (outport w p v) Q s.
Proof. done. Qed.

Lemma wp_inport w p (Q : Z -> S -> Prop) s :
  (let v := io_env (get_ports s) (io_trace (get_ports s)) w p mod 2 ^ w in
   Q v (with_event (In w p v) s)) -> wp (inport w p) Q s.
Proof. done. Qed.

Lemma trace_with_event e s : io_trace (get_ports (with_event e s)) = io_trace (get_ports s) ++ [e].
Proof. unfold with_event. by rewrite get_set_ports. Qed.
Lemma env_with_event e s : io_env (get_ports (with_event e s)) = io_env (get_ports s).
Proof. unfold with_event. by rewrite get_set_ports. Qed.
End rules.

#[export] Hint Rewrite @trace_with_event @env_with_event : lens.

(** Ports and memory are separate parts of a state. *)
Class PortsMem (S : Type) `{HasMem S} `{HasPorts S} := {
  mem_set_ports p s : get_mem (set_ports p s) = get_mem s;
  ports_set_mem m s : get_ports (set_mem m s) = get_ports s;
}.

#[export] Program Instance machine_ports_mem {S} `{HasMem S} : PortsMem (layer S ports).
Next Obligation. done. Qed.
Next Obligation. done. Qed.

#[export] Program Instance layer_ports_mem {S V} `{PortsMem S} : PortsMem (layer S V) | 10.
Next Obligation. intros. simpl. apply mem_set_ports. Qed.
Next Obligation. intros. simpl. apply ports_set_mem. Qed.

Lemma mem_with_event {S} `{PortsMem S} e (s : S) : get_mem (with_event e s) = get_mem s.
Proof. apply mem_set_ports. Qed.

#[export] Hint Rewrite @mem_with_event @ports_set_mem using (typeclasses eauto) : lens.

Lemma ports_set_lower {S V} `{HasPorts S} b (s : layer S V) : get_ports (set_lower b s) = get_ports b.
Proof. done. Qed.
Lemma ports_set_vars {S V} `{HasPorts S} v (s : layer S V) : get_ports (set_vars v s) = get_ports s.
Proof. done. Qed.
Lemma ports_lower {S V} `{HasPorts S} (s : layer S V) : get_ports (lower s) = get_ports s.
Proof. done. Qed.

#[export] Hint Rewrite @ports_set_lower @ports_set_vars @ports_lower : lens.
