(* ===== verification/Switch.v ===== *)
(** * The context switch: [switch_to_thread] of [arch/x86/x86.c]

    The timer and [int 0x2f] end in [scheduler_switch], which picks a thread and
    jumps to [switch_to_thread]: the registers are pushed on the stack of the
    old thread behind the frame of the interrupt, the page directory and the
    stack pointer of the new one are loaded, and its registers are popped.

    The processor is a record of registers; [cr3] is [reg_cr3] of Sched.v.  The
    stacks are in the kernel heap, which every page directory maps alike, so
    they stay in place when the directory changes.  Instructions that the
    compiler adds around the assembly are not modelled. *)

From stdpp Require Import base numbers list gmap.
From Stdlib Require Import ZArith Lia.
From S2P Require Import Prelude Memory Process Pages Arm Liballoc LiballocInv LiballocSpec Allocator Phymem Layer Tables Current Hal Sched.

Local Open Scope Z_scope.

Record cpu : Type := Cpu {
  eax : Z; ebx : Z; ecx : Z; edx : Z; esi : Z; edi : Z; ebp : Z; esp : Z;
  eip : Z; eflags : Z; cs : Z; ds : Z; es : Z; fs : Z; gs : Z
}.
Definition set_esp (n : Z) (c : cpu) : cpu :=
  Cpu (eax c) (ebx c) (ecx c) (edx c) (esi c) (edi c) (ebp c) n (eip c) (eflags c) (cs c) (ds c) (es c) (fs c) (gs c).
(** The interrupt flag is bit 9. *)
Definition cli (c : cpu) : cpu :=
  Cpu (eax c) (ebx c) (ecx c) (edx c) (esi c) (edi c) (ebp c) (esp c) (eip c) (Z.clearbit (eflags c) 9)
    (cs c) (ds c) (es c) (fs c) (gs c).

Definition set_cr3 (n : Z) (v : sched_vars) : sched_vars :=
  SchedVars (processes v) (scheduler_status v) (last_process v) (__lastpid v) (__old__thread v) (__new__thread v)
    (__t v) (kernel_stack v) (__irq_enabled v) (init_ready v) (task v) n (VFS_INITIALIZED v).

Section ops.
Context {S : Type} `{Current S}.
Notation sched := (layer (phymem S) sched_vars).
Notation world := (layer (layer sched ports) cpu).
Notation WM := (M world).

Definition push (w : Z) : WM unit :=
  let! c := var (fun c => c) in
  let sp := u32 (esp c - 4) in
  st32 sp w ;!
  assign (set_esp sp).

Definition pop : WM Z :=
  let! c := var (fun c => c) in
  let! w := ld32 (esp c) in
  assign (set_esp (u32 (esp c + 4))) ;!
  ret w.

Fixpoint push_seq (l : list Z) : WM unit :=
  match l with [] => ret tt | w :: l => push w ;! push_seq l end.

(** An interrupt through an interrupt gate, within ring 0; [eip] is already
    behind the instruction. *)
Definition interrupt : WM unit :=
  let! c := var (fun c => c) in
  push_seq [eflags c; cs c; eip c] ;!
  assign cli.

(** The pushes for the thread that was running, if there is one. *)
Definition save_registers (old : Z) : WM unit :=
  if old =? 0 then ret tt
  else
    let! c := var (fun c => c) in
    push_seq [eax c; ebx c; ecx c; edx c; esi c; edi c; ebp c; ds c; es c; fs c; gs c] ;!
    let! c := var (fun c => c) in
    st32 (old + T_stack) (esp c).

(** The pops, the end of interrupt to the master PIC, and [iret]. *)
Definition load_registers : WM unit :=
  let! r_gs := pop in
  let! r_fs := pop in
  let! r_es := pop in
  let! r_ds := pop in
  let! r_ebp := pop in
  let! r_edi := pop in
  let! r_esi := pop in
  outportb 32 32 ;!
  let! r_edx := pop in
  let! r_ecx := pop in
  let! r_ebx := pop in
  let! r_eax := pop in
  let! r_eip := pop in
  let! r_cs := pop in
  let! r_eflags := pop in
  assign (fun c => Cpu r_eax r_ebx r_ecx r_edx r_esi r_edi r_ebp (esp c) r_eip r_eflags r_cs r_ds r_es r_fs r_gs).

(** [*new->paged] is the page directory of the thread's process. *)
Definition load_thread (new : Z) : WM unit :=
  let! pd := ld32 (new + T_paged) in
  let! cr3 := ld32 pd in
  below (below (assign (set_cr3 cr3))) ;!
  let! sp := ld32 (new + T_stack) in
  assign (set_esp sp) ;!
  load_registers.

Definition switch_to_thread : WM unit :=
  let! v := below (below (var (fun v => v))) in
  save_registers (__old__thread v) ;!
  load_thread (__new__thread v).

(** The scheduler's choice and the switch at its end. *)
Definition reschedule : WM unit :=
  below (below scheduler_switch) ;!
  switch_to_thread.

(** The function changes the stack under its own feet. *)
Definition load_stack (new old : Z) : WM unit :=
  let! c := var (fun c => c) in
  st32 old (esp c) ;!
  assign (set_esp new).

(** What [int 0x2f] does. *)
Definition context_switch : WM unit :=
  interrupt ;!
  reschedule.
End ops.

(** ** Frames *)

(** The words of [l], pushed from [sp] on. *)
Definition frame_at (m : mem) (sp : Z) (l : list Z) : Prop :=
  forall k w, l !! k = Some w -> rd32 m (sp - 4 * (Z.of_nat k + 1)) = w.
Definition word (w : Z) : Prop := 0 <= w < 4294967296.

(** What an interrupted thread has on its stack. *)
Definition saved_words (r : cpu) : list Z :=
  [eflags r; cs r; eip r] ++ [eax r; ebx r; ecx r; edx r; esi r; edi r; ebp r; ds r; es r; fs r; gs r].

Lemma frame_app m sp l1 l2 :
  frame_at m sp l1 -> frame_at m (sp - 4 * Z.of_nat (length l1)) l2 -> frame_at m sp (l1 ++ l2).
Proof.
  intros H1 H2 k w Hk. apply lookup_app_Some in Hk as [Hk|[Hle Hk]]; [by apply H1|].
  rewrite <-(H2 _ _ Hk). f_equal. lia.
Qed.

Lemma frame_agree P m m' sp l :
  agree P m m' -> (forall a, sp - 4 * Z.of_nat (length l) <= a < sp -> P a) -> frame_at m sp l -> frame_at m' sp l.
Proof.
  intros Hag HP Hf k w Hk. rewrite <-(Hf k w Hk). pose proof (lookup_lt_Some _ _ _ Hk).
  apply (rd32_agree _ _ _ _ Hag); apply HP; lia.
Qed.

Section steps.
Context {S : Type} `{Current S}.
Notation sched := (layer (phymem S) sched_vars).
Notation world := (layer (layer sched ports) cpu).
Implicit Types (s : world).

(** A world with other registers and another memory. *)
Definition with_cpu (c : cpu) (m : mem) s : world := set_vars c (set_mem m s).

Lemma with_cpu_id s : with_cpu (vars s) (get_mem s) s = s.
Proof. unfold with_cpu. rewrite set_get_mem. by destruct s. Qed.
Lemma mem_with_cpu c m s : get_mem (with_cpu c m s) = m.
Proof. unfold with_cpu. by rewrite get_mem_set_vars, get_set_mem. Qed.
Lemma set_mem_with_cpu m' c m s : set_mem m' (with_cpu c m s) = with_cpu c m' s.
Proof. destruct s as [b c0]. unfold with_cpu, set_vars. simpl. unfold set_lower. simpl. by rewrite set_set_mem. Qed.
Lemma set_vars_with_cpu c' c m s : set_vars c' (with_cpu c m s) = with_cpu c' m s.
Proof. done. Qed.
Lemma lower_with_cpu c m s : lower (with_cpu c m s) = set_mem m (lower s).
Proof. done. Qed.

Lemma wp_push w c m s (Q : unit -> world -> Prop) :
  4 <= esp c < 4294967296 -> mapped_range m (esp c - 4) 4 ->
  Q tt (with_cpu (set_esp (esp c - 4) c) (mwrite m (esp c - 4) (le32 w)) s) ->
  wp (push w) Q (with_cpu c m s).
Proof.
  intros Hsp Hm HQ. unfold push. apply wp_bind, wp_var. change (vars (with_cpu c m s)) with c.
  rewrite u32_small by lia. apply wp_bind, wp_st32; [by rewrite mem_with_cpu|].
  rewrite mem_with_cpu, set_mem_with_cpu. apply wp_assign. exact HQ.
Qed.

Lemma wp_push_seq l c m s (Q : unit -> world -> Prop) :
  let n := 4 * Z.of_nat (length l) in
  n <= esp c < 4294967296 -> mapped_range m (esp c - n) n -> Forall word l ->
  (forall m', agree (fun a => ~ esp c - n <= a < esp c) m m' -> frame_at m' (esp c) l ->
     Q tt (with_cpu (set_esp (esp c - n) c) m' s)) ->
  wp (push_seq l) Q (with_cpu c m s).
Proof.
  revert c m. induction l as [|w l IH]; intros c m n Hsp Hm Hl HQ; unfold n in *; clear n; simpl.
  - apply wp_ret. replace c with (set_esp (esp c - 4 * Z.of_nat (@length Z [])) c) at 1.
    + apply HQ; [apply agree_refl|]. intros k w Hk. done.
    + destruct c. unfold set_esp. simpl. f_equal. lia.
  - apply Forall_cons in Hl as [Hw Hl]. simpl in Hsp, Hm, HQ.
    apply wp_bind, wp_push; [lia|eapply mapped_range_sub; [exact Hm|lia..]|].
    apply IH; simpl; [lia| |done|].
    + rewrite mapped_range_mwrite. eapply mapped_range_sub; [exact Hm|lia..].
    + intros m' Hag Hf.
      replace (esp c - 4 - 4 * Z.of_nat (length l)) with (esp c - 4 * Z.of_nat (Datatypes.S (length l))) in * by lia.
      apply HQ.
      * destruct Hag as [Hr Hd]. split; [by rewrite Hr, ranges_mwrite|]. intros a Ha. rewrite Hd by lia.
        apply rd_mwrite_out. rewrite le32_length. lia.
      * intros [|k] w' Hk; simpl in Hk.
        -- injection Hk as <-. replace (esp c - 4 * (Z.of_nat 0 + 1)) with (esp c - 4) by lia.
           rewrite (rd32_agree _ _ _ _ Hag) by lia. rewrite rd32_mwrite_same. by apply u32_small.
        -- rewrite <-(Hf k w' Hk). f_equal. lia.
Qed.

Lemma wp_pop w c m s (Q : Z -> world -> Prop) sp l k :
  frame_at m sp l -> l !! k = Some w -> esp c = sp - 4 * (Z.of_nat k + 1) ->
  4 * (Z.of_nat k + 1) <= sp < 4294967296 -> mapped_range m (sp - 4 * (Z.of_nat k + 1)) 4 ->
  Q w (with_cpu (set_esp (sp - 4 * Z.of_nat k) c) m s) ->
  wp pop Q (with_cpu c m s).
Proof.
  intros Hf Hk He Hsp Hm HQ. unfold pop. apply wp_bind, wp_var. change (vars (with_cpu c m s)) with c.
  rewrite He. apply wp_bind, wp_ld32; [by rewrite mem_with_cpu|]. rewrite mem_with_cpu, (Hf k w Hk).
  apply wp_bind, wp_assign, wp_ret. rewrite set_vars_with_cpu. change (vars (with_cpu c m s)) with c.
  rewrite u32_small by lia. replace (sp - 4 * (Z.of_nat k + 1) + 4) with (sp - 4 * Z.of_nat k) by lia. exact HQ.
Qed.
End steps.

(** The next pop of a frame gives its word [k]. *)
Ltac pop_next Hm k := apply wp_bind; eapply (wp_pop _ _ _ _ _ _ _ k); [eassumption|reflexivity|simpl; lia|lia|
  eapply mapped_range_sub; [exact Hm|lia..]|].

Section registers.
Context {S : Type} `{Current S}.
Notation sched := (layer (phymem S) sched_vars).
Notation world := (layer (layer sched ports) cpu).
Implicit Types (s : world).

(** The registers are words, and there is room on the stack for a switch. *)
Record regs_ok (m : mem) (r : cpu) : Prop := {
  rg_words : Forall word (saved_words r);
  rg_esp : 56 <= esp r < 4294967296;
  rg_room : mapped_range m (esp r - 56) 56;
}.

(** The words that the context switch needs of thread [t]: its frame, from
    which [r] is loaded, and the way to its page directory. *)
Record parked (m : mem) (t : Z) (r : cpu) : Prop := {
  pk_esp : rd32 m (t + T_stack) = esp r - 56;
  pk_frame : frame_at m (esp r) (saved_words r);
}.

Lemma wp_load_registers r c m s (Q : unit -> world -> Prop) :
  regs_ok m r -> frame_at m (esp r) (saved_words r) -> esp c = esp r - 56 ->
  Q tt (with_cpu r m (with_event (Out 8 32 32) s)) -> wp load_registers Q (with_cpu c m s).
Proof.
  intros [Hw Hsp Hm] Hf He HQ. unfold load_registers.
  pop_next Hm 13%nat. pop_next Hm 12%nat. pop_next Hm 11%nat. pop_next Hm 10%nat. pop_next Hm 9%nat.
  pop_next Hm 8%nat. pop_next Hm 7%nat.
  apply wp_bind. unfold outportb. apply wp_outport.
  change (with_event (Out 8 32 (32 mod 2 ^ 8)) (with_cpu ?c m s)) with (with_cpu c m (with_event (Out 8 32 32) s)).
  pop_next Hm 6%nat. pop_next Hm 5%nat. pop_next Hm 4%nat. pop_next Hm 3%nat. pop_next Hm 2%nat. pop_next Hm 1%nat.
  pop_next Hm 0%nat.
  apply wp_assign. rewrite set_vars_with_cpu. destruct r. simpl in *.
  match goal with |- Q tt (with_cpu ?c' _ _) => match type of HQ with Q tt (with_cpu ?c'' _ _) => replace c' with c'' end end; [done|].
  f_equal. lia.
Qed.
End registers.

(** ** The table of processes stays valid under writes elsewhere *)

Definition sched_byte (m : mem) (ps a : Z) : Prop :=
  in_block ps (4 * MAX_PROCESSES) a \/
  exists i, 0 <= i < MAX_PROCESSES /\ slot m ps i <> 0 /\ in_block (slot m ps i) sizeof_process a.

Ltac soffs := unfold sizeof_process, P_threads, P_lastthread, P_filehandles, P_allocation_table, sizeof_thread,
  T_ip, T_stack, T_paged, MAX_ALLOCATIONS_PER_PROCESS, MAX_THREADS, MAX_PROCESSES, in_block in *.

Lemma slot_sched m m' ps i :
  agree (sched_byte m ps) m m' -> 0 <= i < MAX_PROCESSES -> slot m' ps i = slot m ps i.
Proof. intros Hag Hi. apply (rd32_agree _ _ _ _ Hag); left; soffs; lia. Qed.

Lemma sched_byte_eq m m' ps a :
  (forall i, 0 <= i < MAX_PROCESSES -> slot m' ps i = slot m ps i) -> sched_byte m' ps a <-> sched_byte m ps a.
Proof.
  intros Hs. unfold sched_byte. split; (intros [?|(i & Hi & Hn & Hb)]; [by left|right; exists i]).
  - by rewrite Hs in * by done.
  - by rewrite Hs by done.
Qed.

Section wf.
Context {S : Type} `{Current S}.
Notation sched := (layer (phymem S) sched_vars).
Implicit Types (x : sched).

Lemma sched_wf_agree x x' :
  let ps := processes (vars x) in
  sched_wf x -> agree (sched_byte (get_mem x) ps) (get_mem x) (get_mem x') ->
  processes (vars x') = ps -> last_process (vars x') = last_process (vars x) -> sched_wf x'.
Proof.
  intros ps [Hl Hm Hs Hr Ha] Hag Hps Hl'. fold ps in Hm, Hs, Hr, Ha.
  assert (Htab := fun i => slot_sched _ _ _ i Hag).
  split; rewrite ?Hps, ?Hl'; try done.
  - by eapply agree_mapped_range.
  - destruct Hs as (i & Hi & Hx). exists i. by rewrite Htab.
  - intros i Hi q Hq. unfold q in *. clear q. rewrite Htab in * by done. set (q := slot (get_mem x) ps i) in *.
    destruct (Hr i Hi Hq) as [[[Hq0 Hqm] Hql (j & Hj & Hjt)] Hsep]. fold q in Hq0, Hqm, Hql, Hjt, Hsep.
    assert (Hin : forall a, in_block q sizeof_process a -> sched_byte (get_mem x) ps a).
    { intros a Hb. right. by exists i. }
    split; [|done]. split.
    + split; [done|]. by eapply agree_mapped_range.
    + rewrite (proj2 Hag); [done|]. apply Hin. soffs. lia.
    + exists j. split; [done|]. unfold slot. rewrite (rd32_agree _ _ _ _ Hag); [exact Hjt|apply Hin; soffs; lia..].
  - intros i j Hi Hj p' q'. unfold p', q'. rewrite !Htab by done. by apply Ha.
Qed.
End wf.

(** ** All threads *)

Section threads.
Context {S : Type} `{Current S}.
Notation sched := (layer (phymem S) sched_vars).
Notation world := (layer (layer sched ports) cpu).
Implicit Types (s : world).

(** [R] gives the registers of each thread of [T]: those of the running thread
    are in the processor, those of every other thread on its stack.  The place
    of a frame is free, and apart from the kernel's structures. *)
Section def.
Variables (R : Z -> cpu) (T : Z -> Prop) (m : mem) (v : sched_vars).

Definition stack_byte (t a : Z) : Prop := esp (R t) - 56 <= a < esp (R t).
Definition pd_word (t : Z) : Z := rd32 m (t + T_paged).

Record threads_wf : Prop := {
  tw_running : T (__new__thread v);
  tw_all : forall i j, 0 <= i < MAX_PROCESSES -> slot m (processes v) i <> 0 -> 0 <= j < MAX_THREADS ->
    slot m (slot m (processes v) i + P_threads) j <> 0 -> T (slot m (slot m (processes v) i + P_threads) j);
  tw_parked : forall t, T t -> t <> __new__thread v -> parked m t (R t);
  tw_regs : forall t, T t -> regs_ok m (R t);
  tw_struct : forall t, T t -> 0 < t /\ mapped_range m t sizeof_thread /\ mapped_range m (pd_word t) 4;
  tw_stacks : forall t u a, T t -> T u -> t <> u -> stack_byte t a -> ~ stack_byte u a;
  tw_structs : forall t u a, T t -> T u -> in_block t sizeof_thread a ->
    ~ stack_byte u a /\ (t <> u -> ~ in_block u sizeof_thread a);
  tw_table : forall t a, T t -> stack_byte t a \/ in_block t sizeof_thread a -> ~ sched_byte m (processes v) a;
  tw_pds : forall t u a, T t -> T u -> in_block (pd_word t) 4 a -> ~ stack_byte u a /\ ~ in_block u sizeof_thread a /\
    forall i, 0 <= i < MAX_PROCESSES -> slot m (processes v) i <> 0 -> a <> slot m (processes v) i + P_lastthread;
}.
End def.


(** What a switch away from [c] may write. *)
Definition switch_byte (R : Z -> cpu) (m : mem) (ps c a : Z) : Prop :=
  stack_byte R c a \/ in_block (c + T_stack) 4 a \/
  exists i, 0 <= i < MAX_PROCESSES /\ slot m ps i <> 0 /\ a = slot m ps i + P_lastthread.

Section keep.
Variables (R : Z -> cpu) (T : Z -> Prop) (x : sched).
Notation m := (get_mem x).
Notation ps := (processes (vars x)).
Notation c := (__new__thread (vars x)).
Hypothesis Hwf : sched_wf x.
Hypothesis Htw : threads_wf R T m (vars x).

Lemma last_sched i : 0 <= i < MAX_PROCESSES -> slot m ps i <> 0 -> sched_byte m ps (slot m ps i + P_lastthread).
Proof. intros Hi Hn. right. exists i. split; [done|]. split; [done|]. soffs. lia. Qed.

Lemma table_safe a : in_block ps (4 * MAX_PROCESSES) a -> ~ switch_byte R m ps c a.
Proof.
  intros Ha [Hs|[Hs|(i & Hi & Hn & ->)]].
  - apply (tw_table _ _ _ _ Htw c a (tw_running _ _ _ _ Htw)); [by left|by left].
  - apply (tw_table _ _ _ _ Htw c a (tw_running _ _ _ _ Htw)); [right; soffs; lia|by left].
  - destruct (sw_run _ Hwf i Hi Hn) as [_ Hd]. soffs. lia.
Qed.

Lemma threads_safe i a :
  0 <= i < MAX_PROCESSES -> slot m ps i <> 0 -> in_block (slot m ps i + P_threads) (4 * MAX_THREADS) a ->
  ~ switch_byte R m ps c a.
Proof.
  intros Hi Hn Ha. assert (Hsb : sched_byte m ps a) by (right; exists i; split_and!; [lia|lia|done|soffs; lia..]).
  intros [Hs|[Hs|(j & Hj & Hnj & ->)]].
  - by apply (tw_table _ _ _ _ Htw c a (tw_running _ _ _ _ Htw)); [left|].
  - apply (tw_table _ _ _ _ Htw c a (tw_running _ _ _ _ Htw)); [right; soffs; lia|done].
  - destruct (sw_apart _ Hwf i j Hi Hj Hn Hnj) as [He|Hd]; [rewrite <-He in Ha|]; soffs; lia.
Qed.

(** The words of another thread are safe, and the way to its directory. *)
Lemma other_safe t a : T t -> t <> c -> stack_byte R t a \/ in_block t sizeof_thread a -> ~ switch_byte R m ps c a.
Proof.
  intros Ht Hne Ha. pose proof (tw_running _ _ _ _ Htw) as Hc. intros [Hs|[Hs|(j & Hj & Hnj & ->)]].
  - destruct Ha as [Ha|Ha].
    + exact (tw_stacks _ _ _ _ Htw t c a Ht Hc Hne Ha Hs).
    + exact (proj1 (tw_structs _ _ _ _ Htw t c a Ht Hc Ha) Hs).
  - assert (Hb : in_block c sizeof_thread a) by (soffs; lia). destruct (tw_structs _ _ _ _ Htw c t a Hc Ht Hb) as [H1 H2].
    destruct Ha as [Ha|Ha]; [by apply H1|]. exact (H2 (not_eq_sym Hne) Ha).
  - by apply (tw_table _ _ _ _ Htw t _ Ht Ha), last_sched.
Qed.

Lemma pd_word_safe t a : T t -> in_block (t + T_paged) 4 a -> ~ switch_byte R m ps c a.
Proof.
  intros Ht Ha. assert (Hb : in_block t sizeof_thread a) by (soffs; lia).
  destruct (decide (t = c)) as [->|Hne]; [|apply (other_safe t); [done..|by right]].
  intros [Hs|[Hs|(j & Hj & Hnj & ->)]].
  - exact (proj1 (tw_structs _ _ _ _ Htw c c a Ht Ht Hb) Hs).
  - soffs. lia.
  - apply (tw_table _ _ _ _ Htw c _ Ht (or_intror Hb)). by apply last_sched.
Qed.

Lemma pd_safe t a : T t -> in_block (pd_word m t) 4 a -> ~ switch_byte R m ps c a.
Proof.
  intros Ht Ha. destruct (tw_pds _ _ _ _ Htw t c a Ht (tw_running _ _ _ _ Htw) Ha) as (H1 & H2 & H3).
  intros [Hs|[Hs|(j & Hj & Hnj & Hx)]]; [done| |by apply (H3 j)]. apply H2. soffs. lia.
Qed.

Context (m' : mem) (Hag : agree (fun a => ~ switch_byte R m ps c a) m m').

Lemma rd32_safe b : (forall a, in_block b 4 a -> ~ switch_byte R m ps c a) -> rd32 m' b = rd32 m b.
Proof. intros Hs. apply (rd32_agree _ _ _ _ Hag); apply Hs; unfold in_block; lia. Qed.

Lemma slot_kept i : 0 <= i < MAX_PROCESSES -> slot m' ps i = slot m ps i.
Proof. intros Hi. apply rd32_safe. intros a Ha. apply table_safe. soffs. lia. Qed.

Lemma thread_slot_kept i j :
  0 <= i < MAX_PROCESSES -> slot m ps i <> 0 -> 0 <= j < MAX_THREADS ->
  slot m' (slot m ps i + P_threads) j = slot m (slot m ps i + P_threads) j.
Proof. intros Hi Hn Hj. apply rd32_safe. intros a Ha. apply (threads_safe i); [done..|]. soffs. lia. Qed.

Lemma pd_word_kept t : T t -> pd_word m' t = pd_word m t.
Proof. intros Ht. apply rd32_safe. intros a Ha. by apply (pd_word_safe t). Qed.

Lemma parked_kept t : T t -> t <> c -> parked m' t (R t).
Proof.
  intros Ht Hne. destruct (tw_parked _ _ _ _ Htw t Ht Hne) as [He Hf]. split.
  - rewrite rd32_safe; [done|]. intros a Ha. apply (other_safe t); [done..|]. right. soffs. lia.
  - eapply frame_agree; [exact Hag| |exact Hf]. intros a Ha. apply (other_safe t); [done..|]. by left.
Qed.

(** A thread that runs next, when the frame of the old one is complete. *)
Lemma threads_switched v' :
  processes v' = ps -> T (__new__thread v') -> parked m' c (R c) -> threads_wf R T m' v'.
Proof.
  intros Hps Ht Hc. split; rewrite ?Hps.
  - done.
  - intros i j Hi. rewrite slot_kept by done. intros Hn Hj. rewrite thread_slot_kept by done. by apply (tw_all _ _ _ _ Htw).
  - intros u Hu _. destruct (decide (u = c)) as [->|]; [done|by apply parked_kept].
  - intros u Hu. destruct (tw_regs _ _ _ _ Htw u Hu). split; [done..|]. by eapply agree_mapped_range.
  - intros u Hu. destruct (tw_struct _ _ _ _ Htw u Hu) as (? & ? & ?). rewrite pd_word_kept by done.
    split_and!; [done|by eapply agree_mapped_range..].
  - apply (tw_stacks _ _ _ _ Htw).
  - apply (tw_structs _ _ _ _ Htw).
  - intros u a Hu Ha. rewrite sched_byte_eq by exact slot_kept. by apply (tw_table _ _ _ _ Htw u).
  - intros u w a Hu Hw. rewrite pd_word_kept by done. intros Ha.
    destruct (tw_pds _ _ _ _ Htw u w a Hu Hw Ha) as (? & ? & Hl). split_and!; [done..|].
    intros i Hi. rewrite slot_kept by done. by apply Hl.
Qed.
End keep.

(** The frame is completed, and the old thread's stack pointer stored. *)
Lemma wp_save_registers R c r m1 s (Q : unit -> world -> Prop) :
  c <> 0 -> r = R c -> regs_ok m1 r -> frame_at m1 (esp r) [eflags r; cs r; eip r] -> mapped_range m1 c sizeof_thread ->
  (forall a, in_block c sizeof_thread a -> ~ stack_byte R c a) ->
  (forall m2 c2, agree (fun a => ~ stack_byte R c a /\ ~ in_block (c + T_stack) 4 a) m1 m2 -> parked m2 c r ->
     Q tt (with_cpu c2 m2 s)) ->
  wp (save_registers c) Q (with_cpu (cli (set_esp (esp r - 12) r)) m1 s).
Proof.
  intros Hc0 Hr [Hw Hsp Hm] Hf Hcm Hsep HQ. unfold save_registers. rewrite (proj2 (Z.eqb_neq c 0) Hc0).
  apply Forall_app in Hw as [_ Hw]. unfold stack_byte in *. rewrite <-Hr in Hsep. rewrite <-Hr in HQ.
  apply wp_bind, wp_var, wp_bind.
  change (vars (with_cpu ?c m1 s)) with c. set (c1 := cli (set_esp (esp r - 12) r)). assert (He : esp c1 = esp r - 12) by done.
  apply (wp_push_seq [eax r; ebx r; ecx r; edx r; esi r; edi r; ebp r; ds r; es r; fs r; gs r] c1);
    rewrite ?He; simpl length; [lia|eapply mapped_range_sub; [exact Hm|lia..]|exact Hw|].
  intros m2 Hag Hf2. apply wp_bind, wp_var. change (vars (with_cpu ?c m2 s)) with c.
  change (esp (set_esp ?n c1)) with n. replace (esp r - 12 - 4 * Z.of_nat 11) with (esp r - 56) in * by lia.
  assert (Hcm2 : mapped_range m2 (c + T_stack) 4).
  { apply (agree_mapped_range _ _ _ _ _ Hag). eapply mapped_range_sub; [exact Hcm|soffs; lia..]. }
  apply wp_st32; [by rewrite mem_with_cpu|]. rewrite mem_with_cpu, set_mem_with_cpu.
  assert (Hfs : frame_at m2 (esp r) (saved_words r)).
  { apply frame_app; [|exact Hf2]. eapply frame_agree; [exact Hag| |exact Hf]. simpl. lia. }
  apply HQ.
  - destruct Hag as [Hrg Hd]. split; [by rewrite ranges_mwrite|]. intros a [Ha1 Ha2]. unfold in_block in *.
    rewrite rd_mwrite_out by (rewrite le32_length; lia). apply Hd. lia.
  - split; [rewrite rd32_mwrite_same; apply u32_small; lia|]. apply (frame_agree (fun a => ~ in_block (c + T_stack) 4 a) m2).
    + split; [by rewrite ranges_mwrite|]. intros a Ha. apply rd_mwrite_out. rewrite le32_length. unfold in_block in Ha. lia.
    + simpl. intros a Ha Hb. apply (Hsep a); [soffs; lia|lia].
    + exact Hfs.
Qed.

Lemma wp_load_thread t r c m s (Q : unit -> world -> Prop) :
  mapped_range m t sizeof_thread -> mapped_range m (rd32 m (t + T_paged)) 4 -> parked m t r -> regs_ok m r ->
  (forall s', get_mem s' = m -> vars s' = r ->
     io_trace (get_ports s') = io_trace (get_ports s) ++ [Out 8 32 32] ->
     lower (lower s') = set_vars (set_cr3 (rd32 m (rd32 m (t + T_paged))) (vars (lower (lower s)))) (set_mem m (lower (lower s))) ->
     Q tt s') ->
  wp (load_thread t) Q (with_cpu c m s).
Proof.
  intros Hm Hpm [He Hf] Hr HQ. unfold load_thread.
  apply wp_bind, wp_ld32; [rewrite mem_with_cpu; eapply mapped_range_sub; [exact Hm|soffs; lia..]|].
  rewrite mem_with_cpu. apply wp_bind, wp_ld32; rewrite mem_with_cpu; [done|].
  apply wp_bind, wp_below, wp_below, wp_assign. set (s1 := set_lower _ (with_cpu c m s)).
  assert (Hm1 : get_mem s1 = m) by apply mem_with_cpu.
  apply wp_bind, wp_ld32; [rewrite Hm1; eapply mapped_range_sub; [exact Hm|soffs; lia..]|].
  apply wp_bind, wp_assign. rewrite Hm1, He.
  match goal with |- wp _ _ ?s' => replace s' with (with_cpu (set_esp (esp r - 56) (vars s1)) m s1) end.
  - apply (wp_load_registers r); [done|done|done|]. apply HQ; [apply mem_with_cpu|done|done|].
    unfold s1, with_cpu, with_event, set_vars, set_lower. simpl. unfold set_lower. simpl. by rewrite set_set_mem.
  - unfold with_cpu, set_vars. rewrite <-Hm1 at 1. by rewrite set_get_mem.
Qed.

(** From the choice of the scheduler to the registers of the new thread. *)
Lemma wp_switch_to_thread R T (x : sched) m1 s (Q : unit -> world -> Prop) :
  let v := vars x in let ps := processes v in let c := __new__thread v in let r := R c in
  let x2 := lower (lower s) in let t := __new__thread (vars x2) in
  sched_wf x -> threads_wf R T (get_mem x) v ->
  agree (fun a => ~ stack_byte R c a) (get_mem x) m1 -> frame_at m1 (esp r) [eflags r; cs r; eip r] ->
  sched_wf x2 -> processes (vars x2) = ps -> __old__thread (vars x2) = c -> T t ->
  agree (fun a => forall i, 0 <= i < MAX_PROCESSES -> slot (get_mem x) ps i <> 0 -> a <> slot (get_mem x) ps i + P_lastthread)
    m1 (get_mem x2) ->
  vars s = cli (set_esp (esp r - 12) r) ->
  (forall s', let x' := lower (lower s') in
     sched_wf x' -> threads_wf R T (get_mem s') (vars x') -> vars s' = R t ->
     reg_cr3 (vars x') = rd32 (get_mem x) (pd_word (get_mem x) t) ->
     cur_process x' = cur_process x2 -> vars x' = set_cr3 (reg_cr3 (vars x')) (vars x2) ->
     io_trace (get_ports s') = io_trace (get_ports s) ++ [Out 8 32 32] -> Q tt s') ->
  wp switch_to_thread Q s.
Proof.
  intros v ps c r x2 t Hwf Htw Hag1 Hf1 Hwf2 Hps Hold Ht Hag2 Hcpu HQ. set (m := get_mem x) in *.
  pose proof (tw_running _ _ _ _ Htw) as Hc. fold c in Hc. pose proof (tw_regs _ _ _ _ Htw c Hc) as Hreg. fold r in Hreg.
  destruct (tw_struct _ _ _ _ Htw c Hc) as (Hc0 & Hcm & _). pose proof Hreg as [Hwords Hsp Hroom].
  set (m2 := get_mem x2) in *. assert (Hm2 : get_mem s = m2) by done.
  assert (Hag : agree (fun a => ~ switch_byte R m ps c a) m m2).
  { eapply agree_trans; (eapply agree_mono; [eassumption|]); simpl; intros a Ha.
    - intros Hb. apply Ha. by left.
    - intros i Hi Hn ->. apply Ha. right. right. by exists i. }
  assert (Hrange : forall a n, mapped_range m2 a n <-> mapped_range m a n) by (intros; by eapply agree_mapped_range).
  assert (Hf2 : frame_at m2 (esp r) [eflags r; cs r; eip r]).
  { eapply frame_agree; [exact Hag2| |exact Hf1]. simpl. intros a Ha i Hi Hn ->.
    apply (tw_table _ _ _ _ Htw c (slot m ps i + P_lastthread) Hc); [left; unfold stack_byte; fold r; lia|by apply (last_sched x)]. }
  unfold switch_to_thread. apply wp_bind, wp_below, wp_below, wp_var. fold x2. rewrite Hold. fold t.
  replace (set_lower _ s) with s by (by destruct s as [[? ?] ?]).
  rewrite <-(with_cpu_id s), Hcpu, Hm2.
  apply wp_bind, (wp_save_registers R c r); [lia|done|by split; [..|apply Hrange]|done|by apply Hrange| |].
  { intros a Ha. by apply (tw_structs _ _ _ _ Htw c c a Hc Hc). }
  intros m4 c4 Hag4 Hpark.
  assert (Hagf : agree (fun a => ~ switch_byte R m ps c a) m m4).
  { eapply agree_trans; [exact Hag|]. eapply agree_mono; [exact Hag4|]. simpl. intros a Ha.
    split; intros Hb; apply Ha; [by left|right; by left]. }
  assert (Hfin : forall v', processes v' = ps -> T (__new__thread v') -> threads_wf R T m4 v').
  { intros v' Hv' Ht'. by apply (threads_switched R T x Hwf Htw m4 Hagf v'). }
  assert (Hpk : parked m4 t (R t)).
  { destruct (decide (t = c)) as [->|]; [exact Hpark|]. by apply (parked_kept R T x Htw m4 Hagf). }
  assert (Hpd : pd_word m4 t = pd_word m t) by by apply (pd_word_kept R T x Htw m4 Hagf).
  assert (Hcr : rd32 m4 (pd_word m4 t) = rd32 m (pd_word m t)).
  { rewrite Hpd. apply (rd32_safe R x m4 Hagf). intros a Ha. by apply (pd_safe R T x Htw t). }
  destruct (tw_struct _ _ _ _ (Hfin (vars x2) Hps Ht) t Ht) as (_ & Htm & Hpm).
  apply (wp_load_thread t (R t)); [done|done|done|by apply (tw_regs _ _ _ _ (Hfin (vars x2) Hps Ht))|].
  intros s' Hm' Hv' Htr' Hx'. apply HQ; rewrite ?Hx'.
  - apply (sched_wf_agree x2); [done| |done|done].
    rewrite get_mem_set_vars, get_set_mem, Hps. eapply agree_mono; [exact Hag4|]. simpl.
    intros a Ha. rewrite sched_byte_eq in Ha by (exact (slot_kept R T x Hwf Htw m2 Hag)).
    split; intros Hb; apply (tw_table _ _ _ _ Htw c a Hc); try done; [by left|right; soffs; lia].
  - rewrite Hm'. by apply Hfin.
  - done.
  - exact Hcr.
  - change (cur_process (set_mem m4 x2) = cur_process x2). apply cur_set_mem.
  - done.
  - exact Htr'.
Qed.

(** What a switch away from the running thread promises: the invariants hold
    for the same registers, the scheduler's choice runs with its own registers
    and page directory, and the interrupt is acknowledged. *)
Definition resumed R T s s' : Prop :=
  let x := lower (lower s) in let m := get_mem s in let v := vars x in let ps := processes v in
  let x' := lower (lower s') in let t := __new__thread (vars x') in
  sched_wf x' /\ threads_wf R T (get_mem s') (vars x') /\ vars s' = R t /\
  reg_cr3 (vars x') = rd32 m (pd_word m t) /\
  __irq_enabled (vars x') = __irq_enabled v /\ task (vars x') = task v /\
  io_trace (get_ports s') = io_trace (get_ports s) ++ [Out 8 32 32] /\
  exists d e, next_at (slot m ps) MAX_PROCESSES (last_process v) d /\
    let i := (last_process v + d) mod MAX_PROCESSES in let p := slot m ps i in
    next_at (slot m (p + P_threads)) MAX_THREADS (rd m (p + P_lastthread)) e /\
    cur_process x' = p /\ t = slot m (p + P_threads) ((rd m (p + P_lastthread) + e) mod MAX_THREADS).

(** From the interrupt handler on: the frame of the interrupt is complete, and
    the free part of the running thread's stack may have been used. *)
Lemma wp_reschedule R T s m1 (Q : unit -> world -> Prop) :
  let x := lower (lower s) in let c := __new__thread (vars x) in let r := R c in
  sched_wf x -> threads_wf R T (get_mem s) (vars x) ->
  agree (fun a => ~ stack_byte R c a) (get_mem s) m1 -> frame_at m1 (esp r) [eflags r; cs r; eip r] ->
  (forall s', resumed R T s s' -> Q tt s') ->
  wp reschedule Q (with_cpu (cli (set_esp (esp r - 12) r)) m1 s).
Proof.
  intros x c r Hwf Htw Hag1 Hf1 HQ. set (m := get_mem s) in *. set (v := vars x) in *. set (ps := processes v).
  pose proof (tw_running _ _ _ _ Htw) as Hc. fold c in Hc.
  unfold reschedule. apply wp_bind, wp_below, wp_below. change (lower (lower (with_cpu ?c m1 s))) with (set_mem m1 x).
  assert (Hagm : agree (fun a => ~ switch_byte R m ps c a) m m1).
  { eapply agree_mono; [exact Hag1|]. simpl. intros a Ha Hb. apply Ha. by left. }
  assert (Hslot := slot_kept R T x Hwf Htw m1 Hagm). assert (Hts := thread_slot_kept R T x Hwf Htw m1 Hagm).
  fold v ps in Hslot, Hts. change (get_mem x) with m in Hslot, Hts.
  assert (Hwf1 : sched_wf (set_mem m1 x)).
  { apply (sched_wf_agree x); [done| |done|done]. rewrite get_set_mem. eapply agree_mono; [exact Hag1|]. simpl.
    intros a Ha Hb. by apply (tw_table _ _ _ _ Htw c a Hc); [left|]. }
  apply wp_switch_wf; [exact Hwf1|]. intros x2 d e v1 ps1 m' Hd i p l He j t Hwf2 Htab Hag2 Hlast Hcur Hv2.
  change v1 with v in *. change ps1 with ps in *. assert (Hm1 : m' = m1) by apply get_set_mem. clearbody m'. subst m'.
  assert (Hi : 0 <= i < MAX_PROCESSES) by (apply Z.mod_pos_bound; unfold MAX_PROCESSES; lia).
  assert (Hd0 : next_at (slot m ps) MAX_PROCESSES (last_process v) d).
  { eapply next_at_ext; [unfold MAX_PROCESSES; lia| |exact Hd]. intros k Hk. symmetry. by apply Hslot. }
  assert (Hp : p = slot m ps i) by by apply Hslot. assert (Hpn : slot m ps i <> 0) by apply Hd0.
  assert (Hl : l = rd m (p + P_lastthread)).
  { unfold l. rewrite (proj2 Hag1); [done|]. rewrite Hp. intros Hb.
    by apply (tw_table _ _ _ _ Htw c (slot m ps i + P_lastthread) Hc); [left|apply (last_sched x)]. }
  assert (He0 : next_at (slot m (p + P_threads)) MAX_THREADS l e).
  { eapply next_at_ext; [unfold MAX_THREADS; lia| |exact He]. intros k Hk. rewrite Hp. symmetry. by apply Hts. }
  assert (Hj : 0 <= j < MAX_THREADS) by (apply Z.mod_pos_bound; unfold MAX_THREADS; lia).
  assert (Htm : t = slot m (p + P_threads) j) by (unfold t; rewrite Hp; by apply Hts).
  assert (HT : T t).
  { rewrite Htm, Hp. apply (tw_all _ _ _ _ Htw i j Hi Hpn Hj). fold v ps. rewrite <-Hp. apply He0. }
  apply (wp_switch_to_thread R T x m1); [done|done|done|done|done| | | | |done|];
    change (lower (lower (set_lower (set_lower x2 ?b) ?b'))) with x2; rewrite ?Hv2; [done|done|exact HT| |].
  - eapply agree_mono; [exact Hag2|]. simpl. intros a Ha. rewrite Hp. by apply Ha.
  - intros s' x' Hw' Ht' Hr' Hcr' Hcur' Hn' Htr'. apply HQ. unfold resumed. change (lower (lower s')) with x'.
    assert (Hnt : __new__thread (vars x') = t) by by rewrite Hn'.
    rewrite Hnt. split_and!; [done..|by rewrite Hn'|by rewrite Hn'|exact Htr'|].
    exists d, e. fold x m. fold v ps. change ((last_process v + d) mod MAX_PROCESSES) with i. rewrite <-Hp, <-Hl.
    split_and!; [done|done| |exact Htm]. rewrite Hcur'. exact Hcur.
Qed.

(** The frame of an interrupt of the running thread. *)
Lemma wp_interrupt R T s (Q : unit -> world -> Prop) :
  let x := lower (lower s) in let c := __new__thread (vars x) in let r := R c in
  threads_wf R T (get_mem s) (vars x) -> vars s = r ->
  (forall m1, agree (fun a => ~ stack_byte R c a) (get_mem s) m1 -> frame_at m1 (esp r) [eflags r; cs r; eip r] ->
     Q tt (with_cpu (cli (set_esp (esp r - 12) r)) m1 s)) ->
  wp interrupt Q s.
Proof.
  intros x c r Htw Hcpu HQ. pose proof (tw_regs _ _ _ _ Htw c (tw_running _ _ _ _ Htw)) as [Hwords Hsp Hroom].
  fold r in Hwords, Hsp, Hroom. unfold interrupt. apply wp_bind, wp_var, wp_bind. rewrite Hcpu.
  rewrite <-(with_cpu_id s), Hcpu. change (get_mem (with_cpu r (get_mem s) s)) with (get_mem s).
  apply (wp_push_seq [eflags r; cs r; eip r]); simpl length; [lia|eapply mapped_range_sub; [exact Hroom|lia..]| |].
  { by apply Forall_app in Hwords as [? _]. }
  intros m1 Hag1 Hf1. apply wp_assign. rewrite set_vars_with_cpu. change (vars (with_cpu ?c m1 s)) with c.
  replace (esp r - 4 * Z.of_nat 3) with (esp r - 12) in * by lia. apply HQ; [|done].
  eapply agree_mono; [exact Hag1|]. simpl. intros a Ha Hb. apply Ha. unfold stack_byte. fold r. lia.
Qed.

(** C5: The context switch runs every thread as if it had never stopped.  Take
    any assignment of registers to the threads of the kernel such that the
    running thread's are in the processor, and those of every other thread are
    in the frame on its stack, which is apart from the other stacks and the
    kernel's structures.  A switch ends in a state with the same assignment:
    the scheduler's choice is the running thread, all its registers, its stack
    pointer and flags are what they were when it was interrupted, its page
    directory is loaded, and the thread that was running has its registers on
    its stack. *)
Theorem context_switch_resumes R T s :
  let x := lower (lower s) in
  sched_wf x -> threads_wf R T (get_mem s) (vars x) -> vars s = R (__new__thread (vars x)) ->
  wp context_switch (fun _ s' => resumed R T s s') s.
Proof.
  intros x Hwf Htw Hcpu. unfold context_switch. apply wp_bind, (wp_interrupt R T); [done..|].
  intros m1 Hag Hf. by apply (wp_reschedule R T).
Qed.
End threads.

(** ** The theorem at work

    Two processes at 0x2000 and 0x3000 with a thread each, at 0x4000 and 0x4100;
    the first is running, the frame of the second lies below 0x5000. *)

#[local] Existing Instance Arm.provider.

Definition demo_r1 : cpu := Cpu 1 2 3 4 5 6 7 24576 1048576 514 8 16 16 16 16.
Definition demo_r2 : cpu := Cpu 11 12 13 14 15 16 17 20480 2097152 582 8 16 16 16 16.
Definition demo_R (t : Z) : cpu := if t =? 16640 then demo_r2 else demo_r1.
Definition demo_T (t : Z) : Prop := t = 16384 \/ t = 16640.

Definition demo_switch_words : list (Z * Z) :=
  [(4096, 8192); (4108, 12288); (8192 + P_threads, 16384); (12288 + P_threads, 16640);
   (8192 + P_paged, 32768); (12288 + P_paged, 36864);
   (16384 + T_paged, 8192 + P_paged); (16640 + T_paged, 12288 + P_paged); (16640 + T_stack, 20480 - 56)] ++
  imap (fun k w => (20480 - 4 * (Z.of_nat k + 1), w)) (saved_words demo_r2).
Definition demo_switch_mem : mem :=
  foldl (fun m '(a, v) => mwrite m a (le32 v)) (Mem ∅ [(4096, 65536)]) demo_switch_words.
Definition demo_world : layer (layer (layer (phymem (heap Arm.state)) sched_vars) ports) cpu :=
  Layer (Layer (Layer (Phymem (heap_init demo_switch_mem Arm.init) 0 0 0 0 0)
    (SchedVars 4096 0 0 6 0 16384 0 0 1 1 1 0 0)) (Ports (fun _ _ _ => 0) [])) demo_r1.

Lemma demo_switch_mapped a n : 4096 <= a -> 0 <= n -> a + n <= 65536 -> mapped_range demo_switch_mem a n.
Proof.
  intros. assert (E : m_ranges demo_switch_mem = [(4096, 65536)]) by reflexivity.
  destruct demo_switch_mem as [bs rs]. simpl in E. subst rs. eapply mapped_range_intro; [left|lia..].
Qed.

(** A table that holds [v] at [i] and nothing else, apart from [u] at 0. *)
Lemma demo_table b n (i : nat) u v k :
  forallb (fun k => slot demo_switch_mem b (Z.of_nat k) =? (if (k =? 0)%nat then u else if (k =? i)%nat then v else 0)) (seq 0 n) = true ->
  0 <= k < Z.of_nat n -> slot demo_switch_mem b k <> 0 ->
  (k = 0 /\ slot demo_switch_mem b k = u) \/ (k = Z.of_nat i /\ slot demo_switch_mem b k = v).
Proof.
  intros Hall Hk Hn. rewrite forallb_forall in Hall. specialize (Hall (Z.to_nat k)). rewrite Z2Nat.id in Hall by lia.
  apply Z.eqb_eq in Hall; [|apply in_seq; lia].
  destruct (Nat.eqb_spec (Z.to_nat k) 0); [left; lia|].
  destruct (Nat.eqb_spec (Z.to_nat k) i); [right; lia|lia].
Qed.

Lemma demo_processes k : 0 <= k < MAX_PROCESSES -> slot demo_switch_mem 4096 k <> 0 ->
  slot demo_switch_mem 4096 k = 8192 \/ slot demo_switch_mem 4096 k = 12288.
Proof.
  intros Hk Hn. destruct (demo_table 4096 32 3 8192 12288 k) as [[_ H]|[_ H]]; [vm_compute; reflexivity|exact Hk|exact Hn|by left|by right].
Qed.

Lemma demo_thread p k : p = 8192 \/ p = 12288 -> 0 <= k < MAX_THREADS -> slot demo_switch_mem (p + P_threads) k <> 0 ->
  demo_T (slot demo_switch_mem (p + P_threads) k).
Proof.
  intros [-> | ->] Hk Hn.
  - destruct (demo_table (8192 + P_threads) 16 0 16384 0 k) as [[_ H]|[_ H]]; [vm_compute; reflexivity|exact Hk|exact Hn|by left|]. by rewrite H in Hn.
  - destruct (demo_table (12288 + P_threads) 16 0 16640 0 k) as [[_ H]|[_ H]]; [vm_compute; reflexivity|exact Hk|exact Hn|by right|]. by rewrite H in Hn.
Qed.

Lemma demo_world_wf : sched_wf (lower (lower demo_world)).
Proof.
  split; change (get_mem (lower (lower demo_world))) with demo_switch_mem; change (processes (vars (lower (lower demo_world)))) with 4096.
  - done.
  - by apply demo_switch_mapped.
  - exists 0. split; [done|]. vm_compute. discriminate.
  - intros i Hi. cbv zeta. intros Hp.
    destruct (demo_processes i Hi Hp) as [-> | ->]; (split; [|right; vm_compute; discriminate]);
      (split; [split; [done|by apply demo_switch_mapped]|vm_compute; reflexivity|exists 0; split; [done|vm_compute; discriminate]]).
  - intros i j Hi Hj. cbv zeta. intros Hp Hq. soffs.
    destruct (demo_processes i Hi Hp) as [-> | ->], (demo_processes j Hj Hq) as [-> | ->]; lia.
Qed.

Lemma demo_sched_byte a : sched_byte demo_switch_mem 4096 a -> 4096 <= a < 4224 \/ 8192 <= a < 8448 \/ 12288 <= a < 12544.
Proof.
  intros [Hb|(i & Hi & Hn & Hb)]; [soffs; lia|].
  destruct (demo_processes i Hi Hn) as [E|E]; rewrite E in Hb; soffs; lia.
Qed.

Lemma demo_pd t : demo_T t -> pd_word demo_switch_mem t = (if t =? 16640 then 12288 else 8192) + P_paged.
Proof. intros [-> | ->]; vm_compute; reflexivity. Qed.

Lemma demo_threads : threads_wf demo_R demo_T demo_switch_mem (vars (lower (lower demo_world))).
Proof.
  assert (Hst : forall t a, demo_T t -> stack_byte demo_R t a -> t = 16384 /\ 24520 <= a < 24576 \/ t = 16640 /\ 20424 <= a < 20480).
  { intros t a [-> | ->] Ha; [left|right]; unfold stack_byte in Ha; simpl in Ha; lia. }
  assert (Hsb : forall t a, demo_T t -> in_block t sizeof_thread a -> t = 16384 /\ 16384 <= a < 16412 \/ t = 16640 /\ 16640 <= a < 16668).
  { intros t a [-> | ->] Ha; [left|right]; soffs; lia. }
  split.
  - by left.
  - intros i j Hi Hn Hj. change (processes (vars (lower (lower demo_world)))) with 4096 in *. intros Hx.
    by apply demo_thread; [apply demo_processes|..].
  - intros t [-> | ->] Hne; [by destruct Hne|]. split; [vm_compute; reflexivity|].
    intros k w Hk. do 14 (destruct k as [|k]; [injection Hk as <-; vm_compute; reflexivity|]). done.
  - intros t [-> | ->]; (split; [by repeat constructor|simpl; lia|apply demo_switch_mapped; simpl; lia]).
  - intros t Ht. rewrite demo_pd by done. destruct Ht as [-> | ->]; (split_and!; [lia|apply demo_switch_mapped; soffs; lia..|
      apply demo_switch_mapped; simpl; unfold P_paged; lia]).
  - intros t u a Ht Hu Hne Ha Hb. apply Hst in Ha, Hb; [|done..]. lia.
  - intros t u a Ht Hu Ha. apply Hsb in Ha; [|done]. split.
    + intros Hb. apply Hst in Hb; [|done]. lia.
    + intros Hne Hb. apply Hsb in Hb; [|done]. lia.
  - intros t a Ht Ha Hb. apply demo_sched_byte in Hb. destruct Ha as [Ha|Ha]; [apply Hst in Ha|apply Hsb in Ha]; (done || lia).
  - intros t u a Ht Hu Ha. rewrite demo_pd in Ha by done.
    assert (Ha' : 8200 <= a < 8204 \/ 12296 <= a < 12300) by (unfold in_block, P_paged in Ha; destruct (t =? 16640); lia).
    split_and!; [intros Hb; apply Hst in Hb; [lia|done]|intros Hb; apply Hsb in Hb; [lia|done]|].
    intros i Hi Hn. change (processes (vars (lower (lower demo_world)))) with 4096 in *.
    destruct (demo_processes i Hi Hn) as [-> | ->]; unfold P_lastthread; lia.
Qed.

Lemma context_switch_resumes_witness :
  wp context_switch (fun _ s' => vars s' = demo_R (__new__thread (vars (lower (lower s')))) /\
    threads_wf demo_R demo_T (get_mem s') (vars (lower (lower s')))) demo_world.
Proof.
  eapply wp_mono; [apply (context_switch_resumes demo_R demo_T demo_world)|].
  - exact demo_world_wf.
  - exact demo_threads.
  - reflexivity.
  - intros [] s' (_ & Ht & Hr & _). by split.
Defined.
