(* ===== verification/Tty.v ===== *)
(** * Terminals: [tty/tty.c]

    A terminal is a [struct tty] of the array [tty_s]: an output buffer and an
    input queue.  Its operations are called through pointers, which [tty_init]
    sets to the generic functions; a call through another pointer faults.
    Displays are an interface: [textmode_display_new] and the functions a
    display points to are in display/textmode.c, above this file. *)

From stdpp Require Import base numbers list gmap.
From Stdlib Require Import ZArith Lia.
From S2P Require Import Prelude Memory CString Process Pages Arm Liballoc LiballocInv LiballocProof LiballocSpec Allocator Layer Tables Device Mutex.

Local Open Scope Z_scope.

Definition TTY_FLAG_ACTIVE : Z := 1.
Definition TTY_FLAG_ONLINE : Z := 2.
Definition TTY_BUFFER_SIZE : Z := 4192.

(** [struct tty] *)
Definition Y_id : Z := 0.
Definition Y_flags : Z := 4.
Definition Y_write : Z := 8.
Definition Y_flush : Z := 12.
Definition Y_read : Z := 16.
Definition Y_setactive : Z := 20.
Definition Y_disp : Z := 24.
Definition Y_inp : Z := 28.
Definition Y_m_lock : Z := 32.     (* one byte *)
Definition Y_buffer : Z := 36.
Definition Y_buflen : Z := 40.
Definition Y_bufpos : Z := 44.
Definition Y_inbuf : Z := 48.
Definition Y_inbuflen : Z := 52.
Definition sizeof_tty : Z := 56.

(** [struct display], include/display.h *)
Definition DP_update : Z := 0.
Definition DP_putchar : Z := 4.
Definition DP_setactive : Z := 8.
Definition DP_getpos : Z := 12.
Definition DP_priv : Z := 16.
Definition DP_mtty : Z := 20.
Definition sizeof_display : Z := 24.

Record tty_vars : Type := TtyVars { tty_s : Z; ctty : Z }.

Section ops.
Context {S G : Type} `{Allocator S G}.
Notation DS := (layer S device_vars).
Notation TM := (M (layer (layer DS Z) tty_vars)).

Variable schedule_noirq : M (layer DS Z) unit.
(** The addresses of the generic operations. *)
Variables (f_write f_flush f_read f_setactive f_dev_write : Z).
(** A display's functions, and the architecture's constructors. *)
Variable call_display : Z -> Z -> TM Z.
Variables (arch_new_default_display arch_new_default_input : Z -> TM Z).
(** The static buffer of [itoa], and the literal [tty]. *)
Variables (itoa_buf str_tty : Z).

Definition tty_at (id : Z) : TM Z := let! t := var tty_s in ret (t + sizeof_tty * id).

Definition tty_generic_write (m buf len : Z) : TM Z :=
  let! bufpos := ld32 (m + Y_bufpos) in
  let! buflen := ld32 (m + Y_buflen) in
  if u32 (bufpos + len) >? buflen then ret (- ENOSPC)
  else
    below (mutex_lock schedule_noirq (m + Y_m_lock)) ;!
    let! buffer := ld32 (m + Y_buffer) in
    let! bufpos := ld32 (m + Y_bufpos) in
    memcpy (u32 (buffer + bufpos)) buf len ;!
    let! bufpos := ld32 (m + Y_bufpos) in
    st32 (m + Y_bufpos) (u32 (bufpos + len)) ;!
    below (mutex_unlock schedule_noirq (m + Y_m_lock)) ;!
    ret 0.

Definition tty_generic_flush (m : Z) : TM Z :=
  let! flags := ld32 (m + Y_flags) in
  if Z.land flags TTY_FLAG_ACTIVE =? 0 then ret (- ENOTTY)
  else
    let! disp := ld32 (m + Y_disp) in
    let! update := ld32 (disp + DP_update) in
    if negb (update =? 0) then call_display update disp else ret (- ENOSYS).

Definition call_flush (f m : Z) : TM Z :=
  if f =? f_flush then tty_generic_flush m else fault.

Definition tty_generic_setactive (m : Z) : TM Z :=
  let! disp := ld32 (m + Y_disp) in
  let! sa := ld32 (disp + DP_setactive) in
  (if! negb (sa =? 0) then (let! _ := call_display sa disp in ret tt)) ;!
  let! f := ld32 (m + Y_flush) in
  let! _ := call_flush f m in
  ret 0.

Definition switch_to_tty (id : Z) : TM unit :=
  let! old := var ctty in
  let! m := tty_at old in
  let! flags := ld32 (m + Y_flags) in
  st32 (m + Y_flags) (Z.land flags (u32 (Z.lnot TTY_FLAG_ACTIVE))) ;!
  assign (fun v => TtyVars (tty_s v) id) ;!
  let! m := tty_at id in
  let! flags := ld32 (m + Y_flags) in
  st32 (m + Y_flags) (Z.lor flags TTY_FLAG_ACTIVE) ;!
  let! disp := ld32 (m + Y_disp) in
  (if! disp =? 0 then
     (let! d := arch_new_default_display m in st32 (m + Y_disp) d)) ;!
  let! f := ld32 (m + Y_setactive) in
  let! _ := if f =? f_setactive then tty_generic_setactive m else fault in
  ret tt.

(** No bound is checked. *)
Definition tty_push_byte (id c : Z) : TM Z :=
  let! m := tty_at id in
  let! inbuf := ld32 (m + Y_inbuf) in
  let! inbuflen := ld32 (m + Y_inbuflen) in
  st8 (u32 (inbuf + inbuflen)) c ;!
  let! inbuflen := ld32 (m + Y_inbuflen) in
  st32 (m + Y_inbuflen) (u32 (inbuflen + 1)) ;!
  ret 0.

Definition tty_get (id : Z) : TM Z := tty_at id.

Definition tty_generic_read (m buf len : Z) : TM Z :=
  let! inbuflen := ld32 (m + Y_inbuflen) in
  if (inbuflen =? 0) || (len =? 0) then ret 0
  else
    let! copied :=
      loop (fun i =>
        if i <? len then
          let! inbuf := ld32 (m + Y_inbuf) in
          let! b := ld8 (u32 (inbuf + i)) in
          let! inbuflen := ld32 (m + Y_inbuflen) in
          if negb (b =? 0) && (i <=? inbuflen) then
            let! b := ld8 (u32 (inbuf + i)) in
            st8 (u32 (buf + i)) b ;!
            ret (inl (i + 1))
          else ret (inr i)
        else ret (inr i)) 0 in
    if copied =? 0 then ret 0
    else
      let! inbuflen := ld32 (m + Y_inbuflen) in
      st32 (m + Y_inbuflen) (u32 (inbuflen - copied)) ;!
      let! inbuf := ld32 (m + Y_inbuf) in
      memcpy inbuf (u32 (inbuf + copied)) (u32 (TTY_BUFFER_SIZE - copied)) ;!
      ret copied.

Definition tty_read (id buf len : Z) : TM Z :=
  let! m := tty_at id in
  let! f := ld32 (m + Y_read) in
  if f =? f_read then tty_generic_read m buf len else fault.

Definition tty_current : TM Z := var ctty.

Definition tty_generic_dev_write (dev buf st len : Z) : TM Z := ret 0.

(** One round of the loop of [tty_init]: [Some rc] leaves the function. *)
Definition tty_init_one (i : Z) : TM (option Z) :=
  let! m := tty_at i in
  st32 (m + Y_id) i ;!
  st32 (m + Y_flags) 0 ;!
  st32 (m + Y_write) f_write ;!
  st32 (m + Y_read) f_read ;!
  st32 (m + Y_setactive) f_setactive ;!
  st32 (m + Y_flush) f_flush ;!
  let! b := malloc TTY_BUFFER_SIZE in
  st32 (m + Y_buffer) b ;!
  let! b := ld32 (m + Y_buffer) in
  if b =? 0 then ret (Some (- ENOMEM))
  else
    st32 (m + Y_buflen) TTY_BUFFER_SIZE ;!
    st32 (m + Y_bufpos) 0 ;!
    let! b := malloc TTY_BUFFER_SIZE in
    st32 (m + Y_inbuf) b ;!
    let! b := ld32 (m + Y_inbuf) in
    if b =? 0 then ret (Some (- ENOMEM))
    else
      st32 (m + Y_inbuflen) 0 ;!
      let! d := arch_new_default_display m in
      st32 (m + Y_disp) d ;!
      let! d := arch_new_default_input m in
      st32 (m + Y_inp) d ;!
      let! tdev := malloc sizeof_device in
      if tdev =? 0 then ret (Some (- ENOMEM))
      else
        let! id := ld32 (m + Y_id) in
        st32 (tdev + D_id) id ;!
        let! namebuf := malloc 32 in
        if namebuf =? 0 then ret (Some (- ENOMEM))
        else
          memcpy namebuf str_tty 3 ;!
          let! id := ld32 (m + Y_id) in
          itoa itoa_buf id 10 (namebuf + 3) ;!
          st8 (tdev + D_valid) 1 ;!
          st32 (tdev + D_name) namebuf ;!
          st32 (tdev + D_write) f_dev_write ;!
          let! _ := below (below (device_register tdev)) in
          ret None.

Definition tty_init (ttys : Z) : TM Z :=
  let! p := malloc (u32 (sizeof_tty * ttys)) in
  assign (fun v => TtyVars p (ctty v)) ;!
  if p =? 0 then ret (- ENOMEM)
  else
    let! _ := memset p 0 sizeof_tty in
    let! r := for_find (Z.to_nat ttys) 0 tty_init_one in
    ret (default 0 r).

Definition tty_write (id buf len : Z) : TM unit :=
  let! m := tty_at id in
  let! f := ld32 (m + Y_write) in
  let! _ := if f =? f_write then tty_generic_write m buf len else fault in
  ret tt.

Definition tty_flush (id : Z) : TM unit :=
  let! m := tty_at id in
  let! f := ld32 (m + Y_flush) in
  let! _ := call_flush f m in
  ret tt.
End ops.

(** ** The input queue *)

(** The terminal at [t] holds the input [q]: non-zero bytes, oldest first. *)
Record input_queue (m : mem) (t : Z) (q : list Z) : Prop := {
  iq_tty : 0 <= t /\ mapped_range m t sizeof_tty;
  iq_buf : mapped_range m (rd32 m (t + Y_inbuf)) TTY_BUFFER_SIZE;
  iq_sep : rd32 m (t + Y_inbuf) + TTY_BUFFER_SIZE <= t \/ t + sizeof_tty <= rd32 m (t + Y_inbuf);
  iq_len : rd32 m (t + Y_inbuflen) = Z.of_nat (length q);
  iq_fit : Z.of_nat (length q) <= TTY_BUFFER_SIZE;
  iq_bytes : forall i c, q !! i = Some c -> rd m (rd32 m (t + Y_inbuf) + Z.of_nat i) = c;
  iq_nonzero : Forall (fun c => 0 < c < 256) q;
}.

Ltac yoffs := unfold sizeof_tty, TTY_BUFFER_SIZE, Y_inbuf, Y_inbuflen, Y_bufpos, Y_buflen, Y_buffer, Y_m_lock,
  Y_flags, Y_write, Y_read in *.

(** A byte range that a caller passes: mapped, and apart from the terminal and
    its queue. *)
Definition caller_buf (m : mem) (t buf len : Z) : Prop :=
  mapped_range m buf len /\ (buf + len <= t \/ t + sizeof_tty <= buf) /\
  (buf + len <= rd32 m (t + Y_inbuf) \/ rd32 m (t + Y_inbuf) + TTY_BUFFER_SIZE <= buf).

Lemma input_queue_agree m m' t q :
  agree (fun a => in_block t sizeof_tty a \/ in_block (rd32 m (t + Y_inbuf)) TTY_BUFFER_SIZE a) m m' ->
  input_queue m t q -> input_queue m' t q.
Proof.
  intros Hag [[Ht Htm] Hbm Hsep Hlen Hfit Hb Hnz]. unfold in_block in *.
  assert (Hr : forall o, 0 <= o <= 52 -> rd32 m' (t + o) = rd32 m (t + o)).
  { intros o Ho. apply (rd32_agree _ _ _ _ Hag); cbv beta; left; unfold sizeof_tty; lia. }
  split; rewrite ?Hr by (yoffs; lia); try done.
  - split; [done|]. by eapply agree_mapped_range.
  - by eapply agree_mapped_range.
  - intros i c Hi. pose proof (lookup_lt_Some _ _ _ Hi). rewrite (proj2 Hag) by lia. by apply Hb.
Qed.

Section spec.
Context {S : Type} `{HasMem S}.
Notation TS := (layer (layer (layer S device_vars) Z) tty_vars).
Implicit Types (s : TS).

(** The step changes the queue's buffer behind the queue, and its length. *)
Lemma wp_push_byte s id c q (Q : Z -> TS -> Prop) :
  let t := tty_s (vars s) + sizeof_tty * id in
  input_queue (get_mem s) t q -> Z.of_nat (length q) < TTY_BUFFER_SIZE -> 0 < c < 256 ->
  (forall m', input_queue m' t (q ++ [c]) ->
     agree (fun a => a <> rd32 (get_mem s) (t + Y_inbuf) + Z.of_nat (length q) /\
       ~ (t + Y_inbuflen <= a < t + Y_inbuflen + 4)) (get_mem s) m' ->
     Q 0 (set_mem m' s)) ->
  wp (tty_push_byte id c) Q s.
Proof.
  intros t [[Ht Htm] Hbm Hsep Hlen Hfit Hb Hnz] Hroom Hc HQ. unfold tty_push_byte, tty_at.
  pose proof Htm as (_ & Ht1 & _). pose proof Hbm as (Hb0 & Hb1 & Hbmap).
  set (b := rd32 (get_mem s) (t + Y_inbuf)) in *. yoffs.
  apply wp_bind, wp_bind, wp_var, wp_ret. fold t.
  apply wp_bind, wp_ld32; [eapply mapped_range_sub; [exact Htm|lia..]|]. fold b.
  apply wp_bind, wp_ld32; [eapply mapped_range_sub; [exact Htm|lia..]|]. rewrite Hlen, u32_small by lia.
  apply wp_bind, wp_st8; [lia|apply Hbmap; lia|]. lens.
  apply wp_bind, wp_ld32; [lens; rewrite mapped_range_mset; eapply mapped_range_sub; [exact Htm|lia..]|]. lens.
  rewrite rd32_mset_out, Hlen, u32_small by lia.
  apply wp_bind, wp_st32; [lens; rewrite mapped_range_mset; eapply mapped_range_sub; [exact Htm|lia..]|]. lens.
  apply wp_ret. set (m' := mwrite _ _ _).
  assert (Hag : agree (fun a => a <> b + Z.of_nat (length q) /\ ~ (t + 52 <= a < t + 56)) (get_mem s) m').
  { split; [unfold m'; rewrite ranges_mwrite; done|]. intros a Ha. unfold m'.
    rewrite rd_mwrite_out by (rewrite le32_length; lia). apply rd_mset_out. lia. }
  assert (Hb' : rd32 m' (t + 48) = b) by (apply (rd32_agree _ _ _ _ Hag); cbv beta; lia).
  apply HQ; [|by eapply agree_mono; [exact Hag|]; cbv beta; intros; lia].
  split; yoffs; rewrite ?Hb'.
  - split; [done|]. by eapply agree_mapped_range.
  - by eapply agree_mapped_range.
  - done.
  - unfold m'. rewrite rd32_mwrite_same, u32_small, length_app by lia. simpl. lia.
  - rewrite length_app. simpl. lia.
  - intros i c' Hi. apply lookup_snoc_Some in Hi as [[Hi Hq]|[-> ->]].
    + rewrite (proj2 Hag) by lia. by apply Hb.
    + unfold m'. rewrite rd_mwrite_out by (rewrite le32_length; lia). rewrite rd_mset.
      destruct (decide _); [|done]. apply u8_small. lia.
  - apply Forall_app. split; [done|]. constructor; [done|constructor].
Qed.

(** tty_push_byte puts a byte behind the input queued for the terminal,
    while the queue has room. *)
Theorem tty_push_byte_spec s id c q :
  let t := tty_s (vars s) + sizeof_tty * id in
  input_queue (get_mem s) t q -> Z.of_nat (length q) < TTY_BUFFER_SIZE -> 0 < c < 256 ->
  wp (tty_push_byte id c) (fun r s' => r = 0 /\ input_queue (get_mem s') t (q ++ [c])) s.
Proof. intros t Hq Hr Hc. apply (wp_push_byte s id c q); [done..|]. intros m' Hq' _. by lens. Qed.

(** The bytes the copying loop of [tty_generic_read] takes: it stops at the
    caller's length, at a zero byte, or behind position [inbuflen]. *)
Definition taken (m : mem) (b n len k : Z) : Prop :=
  0 <= k <= len /\ (forall i, 0 <= i < k -> rd m (b + i) <> 0 /\ i <= n) /\
  (k = len \/ rd m (b + k) = 0 \/ n < k).

Lemma copied_agree m buf b i len : 0 <= i <= len -> agree (fun a => ~ buf <= a < buf + i) m (mwrite m buf (mread m b i)).
Proof.
  intros Hi. split; [apply ranges_mwrite|]. intros a Ha. rewrite rd_mwrite_out; [done|].
  rewrite length_mread. lia.
Qed.

(** The end of a read: the queue moves down. *)
Lemma wp_read_finish s t buf len n k (Q : Z -> TS -> Prop) :
  let m := get_mem s in let b := rd32 m (t + Y_inbuf) in
  0 <= t -> mapped_range m t sizeof_tty -> mapped_range m b TTY_BUFFER_SIZE ->
  (b + TTY_BUFFER_SIZE <= t \/ t + sizeof_tty <= b) -> caller_buf m t buf len ->
  rd32 m (t + Y_inbuflen) = n -> 0 <= k <= len -> 0 < k < TTY_BUFFER_SIZE ->
  (forall m', rd32 m' (t + Y_inbuflen) = u32 (n - k) -> rd32 m' (t + Y_inbuf) = b ->
     (forall i, 0 <= i < k -> rd m' (buf + i) = rd m (b + i)) ->
     (forall i, 0 <= i < TTY_BUFFER_SIZE - k -> rd m' (b + i) = rd m (b + k + i)) ->
     agree (fun a => ~ in_block buf len a /\ ~ in_block b TTY_BUFFER_SIZE a /\
       ~ in_block (t + Y_inbuflen) 4 a) m m' ->
     Q k (set_mem m' s)) ->
  wp (let! inbuflen := ld32 (t + Y_inbuflen) in
      st32 (t + Y_inbuflen) (u32 (inbuflen - k)) ;!
      let! inbuf := ld32 (t + Y_inbuf) in
      memcpy inbuf (u32 (inbuf + k)) (u32 (TTY_BUFFER_SIZE - k)) ;!
      ret k) Q (set_mem (mwrite m buf (mread m b k)) s).
Proof.
  intros m b Ht Htm Hbm Hsep (Hbuf & Hd1 & Hd2) Hn Hk Hk0 HQ.
  pose proof Htm as (_ & Ht1 & _). pose proof Hbm as (Hb0 & Hb1 & Hbmap). fold b in Hd2. unfold in_block in *. yoffs.
  pose proof (copied_agree m buf b k len Hk) as Hst. set (m1 := mwrite m buf (mread m b k)) in *.
  assert (Hrd : forall o, o = 48 \/ o = 52 -> rd32 m1 (t + o) = rd32 m (t + o)).
  { intros o Ho. apply (rd32_agree _ _ _ _ Hst); cbv beta; lia. }
  apply wp_bind, wp_ld32; [lens; eapply agree_mapped_range; [exact Hst|]; eapply mapped_range_sub; [exact Htm|lia..]|].
  lens. rewrite Hrd, Hn by lia.
  apply wp_bind, wp_st32; [lens; eapply agree_mapped_range; [exact Hst|]; eapply mapped_range_sub; [exact Htm|lia..]|].
  lens. apply wp_bind, wp_ld32.
  { lens. rewrite mapped_range_mwrite. eapply agree_mapped_range; [exact Hst|]. eapply mapped_range_sub; [exact Htm|lia..]. }
  lens. rewrite rd32_mwrite_out by (rewrite le32_length; lia). assert (Hib : rd32 m1 (t + 48) = b) by (apply Hrd; lia). rewrite !Hib.
  rewrite (u32_small (b + k)), (u32_small (4192 - k)) by lia.
  set (m2 := mwrite m1 (t + 52) (le32 (u32 (n - k)))).
  assert (Hm2 : agree (fun a => ~ (t + 52 <= a < t + 56)) m1 m2).
  { split; [apply ranges_mwrite|]. intros a Ha. apply rd_mwrite_out. rewrite le32_length. lia. }
  assert (Hmm : forall a z, mapped_range m a z -> mapped_range m2 a z).
  { intros a z Hz. eapply agree_mapped_range; [exact Hm2|]. by eapply agree_mapped_range. }
  apply wp_bind, wp_memcpy; [lia|lens; eapply Hmm, mapped_range_sub; [exact Hbm|lia..]
    |lens; eapply Hmm, mapped_range_sub; [exact Hbm|lia..]|unfold forward_ok; lia|].
  lens. apply wp_ret. set (m3 := mwrite m2 b _).
  assert (Hm3 : agree (fun a => ~ (b <= a < b + (4192 - k))) m2 m3).
  { split; [apply ranges_mwrite|]. intros a Ha. apply rd_mwrite_out. rewrite length_mread. lia. }
  apply HQ.
  - rewrite (rd32_agree _ _ _ _ Hm3) by (cbv beta; lia). unfold m2. rewrite rd32_mwrite_same.
    unfold u32. rewrite Z.mod_mod by lia. done.
  - rewrite (rd32_agree _ _ _ _ Hm3) by (cbv beta; lia). rewrite (rd32_agree _ _ _ _ Hm2) by (cbv beta; lia).
    apply Hrd; lia.
  - intros x Hx. rewrite (proj2 Hm3), (proj2 Hm2) by lia. unfold m1.
    rewrite (rd_mwrite_mread_in m m buf b k); [f_equal; lia|lia].
  - intros x Hx. unfold m3. rewrite (rd_mwrite_mread_in m2 m2 b (b + k) (4192 - k)) by lia.
    rewrite (proj2 Hm2), (proj2 Hst) by lia. f_equal. lia.
  - split; [by rewrite (proj1 Hm3), (proj1 Hm2), (proj1 Hst)|]. intros a Ha.
    rewrite (proj2 Hm3), (proj2 Hm2) by lia. apply Hst. lia.
Qed.

Lemma wp_generic_read s t buf len n k (Q : Z -> TS -> Prop) :
  let m := get_mem s in let b := rd32 m (t + Y_inbuf) in
  0 <= t -> mapped_range m t sizeof_tty -> mapped_range m b TTY_BUFFER_SIZE ->
  (b + TTY_BUFFER_SIZE <= t \/ t + sizeof_tty <= b) -> caller_buf m t buf len ->
  rd32 m (t + Y_inbuflen) = n -> 0 < n -> taken m b n len k -> 0 < k < TTY_BUFFER_SIZE ->
  (forall m', rd32 m' (t + Y_inbuflen) = u32 (n - k) -> rd32 m' (t + Y_inbuf) = b ->
     (forall i, 0 <= i < k -> rd m' (buf + i) = rd m (b + i)) ->
     (forall i, 0 <= i < TTY_BUFFER_SIZE - k -> rd m' (b + i) = rd m (b + k + i)) ->
     agree (fun a => ~ in_block buf len a /\ ~ in_block b TTY_BUFFER_SIZE a /\
       ~ in_block (t + Y_inbuflen) 4 a) m m' ->
     Q k (set_mem m' s)) ->
  wp (tty_generic_read t buf len) Q s.
Proof.
  intros m b Ht Htm Hbm Hsep (Hbuf & Hd1 & Hd2) Hn Hn0 (Hk & Hall & Hstop) Hk0 HQ.
  pose proof Htm as (_ & Ht1 & _). pose proof Hbm as (Hb0 & Hb1 & Hbmap). pose proof Hbuf as (Hf0 & Hf1 & Hfm).
  fold b in Hd2. unfold tty_generic_read, in_block in *. yoffs.
  apply wp_bind, wp_ld32; [eapply mapped_range_sub; [exact Htm|lia..]|]. fold m. rewrite Hn.
  destruct ((n =? 0) || (len =? 0)) eqn:E; [lia|]. apply wp_bind.
  assert (Hst : forall i, 0 <= i <= len -> let m1 := mwrite m buf (mread m b i) in
    agree (fun a => ~ buf <= a < buf + i) m m1).
  { intros i Hi. split; [apply ranges_mwrite|]. intros a Ha. rewrite rd_mwrite_out; [done|].
    rewrite length_mread. lia. }
  assert (Hrd : forall i o, 0 <= i <= len -> o = 48 \/ o = 52 -> rd32 (mwrite m buf (mread m b i)) (t + o) = rd32 m (t + o)).
  { intros i o Hi Ho. apply (rd32_agree _ _ _ _ (Hst i Hi)); cbv beta; lia. }
  apply (wp_loop_idx (fun j i s' => 0 <= i <= k /\ j = k - i /\ s' = set_mem (mwrite m buf (mread m b i)) s) k); [|lia|].
  { split_and!; [lia|lia|lia|]. rewrite mread_0. change (mwrite m buf []) with (get_mem s). by rewrite set_get_mem. }
  intros j i s' (Hi & -> & ->). split; [lia|]. specialize (Hst i ltac:(lia)). cbv zeta in Hst.
  assert (Hfinish : i = k -> wp (if i =? 0 then ret 0 else
    let! inbuflen := ld32 (t + 52) in
    st32 (t + 52) (u32 (inbuflen - i)) ;!
    let! inbuf := ld32 (t + 48) in
    memcpy inbuf (u32 (inbuf + i)) (u32 (4192 - i)) ;!
    ret i) Q (set_mem (mwrite m buf (mread m b i)) s)).
  { intros ->. destruct (k =? 0) eqn:Ek; [lia|]. by apply (wp_read_finish s t buf len n k). }
  set (m1 := mwrite m buf (mread m b i)) in *.
  assert (Hib : rd32 m1 (t + 48) = b) by (apply Hrd; lia).
  assert (Hin : rd32 m1 (t + 52) = n) by (rewrite <-Hn; apply Hrd; lia).
  assert (Hbi : rd m1 (b + i) = rd m (b + i)) by (apply Hst; lia).
  assert (Hf : forall a z, mapped_range m a z -> mapped_range m1 a z) by (intros; by eapply agree_mapped_range).
  destruct (i <? len) eqn:Ei; [|apply wp_ret, Hfinish; lia].
  apply wp_bind, wp_ld32; [lens; eapply Hf, mapped_range_sub; [exact Htm|lia..]|]. lens. rewrite Hib.
  rewrite (u32_small (b + i)) by lia.
  apply wp_bind, wp_ld8; [lia|lens; apply (proj2 (proj2 (Hf _ _ Hbm))); lia|]. lens. rewrite Hbi.
  apply wp_bind, wp_ld32; [lens; eapply Hf, mapped_range_sub; [exact Htm|lia..]|]. lens. rewrite Hin.
  destruct (negb (rd m (b + i) =? 0) && (i <=? n)) eqn:Ec.
  - assert (i < k). { destruct (decide (i = k)) as [->|]; [exfalso; lia|lia]. }
    apply wp_bind, wp_ld8; [lia|lens; apply (proj2 (proj2 (Hf _ _ Hbm))); lia|]. lens. rewrite Hbi, u32_small by lia.
    apply wp_bind, wp_st8; [lia|lens; apply (proj2 (proj2 (Hf _ _ Hbuf))); lia|]. lens. apply wp_ret.
    exists (k - (i + 1)). split_and!; [lia|lia|lia|lia|]. f_equal. unfold m1.
    rewrite mread_snoc, mwrite_snoc, length_mread by lia. f_equal. lia.
  - apply wp_ret, Hfinish. destruct (decide (i = k)); [done|]. destruct (Hall i) as [? ?]; lia.
Qed.

(** C18: tty_generic_read hands over the oldest bytes of the input queue, as
    many as the caller asks for or there are, in order, and takes them out of
    the queue -- provided the byte of the buffer behind the queue is 0. *)
Theorem tty_read_fifo s t q buf len :
  input_queue (get_mem s) t q -> caller_buf (get_mem s) t buf len ->
  0 < Z.of_nat (length q) < TTY_BUFFER_SIZE -> 0 <= len ->
  rd (get_mem s) (rd32 (get_mem s) (t + Y_inbuf) + Z.of_nat (length q)) = 0 ->
  wp (tty_generic_read t buf len) (fun r s' =>
    r = Z.min len (Z.of_nat (length q)) /\
    (forall i c, take (Z.to_nat r) q !! i = Some c -> rd (get_mem s') (buf + Z.of_nat i) = c) /\
    input_queue (get_mem s') t (drop (Z.to_nat r) q)) s.
Proof.
  intros [[Ht Htm] Hbm Hsep Hlen Hfit Hb Hnz] Hbuf Hq Hlen0 Hend.
  set (b := rd32 (get_mem s) (t + Y_inbuf)) in *.
  destruct (decide (len = 0)) as [->|Hl].
  { unfold tty_generic_read. pose proof Htm as (_ & Ht1 & _).
    apply wp_bind, wp_ld32; [eapply mapped_range_sub; [exact Htm|yoffs; lia..]|].
    rewrite orb_true_r. apply wp_ret. rewrite Z.min_l by lia. split_and!; [done|done|]. by split. }
  apply (wp_generic_read s t buf len (Z.of_nat (length q)) (Z.min len (Z.of_nat (length q)))); try done; try lia.
  - split_and!; [lia|lia| |].
    + intros i Hi. split; [|lia]. destruct (lookup_lt_is_Some_2 q (Z.to_nat i)) as [c Hc]; [lia|].
      rewrite <-(Z2Nat.id i) by lia. fold b. rewrite (Hb _ _ Hc). rewrite Forall_lookup in Hnz. specialize (Hnz _ _ Hc). lia.
    + destruct (decide (len <= Z.of_nat (length q))); [left; lia|]. right. left. by rewrite Z.min_r by lia.
  - intros m' Hlen' Hb' Htaken Hshift Hag. rewrite get_set_mem.
    set (k := Z.min len (Z.of_nat (length q))) in *. split_and!; [done| |].
    + intros i c Hi. apply lookup_take_Some in Hi as [Hi Hik]. rewrite Htaken by lia. by apply Hb.
    + split; yoffs; rewrite ?Hb'; fold b; try done.
      * split; [done|]. by eapply agree_mapped_range.
      * by eapply agree_mapped_range.
      * rewrite Hlen', length_drop, u32_small by lia. lia.
      * rewrite length_drop. lia.
      * intros i c Hi. rewrite lookup_drop in Hi. pose proof (lookup_lt_Some _ _ _ Hi).
        rewrite Hshift by lia. rewrite <-(Hb _ _ Hi). f_equal. lia.
      * by apply Forall_drop.
Qed.

(** C19: when the byte behind the queue is not 0 -- a byte left over from
    earlier input -- tty_generic_read hands that byte over as well, and the
    length of the queue wraps around to 2^32 - 1. *)
Theorem tty_read_stale s t q buf len c :
  input_queue (get_mem s) t q -> caller_buf (get_mem s) t buf len ->
  0 < Z.of_nat (length q) < TTY_BUFFER_SIZE - 1 -> Z.of_nat (length q) < len ->
  rd (get_mem s) (rd32 (get_mem s) (t + Y_inbuf) + Z.of_nat (length q)) = c -> c <> 0 ->
  wp (tty_generic_read t buf len) (fun r s' =>
    r = Z.of_nat (length q) + 1 /\ rd (get_mem s') (buf + Z.of_nat (length q)) = c /\
    rd32 (get_mem s') (t + Y_inbuflen) = 4294967295) s.
Proof.
  intros [[Ht Htm] Hbm Hsep Hlen Hfit Hb Hnz] Hbuf Hq Hlen0 Hend Hc.
  set (b := rd32 (get_mem s) (t + Y_inbuf)) in *.
  apply (wp_generic_read s t buf len (Z.of_nat (length q)) (Z.of_nat (length q) + 1)); try done; try lia.
  - split_and!; [lia|lia| |lia].
    intros i Hi. split; [|lia]. destruct (decide (i = Z.of_nat (length q))) as [->|]; [fold b; congruence|].
    destruct (lookup_lt_is_Some_2 q (Z.to_nat i)) as [c' Hc']; [lia|].
    rewrite <-(Z2Nat.id i) by lia. fold b. rewrite (Hb _ _ Hc'). rewrite Forall_lookup in Hnz. specialize (Hnz _ _ Hc'). lia.
  - intros m' Hlen' Hb' Htaken _ _. rewrite get_set_mem. split_and!; [done| |].
    + by rewrite Htaken by lia.
    + rewrite Hlen'. unfold u32. rewrite <-(Z.mod_unique _ 4294967296 (-1) 4294967295); lia.
Qed.
(** What a write leaves: the bytes behind the output, the new position, the
    lock free, and everything else as it was. *)
Record written (m m' : mem) (t buf len : Z) : Prop := {
  wr_bytes : forall i, 0 <= i < len -> rd m' (rd32 m (t + Y_buffer) + rd32 m (t + Y_bufpos) + i) = rd m (buf + i);
  wr_pos : rd32 m' (t + Y_bufpos) = rd32 m (t + Y_bufpos) + len;
  wr_lock : rd m' (t + Y_m_lock) = 0;
  wr_rest : agree (fun x => x <> t + Y_m_lock /\ ~ in_block (rd32 m (t + Y_buffer) + rd32 m (t + Y_bufpos)) len x /\
    ~ in_block (t + Y_bufpos) 4 x) m m';
}.

(** A terminal that [len] bytes from [buf] can be written to. *)
Record writable (m : mem) (t buf len : Z) : Prop := {
  wt_tty : 0 <= t /\ mapped_range m t sizeof_tty;
  wt_lock : rd m (t + Y_m_lock) = 0;
  wt_room : 0 < len /\ rd32 m (t + Y_bufpos) + len <= rd32 m (t + Y_buflen);
  wt_out : mapped_range m (rd32 m (t + Y_buffer) + rd32 m (t + Y_bufpos)) len;
  wt_buf : mapped_range m buf len;
  wt_apart : rd32 m (t + Y_buffer) + rd32 m (t + Y_bufpos) + len <= t \/
    t + sizeof_tty <= rd32 m (t + Y_buffer) + rd32 m (t + Y_bufpos);
  wt_buf_out : buf + len <= rd32 m (t + Y_buffer) + rd32 m (t + Y_bufpos) \/
    rd32 m (t + Y_buffer) + rd32 m (t + Y_bufpos) + len <= buf;
  wt_buf_tty : buf + len <= t \/ t + sizeof_tty <= buf;
}.

Lemma writable_written m t buf len :
  let b := rd32 m (t + Y_buffer) in let p := rd32 m (t + Y_bufpos) in let m1 := mset m (t + Y_m_lock) 1 in
  writable m t buf len ->
  written m (mset (mwrite (mwrite m1 (b + p) (mread m1 buf len)) (t + Y_bufpos) (le32 (p + len))) (t + Y_m_lock) 0) t buf len.
Proof.
  intros b p m1 [_ _ [Hl Hroom] _ _ Ha Ha2 Ha3]. fold b p in Hroom, Ha, Ha2. pose proof (rd32_range m (t + Y_buflen)). yoffs.
  pose proof (rd32_range m (t + 44)) as Hp. fold p in Hp.
  split; fold b p; yoffs.
  - intros i Hi. rewrite rd_mset. destruct (decide _); [lia|]. rewrite rd_mwrite_out by (rewrite le32_length; lia).
    rewrite rd_mwrite_mread_in by lia. unfold m1. rewrite rd_mset. destruct (decide _); [lia|]. f_equal. lia.
  - rewrite rd32_mset_out by lia. rewrite rd32_mwrite_same. apply u32_small. lia.
  - rewrite rd_mset. by destruct (decide _).
  - split; [unfold mset; cbn [m_ranges]; by rewrite !ranges_mwrite|]. unfold in_block. intros x Hx. rewrite rd_mset.
    destruct (decide _); [lia|]. rewrite !rd_mwrite_out by (rewrite ?le32_length, ?length_mread; lia).
    unfold m1. rewrite rd_mset. destruct (decide _); [lia|done].
Qed.

(** tty_generic_write on a terminal whose lock is free: what it writes, and
    then the call to the scheduler at the end of [mutex_unlock]. *)
Lemma wp_generic_write y s t buf len (Q : Z -> TS -> Prop) :
  writable (get_mem s) t buf len ->
  (forall m', written (get_mem s) m' t buf len -> wp y (fun _ x => Q 0 (set_lower x s)) (lower (set_mem m' s))) ->
  wp (tty_generic_write y t buf len) Q s.
Proof.
  intros Hw HQ. pose proof (writable_written _ _ _ _ Hw) as Hwr. cbv zeta in Hwr. set (m' := mset _ _ 0) in Hwr.
  destruct Hw as [[Ht0 Htm] Hlk [Hl Hroom] Hom Hbm Ha Ha2 Ha3].
  set (m := get_mem s) in *. set (b := rd32 m (t + Y_buffer)) in *. set (p := rd32 m (t + Y_bufpos)) in *.
  pose proof Htm as (_ & Ht1 & Htx). pose proof Hom as (? & ? & _). pose proof (rd32_range m (t + Y_buflen)).
  assert (0 <= p < 4294967296) by apply rd32_range. unfold tty_generic_write.
  apply wp_bind, wp_ld32; [eapply mapped_range_sub; [exact Htm|yoffs; lia..]|].
  apply wp_bind, wp_ld32; [eapply mapped_range_sub; [exact Htm|yoffs; lia..]|]. fold m p.
  rewrite (u32_small (p + len)), Z.gtb_ltb, (proj2 (Z.ltb_ge _ _)) by lia.
  apply wp_bind, wp_below, wp_lock_free; [yoffs; lia|rewrite get_mem_lower; apply Htx; yoffs; lia|by rewrite get_mem_lower|].
  rewrite get_mem_lower. change (set_lower (set_mem ?x (lower s)) s) with (set_mem x s). fold m. set (m1 := mset m (t + Y_m_lock) 1) in *.
  assert (Hr : forall o, 36 <= o <= 52 -> rd32 m1 (t + o) = rd32 m (t + o)) by (intros; apply rd32_mset_out; yoffs; lia).
  apply wp_bind, wp_ld32; [lens; apply mapped_range_mset; eapply mapped_range_sub; [exact Htm|yoffs; lia..]|].
  apply wp_bind, wp_ld32; [lens; apply mapped_range_mset; eapply mapped_range_sub; [exact Htm|yoffs; lia..]|].
  lens. rewrite !Hr by (yoffs; lia). fold b p. rewrite (u32_small (b + p)) by lia.
  apply wp_bind, wp_memcpy; [lia|lens; by apply mapped_range_mset|lens; by apply mapped_range_mset|unfold forward_ok; lia|]. lens.
  set (m2 := mwrite m1 (b + p) _) in *.
  assert (Hp2 : rd32 m2 (t + Y_bufpos) = p) by (unfold m2; rewrite rd32_mwrite_out by (rewrite length_mread; yoffs; lia); apply Hr; yoffs; lia).
  assert (Hm2 : mapped_range m2 t sizeof_tty) by (unfold m2; rewrite mapped_range_mwrite; by apply mapped_range_mset).
  clearbody m2. apply wp_bind, wp_ld32; [lens; eapply mapped_range_sub; [exact Hm2|yoffs; lia..]|]. lens. rewrite Hp2, u32_small by lia.
  apply wp_bind, wp_st32; [lens; eapply mapped_range_sub; [exact Hm2|yoffs; lia..]|]. lens.
  apply wp_bind, wp_below. unfold mutex_unlock, lock_set. apply wp_bind, wp_st8; [yoffs; lia| |].
  { rewrite get_mem_lower. lens. rewrite mapped_mwrite. apply Hm2. yoffs. lia. }
  rewrite get_mem_lower. lens. rewrite lower_set_mem, set_set_mem. fold m'.
  rewrite <-lower_set_mem. eapply wp_mono; [by apply HQ|]. intros [] x HQx. apply wp_ret. exact HQx.
Qed.
End spec.

(** ** The theorems at work

    A terminal at 0x1000 with its queue at 0x2000, holding [AB]; in the second
    memory a byte is left over behind the queue. *)

Definition demo_tty_mem (stale : Z) : mem :=
  mwrite (mwrite (mwrite (Mem ∅ [(4096, 65536)]) (4096 + Y_inbuf) (le32 8192)) (4096 + Y_inbuflen) (le32 2))
    8192 [65; 66; stale].
Definition demo_tty (stale : Z) : layer (layer (layer mem device_vars) Z) tty_vars :=
  Layer (Layer (Layer (demo_tty_mem stale) (DeviceVars 0 0)) 0) (TtyVars 4096 0).

Lemma demo_tty_mapped stale a n : 4096 <= a -> 0 <= n -> a + n <= 65536 -> mapped_range (demo_tty_mem stale) a n.
Proof.
  intros. unfold demo_tty_mem. rewrite !mapped_range_mwrite. eapply mapped_range_intro; [left|lia..].
Qed.

Lemma demo_queue stale : input_queue (demo_tty_mem stale) 4096 [65; 66].
Proof.
  assert (Hb : rd32 (demo_tty_mem stale) (4096 + Y_inbuf) = 8192) by (vm_compute; reflexivity).
  split; rewrite ?Hb.
  - split; [lia|by apply demo_tty_mapped].
  - by apply demo_tty_mapped.
  - right. vm_compute. discriminate.
  - vm_compute. reflexivity.
  - vm_compute. discriminate.
  - intros [|[|i]] c [= <-]; vm_compute; reflexivity.
  - repeat (constructor; [lia|]). constructor.
Qed.

Lemma demo_caller stale len : 0 <= len <= 8 -> caller_buf (demo_tty_mem stale) 4096 16384 len.
Proof.
  assert (Hb : rd32 (demo_tty_mem stale) (4096 + Y_inbuf) = 8192) by (vm_compute; reflexivity).
  intros Hl. unfold caller_buf. rewrite Hb. unfold sizeof_tty, TTY_BUFFER_SIZE.
  split_and!; [apply demo_tty_mapped; lia|lia|lia].
Qed.

Lemma tty_push_byte_spec_witness :
  wp (tty_push_byte 0 67) (fun r s' => r = 0 /\ input_queue (get_mem s') 4096 [65; 66; 67]) (demo_tty 0).
Proof. apply (tty_push_byte_spec (demo_tty 0) 0 67 [65; 66]); [apply demo_queue|vm_compute; reflexivity|lia]. Defined.

Lemma tty_read_fifo_witness :
  wp (tty_generic_read 4096 16384 1) (fun r s' => r = 1 /\ input_queue (get_mem s') 4096 [66]) (demo_tty 0).
Proof.
  eapply wp_mono; [apply (tty_read_fifo (demo_tty 0) 4096 [65; 66] 16384 1)|].
  - apply demo_queue.
  - by apply demo_caller.
  - split; vm_compute; reflexivity.
  - lia.
  - vm_compute. reflexivity.
  - intros r s' (-> & _ & Hq). split; [done|exact Hq].
Defined.

Lemma tty_read_stale_witness :
  wp (tty_generic_read 4096 16384 8) (fun r s' => r = 3 /\ rd32 (get_mem s') (4096 + Y_inbuflen) = 4294967295)
    (demo_tty 90).
Proof.
  eapply wp_mono; [apply (tty_read_stale (demo_tty 90) 4096 [65; 66] 16384 8 90)|].
  - apply demo_queue.
  - by apply demo_caller.
  - split; vm_compute; reflexivity.
  - vm_compute. reflexivity.
  - vm_compute. reflexivity.
  - lia.
  - intros r s' (-> & _ & Hq). split; [done|exact Hq].
Defined.
