(* ===== verification/Pic.v ===== *)
(** * Interrupt controller, descriptor tables, serial port and timer

    [arch/x86/pic.c], [arch/x86/gdt.c], [arch/x86/idt.c], [drivers/serial.c]
    and [arch/x86/pit.c].  The assembly that loads the tables, and the test
    interrupt of [idt_init], are parameters of the definitions. *)

From stdpp Require Import base numbers list gmap.
From Stdlib Require Import ZArith Lia.
From S2P Require Import Prelude Memory Pages LiballocInv LiballocProof Layer Tables Hal.

Local Open Scope Z_scope.

(** ** The programmable interrupt controllers *)

Definition PIC_MASTER_CMD : Z := 32.
Definition PIC_MASTER_DATA : Z := 33.
Definition PIC_SLAVE_CMD : Z := 160.
Definition PIC_SLAVE_DATA : Z := 161.
Definition PIC_CMD_EOI : Z := 32.

Section pic.
Context {S : Type} `{HasPorts S}.

Definition pic_init : M S Z :=
  outportb PIC_MASTER_CMD (16 + 1) ;!
  outportb PIC_SLAVE_CMD (16 + 1) ;!
  outportb PIC_MASTER_DATA 32 ;!
  outportb PIC_SLAVE_DATA 40 ;!
  outportb PIC_MASTER_DATA 4 ;!
  outportb PIC_SLAVE_DATA 2 ;!
  outportb PIC_MASTER_DATA 1 ;!
  outportb PIC_SLAVE_DATA 1 ;!
  outportb PIC_MASTER_DATA 0 ;!
  outportb PIC_SLAVE_DATA 0 ;!
  ret 0.

Definition pic_send_eoi (irq : Z) : M S unit :=
  (if! 8 <=? irq then outportb PIC_SLAVE_CMD PIC_CMD_EOI) ;!
  outportb PIC_MASTER_CMD PIC_CMD_EOI.

Definition send_eoi (no : Z) : M S Z := pic_send_eoi (u8 no) ;! ret 0.
End pic.

(** ** The global descriptor table *)

Record gdt_vars : Type := GdtVars { gdt_pointer : Z; gdt_size : Z; gdtr_loc : Z }.

(** The 8 bytes of a 64-bit store. *)
Definition le64 (v : Z) : list Z := le32 v ++ le32 (v / 4294967296).

Section gdt.
Context {S : Type} `{HasMem S}.
Notation GM := (M (layer S gdt_vars)).

Definition st64 (a v : Z) : GM unit := st32 a v ;! st32 (a + 4) (v / 4294967296).

(** [_set_gdtr] and [_reload_segments] act on the processor only.  The
    arguments of the call in [gdt_init] are not read. *)
Definition gdt_set_descriptor : GM Z :=
  let! loc := var gdtr_loc in
  let! size := var gdt_size in
  st16 loc (Z.land (u32 (size - 1)) 65535) ;!
  assign (fun v => GdtVars (gdt_pointer v) (gdt_size v) (u32 (gdtr_loc v + 2))) ;!
  let! loc := var gdtr_loc in
  let! p := var gdt_pointer in
  st32 loc p ;!
  ret 0.

Definition gdt_add_descriptor (id desc : Z) : GM Z :=
  let! p := var gdt_pointer in
  let loc := u32 (p + 8 * id) in
  st64 loc desc ;!
  assign (fun v => GdtVars (gdt_pointer v) (u32 (gdt_size v + 8)) (gdtr_loc v)) ;!
  ret 0.

Definition gdt_init : GM Z :=
  assign (fun v => GdtVars 2054 (gdt_size v) (gdtr_loc v)) ;!
  assign (fun v => GdtVars (gdt_pointer v) (gdt_size v) 2048) ;!
  let! _ := gdt_add_descriptor 0 0 in
  let! _ := gdt_add_descriptor 1 58434644969848831 in   (* 0x00CF9A000000FFFF *)
  let! _ := gdt_add_descriptor 2 58425848876826623 in   (* 0x00CF92000000FFFF *)
  let! _ := gdt_add_descriptor 3 40525799576633343 in   (* 0x008FFA000000FFFF *)
  gdt_set_descriptor.
End gdt.

(** ** The interrupt descriptor table *)

Record idt_vars : Type := IdtVars {
  idt_location : Z; idtr_location : Z; test_success : Z; test_timeout : Z; __idt_setup : Z
}.

Section idt.
Context {S : Type} `{HasMem S}.
Notation IM := (M (layer S idt_vars)).
(** Addresses of the handlers. *)
Variables (default_handler test_handler scheduler_switch_addr : Z).

Definition idt_register_interrupt (i callback : Z) : IM unit :=
  let! l := var idt_location in
  let e := u32 (l + 8 * i) in
  st16 (e + 0) (Z.land callback 65535) ;!
  st16 (e + 2) 8 ;!
  st8 (e + 4) 0 ;!
  st8 (e + 5) 142 ;!
  st16 (e + 6) (Z.shiftr (Z.land callback 4294901760) 16).

Definition register_interrupt (no func : Z) : IM Z :=
  idt_register_interrupt (u8 no) func ;! ret 0.

(** The test interrupt runs [__idt_test_handler]. *)
Definition __idt_test_handler : IM unit :=
  assign (fun v => IdtVars (idt_location v) (idtr_location v) 1 (test_timeout v) (__idt_setup v)).

(** The wait for the test interrupt. *)
Definition idt_await_test : IM unit :=
  loop (fun _ =>
    let! t := var test_timeout in
    assign (fun v => IdtVars (idt_location v) (idtr_location v) (test_success v) (u32 (test_timeout v - 1)) (__idt_setup v)) ;!
    if t =? 0 then ret (inr tt)
    else
      let! ok := var test_success in
      if negb (ok =? 0) then idt_register_interrupt 47 scheduler_switch_addr ;! ret (inr tt)
      else ret (inl tt)) tt.

Definition idt_init : IM Z :=
  assign (fun v => IdtVars 8192 4336 (test_success v) (test_timeout v) 1) ;!
  for_up 255 0 (fun i => idt_register_interrupt i default_handler) ;!
  idt_register_interrupt 47 test_handler ;!
  let! r := var idtr_location in
  let! l := var idt_location in
  st16 r (2048 - 1) ;!
  st32 (r + 2) l ;!
  __idt_test_handler ;!
  idt_await_test ;!
  let! ok := var test_success in
  ret (if ok =? 0 then 1 else 0).
End idt.

(** ** The serial port *)

Definition SERIAL_PORT : Z := 1016.  (* 0x3F8 *)

Section serial.
Context {S : Type} `{HasPorts S}.
Variable schedule_noirq : M S unit.

Definition init_serial : M S unit :=
  outportb (SERIAL_PORT + 1) 0 ;!
  outportb (SERIAL_PORT + 3) 128 ;!
  outportb (SERIAL_PORT + 0) 3 ;!
  outportb (SERIAL_PORT + 1) 0 ;!
  outportb (SERIAL_PORT + 3) 3 ;!
  outportb (SERIAL_PORT + 2) 199 ;!
  outportb (SERIAL_PORT + 4) 11.

Definition serial_is_ready : M S Z :=
  let! v := inportb (SERIAL_PORT + 5) in ret (Z.land v 32).

(** [serial_output] is 1 and never assigned. *)
Definition serial_write (a : Z) : M S unit :=
  loop (fun _ =>
    let! r := serial_is_ready in
    if r =? 0 then schedule_noirq ;! ret (inl tt) else ret (inr tt)) tt ;!
  outportb SERIAL_PORT a.
End serial.

(** ** The timer *)

Section pit.
Context {S : Type} `{HasPorts S}.

Definition __pit_send_cmd (cmd : Z) : M S unit := outportb 67 cmd.
Definition pit_port (counter : Z) : Z := if counter =? 0 then 64 else if counter =? 64 then 65 else 66.
Definition __pit_send_data (data counter : Z) : M S unit := outportb (pit_port counter) (u8 data).
Definition __pit_read_data (counter : Z) : M S Z := inportb (pit_port counter).

Definition pit_start_counter (freq counter mode : Z) : M S unit :=
  if freq =? 0 then ret tt
  else if u16 freq =? 0 then fault
  else
    let divisor := u16 (1193181 / u16 freq) in
    let ocw := Z.lor (Z.land 0 241) mode in
    let ocw := Z.lor (Z.land ocw 207) 48 in
    let ocw := u8 (Z.lor (Z.land ocw 63) counter) in
    __pit_send_cmd ocw ;!
    __pit_send_data (Z.land divisor 255) 0 ;!
    __pit_send_data (Z.land (Z.shiftr divisor 8) 255) 0.

(** [register_interrupt] of [pit_init] is a call of [idt.c]. *)
Definition pit_init (reg : M S Z) : M S Z :=
  let! _ := reg in
  pit_start_counter 200 0 6 ;!
  ret 0.
End pit.

(** ** The descriptor tables in memory *)

(** An interrupt gate at [e] for the handler at [cb]: 32-bit, present, ring 0,
    in the code segment 8. *)
Definition gate (m : mem) (e cb : Z) : Prop :=
  rd16 m e + 65536 * rd16 m (e + 6) = cb /\ rd16 m (e + 2) = 8 /\ rd m (e + 4) = 0 /\ rd m (e + 5) = 142.

Lemma gate_agree P m m' e cb :
  agree P m m' -> (forall a, e <= a < e + 8 -> P a) -> gate m e cb -> gate m' e cb.
Proof.
  intros Ha HP (? & ? & ? & ?). unfold gate.
  rewrite !(rd16_agree _ _ _ _ Ha), !(proj2 Ha) by (apply HP; lia). done.
Qed.

Lemma land_ffff x : 0 <= x -> Z.land x 65535 = x mod 65536.
Proof. intros. change 65535 with (Z.ones 16). by rewrite Z.land_ones by lia. Qed.

Lemma high_half x : 0 <= x < 4294967296 -> Z.shiftr (Z.land x 4294901760) 16 = x / 65536.
Proof.
  intros Hx. rewrite Z.shiftr_land. change (Z.shiftr 4294901760 16) with (Z.ones 16).
  rewrite Z.land_ones, Z.shiftr_div_pow2 by lia. change (2 ^ 16) with 65536. apply Z.mod_small.
  Z.div_mod_to_equations. lia.
Qed.

Section idt_spec.
Context {S : Type} `{HasMem S}.
Implicit Types (s : layer S idt_vars).

Lemma wp_gate s i cb (Q : unit -> layer S idt_vars -> Prop) :
  let e := idt_location (vars s) + 8 * i in
  0 <= e -> mapped_range (get_mem s) e 8 -> 0 <= cb < 4294967296 ->
  (forall m, agree (fun a => ~ e <= a < e + 8) (get_mem s) m -> gate m e cb -> Q tt (set_mem m s)) ->
  wp (idt_register_interrupt i cb) Q s.
Proof.
  intros e He Hm Hcb HQ. unfold idt_register_interrupt. apply wp_bind, wp_var. fold e.
  pose proof Hm as (_ & He1 & Hmap). rewrite u32_small by lia. rewrite Z.add_0_r.
  rewrite land_ffff, high_half by lia.
  apply wp_bind, wp_st16; [eapply mapped_range_sub; [exact Hm|lia..]|].
  apply wp_bind, wp_st16; [lens; rewrite mapped_range_mwrite; eapply mapped_range_sub; [exact Hm|lia..]|]. lens.
  apply wp_bind, wp_st8; [lia|lens; rewrite !mapped_mwrite; apply Hmap; lia|]. lens.
  apply wp_bind, wp_st8; [lia|lens; rewrite mapped_mset, !mapped_mwrite; apply Hmap; lia|]. lens.
  apply wp_st16; [lens; rewrite !mapped_range_mset, !mapped_range_mwrite; eapply mapped_range_sub; [exact Hm|lia..]|]. lens.
  assert (Hout : forall m a o l, (length l <= 2)%nat -> a < e + o \/ e + o + 2 <= a ->
    rd (mwrite m (e + o) l) a = rd m a) by (intros; apply rd_mwrite_out; lia).
  apply HQ.
  - split; [rewrite ranges_mwrite; unfold mset; cbn [m_ranges]; by rewrite !ranges_mwrite|]. intros a Ha.
    rewrite Hout by (rewrite ?le16_length; lia). rewrite !rd_mset_out by lia.
    rewrite Hout by (rewrite ?le16_length; lia). apply rd_mwrite_out. rewrite le16_length. lia.
  - assert (Hrd : forall m a o l, (length l <= 2)%nat -> a + 1 < e + o \/ e + o + 2 <= a ->
      rd16 (mwrite m (e + o) l) a = rd16 m a).
    { intros m a o l Hl Ha. unfold rd16. rewrite !Hout by lia. done. }
    assert (Hms : forall m a x v, a + 1 < x \/ x < a -> rd16 (mset m x v) a = rd16 m a).
    { intros m a x v Ha. unfold rd16. rewrite !rd_mset_out by lia. done. }
    unfold gate. split_and!.
    + rewrite (rd16_mwrite_same _ (e + 6)). rewrite Hrd by (rewrite ?le16_length; lia).
      rewrite !Hms by lia. rewrite Hrd by (rewrite ?le16_length; lia). rewrite rd16_mwrite_same.
      rewrite !u16_small by (Z.div_mod_to_equations; lia). Z.div_mod_to_equations. lia.
    + rewrite Hrd by (rewrite ?le16_length; lia). rewrite !Hms by lia. rewrite rd16_mwrite_same. done.
    + rewrite Hout by (rewrite ?le16_length; lia). rewrite rd_mset_out by lia. rewrite rd_mset.
      by destruct (decide _).
    + rewrite Hout by (rewrite ?le16_length; lia). rewrite rd_mset. by destruct (decide _).
Qed.

Lemma wp_default_gates s dh (Q : unit -> layer S idt_vars -> Prop) :
  idt_location (vars s) = 8192 -> mapped_range (get_mem s) 8192 2048 -> 0 <= dh < 4294967296 ->
  (forall m, agree (fun a => ~ 8192 <= a < 10232) (get_mem s) m ->
     (forall j, 0 <= j < 255 -> gate m (8192 + 8 * j) dh) -> Q tt (set_mem m s)) ->
  wp (for_up 255 0 (fun i => idt_register_interrupt i dh)) Q s.
Proof.
  intros Hl Hm Hdh HQ.
  apply (wp_for_up (fun k s' => exists m, s' = set_mem m s /\ agree (fun a => ~ 8192 <= a < 10232) (get_mem s) m /\
    forall j, 0 <= j < k -> gate m (8192 + 8 * j) dh)).
  - exists (get_mem s). split_and!; [by rewrite set_get_mem|apply agree_refl|]. intros. lia.
  - intros k s' Hk (m & -> & Hag & Hg). assert (Hl' : idt_location (vars (set_mem m s)) = 8192) by exact Hl.
    apply wp_gate; rewrite ?Hl'; [lia| |done|].
    { lens. eapply agree_mapped_range; [exact Hag|]. eapply mapped_range_sub; [exact Hm|lia..]. }
    lens. intros m' Hag' Hg'. exists m'. split_and!; [by lens| |].
    + eapply agree_trans; [exact Hag|]. eapply agree_mono; [exact Hag'|]. intros a Ha. cbv beta zeta in *. lia.
    + intros j Hj. destruct (decide (j = k)) as [->|]; [done|].
      eapply gate_agree; [exact Hag'|cbv beta; lia|apply Hg; lia].
  - intros s1 (m1 & -> & Hag1 & Hg1). by apply HQ.
Qed.

Lemma wp_await_test s sw (Q : unit -> layer S idt_vars -> Prop) :
  idt_location (vars s) = 8192 -> test_success (vars s) = 1 -> 0 < test_timeout (vars s) < 4294967296 ->
  mapped_range (get_mem s) 8568 8 -> 0 <= sw < 4294967296 ->
  (forall v m, test_success v = 1 -> agree (fun a => ~ 8568 <= a < 8576) (get_mem s) m -> gate m 8568 sw ->
     Q tt (set_vars v (set_mem m s))) ->
  wp (idt_await_test sw) Q s.
Proof.
  intros Hl Hok Ht Hm Hsw HQ. unfold idt_await_test.
  apply (wp_loop (fun _ s' => s' = s) (fun _ s' => test_timeout (vars s'))); [done|lia|].
  intros [] s' ->. split; [lia|]. apply wp_bind, wp_var, wp_bind, wp_assign.
  destruct (test_timeout (vars s) =? 0) eqn:E; [lia|].
  set (v' := IdtVars _ _ _ _ _). apply wp_bind, wp_var. change (test_success (vars (set_vars v' s))) with (test_success (vars s)).
  rewrite Hok. cbn [negb Z.eqb].
  assert (Hl' : idt_location (vars (set_vars v' s)) = 8192) by exact Hl.
  apply wp_bind, wp_gate; rewrite ?Hl'; [lia|exact Hm|done|].
  intros m Ha Hg. apply wp_ret. change (set_mem m (set_vars v' s)) with (set_vars v' (set_mem m s)). by apply HQ.
Qed.

(** C22: idt_init fills the table at 0x2000 with interrupt gates: the context
    switch for vector 0x2f, the default handler for the other vectors up to
    254, and loads a table register that covers 256 gates; gate 255 is left as
    it was.  It returns 0. *)
Theorem idt_init_spec s dh th sw :
  mapped_range (get_mem s) 8192 2048 -> mapped_range (get_mem s) 4336 6 ->
  0 <= dh < 4294967296 -> 0 <= th < 4294967296 -> 0 <= sw < 4294967296 ->
  0 < test_timeout (vars s) < 4294967296 ->
  wp (idt_init dh th sw) (fun r s' => let m := get_mem s' in
    r = 0 /\
    (forall i, 0 <= i < 255 -> gate m (8192 + 8 * i) (if i =? 47 then sw else dh)) /\
    rd16 m 4336 = 2047 /\ rd32 m 4338 = 8192 /\
    forall a, 10232 <= a < 10240 -> rd m a = rd (get_mem s) a) s.
Proof.
  intros Hm Hr Hdh Hth Hsw Ht. unfold idt_init. apply wp_bind, wp_assign, wp_bind.
  set (s0 := set_vars _ s). assert (Hl0 : forall m, idt_location (vars (set_mem m s0)) = 8192) by done.
  apply wp_default_gates; [done..|]. intros m1 Hag1 Hg1.
  assert (Hsub : forall m a n, agree (fun a => ~ 8192 <= a < 10232) (get_mem s) m -> mapped_range (get_mem s) a n -> mapped_range m a n).
  { intros m a n Ha Hn. by eapply agree_mapped_range. }
  apply wp_bind, wp_gate; rewrite ?Hl0; [lia|lens; apply Hsub; [done|eapply mapped_range_sub; [exact Hm|lia..]]|done|]. lens.
  intros m2 Ha2 Hg2. lens. apply wp_bind, wp_var, wp_bind, wp_var.
  change (idtr_location (vars (set_mem m2 s0))) with 4336. rewrite !Hl0.
  assert (Hag2 : agree (fun a => ~ 8192 <= a < 10232) (get_mem s) m2).
  { eapply agree_trans; [exact Hag1|]. eapply agree_mono; [exact Ha2|]. intros. cbv beta zeta in *. lia. }
  assert (Hr2 : mapped_range m2 4336 6) by by apply Hsub. change (2048 - 1) with 2047. change (4336 + 2) with 4338.
  apply wp_bind, wp_st16; [lens; eapply mapped_range_sub; [exact Hr2|lia..]|]. lens.
  apply wp_bind, wp_st32; [lens; rewrite mapped_range_mwrite; eapply mapped_range_sub; [exact Hr2|lia..]|]. lens.
  set (m3 := mwrite (mwrite m2 _ _) _ _).
  assert (Ha3 : agree (fun a => ~ 4336 <= a < 4342) m2 m3).
  { split; [unfold m3; by rewrite !ranges_mwrite|]. intros a Ha. unfold m3.
    rewrite !rd_mwrite_out by (rewrite ?le16_length, ?le32_length; lia). done. }
  apply wp_bind, wp_assign, wp_bind, wp_await_test; [done..| |done|].
  { lens. eapply agree_mapped_range; [exact Ha3|]. apply Hsub; [done|eapply mapped_range_sub; [exact Hm|lia..]]. }
  lens. intros v m4 Hok Ha4 Hg4. apply wp_bind, wp_var, wp_ret. change (vars (set_vars v _)) with v. rewrite Hok. lens. cbv zeta.
  split_and!; [done| | | |].
  - intros i Hi. destruct (i =? 47) eqn:E; [by replace i with 47 by lia|].
    eapply gate_agree; [exact Ha4|cbv beta; lia|]. eapply gate_agree; [exact Ha3|cbv beta; lia|].
    eapply gate_agree; [exact Ha2|cbv beta; lia|]. by apply Hg1.
  - rewrite (rd16_agree _ _ _ _ Ha4) by (cbv beta; lia). unfold m3, rd16.
    rewrite !(rd_mwrite_out _ 4338) by (rewrite le32_length; lia).
    change (rd16 (mwrite m2 4336 (le16 2047)) 4336 = 2047). by rewrite rd16_mwrite_same.
  - rewrite (rd32_agree _ _ _ _ Ha4) by (cbv beta; lia). unfold m3. by rewrite rd32_mwrite_same.
  - intros a Ha. rewrite (proj2 Ha4), (proj2 Ha3) by lia. apply Hag2. lia.
Qed.
End idt_spec.

Section gdt_spec.
Context {S : Type} `{HasMem S}.
Implicit Types (s : layer S gdt_vars).

Definition descriptor (m : mem) (a : Z) : Z := rd32 m a + 4294967296 * rd32 m (a + 4).

Lemma wp_add_descriptor s id d (Q : Z -> layer S gdt_vars -> Prop) :
  let a := gdt_pointer (vars s) + 8 * id in
  0 <= a -> mapped_range (get_mem s) a 8 -> 0 <= d < 18446744073709551616 ->
  (forall m, agree (fun x => ~ a <= x < a + 8) (get_mem s) m -> descriptor m a = d ->
     Q 0 (set_vars (GdtVars (gdt_pointer (vars s)) (u32 (gdt_size (vars s) + 8)) (gdtr_loc (vars s))) (set_mem m s))) ->
  wp (gdt_add_descriptor id d) Q s.
Proof.
  intros a Ha Hm Hd HQ. unfold gdt_add_descriptor, st64. apply wp_bind, wp_var. fold a.
  pose proof Hm as (_ & Ha1 & _). rewrite u32_small by lia.
  apply wp_bind, wp_bind, wp_st32; [eapply mapped_range_sub; [exact Hm|lia..]|].
  apply wp_st32; [lens; rewrite mapped_range_mwrite; eapply mapped_range_sub; [exact Hm|lia..]|].
  apply wp_bind, wp_assign, wp_ret. lens. apply HQ.
  - split; [by rewrite !ranges_mwrite|]. intros x Hx. rewrite !rd_mwrite_out by (rewrite le32_length; lia). done.
  - unfold descriptor. rewrite rd32_mwrite_same, rd32_mwrite_out by (rewrite le32_length; lia).
    rewrite rd32_mwrite_same. unfold u32. rewrite (Z.mod_small (d / 4294967296)) by (Z.div_mod_to_equations; lia).
    Z.div_mod_to_equations. lia.
Qed.

Lemma descriptor_agree P m m' a :
  agree P m m' -> (forall x, a <= x < a + 8 -> P x) -> descriptor m' a = descriptor m a.
Proof. intros Ha HP. unfold descriptor. rewrite !(rd32_agree _ _ _ _ Ha) by (apply HP; lia). done. Qed.

Ltac two H1 H2 := eapply agree_trans; [eapply agree_mono; [exact H1|]|eapply agree_mono; [exact H2|]];
  intros; cbv beta in *; lia.

Lemma descriptor_keep m m' lo hi a d :
  agree (fun x => ~ lo <= x < hi) m m' -> a + 8 <= lo \/ hi <= a -> descriptor m a = d -> descriptor m' a = d.
Proof. intros Ha Hx <-. apply (descriptor_agree _ _ _ _ Ha). intros. cbv beta. lia. Qed.

(** The register of a table of four descriptors at 2054. *)
Lemma wp_set_descriptor s m (Q : Z -> layer S gdt_vars -> Prop) :
  mapped_range m 2048 6 ->
  (forall m', agree (fun x => ~ 2048 <= x < 2054) m m' -> rd16 m' 2048 = 31 -> rd32 m' 2050 = 2054 ->
     Q 0 (set_vars (GdtVars 2054 32 2050) (set_mem m' s))) ->
  wp gdt_set_descriptor Q (set_vars (GdtVars 2054 32 2048) (set_mem m s)).
Proof.
  intros Hm HQ. unfold gdt_set_descriptor. apply wp_bind, wp_var, wp_bind, wp_var, wp_bind, wp_st16.
  { lens. eapply mapped_range_sub; [exact Hm|simpl; lia..]. }
  lens. apply wp_bind, wp_assign, wp_bind, wp_var, wp_bind, wp_var, wp_bind.
  change (Z.land (u32 (gdt_size (vars (set_vars (GdtVars 2054 32 2048) (set_mem m s))) - 1)) 65535) with 31.
  match goal with |- wp _ _ ?t => change t with (set_vars (GdtVars 2054 32 2050)
    (set_mem (mwrite m 2048 (le16 31)) (set_mem m s))) end. lens.
  apply wp_st32; [lens; rewrite mapped_range_mwrite; eapply mapped_range_sub; [exact Hm|simpl; lia..]|].
  lens. apply wp_ret. match goal with |- Q 0 (set_mem ?M _) =>
    change (Q 0 (set_vars (GdtVars 2054 32 2050) (set_mem M (set_mem (mwrite m 2048 (le16 31)) s)))); lens end. apply HQ.
  - split; [by rewrite !ranges_mwrite|]. intros a Ha. simpl in *.
    rewrite !rd_mwrite_out by (rewrite ?le16_length, ?le32_length; simpl; lia). done.
  - unfold rd16. rewrite !(rd_mwrite_out _ 2050) by (rewrite le32_length; lia).
    change (rd16 (mwrite m 2048 (le16 31)) 2048 = 31). by rewrite rd16_mwrite_same.
  - by rewrite rd32_mwrite_same.
Qed.

(** gdt_init writes the null descriptor, two flat 4 GB ring-0 segments
    and a 16-bit ring-3 code segment, and a table register that covers exactly
    these four; the fifth descriptor that its last line names is not written. *)
Theorem gdt_init_spec s :
  mapped_range (get_mem s) 2048 48 -> gdt_size (vars s) = 0 ->
  wp gdt_init (fun r s' => let m := get_mem s' in
    r = 0 /\ rd16 m 2048 = 8 * 4 - 1 /\ rd32 m 2050 = 2054 /\
    descriptor m 2054 = 0 /\ descriptor m 2062 = 58434644969848831 /\
    descriptor m 2070 = 58425848876826623 /\ descriptor m 2078 = 40525799576633343 /\
    descriptor m 2086 = descriptor (get_mem s) 2086) s.
Proof.
  intros Hm Hsz. unfold gdt_init. apply wp_bind, wp_assign, wp_bind, wp_assign.
  match goal with |- wp _ _ ?t => change t with (set_vars (GdtVars 2054 (gdt_size (vars s)) 2048) s) end.
  rewrite Hsz. assert (Hsub : forall m P a n, agree P (get_mem s) m -> 2048 <= a -> 0 <= n -> a + n <= 2096 -> mapped_range m a n).
  { intros m P a n Ha ???. eapply agree_mapped_range; [exact Ha|]. eapply mapped_range_sub; [exact Hm|lia..]. }
  apply wp_bind, wp_add_descriptor; [simpl; lia|eapply Hsub; [apply (agree_refl (fun _ => True))|simpl; lia..]|done|].
  intros m1 H1 D1. change (agree (fun x => ~ 2054 <= x < 2062) (get_mem s) m1) in H1.
  apply wp_bind, wp_add_descriptor; [simpl; lia|lens; eapply Hsub; [exact H1|simpl; lia..]|done|].
  lens. intros m2 H2 D2. change (agree (fun x => ~ 2062 <= x < 2070) m1 m2) in H2.
  assert (A2 : agree (fun x => ~ 2054 <= x < 2070) (get_mem s) m2) by (two H1 H2).
  apply wp_bind, wp_add_descriptor; [simpl; lia|lens; eapply Hsub; [exact A2|simpl; lia..]|done|].
  lens. intros m3 H3 D3. change (agree (fun x => ~ 2070 <= x < 2078) m2 m3) in H3.
  assert (A3 : agree (fun x => ~ 2054 <= x < 2078) (get_mem s) m3) by (two A2 H3).
  apply wp_bind, wp_add_descriptor; [simpl; lia|lens; eapply Hsub; [exact A3|simpl; lia..]|done|].
  lens. intros m4 H4 D4. change (agree (fun x => ~ 2078 <= x < 2086) m3 m4) in H4.
  assert (A4 : agree (fun x => ~ 2054 <= x < 2086) (get_mem s) m4) by (two A3 H4).
  match goal with |- wp _ _ ?t => change t with (set_vars (GdtVars 2054 32 2048)
    (set_mem m4 (set_mem m3 (set_mem m2 (set_mem m1 s))))) end.
  apply wp_set_descriptor; [eapply Hsub; [exact A4|lia..]|]. intros m5 A5 R16 R32. lens. cbv zeta.
  change (descriptor m1 2054 = 0) in D1. change (descriptor m2 2062 = 58434644969848831) in D2.
  change (descriptor m3 2070 = 58425848876826623) in D3. change (descriptor m4 2078 = 40525799576633343) in D4.
  split_and!; [done|exact R16|exact R32|..]; repeat match goal with
  | D : descriptor ?m ?a = ?d |- descriptor ?m ?a = ?d => exact D
  | A : agree _ ?m ?m' |- descriptor ?m' _ = descriptor ?m _ => eapply descriptor_keep; [exact A|lia|done]
  | A : agree _ ?m m5 |- descriptor m5 _ = _ => eapply descriptor_keep; [exact A|lia|]
  | A : agree _ ?m ?m' |- descriptor ?m' _ = _ => eapply descriptor_keep; [exact A|lia|]
  end.
Qed.
End gdt_spec.

(** ** The theorems at work *)

Definition demo_low_mem : mem := Mem ∅ [(2048, 65536)].
Lemma demo_low_mapped a n : 2048 <= a -> 0 <= n -> a + n <= 65536 -> mapped_range demo_low_mem a n.
Proof. intros. eapply mapped_range_intro; [left|lia..]. Qed.

Lemma gdt_init_spec_witness :
  wp gdt_init (fun r s' => r = 0 /\ descriptor (get_mem s') 2062 = 58434644969848831)
    (Layer demo_low_mem (GdtVars 0 0 0)).
Proof.
  eapply wp_mono; [apply (gdt_init_spec (Layer demo_low_mem (GdtVars 0 0 0)))|].
  - by apply demo_low_mapped.
  - done.
  - by intros r s' (-> & _ & _ & _ & ? & _).
Defined.

Lemma idt_init_spec_witness :
  wp (idt_init 1000 2000 3000) (fun r s' => r = 0 /\ gate (get_mem s') 8568 3000)
    (Layer demo_low_mem (IdtVars 0 0 0 4096 0)).
Proof.
  eapply wp_mono; [apply (idt_init_spec (Layer demo_low_mem (IdtVars 0 0 0 4096 0)) 1000 2000 3000)|].
  - by apply demo_low_mapped.
  - by apply demo_low_mapped.
  - lia.
  - lia.
  - lia.
  - simpl. lia.
  - intros r s' (-> & Hg & _). split; [done|]. by apply (Hg 47).
Defined.
