(* ===== verification/Timer.v ===== *)
(** * The timer interrupt: [pit_irq] of [arch/x86/pit.c]

    A tick is counted; when scheduling is enabled it ends in the scheduler,
    which switches to the next thread, and otherwise it returns to the
    interrupted code.  The instructions that the compiler puts in front of the
    assembly, and the [add] that undoes them, are left out.

    Between two ticks the running thread changes its registers and its memory.
    The theorem is about all such executions: the threads share one processor,
    and each of them runs as if it had its own. *)

From stdpp Require Import base numbers list gmap.
From Stdlib Require Import ZArith Lia.
From S2P Require Import Prelude Memory Process Pages Arm Liballoc LiballocInv LiballocSpec Allocator Phymem Layer Tables Current Hal Sched Switch Pic.

Local Open Scope Z_scope.

Section ops.
Context {S : Type} `{Current S}.
Notation sched := (layer (phymem S) sched_vars).
Notation world := (layer (layer sched ports) cpu).
Notation WM := (M world).
(** The variable of the file is [__pit_ticks]. *)
Notation timer := (layer world Z).

Definition pop_to (f : Z -> cpu -> cpu) : WM unit := let! w := pop in assign (f w).

Definition set_eax (n : Z) (c : cpu) : cpu :=
  Cpu n (ebx c) (ecx c) (edx c) (esi c) (edi c) (ebp c) (esp c) (eip c) (eflags c) (cs c) (ds c) (es c) (fs c) (gs c).

Definition pusha : WM unit :=
  let! c := var (fun c => c) in
  push_seq [eax c; ecx c; edx c; ebx c; esp c; ebp c; esi c; edi c].
Definition popa : WM unit :=
  let! r_edi := pop in
  let! r_esi := pop in
  let! r_ebp := pop in
  let! _ := pop in
  let! r_ebx := pop in
  let! r_edx := pop in
  let! r_ecx := pop in
  let! r_eax := pop in
  assign (fun c => Cpu r_eax r_ebx r_ecx r_edx r_esi r_edi r_ebp (esp c) (eip c) (eflags c) (cs c) (ds c) (es c) (fs c) (gs c)).
Definition iret : WM unit :=
  let! r_eip := pop in
  let! r_cs := pop in
  let! r_eflags := pop in
  assign (fun c => Cpu (eax c) (ebx c) (ecx c) (edx c) (esi c) (edi c) (ebp c) (esp c) r_eip r_eflags r_cs (ds c) (es c) (fs c) (gs c)).

(** The interrupt is acknowledged, and the interrupted code goes on.  [panic]
    is the model's halt. *)
Definition acknowledge : WM unit :=
  pusha ;!
  let! e := below (below interrupts_enabled) in
  (if! e =? 0 then halt) ;!
  let! _ := send_eoi 0 in
  popa ;!
  iret.

Definition pit_irq : M timer unit :=
  let! c := below (var (fun c => c)) in
  below (push (eax c)) ;!
  assign (fun ticks => u32 (ticks + 1)) ;!
  below (pop_to set_eax) ;!
  let! t := below (below (below (var task))) in
  if t =? 1 then below reschedule else below acknowledge.

(** Interrupt 32. *)
Definition timer_interrupt : M timer unit := below interrupt ;! pit_irq.

Definition arch_get_ticks : M timer Z := var (fun ticks => ticks).
End ops.

Section rules.
Context {S : Type} `{Current S}.
Notation sched := (layer (phymem S) sched_vars).
Notation world := (layer (layer sched ports) cpu).
Notation timer := (layer world Z).
Implicit Types (s : world).

(** A handler that returns leaves the registers as they were. *)
Lemma wp_acknowledge r m s (Q : unit -> world -> Prop) :
  regs_ok m r -> frame_at m (esp r) [eflags r; cs r; eip r] ->
  __irq_enabled (vars (lower (lower s))) <> 0 ->
  (forall m', agree (fun a => ~ esp r - 56 <= a < esp r) m m' -> Q tt (with_cpu r m' (with_event (Out 8 32 32) s))) ->
  wp acknowledge Q (with_cpu (cli (set_esp (esp r - 12) r)) m s).
Proof.
  intros [Hw Hsp Hm] Hf Hirq HQ. set (c := cli (set_esp (esp r - 12) r)).
  assert (Hall : Forall word [eax r; ecx r; edx r; ebx r; esp r - 12; ebp r; esi r; edi r]).
  { unfold saved_words in Hw. rewrite Forall_forall in Hw. assert (Hin := fun w => Hw w). clear Hw.
    repeat (apply Forall_cons; split); try (apply Hin; set_solver); [unfold word; lia|apply Forall_nil; done]. }
  unfold acknowledge, pusha. apply wp_bind, wp_bind, wp_var. change (vars (with_cpu c m s)) with c.
  apply (wp_push_seq [eax r; ecx r; edx r; ebx r; esp r - 12; ebp r; esi r; edi r] c); change (esp c) with (esp r - 12);
    simpl length; [lia|eapply mapped_range_sub; [exact Hm|lia..]|exact Hall|].
  intros m' Hag Hf2. assert (Hm' : mapped_range m' (esp r - 56) 56) by (by eapply agree_mapped_range).
  assert (Hfa : frame_at m' (esp r) ([eflags r; cs r; eip r] ++ [eax r; ecx r; edx r; ebx r; esp r - 12; ebp r; esi r; edi r])).
  { apply frame_app; [|exact Hf2]. eapply frame_agree; [exact Hag|simpl; lia|exact Hf]. }
  clear Hf Hf2. apply wp_bind, wp_below, wp_below, wp_var.
  change (__irq_enabled (vars (lower (lower (with_cpu ?c0 m' s))))) with (__irq_enabled (vars (lower (lower s)))).
  rewrite (proj2 (Z.eqb_neq _ 0) Hirq).
  match goal with |- wp _ _ ?s0 => replace s0 with (with_cpu (set_esp (esp r - 44) c) m' s) end.
  2: { replace (esp r - 12 - 4 * Z.of_nat 8) with (esp r - 44) by lia. by destruct s as [[? ?] ?]. }
  apply wp_bind, wp_ret. unfold send_eoi, pic_send_eoi. apply wp_bind, wp_bind, wp_bind, wp_ret, wp_outport, wp_ret.
  change (with_event (Out 8 PIC_MASTER_CMD (PIC_CMD_EOI mod 2 ^ 8)) (with_cpu ?c0 m' s)) with (with_cpu c0 m' (with_event (Out 8 32 32) s)).
  unfold popa, iret. apply wp_bind.
  pop_next Hm' 10%nat. pop_next Hm' 9%nat. pop_next Hm' 8%nat. pop_next Hm' 7%nat. pop_next Hm' 6%nat.
  pop_next Hm' 5%nat. pop_next Hm' 4%nat. pop_next Hm' 3%nat.
  apply wp_assign. rewrite set_vars_with_cpu.
  pop_next Hm' 2%nat. pop_next Hm' 1%nat. pop_next Hm' 0%nat.
  apply wp_assign. rewrite set_vars_with_cpu.
  match goal with |- Q tt (with_cpu ?c' _ _) => replace c' with r end.
  - apply HQ. eapply agree_mono; [exact Hag|]. simpl. intros; lia.
  - destruct r. simpl. f_equal. lia.
Qed.
End rules.

(** ** Executions *)

(** The processor of thread [c] goes on to [r]; the other threads keep theirs. *)
Definition update (R : Z -> cpu) (c : Z) (r : cpu) : Z -> cpu := fun t => if t =? c then r else R t.

Section executions.
Context {S : Type} `{Current S}.
Notation timer := (layer (layer (layer (layer (phymem S) sched_vars) ports) cpu) Z).
Implicit Types (s : timer).

(** [T] are the threads of the kernel. *)
Variable T : Z -> Prop.

Definition running (s : timer) : Z := __new__thread (vars (lower (lower (lower s)))).

(** What the switch relies on: the table and its processes, the structures of
    the threads, the frames of those that wait, and the places of the page
    directories. *)
Definition kernel_byte (R : Z -> cpu) (m : mem) (v : sched_vars) (a : Z) : Prop :=
  sched_byte m (processes v) a \/
  exists t, T t /\ (in_block t sizeof_thread a \/ in_block (pd_word m t) 4 a \/ (t <> __new__thread v /\ stack_byte R t a)).

(** The running thread executes its instructions: it may change all memory but
    the kernel's, and has [r] in the registers; there is room on its stack. *)
Record thread_ran (R : Z -> cpu) (r : cpu) (s s' : timer) : Prop := {
  tr_ticks : vars s' = vars s;
  tr_cpu : vars (lower s') = r;
  tr_vars : vars (lower (lower (lower s'))) = vars (lower (lower (lower s)));
  tr_mem : agree (kernel_byte R (get_mem s) (vars (lower (lower (lower s))))) (get_mem s) (get_mem s');
  tr_regs : regs_ok (get_mem s') r;
  tr_stack : forall a, esp r - 56 <= a < esp r -> ~ kernel_byte R (get_mem s) (vars (lower (lower (lower s)))) a;
}.

(** [n] ticks, and any number of steps of the threads between them. *)
Inductive runs (R : Z -> cpu) (s : timer) : nat -> (Z -> cpu) -> timer -> Prop :=
  | runs_start : runs R s 0 R s
  | runs_thread n R1 s1 r s2 : runs R s n R1 s1 -> thread_ran R1 r s1 s2 -> runs R s n (update R1 (running s1) r) s2
  | runs_tick n R1 s1 s2 : runs R s n R1 s1 -> timer_interrupt s1 = Ret tt s2 -> runs R s (Datatypes.S n) R1 s2.

(** The running thread is in the processor, all others are on their stacks. *)
Record kernel_wf (R : Z -> cpu) (s : timer) : Prop := {
  kw_sched : sched_wf (lower (lower (lower s)));
  kw_threads : threads_wf R T (get_mem s) (vars (lower (lower (lower s))));
  kw_cpu : vars (lower s) = R (running s);
  kw_irq : __irq_enabled (vars (lower (lower (lower s)))) <> 0;
}.

Lemma update_eq R c r : update R c r c = r.
Proof. unfold update. by rewrite Z.eqb_refl. Qed.
Lemma update_ne R c r t : t <> c -> update R c r t = R t.
Proof. intros Hne. unfold update. by rewrite (proj2 (Z.eqb_neq t c) Hne). Qed.

Section step.
Variables (R : Z -> cpu) (r : cpu) (s s' : timer).
Hypothesis Hwf : kernel_wf R s.
Hypothesis Hran : thread_ran R r s s'.
Notation x := (lower (lower (lower s))).
Notation m := (get_mem s).
Notation m' := (get_mem s').
Notation v := (vars (lower (lower (lower s)))).
Notation ps := (processes (vars (lower (lower (lower s))))).
Notation c := (running s).

Lemma ran_table : agree (sched_byte m ps) m m'.
Proof. eapply agree_mono; [apply (tr_mem _ _ _ _ Hran)|]. intros a Ha. by left. Qed.

Lemma ran_slot i : 0 <= i < MAX_PROCESSES -> slot m' ps i = slot m ps i.
Proof. apply slot_sched, ran_table. Qed.

Lemma ran_thread_slot i j :
  0 <= i < MAX_PROCESSES -> slot m ps i <> 0 -> 0 <= j < MAX_THREADS ->
  slot m' (slot m ps i + P_threads) j = slot m (slot m ps i + P_threads) j.
Proof.
  intros Hi Hn Hj. apply (rd32_agree _ _ _ _ ran_table); (right; exists i; split_and!; [lia|lia|done|soffs; lia..]).
Qed.

Lemma ran_mapped a n : mapped_range m a n -> mapped_range m' a n.
Proof. by apply (agree_mapped_range _ _ _ _ _ (tr_mem _ _ _ _ Hran)). Qed.

Lemma ran_pd t : T t -> pd_word m' t = pd_word m t.
Proof.
  intros Ht. apply (rd32_agree _ _ _ _ (tr_mem _ _ _ _ Hran)); (right; exists t; split; [done|left; soffs; lia]).
Qed.

(** The place of a frame afterwards. *)
Lemma ran_stack t a :
  T t -> stack_byte (update R c r) t a ->
  (t = c /\ ~ kernel_byte R m v a) \/ (t <> c /\ stack_byte R t a).
Proof.
  intros Ht Ha. destruct (decide (t = c)) as [->|Hne]; [left|right]; (split; [done|]); unfold stack_byte in *.
  - apply (tr_stack _ _ _ _ Hran). by rewrite update_eq in Ha.
  - by rewrite update_ne in Ha.
Qed.

Lemma ran_parked t : T t -> t <> c -> parked m' t (R t).
Proof.
  intros Ht Hne. destruct (tw_parked _ _ _ _ (kw_threads _ _ Hwf) t Ht Hne) as [He Hf]. split.
  - rewrite <-He. apply (rd32_agree _ _ _ _ (tr_mem _ _ _ _ Hran)); (right; exists t; split; [done|left; soffs; lia]).
  - eapply frame_agree; [apply (tr_mem _ _ _ _ Hran)| |exact Hf]. intros a Ha. right. exists t.
    split; [done|]. right. right. by split.
Qed.

Lemma ran_threads_wf : threads_wf (update R c r) T m' v.
Proof.
  destruct (kw_threads _ _ Hwf) as [Hc Hall Hpk Hreg Hst Hsk Hss Htb Hpd].
  assert (Hfree : forall t a, T t -> stack_byte (update R c r) t a -> ~ kernel_byte R m v a \/ (t <> c /\ stack_byte R t a)).
  { intros t a Ht Ha. destruct (ran_stack t a Ht Ha) as [[_ ?]|?]; auto. }
  split.
  - done.
  - intros i j Hi. rewrite ran_slot by done. intros Hn Hj. rewrite ran_thread_slot by done. by apply Hall.
  - intros t Ht Hne. rewrite update_ne by done. by apply ran_parked.
  - intros t Ht. destruct (decide (t = c)) as [->|Hne]; [rewrite update_eq; apply (tr_regs _ _ _ _ Hran)|].
    rewrite update_ne by done. destruct (Hreg t Ht). split; [done..|by apply ran_mapped].
  - intros t Ht. destruct (Hst t Ht) as (? & ? & ?). rewrite ran_pd by done. split_and!; [done|by apply ran_mapped..].
  - intros t u a Ht Hu Hne Ha Hb.
    destruct (ran_stack t a Ht Ha) as [[-> Hx]|[Hnt Hx]], (ran_stack u a Hu Hb) as [[-> Hy]|[Hnu Hy]]; [done|..].
    + apply Hx. right. exists u. auto.
    + apply Hy. right. exists t. auto.
    + exact (Hsk t u a Ht Hu Hne Hx Hy).
  - intros t u a Ht Hu Ha. split; [|by apply (Hss t u a Ht Hu Ha)].
    intros Hb. destruct (Hfree u a Hu Hb) as [Hx|[_ Hx]]; [apply Hx; right; exists t; auto|].
    exact (proj1 (Hss t u a Ht Hu Ha) Hx).
  - intros t a Ht Ha. rewrite sched_byte_eq by exact ran_slot. destruct Ha as [Ha|Ha]; [|by apply (Htb t a Ht); right].
    destruct (Hfree t a Ht Ha) as [Hx|[_ Hx]]; [intros Hb; apply Hx; by left|]. apply (Htb t a Ht). by left.
  - intros t u a Ht Hu. rewrite ran_pd by done. intros Ha. destruct (Hpd t u a Ht Hu Ha) as (H1 & H2 & H3).
    split_and!; [|done|].
    + intros Hb. destruct (Hfree u a Hu Hb) as [Hx|[_ Hx]]; [apply Hx; right; exists t; auto|done].
    + intros i Hi. rewrite ran_slot by done. by apply H3.
Qed.

Lemma thread_ran_wf : kernel_wf (update R c r) s'.
Proof.
  assert (Hv := tr_vars _ _ _ _ Hran). split; unfold running; rewrite ?Hv.
  - apply (sched_wf_agree x); [apply (kw_sched _ _ Hwf)|exact ran_table|by rewrite Hv..].
  - exact ran_threads_wf.
  - rewrite (tr_cpu _ _ _ _ Hran). symmetry. apply update_eq.
  - apply (kw_irq _ _ Hwf).
Qed.
End step.

(** The counting of a tick, on the stack of the interrupted thread. *)
Lemma wp_count_tick r m1 s (Q : unit -> timer -> Prop) :
  let s0 := set_lower (with_cpu (cli (set_esp (esp r - 12) r)) m1 (lower s)) s in
  regs_ok m1 r ->
  (forall m2, agree (fun a => ~ esp r - 16 <= a < esp r - 12) m1 m2 ->
     wp (let! t := below (below (below (var task))) in if t =? 1 then below reschedule else below acknowledge) Q
       (Layer (with_cpu (cli (set_esp (esp r - 12) r)) m2 (lower s)) (u32 (vars s + 1)))) ->
  wp pit_irq Q s0.
Proof.
  intros s0 [Hw Hsp Hm] HQ. set (c1 := cli (set_esp (esp r - 12) r)) in *.
  assert (Hword : word (eax r)).
  { unfold saved_words in Hw. rewrite Forall_forall in Hw. apply Hw. set_solver. }
  unfold pit_irq. apply wp_bind, wp_below, wp_var. apply wp_bind, wp_below.
  change (eax _) with (eax r).
  apply wp_push; [simpl; lia|change (esp c1) with (esp r - 12); eapply mapped_range_sub; [exact Hm|lia..]|].
  change (esp c1) with (esp r - 12). set (m2 := mwrite _ _ _).
  assert (Hag : agree (fun a => ~ esp r - 16 <= a < esp r - 12) m1 m2).
  { split; [unfold m2; by rewrite ranges_mwrite|]. intros a Ha. unfold m2. apply rd_mwrite_out. rewrite le32_length. lia. }
  assert (Hf : frame_at m2 (esp r - 12) [eax r]).
  { intros [|k] w' Hk; [|done]. injection Hk as <-. change (4 * (Z.of_nat 0 + 1)) with 4. unfold m2.
    rewrite rd32_mwrite_same. by apply u32_small. }
  clearbody m2. apply wp_bind, wp_assign. apply wp_bind, wp_below. unfold pop_to.
  assert (Hm2 : mapped_range m2 (esp r - 56) 56) by (by eapply agree_mapped_range).
  match goal with |- wp _ _ ?w => change w with (with_cpu (set_esp (esp r - 12 - 4) c1) m2 (lower s)) end.
  pop_next Hm2 0%nat. apply wp_assign. rewrite set_vars_with_cpu.
  match goal with |- wp _ _ ?w => replace w with (Layer (with_cpu c1 m2 (lower s)) (u32 (vars s + 1))); [by apply HQ|] end.
  unfold s0, set_vars, set_lower. simpl. f_equal. unfold c1, cli, set_eax, set_esp. simpl. by rewrite Z.sub_0_r.
Qed.

(** Register assignments are compared thread by thread. *)
#[local] Instance kernel_wf_proper : Proper (pointwise_relation Z eq ==> eq ==> iff) kernel_wf.
Proof.
  assert (Hone : forall R R' : Z -> cpu, pointwise_relation Z eq R R' -> forall s, kernel_wf R s -> kernel_wf R' s).
  { intros R R' He s [Hwf Htw Hcpu Hirq].
    assert (Hsb : forall t a, stack_byte R' t a <-> stack_byte R t a) by (intros t a; unfold stack_byte; by rewrite (He t)).
    split; [done| |by rewrite <-He|done]. destruct Htw as [? ? Hpk Hreg ? Hsk Hss Htb Hpd].
    split; [done|done|intros t; rewrite <-He; by apply Hpk|intros t; rewrite <-He; by apply Hreg|done|..].
    - intros t u a. rewrite !Hsb. by apply Hsk.
    - intros t u a. rewrite Hsb. by apply Hss.
    - intros t a. rewrite Hsb. by apply Htb.
    - intros t u a. rewrite Hsb. by apply Hpd. }
  intros R R' He s s' <-. split; apply Hone; [done|]. intros t. symmetry. apply He.
Qed.

Lemma update_same R c : pointwise_relation Z eq (update R c (R c)) R.
Proof. intros t. unfold update. by destruct (Z.eqb_spec t c) as [->|]. Qed.

(** The running thread's stack is its own. *)
Lemma kernel_byte_apart R s a :
  kernel_wf R s -> kernel_byte R (get_mem s) (vars (lower (lower (lower s)))) a -> ~ stack_byte R (running s) a.
Proof.
  intros [_ Htw _ _] Ha Hs. pose proof (tw_running _ _ _ _ Htw) as Hc.
  destruct Ha as [Ha|(t & Ht & [Ha|[Ha|[Hne Ha]]])].
  - by apply (tw_table _ _ _ _ Htw (running s) a Hc); [left|].
  - exact (proj1 (tw_structs _ _ _ _ Htw t (running s) a Ht Hc Ha) Hs).
  - exact (proj1 (tw_pds _ _ _ _ Htw t (running s) a Ht Hc Ha) Hs).
  - exact (tw_stacks _ _ _ _ Htw t (running s) a Ht Hc Hne Ha Hs).
Qed.

(** The interrupt returns to the thread that was running. *)
Lemma acknowledged_wf R s m2 n :
  let c := running s in
  kernel_wf R s -> agree (fun a => ~ stack_byte R c a) (get_mem s) m2 ->
  kernel_wf R (Layer (with_cpu (R c) m2 (with_event (Out 8 32 32) (lower s))) n).
Proof.
  intros c Hk Hag. set (s' := Layer (with_cpu (R c) m2 (with_event (Out 8 32 32) (lower s))) (vars s)).
  assert (Hm : get_mem s' = m2) by apply mem_with_cpu.
  assert (Hagk : agree (kernel_byte R (get_mem s) (vars (lower (lower (lower s))))) (get_mem s) m2).
  { eapply agree_mono; [exact Hag|]. intros a Ha. by apply (kernel_byte_apart R s). }
  assert (Hran : thread_ran R (R c) s s').
  { split; rewrite ?Hm; try done.
    - destruct (tw_regs _ _ _ _ (kw_threads _ _ Hk) c (tw_running _ _ _ _ (kw_threads _ _ Hk))).
      split; [done..|]. by eapply agree_mapped_range.
    - intros a Ha Hb. by apply (kernel_byte_apart R s a). }
  pose proof (thread_ran_wf R (R c) s s' Hk Hran) as Hk'. fold c in Hk'. setoid_rewrite (update_same R c) in Hk'.
  destruct Hk'. by split.
Qed.

(** What a tick does. *)
Lemma wp_timer_interrupt R s (Q : unit -> timer -> Prop) :
  kernel_wf R s ->
  (forall s', kernel_wf R s' -> vars s' = u32 (vars s + 1) ->
     io_trace (get_ports s') = io_trace (get_ports s) ++ [Out 8 32 32] -> Q tt s') ->
  wp timer_interrupt Q s.
Proof.
  intros Hk HQ. pose proof Hk as [Hwf Htw Hcpu Hirq]. unfold timer_interrupt. apply wp_bind, wp_below.
  apply (wp_interrupt R T); [exact Htw|exact Hcpu|]. intros m1 Hag1 Hf1. fold (running s) in *. set (c := running s) in *.
  destruct (tw_regs _ _ _ _ Htw c (tw_running _ _ _ _ Htw)) as [Hw Hsp Hm].
  apply wp_count_tick; [split; [done..|by eapply agree_mapped_range]|]. intros m2 Hag2.
  assert (Hag : agree (fun a => ~ stack_byte R c a) (get_mem s) m2).
  { eapply agree_trans; [exact Hag1|]. eapply agree_mono; [exact Hag2|]. simpl. intros a Ha Hb. apply Ha.
    unfold stack_byte. lia. }
  assert (Hf2 : frame_at m2 (esp (R c)) [eflags (R c); cs (R c); eip (R c)]).
  { eapply frame_agree; [exact Hag2| |exact Hf1]. simpl. lia. }
  apply wp_bind, wp_below, wp_below, wp_below, wp_var.
  match goal with |- wp _ _ ?w => replace w with (Layer (with_cpu (cli (set_esp (esp (R c) - 12) (R c))) m2 (lower s)) (u32 (vars s + 1)))
    by (by destruct s as [[[? ?] ?] ?]) end.
  destruct (task _ =? 1); apply wp_below; cbn [lower].
  - apply (wp_reschedule R T); [done..|]. intros w' (Hw1 & Hw2 & Hw3 & _ & Hw4 & _ & Hw5 & _). apply HQ; [|done|exact Hw5].
    split; [done..|]. change (__irq_enabled (vars (lower (lower w'))) <> 0). by rewrite Hw4.
  - apply wp_acknowledge; [split; [done..|]|done|done|].
    { eapply agree_mapped_range; [exact Hag2|]. by eapply agree_mapped_range. }
    intros m3 Hag3. apply HQ; [|done|done]. apply (acknowledged_wf R s m3); [done|].
    eapply agree_trans; [exact Hag|]. eapply agree_mono; [exact Hag3|]. done.
Qed.

Lemma runs_wf R s n R' s' :
  kernel_wf R s -> runs R s n R' s' -> kernel_wf R' s' /\ u32 (vars s') = u32 (vars s + Z.of_nat n).
Proof.
  intros Hk. induction 1 as [|n R1 s1 r s2 _ [IH Hn] Hran|n R1 s1 s2 _ [IH Hn] Ht].
  - split; [done|]. f_equal. lia.
  - split; [by apply thread_ran_wf|]. by rewrite (tr_ticks _ _ _ _ Hran).
  - assert (Hw : wp timer_interrupt (fun _ s' => kernel_wf R1 s' /\ vars s' = u32 (vars s1 + 1)) s1) by (by apply (wp_timer_interrupt R1)).
    unfold wp in Hw. rewrite Ht in Hw. destruct Hw as [Hk' Hv]. split; [done|]. rewrite Hv. unfold u32 in *.
    rewrite Z.mod_mod by lia. rewrite <-(Z.add_mod_idemp_l (vars s1)), Hn, Z.add_mod_idemp_l by lia. f_equal. lia.
Qed.

(** C6: The threads share one processor, and each of them runs as if it had its
    own.  In every execution, made of any number of timer interrupts and of
    instructions of the running thread, which may change its registers and all
    memory but the kernel's: the registers of a thread are changed by its own
    instructions alone, the running thread's are in the processor, and the next
    timer interrupt returns, acknowledged and counted, to a thread that has
    exactly the registers it had when it was interrupted.  The scheduler's
    structures stay well formed throughout, and the clock is the number of
    interrupts, modulo 2^32. *)
Theorem threads_own_processors R s n R' s' :
  kernel_wf R s -> runs R s n R' s' ->
  kernel_wf R' s' /\ u32 (vars s') = u32 (vars s + Z.of_nat n) /\
  wp timer_interrupt (fun _ s'' => kernel_wf R' s'' /\ vars (lower s'') = R' (running s'') /\
    vars s'' = u32 (vars s' + 1) /\ io_trace (get_ports s'') = io_trace (get_ports s') ++ [Out 8 32 32]) s'.
Proof.
  intros Hk Hruns. destruct (runs_wf _ _ _ _ _ Hk Hruns) as [Hk' Hn]. split_and!; [done..|].
  apply (wp_timer_interrupt R'); [done|]. intros s'' Hk'' Hv Ht. split_and!; [done|apply (kw_cpu _ _ Hk'')|done..].
Qed.
End executions.

(** ** The theorem at work

    The world of Switch.v: the first thread computes, a tick arrives, and the
    second thread runs. *)

#[local] Existing Instance Arm.provider.

Definition demo_timer : layer (layer (layer (layer (phymem (heap Arm.state)) sched_vars) ports) cpu) Z :=
  Layer demo_world 4294967295.
Definition demo_computed : cpu := set_eax 99 demo_r1.
Definition demo_ran : layer (layer (layer (layer (phymem (heap Arm.state)) sched_vars) ports) cpu) Z :=
  Layer (set_vars demo_computed demo_world) 4294967295.
Definition demo_ticked : layer (layer (layer (layer (phymem (heap Arm.state)) sched_vars) ports) cpu) Z :=
  run_state timer_interrupt demo_ran.

Lemma demo_kernel : kernel_wf demo_T demo_R demo_timer.
Proof. split; [exact demo_world_wf|exact demo_threads|reflexivity|done]. Qed.

Lemma demo_thread_ran : thread_ran demo_T demo_R demo_computed demo_timer demo_ran.
Proof.
  split; try reflexivity.
  - by split.
  - split; [by repeat constructor|simpl; lia|apply demo_switch_mapped; simpl; lia].
  - intros a Ha Hk. change (esp demo_computed) with 24576 in Ha. destruct Hk as [Hb|(t & Ht & Hb)].
    + apply demo_sched_byte in Hb. lia.
    + change (get_mem demo_timer) with demo_switch_mem in Hb. rewrite demo_pd in Hb by done.
      destruct Ht as [-> | ->]; destruct Hb as [Hb|[Hb|[Hne Hb]]];
        unfold in_block, sizeof_thread, P_paged, stack_byte in Hb; simpl in Hb; (lia || by destruct Hne).
Qed.

Lemma threads_own_processors_witness :
  let R := update demo_R 16384 demo_computed in
  kernel_wf demo_T R demo_ticked /\ vars demo_ticked = 0 /\
  wp timer_interrupt (fun _ s => kernel_wf demo_T R s /\ vars s = 1) demo_ticked.
Proof.
  destruct (threads_own_processors demo_T demo_R demo_timer 1 (update demo_R 16384 demo_computed) demo_ticked) as (Hk & _ & Hw).
  - exact demo_kernel.
  - apply (runs_tick _ _ _ _ _ demo_ran); [|vm_compute; reflexivity].
    exact (runs_thread _ _ _ _ _ _ _ _ (runs_start _ _ _) demo_thread_ran).
  - split_and!; [exact Hk|vm_compute; reflexivity|]. eapply wp_mono; [exact Hw|]. intros [] s (? & _ & Hv & _).
    split; [done|]. rewrite Hv. vm_compute. reflexivity.
Defined.
