(* ===== verification/Keyboard.v ===== *)
(** * The keyboard: [drivers/keyboard.c]

    Scan codes come from port 0x60; the interrupt handler turns them into
    characters, keeps them in [keybuf], and passes them to the current
    terminal.  An index outside [scancode_std] faults (in C it reads what
    follows the array). *)

From stdpp Require Import base numbers list gmap.
From Stdlib Require Import ZArith Lia.
From S2P Require Import Prelude Memory Pages Arm Liballoc LiballocInv LiballocProof LiballocSpec Allocator Layer Tables Device Mutex Hal Pic Tty.

Local Open Scope Z_scope.

(** ** Key codes *)

Definition KEY_SPACE : Z := 32.
Definition KEY_0 : Z := 48.
Definition KEY_1 : Z := 49.
Definition KEY_2 : Z := 50.
Definition KEY_3 : Z := 51.
Definition KEY_4 : Z := 52.
Definition KEY_5 : Z := 53.
Definition KEY_6 : Z := 54.
Definition KEY_7 : Z := 55.
Definition KEY_8 : Z := 56.
Definition KEY_9 : Z := 57.
Definition KEY_A : Z := 97.
Definition KEY_B : Z := 98.
Definition KEY_C : Z := 99.
Definition KEY_D : Z := 100.
Definition KEY_E : Z := 101.
Definition KEY_F : Z := 102.
Definition KEY_G : Z := 103.
Definition KEY_H : Z := 104.
Definition KEY_I : Z := 105.
Definition KEY_J : Z := 106.
Definition KEY_K : Z := 107.
Definition KEY_L : Z := 108.
Definition KEY_M : Z := 109.
Definition KEY_N : Z := 110.
Definition KEY_O : Z := 111.
Definition KEY_P : Z := 112.
Definition KEY_Q : Z := 113.
Definition KEY_R : Z := 114.
Definition KEY_S : Z := 115.
Definition KEY_T : Z := 116.
Definition KEY_U : Z := 117.
Definition KEY_V : Z := 118.
Definition KEY_W : Z := 119.
Definition KEY_X : Z := 120.
Definition KEY_Y : Z := 121.
Definition KEY_Z : Z := 122.
Definition KEY_RETURN : Z := 10.
Definition KEY_ESCAPE : Z := 4097.
Definition KEY_BACKSPACE : Z := 8.
Definition KEY_UP : Z := 4352.
Definition KEY_DOWN : Z := 4353.
Definition KEY_LEFT : Z := 4354.
Definition KEY_RIGHT : Z := 4355.
Definition KEY_F1 : Z := 4609.
Definition KEY_F2 : Z := 4610.
Definition KEY_F3 : Z := 4611.
Definition KEY_F4 : Z := 4612.
Definition KEY_F5 : Z := 4613.
Definition KEY_F6 : Z := 4614.
Definition KEY_F7 : Z := 4615.
Definition KEY_F8 : Z := 4616.
Definition KEY_F9 : Z := 4617.
Definition KEY_F10 : Z := 4618.
Definition KEY_F11 : Z := 4619.
Definition KEY_F12 : Z := 4619.
Definition KEY_F13 : Z := 4620.
Definition KEY_F14 : Z := 4621.
Definition KEY_F15 : Z := 4622.
Definition KEY_DOT : Z := 46.
Definition KEY_COMMA : Z := 44.
Definition KEY_COLON : Z := 58.
Definition KEY_SEMICOLON : Z := 59.
Definition KEY_SLASH : Z := 47.
Definition KEY_BACKSLASH : Z := 92.
Definition KEY_PLUS : Z := 43.
Definition KEY_MINUS : Z := 45.
Definition KEY_ASTERISK : Z := 42.
Definition KEY_EXCLAMATION : Z := 33.
Definition KEY_QUESTION : Z := 63.
Definition KEY_QUOTEDOUBLE : Z := 34.
Definition KEY_QUOTE : Z := 39.
Definition KEY_EQUAL : Z := 61.
Definition KEY_HASH : Z := 35.
Definition KEY_PERCENT : Z := 37.
Definition KEY_AMPERSAND : Z := 38.
Definition KEY_UNDERSCORE : Z := 95.
Definition KEY_LEFTPARENTHESIS : Z := 40.
Definition KEY_RIGHTPARENTHESIS : Z := 41.
Definition KEY_LEFTBRACKET : Z := 91.
Definition KEY_RIGHTBRACKET : Z := 93.
Definition KEY_LEFTCURL : Z := 123.
Definition KEY_RIGHTCURL : Z := 125.
Definition KEY_DOLLAR : Z := 36.
Definition KEY_POUND : Z := 36.
Definition KEY_EURO : Z := 36.
Definition KEY_LESS : Z := 60.
Definition KEY_GREATER : Z := 62.
Definition KEY_BAR : Z := 124.
Definition KEY_GRAVE : Z := 96.
Definition KEY_TILDE : Z := 126.
Definition KEY_AT : Z := 64.
Definition KEY_CARRET : Z := 94.
Definition KEY_KP_0 : Z := 48.
Definition KEY_KP_1 : Z := 49.
Definition KEY_KP_2 : Z := 50.
Definition KEY_KP_3 : Z := 51.
Definition KEY_KP_4 : Z := 52.
Definition KEY_KP_5 : Z := 53.
Definition KEY_KP_6 : Z := 54.
Definition KEY_KP_7 : Z := 55.
Definition KEY_KP_8 : Z := 56.
Definition KEY_KP_9 : Z := 57.
Definition KEY_KP_PLUS : Z := 43.
Definition KEY_KP_MINUS : Z := 45.
Definition KEY_KP_DECIMAL : Z := 46.
Definition KEY_KP_DIVIDE : Z := 47.
Definition KEY_KP_ASTERISK : Z := 42.
Definition KEY_KP_NUMLOCK : Z := 12303.
Definition KEY_KP_ENTER : Z := 12304.
Definition KEY_TAB : Z := 16384.
Definition KEY_CAPSLOCK : Z := 16385.
Definition KEY_LSHIFT : Z := 16386.
Definition KEY_LCTRL : Z := 16387.
Definition KEY_LALT : Z := 16388.
Definition KEY_LWIN : Z := 16389.
Definition KEY_RSHIFT : Z := 16390.
Definition KEY_RCTRL : Z := 16391.
Definition KEY_RALT : Z := 16392.
Definition KEY_RWIN : Z := 16393.
Definition KEY_INSERT : Z := 16394.
Definition KEY_DELETE : Z := 16395.
Definition KEY_HOME : Z := 16396.
Definition KEY_END : Z := 16397.
Definition KEY_PAGEUP : Z := 16398.
Definition KEY_PAGEDOWN : Z := 16399.
Definition KEY_SCROLLLOCK : Z := 16400.
Definition KEY_PAUSE : Z := 16401.
Definition KEY_UNKNOWN : Z := 16402.
Definition KEY_NUMKEYCODES : Z := 16403.

Definition scancode_std : list Z :=
  [KEY_UNKNOWN; KEY_ESCAPE; KEY_1; KEY_2; KEY_3; KEY_4; KEY_5; KEY_6; KEY_7; KEY_8; KEY_9; KEY_0;
   KEY_MINUS; KEY_EQUAL; KEY_BACKSPACE; KEY_TAB; KEY_Q; KEY_W; KEY_E; KEY_R; KEY_T; KEY_Y; KEY_U; KEY_I;
   KEY_O; KEY_P; KEY_LEFTBRACKET; KEY_RIGHTBRACKET; KEY_RETURN; KEY_LCTRL; KEY_A; KEY_S; KEY_D; KEY_F;
   KEY_G; KEY_H; KEY_J; KEY_K; KEY_L; KEY_SEMICOLON; KEY_QUOTE; KEY_GRAVE; KEY_LSHIFT; KEY_BACKSLASH;
   KEY_Z; KEY_X; KEY_C; KEY_V; KEY_B; KEY_N; KEY_M; KEY_COMMA; KEY_DOT; KEY_SLASH; KEY_RSHIFT;
   KEY_KP_ASTERISK; KEY_RALT; KEY_SPACE; KEY_CAPSLOCK; KEY_F1; KEY_F2; KEY_F3; KEY_F4; KEY_F5; KEY_F6;
   KEY_F7; KEY_F8; KEY_F9; KEY_F10; KEY_KP_NUMLOCK; KEY_SCROLLLOCK; KEY_HOME; KEY_KP_8; KEY_PAGEUP;
   KEY_KP_2; KEY_KP_3; KEY_KP_0; KEY_KP_DECIMAL; KEY_UNKNOWN; KEY_UNKNOWN; KEY_UNKNOWN; KEY_F11; KEY_F12].

Record kbd_vars : Type := KbdVars {
  keybuf : Z; key_loc : Z; lastkey : Z; kbd_enabled : Z; keys_avail : Z;
  kbd_c : Z; _shift : Z; _alt : Z; _ctrl : Z; _capslock : Z; _extended : Z
}.

Definition set_key (loc avail c : Z) (v : kbd_vars) : kbd_vars :=
  KbdVars (keybuf v) loc (lastkey v) (kbd_enabled v) avail c (_shift v) (_alt v) (_ctrl v) (_capslock v) (_extended v).
Definition set_mods (sh al ct ca : Z) (v : kbd_vars) : kbd_vars :=
  KbdVars (keybuf v) (key_loc v) (lastkey v) (kbd_enabled v) (keys_avail v) (kbd_c v) sh al ct ca (_extended v).
Definition set_extended (e : Z) (v : kbd_vars) : kbd_vars :=
  KbdVars (keybuf v) (key_loc v) (lastkey v) (kbd_enabled v) (keys_avail v) (kbd_c v) (_shift v) (_alt v) (_ctrl v)
    (_capslock v) e.
Definition set_lastkey (k : Z) (v : kbd_vars) : kbd_vars :=
  KbdVars (keybuf v) (key_loc v) k (kbd_enabled v) (keys_avail v) (kbd_c v) (_shift v) (_alt v) (_ctrl v)
    (_capslock v) (_extended v).
Definition set_keybuf (b e : Z) (v : kbd_vars) : kbd_vars :=
  KbdVars b (key_loc v) (lastkey v) e (keys_avail v) (kbd_c v) (_shift v) (_alt v) (_ctrl v) (_capslock v) (_extended v).

(** ** Translation *)

(** The cases of the two switches, with shift down and caps lock off. *)
Definition shifted (key : Z) : Z :=
  if (48 <=? key) && (key <=? 57) then
    if key =? 48 then KEY_RIGHTPARENTHESIS
    else if key =? 49 then KEY_EXCLAMATION
    else if key =? 50 then KEY_AT
    else if key =? 51 then KEY_EXCLAMATION
    else if key =? 52 then KEY_HASH
    else if key =? 53 then KEY_PERCENT
    else if key =? 54 then KEY_CARRET
    else if key =? 55 then KEY_AMPERSAND
    else if key =? 56 then KEY_ASTERISK
    else KEY_LEFTPARENTHESIS
  else
    if key =? KEY_COMMA then KEY_LESS
    else if key =? KEY_DOT then KEY_GREATER
    else if key =? KEY_SLASH then KEY_QUESTION
    else if key =? KEY_SEMICOLON then KEY_COLON
    else if key =? KEY_QUOTE then KEY_QUOTEDOUBLE
    else if key =? KEY_LEFTBRACKET then KEY_LEFTCURL
    else if key =? KEY_RIGHTBRACKET then KEY_RIGHTCURL
    else if key =? KEY_GRAVE then KEY_TILDE
    else if key =? KEY_MINUS then KEY_UNDERSCORE
    else if key =? KEY_PLUS then KEY_EQUAL
    else if key =? KEY_BACKSLASH then KEY_BAR
    else key.

Definition to_ascii (shift caps key : Z) : Z :=
  if key =? 0 then 0
  else
    let key := if (negb (shift =? 0) || negb (caps =? 0)) && ((97 <=? key) && (key <=? 122)) then key - 32 else key in
    if negb (shift =? 0) && (caps =? 0) then shifted key else key.

Section ops.
Context {S G : Type} `{Allocator S G} `{!HasPorts S}.
Notation TS := (layer (layer (layer S device_vars) Z) tty_vars).
Notation KM := (M (layer TS kbd_vars)).
(** The static [keyboard_input] structure, of 12 bytes. *)
Variable keyboard_input : Z.
Variable register_kbd : KM Z.   (* register_interrupt(33, kbd_irq) *)

Definition keyboard_to_ascii (key : Z) : KM Z :=
  let! v := var (fun v => v) in
  ret (to_ascii (_shift v) (_capslock v) key).

(** [keybuf[256]], past the end of the buffer, is read in the last round. *)
Definition keyboard_get_key : KM Z :=
  assign (fun v => set_key (key_loc v) (keys_avail v) 0 v) ;!
  let! v := var (fun v => v) in
  if key_loc v =? 0 then ret 0
  else
    let! c := ld8 (keybuf v) in
    assign (fun v => set_key (u16 (key_loc v - 1)) (keys_avail v) c v) ;!
    for_up 256 0 (fun i => copy_byte (keybuf v + i) (keybuf v + (i + 1))) ;!
    assign (fun v => set_key (key_loc v) (u8 (keys_avail v - 1)) (kbd_c v) v) ;!
    var kbd_c.

Definition keyboard_read_key : KM unit :=
  assign (set_lastkey 0) ;!
  let! st := inportb 100 in
  if Z.land st 1 =? 0 then ret tt
  else let! k := inportb 96 in assign (set_lastkey k).

Definition kbd_read (m buf len : Z) : KM Z :=
  let! avail := var keys_avail in
  let to_read := if len >? avail then avail else len in
  for_up (Z.to_nat to_read) 0 (fun i => let! k := keyboard_get_key in st8 (buf + i) k) ;!
  ret to_read.

Definition keyboard_create_new (mtty : Z) : KM Z :=
  let! cp := malloc 12 in
  memcpy cp keyboard_input 12 ;!
  st32 (cp + 8) mtty ;!
  ret cp.

Definition is_key (key a b : Z) : bool := (key =? a) || (key =? b).

Definition parse_keycode (code : Z) : KM Z :=
  if (code =? 224) || (code =? 225) then assign (set_extended 1) ;! ret 0
  else
    assign (set_extended 0) ;!
    if negb (Z.land code 128 =? 0) then
      let! key := of_opt (scancode_std !! Z.to_nat (code - 128)) in
      (if is_key key KEY_LCTRL KEY_RCTRL then assign (fun v => set_mods (_shift v) (_alt v) 0 (_capslock v) v)
       else if is_key key KEY_LSHIFT KEY_RSHIFT then assign (fun v => set_mods 0 (_alt v) (_ctrl v) (_capslock v) v)
       else if is_key key KEY_LALT KEY_RALT then assign (fun v => set_mods (_shift v) 0 (_ctrl v) (_capslock v) v)
       else ret tt) ;!
      ret 0
    else
      let! key := of_opt (scancode_std !! Z.to_nat code) in
      if is_key key KEY_LCTRL KEY_RCTRL then
        assign (fun v => set_mods (_shift v) (_alt v) 1 (_capslock v) v) ;! ret 0
      else if is_key key KEY_LSHIFT KEY_RSHIFT then
        assign (fun v => set_mods 1 (_alt v) (_ctrl v) (_capslock v) v) ;! ret 0
      else if is_key key KEY_LALT KEY_RALT then
        assign (fun v => set_mods (_shift v) 1 (_ctrl v) (_capslock v) v) ;! ret 0
      else if key =? KEY_CAPSLOCK then
        assign (fun v => set_mods (_shift v) (_alt v) (_ctrl v) (if _capslock v =? 0 then 1 else 0) v) ;! ret 0
      else ret (u8 key).

(** The interrupt handler, behind the assembly stub [kbd_irq]. *)
Definition __imp_kbd_irq : KM unit :=
  let! code := inportb 96 in
  let! key := parse_keycode code in
  let! c := keyboard_to_ascii key in
  (if! negb (c =? 0) then
     (let! v := var (fun v => v) in
      st8 (keybuf v + key_loc v) c ;!
      assign (fun v => set_key (u16 (key_loc v + 1)) (u8 (keys_avail v + 1)) (kbd_c v) v) ;!
      let! id := below tty_current in
      let! k := keyboard_get_key in
      let! _ := below (tty_push_byte id k) in
      ret tt)) ;!
  let! _ := send_eoi 1 in
  ret tt.

(** [input_register] does nothing. *)
Definition keyboard_init : KM Z :=
  let! b := malloc 256 in
  assign (fun v => set_keybuf b (kbd_enabled v) v) ;!
  let! _ := register_kbd in
  assign (fun v => set_keybuf (keybuf v) 1 v) ;!
  ret 0.
End ops.

(** ** The characters that can be typed *)

Definition typeable (c : Z) : Prop :=
  exists code key shift caps, scancode_std !! code = Some key /\ to_ascii shift caps (u8 key) = c.

(** What the keys give under the four states of shift and caps lock. *)
Definition outputs : list Z :=
  flat_map (fun key => [to_ascii 0 0 (u8 key); to_ascii 1 0 (u8 key); to_ascii 0 1 (u8 key); to_ascii 1 1 (u8 key)])
    scancode_std.

Lemma typeable_outputs c : typeable c <-> c ∈ outputs.
Proof.
  unfold outputs. rewrite list_elem_of_In, in_flat_map. split.
  - intros (code & key & sh & ca & Hk & Hc). exists key. split; [by eapply list_elem_of_In, list_elem_of_lookup_2|].
    assert (to_ascii sh ca (u8 key) = to_ascii (if sh =? 0 then 0 else 1) (if ca =? 0 then 0 else 1) (u8 key)) as E.
    { unfold to_ascii. destruct (sh =? 0), (ca =? 0); reflexivity. }
    rewrite E in Hc. destruct (sh =? 0), (ca =? 0); subst c; simpl; auto.
  - intros (key & Hk & Hc). apply list_elem_of_In, list_elem_of_lookup in Hk as [code Hk].
    simpl in Hc. destruct Hc as [Hc|[Hc|[Hc|[Hc|[]]]]];
      eexists code, key, _, _; (split; [exact Hk|exact Hc]).
Qed.

(** Every printable ASCII character can be typed with the keyboard's table
    and its two modifiers, except the dollar and the plus sign: shift-3 and
    shift-4 give an exclamation mark and a hash. *)
Theorem keyboard_characters c : 32 <= c <= 126 -> (typeable c <-> c <> KEY_DOLLAR /\ c <> KEY_PLUS).
Proof.
  intros Hc. rewrite typeable_outputs.
  assert (Hall : Forall (fun c => c ∈ outputs <-> c <> 36 /\ c <> 43) (seqZ 32 95)).
  { apply (bool_decide_unpack _). vm_compute. exact I. }
  rewrite Forall_forall in Hall. apply Hall, elem_of_seqZ. lia.
Qed.

Lemma keyboard_characters_witness : typeable 35 /\ ~ typeable 36.
Proof.
  split; [apply (keyboard_characters 35); [lia|split; discriminate]|].
  intros Ht. apply (keyboard_characters 36) in Ht as [Hn _]; [by apply Hn|lia].
Defined.

(** ** A key stroke *)

Lemma typeable_range c : typeable c -> 0 <= c < 256.
Proof.
  rewrite typeable_outputs. assert (Hall : Forall (fun c => 0 <= c < 256) outputs).
  { apply (bool_decide_unpack _). vm_compute. exact I. }
  rewrite Forall_forall in Hall. apply Hall.
Qed.

Section spec.
Context {S G : Type} `{Allocator S G} `{!HasPorts S} `{!PortsMem S}.
Notation TS := (layer (layer (layer S device_vars) Z) tty_vars).
Implicit Types (s : layer TS kbd_vars).

(** With one key in the buffer, [keyboard_get_key] takes it out.  It reads the
    byte behind the buffer. *)
Lemma wp_get_key s b (Q : Z -> layer TS kbd_vars -> Prop) :
  keybuf (vars s) = b -> key_loc (vars s) = 1 -> mapped_range (get_mem s) b 257 ->
  (forall m', agree (fun a => ~ in_block b 256 a) (get_mem s) m' ->
     Q (rd (get_mem s) b)
       (set_mem m' (set_vars (set_key 0 (u8 (keys_avail (vars s) - 1)) (rd (get_mem s) b) (vars s)) s))) ->
  wp keyboard_get_key Q s.
Proof.
  intros Hb Hl (Hb0 & Hb1 & Hm) HQ. unfold keyboard_get_key, in_block in *.
  apply wp_bind, wp_assign, wp_bind, wp_var. cbn [vars set_vars set_key key_loc keybuf keys_avail].
  rewrite Hb, Hl. cbn [Z.eqb]. apply wp_bind, wp_ld8; [lia|apply Hm; lia|]. rewrite get_mem_set_vars.
  apply wp_bind, wp_assign, wp_bind.
  set (s1 := set_vars _ (set_vars _ s)).
  apply (wp_for_up (fun i s' => exists m', agree (fun a => ~ (b <= a < b + 256)) (get_mem s) m' /\ s' = set_mem m' s1)).
  - exists (get_mem s). split; [apply agree_refl|]. change (get_mem s) with (get_mem s1). by rewrite set_get_mem.
  - intros i s' Hi (m' & Hag & ->).
    assert (Hmap : forall a, mapped m' a = mapped (get_mem s) a) by (intros; unfold mapped; by rewrite (proj1 Hag)).
    apply wp_copy_byte; [lia|lia|lens; rewrite Hmap; apply Hm; lia..|]. lens. eexists. split; [|done].
    split; [apply (proj1 Hag)|]. intros a Ha. rewrite rd_mset_out by lia. by apply Hag.
  - intros s' (m' & Hag & ->). apply wp_bind, wp_assign, wp_var.
    assert (Hl' : key_loc (vars (set_mem m' s1)) = 0) by (unfold s1; cbn; by rewrite ?Hl).
    apply HQ in Hag. rewrite Hl'. exact Hag.
Qed.
Lemma wp_parse_ordinary s code key (Q : Z -> layer TS kbd_vars -> Prop) :
  0 <= code < 128 -> scancode_std !! Z.to_nat code = Some key ->
  key ∉ [KEY_LCTRL; KEY_RCTRL; KEY_LSHIFT; KEY_RSHIFT; KEY_LALT; KEY_RALT; KEY_CAPSLOCK] ->
  Q (u8 key) (set_vars (set_extended 0 (vars s)) s) -> wp (parse_keycode code) Q s.
Proof.
  intros Hc Hk Hn HQ. unfold parse_keycode, is_key.
  destruct ((code =? 224) || (code =? 225)) eqn:E; [lia|]. apply wp_bind, wp_assign.
  assert (Z.land code 128 = 0) as ->.
  { apply Z.bits_inj'. intros i Hi. rewrite Z.land_spec, Z.bits_0. change 128 with (2 ^ 7).
    rewrite Z.pow2_bits_eqb by lia. destruct (7 =? i) eqn:Ei; [|apply andb_false_r].
    replace i with 7 by lia. rewrite (Z.bits_above_log2 code 7); [done|lia|].
    destruct (decide (code = 0)) as [->|]; [done|]. apply Z.log2_lt_pow2; simpl; lia. }
  cbn [negb Z.eqb]. apply wp_bind. eapply wp_of_opt; [exact Hk|].
  repeat (destruct (_ =? _) eqn:?E in |- *; [exfalso; apply Hn; set_unfold; lia|]). by apply wp_ret.
Qed.
(** A character that is put into the empty buffer is taken out at once. *)
Lemma wp_buffer_key {B} s c (K : Z -> Z -> M (layer TS kbd_vars) B) (Q : B -> layer TS kbd_vars -> Prop) :
  let v := vars s in
  key_loc v = 0 -> keys_avail v = 0 -> 0 < c < 256 -> mapped_range (get_mem s) (keybuf v) 257 ->
  (forall m, agree (fun a => ~ in_block (keybuf v) 257 a) (get_mem s) m ->
     wp (K (ctty (vars (lower s))) c) Q (set_mem m (set_vars (set_key 0 0 c v) s))) ->
  wp (let! v := var (fun v => v) in
      st8 (keybuf v + key_loc v) c ;!
      assign (fun v => set_key (u16 (key_loc v + 1)) (u8 (keys_avail v + 1)) (kbd_c v) v) ;!
      let! id := below tty_current in
      let! k := keyboard_get_key in
      K id k) Q s.
Proof.
  intros v Hl Ha Hc Hm HQ. pose proof Hm as (Hb0 & Hb1 & Hbm). apply wp_bind, wp_var. fold v. rewrite Hl, Z.add_0_r.
  apply wp_bind, wp_st8; [lia|apply Hbm; lia|]. apply wp_bind, wp_assign, wp_bind, wp_below, wp_var, wp_bind.
  set (m1 := mset (get_mem s) (keybuf v) c). set (s2 := set_vars _ (set_mem m1 s)).
  assert (Hm2 : get_mem (set_lower (lower s2) s2) = m1) by (change (get_mem s2 = m1); unfold s2; by lens).
  assert (Hrd : rd m1 (keybuf v) = c) by (unfold m1; rewrite rd_mset, decide_True by done; apply u8_small; lia).
  apply (wp_get_key _ (keybuf v)); rewrite ?Hm2.
  - reflexivity.
  - cbn. fold v. by rewrite Hl.
  - unfold m1. by rewrite mapped_range_mset.
  - intros m' Hag. rewrite Hrd.
    assert (Hag1 : agree (fun a => ~ in_block (keybuf v) 257 a) (get_mem s) m').
    { split; [by rewrite (proj1 Hag)|]. intros a Hx. unfold in_block in *. rewrite (proj2 Hag) by lia.
      unfold m1. apply rd_mset_out. lia. }
    specialize (HQ m' Hag1). cbn. fold v. rewrite Ha. unfold s2. lens. exact HQ.
Qed.

(** What an ordinary key that gives the character [c] leaves. *)
Record keyed (s s' : layer TS kbd_vars) (code c : Z) (q : list Z) : Prop := {
  ky_queue : input_queue (get_mem s') (tty_s (vars (lower s)) + sizeof_tty * ctty (vars (lower s))) (q ++ [c]);
  ky_buffer : key_loc (vars s') = 0 /\ keys_avail (vars s') = 0;
  ky_mods : _shift (vars s') = _shift (vars s) /\ _capslock (vars s') = _capslock (vars s);
  ky_ports : io_trace (get_ports s') = io_trace (get_ports s) ++ [In 8 96 code; Out 8 PIC_MASTER_CMD PIC_CMD_EOI];
}.

End spec.

(** ** A key stroke at work: the key A with shift down

    A terminal at 0x1000 whose queue at 0x2000 holds two characters, the key
    buffer at 0x5000. *)

Definition demo_kbd : layer (layer (layer (layer (layer (heap Arm.state) ports) device_vars) Z) tty_vars) kbd_vars :=
  let h := Heap (demo_tty_mem 0) Arm.init 0 0 0 0 0 0 0 0 0 0 in
  Layer (Layer (Layer (Layer (Layer h (Ports (fun _ _ _ => 30) [])) (DeviceVars 0 0)) 0) (TtyVars 4096 0))
    (KbdVars 20480 0 0 1 0 0 1 0 0 0 0).

#[local] Existing Instance Arm.provider.

