(* ===== verification/Scratch.v ===== *)
(** * Temporary blocks

    Many operations take a block from the heap, work in it and free it again.
    [client_step] is what the rest of the system sees of that: only the
    allocator's own bytes (and the allocation log of the running process)
    changed, and the same blocks are live. *)

From stdpp Require Import base numbers list gmap.
From Stdlib Require Import ZArith Lia.
From S2P Require Import Prelude Memory CString Pages LiballocSpec LiballocInv Allocator Layer.

Local Open Scope Z_scope.

(** All bytes of [a, a + n) are in [R]. *)
Definition within (R : Z -> Prop) (a n : Z) : Prop := forall x, a <= x < a + n -> R x.

Lemma within_sub (R : Z -> Prop) a n b k : within R a n -> a <= b -> b + k <= a + n -> within R b k.
Proof. intros Hw ?? x Hx. apply Hw. lia. Qed.

Lemma cstr_agree (R : Z -> Prop) m m' a l :
  agree R m m' -> within R a (Z.of_nat (length l) + 1) -> cstr m a l -> cstr m' a l.
Proof.
  intros Hag Hw [Hc Hm Hb]. split; [done|by eapply agree_mapped_range|].
  intros i b Hi. rewrite (proj2 Hag); [by apply Hb|]. apply Hw.
  apply lookup_lt_Some in Hi. rewrite length_app in Hi. simpl in Hi. lia.
Qed.

Lemma rd32_within (R : Z -> Prop) m m' a : agree R m m' -> within R a 4 -> rd32 m' a = rd32 m a.
Proof. intros Hag Hw. apply (rd32_agree _ _ _ _ Hag); apply Hw; lia. Qed.

(** A string copied with its terminator. *)
Lemma cstr_copy m m' d a l :
  cstr m a l -> mapped_range m' d (Z.of_nat (length l) + 1) ->
  cstr (mwrite m' d (mread m a (Z.of_nat (length l) + 1))) d l.
Proof.
  intros Hc Hm. assert (mread m a (Z.of_nat (length l) + 1) = l ++ [0]) as ->.
  { apply list_eq. intros i. destruct (decide (i < length l + 1)%nat) as [Hi|Hi].
    - rewrite lookup_mread by lia. destruct (lookup_lt_is_Some_2 (l ++ [0]) i) as [b Hb].
      { rewrite length_app. simpl. lia. }
      rewrite Hb. f_equal. by apply (cstr_bytes _ _ _ Hc).
    - rewrite !lookup_ge_None_2; [done|rewrite length_app|rewrite length_mread]; simpl; lia. }
  apply cstr_mwrite; [done|apply Hc].
Qed.

Section scratch.
Context {S G : Type} `{Allocator S G}.

(** Bytes that the allocator does not write. *)
Definition foreign (s : S) (g : G) (R : Z -> Prop) : Prop :=
  forall a, R a -> ~ heap_byte s g a /\ ~ log_byte s a.

(** [W] are the bytes that the client itself wrote. *)
Record client_step (W : Z -> Prop) (s : S) (g : G) (s' : S) (g' : G) : Prop := {
  cs_ok : heap_ok s' g';
  cs_agree : agree (fun a => ~ heap_byte s g a /\ ~ log_byte s a /\ ~ W a) (get_mem s) (get_mem s');
  cs_log : forall a, log_byte s' a <-> log_byte s a;
  cs_sub : forall a, heap_byte s' g' a -> heap_byte s g a;
  cs_blocks : forall q k, 0 < k -> block g' q k <-> block g q k;
}.

Lemma client_step_refl W s g : heap_ok s g -> client_step W s g s g.
Proof. intros. split; auto. apply agree_refl. Qed.

(** The client's own writes are a step. *)
Lemma client_step_write (W : Z -> Prop) s g m :
  heap_ok s g -> foreign s g W -> agree (fun a => ~ W a) (get_mem s) m -> client_step W s g (set_mem m s) g.
Proof.
  intros Hok HW Ha. destruct (frame_law s g m Hok) as (Hok' & Hh & Hl & _).
  { eapply agree_mono; [exact Ha|]. intros a Hb Hw. by destruct (HW a Hw). }
  split; [done| |done|intros a; by rewrite Hh|done]. rewrite get_set_mem. eapply agree_mono; [exact Ha|]. tauto.
Qed.

Lemma client_step_trans W s1 g1 s2 g2 s3 g3 :
  client_step W s1 g1 s2 g2 -> client_step W s2 g2 s3 g3 -> client_step W s1 g1 s3 g3.
Proof.
  intros [Ho1 Ha1 Hl1 Hs1 Hb1] [Ho2 Ha2 Hl2 Hs2 Hb2]. split; [done| | |auto|].
  - eapply agree_trans; [exact Ha1|]. eapply agree_mono; [exact Ha2|].
    intros x (Hx & Hy & Hw). split_and!; [auto| |done]. by rewrite Hl1.
  - intros a. by rewrite Hl2.
  - intros q k Hk. by rewrite Hb2, Hb1.
Qed.

Lemma client_step_mono (W W' : Z -> Prop) s g s' g' :
  client_step W s g s' g' -> (forall a, W a -> W' a) -> client_step W' s g s' g'.
Proof.
  intros [Ho Ha Hl Hs Hb] HW. split; try done. eapply agree_mono; [exact Ha|].
  intros a (? & ? & ?). split_and!; auto.
Qed.

Lemma step_foreign W s g s' g' R : client_step W s g s' g' -> foreign s g R -> foreign s' g' R.
Proof.
  intros Hc Hf a Ha. destruct (Hf a Ha). split; [|by rewrite (cs_log _ _ _ _ _ Hc)].
  intros Hx. by apply (cs_sub _ _ _ _ _ Hc) in Hx.
Qed.

Lemma step_agree (W : Z -> Prop) s g s' g' (R : Z -> Prop) :
  client_step W s g s' g' -> foreign s g R -> (forall a, R a -> ~ W a) -> agree R (get_mem s) (get_mem s').
Proof.
  intros Hc Hf HW. eapply agree_mono; [apply (cs_agree _ _ _ _ _ Hc)|].
  intros a Ha. destruct (Hf a Ha). auto.
Qed.

Lemma gave_agree s g n p s' g' R : gave s g n p s' g' -> foreign s g R -> agree R (get_mem s) (get_mem s').
Proof. intros Hg Hf. eapply agree_mono; [apply (gv_agree _ _ _ _ _ _ Hg)|]. exact Hf. Qed.

Lemma gave_apart s g n p s' g' R : gave s g n p s' g' -> foreign s g R -> forall a, R a -> ~ in_block p n a.
Proof. intros Hg Hf a Ha Hin. apply (proj1 (Hf a Ha)). by apply (gv_in _ _ _ _ _ _ Hg). Qed.

(** The block joins the client's bytes; [t] differs by writes outside the heap. *)
Lemma foreign_gave s g n p s' g' (R W : Z -> Prop) t :
  gave s g n p s' g' -> foreign s g W -> (forall a, heap_byte t g' a <-> heap_byte s' g' a) ->
  (forall a, log_byte t a <-> log_byte s' a) -> (forall a, R a -> W a) ->
  foreign t g' (fun a => R a \/ in_block p n a).
Proof.
  intros Hg Hf Hh Hl HR a [Ha|Ha]; rewrite Hh, Hl.
  - destruct (Hf a (HR a Ha)) as [Hx Hy]. split; [intros Hin; by apply (gv_sub _ _ _ _ _ _ Hg) in Hin|].
    by rewrite (gv_log _ _ _ _ _ _ Hg).
  - by apply (gv_out _ _ _ _ _ _ Hg).
Qed.

(** The owner's writes in the block are not seen by the rest. *)
Lemma gave_write_agree s g n p s' g' m R :
  gave s g n p s' g' -> foreign s g R -> agree (fun a => ~ in_block p n a) (get_mem s') m -> agree R (get_mem s) m.
Proof.
  intros Hg Hf Ha. eapply agree_trans; [by eapply gave_agree|]. eapply agree_mono; [exact Ha|].
  by eapply gave_apart.
Qed.

(** A block is freed after writes in it, and in the client's own bytes [W]. *)
Lemma wp_free_scratch W s g n p s1 g1 m (Q : unit -> S -> Prop) :
  heap_ok s g -> 0 < n -> gave s g n p s1 g1 -> foreign s g W ->
  agree (fun a => ~ in_block p n a /\ ~ W a) (get_mem s1) m ->
  (forall s2 g2, client_step W s g s2 g2 -> agree W m (get_mem s2) -> Q tt s2) ->
  wp (free p) Q (set_mem m s1).
Proof.
  intros Hok Hn Hg HW Ha HQ.
  assert (Hheap : forall a, heap_byte s1 g1 a \/ in_block p n a -> heap_byte s g a).
  { intros a [Hx|Hx]; [by apply (gv_sub _ _ _ _ _ _ Hg)|by apply (gv_in _ _ _ _ _ _ Hg)]. }
  destruct (frame_law s1 g1 m (gv_ok _ _ _ _ _ _ Hg)) as (Hok1 & Hhb & Hlb & _).
  { eapply agree_mono; [exact Ha|]. intros a Hb. split; [intros Hin; destruct (gv_out _ _ _ _ _ _ Hg a Hin) as [Hx _]; by apply Hx|].
    intros Hw. apply (proj1 (HW a Hw)), Hheap. by left. }
  eapply wp_mono; [apply (free_law (set_mem m s1) g1 p n); [exact Hok1|apply (gv_block _ _ _ _ _ _ Hg); by right|]|].
  { intros a Hla Hin. apply Hlb in Hla. by apply (gv_out _ _ _ _ _ _ Hg a Hin). }
  intros [] s2 (g2 & Hok2 & Hag & Hl2 & Hh2 & Hb2 & Hno). apply (HQ s2 g2).
  - split; [done| | | |].
    + split.
      * rewrite (proj1 Hag), get_set_mem, (proj1 Ha). apply (gv_agree _ _ _ _ _ _ Hg).
      * intros a (Hna & Hnl & Hnw). rewrite (proj2 Hag).
        { rewrite get_set_mem, (proj2 Ha); [by apply (gv_agree _ _ _ _ _ _ Hg)|]. split; [|done].
          intros Hin. apply Hna, Hheap. by right. }
        split; [|intros Hin; apply Hna, Hheap; by right]. rewrite Hhb. intros Hx. apply Hna, Hheap. by left.
    + intros a. rewrite Hl2, Hlb. apply (gv_log _ _ _ _ _ _ Hg).
    + intros a Hx. apply Hheap. destruct (Hh2 a Hx) as [Hy|Hy]; [left; by apply Hhb|by right].
    + intros q k Hk. split.
      * intros Hb. assert (block g1 q k) as [Hb1|[-> ->]]%(gv_block _ _ _ _ _ _ Hg) by (apply Hb2; by left); [done|].
        by destruct (Hno n).
      * intros Hb. assert (Hb1 : block g1 q k) by (apply (gv_block _ _ _ _ _ _ Hg); by left).
        apply Hb2 in Hb1 as [?|[-> ->]]; [done|].
        destruct (block_law s g p n Hok Hb) as (_ & _ & _ & _ & Hbad).
        destruct (Hbad p); [unfold in_block; lia|]. apply (gv_in _ _ _ _ _ _ Hg). unfold in_block. lia.
  - split; [by rewrite (proj1 Hag), get_set_mem|]. intros a Hw. rewrite (proj2 Hag); [by rewrite get_set_mem|].
    destruct (HW a Hw) as [Hx _]. split; [rewrite Hhb; intros Hy; apply Hx, Hheap; by left|].
    intros Hin. apply Hx, Hheap. by right.
Qed.
End scratch.

(** The same above static variables. *)
Lemma layer_client_step {S V G} `{Allocator S G} W (s : layer S V) (g : G) s' g' :
  client_step W (lower s) g (lower s') g' <-> client_step W s g s' g'.
Proof. split; intros []; by split. Qed.
Lemma layer_gave {S V G} `{Allocator S G} (s : layer S V) (g : G) n p s' g' :
  gave (lower s) g n p (lower s') g' <-> gave s g n p s' g'.
Proof. split; intros []; by split. Qed.

Lemma wp_free_scratch_layer {S V G} `{Allocator S G} W (s : layer S V) (g : G) n p s1 g1 m (Q : unit -> layer S V -> Prop) :
  heap_ok s g -> 0 < n -> gave s g n p s1 g1 -> foreign s g W ->
  agree (fun a => ~ in_block p n a /\ ~ W a) (get_mem s1) m ->
  (forall s2 g2, vars s2 = vars s1 -> client_step W s g s2 g2 -> agree W m (get_mem s2) -> Q tt s2) ->
  wp (free p) Q (set_mem m s1).
Proof.
  intros Hok Hn Hg HW Ha HQ. apply wp_below.
  apply (wp_free_scratch W (lower s) g n p (lower s1) g1 m); [done|done|by apply layer_gave|exact HW|exact Ha|].
  intros s2 g2 Hs Hw. apply (HQ _ g2); [done|by apply layer_client_step|exact Hw].
Qed.

Definition nothing : Z -> Prop := fun _ => False.
Lemma foreign_nothing {S G} `{Allocator S G} (s : S) (g : G) : foreign s g nothing.
Proof. by intros a []. Qed.
