(* ===== verification/Demo.v ===== *)
(** * A small machine for the worked examples

    Tables, structures and strings lie in low memory, from 0x1000 to 0xFFFF;
    the heap runs on the ARM page provider, with 1 MB from 0x4000000. *)

From stdpp Require Import base numbers list gmap.
From Stdlib Require Import ZArith Lia.
From S2P Require Import Prelude Memory CString Process Pages Arm Liballoc LiballocInv LiballocProof LiballocSpec Allocator Layer Scratch.

Local Open Scope Z_scope.

#[export] Existing Instance Arm.provider.

(** Memory with the given bytes at the given addresses. *)
Definition low_mem (bs : list (Z * list Z)) : mem :=
  foldr (fun '(a, l) m => mwrite m a l) (Mem ∅ [(4096, 65536); (67108864, 68157440)]) bs.
Definition low_heap (bs : list (Z * list Z)) : heap Arm.state := heap_init (low_mem bs) Arm.init.

Lemma low_ranges bs : m_ranges (low_mem bs) = [(4096, 65536); (67108864, 68157440)].
Proof. induction bs as [|[a l] bs IH]; [done|]. simpl. by rewrite ranges_mwrite. Qed.

Lemma low_mapped bs a n : 4096 <= a -> 0 <= n -> a + n <= 65536 -> mapped_range (low_mem bs) a n.
Proof.
  intros. pose proof (low_ranges bs) as Hr. destruct (low_mem bs) as [m rs]. simpl in Hr. subst rs.
  eapply mapped_range_intro; [left|lia..].
Qed.

Lemma low_heap_ok bs : heap_inv (low_heap bs) [].
Proof. by apply heap_init_inv. Qed.

(** Nothing is allocated yet: the low addresses are not the allocator's. *)
Lemma low_foreign bs (R : Z -> Prop) : (forall a, R a -> a < 65536) -> foreign (low_heap bs) ([] : list mjr) R.
Proof.
  intros HR a Ha%HR. split.
  - intros [(j & Hj & _)|Ho]; [by apply elem_of_nil in Hj|]. simpl in Ho. unfold Arm.reserved in Ho. simpl in Ho. lia.
  - by intros [Hp _].
Qed.

Lemma low_room bs n : 0 <= n <= 65536 -> room (G := list mjr) (low_heap bs) n.
Proof.
  intros Hn. assert (Hb : 0 <= new_pages (n + 32) <= 18).
  { unfold new_pages. case_match; Z.div_mod_to_equations; lia. }
  split; [|simpl; lia].
  pose proof (low_ranges bs) as Hr. change (h_mem (low_heap bs)) with (low_mem bs).
  destruct (low_mem bs) as [m rs]. simpl in Hr. subst rs.
  eapply mapped_range_intro; [right; left|simpl; unfold PAGE in *; lia..].
Qed.

(** A string constant in memory is a C string. *)
Lemma cstr_check m a l :
  forallb (fun b => (0 <? b) && (b <? 256)) l = true -> mapped_range m a (Z.of_nat (length l) + 1) ->
  forallb (fun i => rd m (a + Z.of_nat i) =? nth i (l ++ [0]) 0) (seq 0 (length l + 1)) = true -> cstr m a l.
Proof.
  intros Hl Hm Hb. split; [|done|].
  - apply Forall_forall. intros b Hin. rewrite forallb_forall in Hl. apply list_elem_of_In in Hin.
    apply Hl in Hin. lia.
  - intros i b Hi. pose proof (lookup_lt_Some _ _ _ Hi) as Hlt. rewrite length_app in Hlt. simpl in Hlt.
    rewrite forallb_forall in Hb. specialize (Hb i). rewrite (nth_lookup_Some _ _ _ _ Hi) in Hb.
    assert (Hin : In i (seq 0 (length l + 1))) by (apply in_seq; lia). apply Hb in Hin. lia.
Qed.
