(* ===== verification/Fs.v ===== *)
(** * Structures of the file systems: [include/vfs.h] and calls through pointers

    A mounted file system is a table of function pointers, and a block device
    has a [read] and a [write] pointer.  A call through a pointer is an
    operation of the state: the class [Calls] says what the function at an
    address does with its argument words. *)

From stdpp Require Import base numbers list gmap.
From Stdlib Require Import ZArith Lia.
From S2P Require Import Prelude Memory Device.

Local Open Scope Z_scope.

Class Calls (S : Type) := call : Z -> list Z -> M S Z.

(** Calling a null pointer faults. *)
Definition call_ptr {S} `{Calls S} (f : Z) (args : list Z) : M S Z :=
  if f =? 0 then fault else call f args.

(** The bits of [st_mode]. *)
Definition S_IFDIR : Z := 16384.
Definition S_IFCHR : Z := 8192.
Definition S_IFBLK : Z := 24576.
Definition S_IFREG : Z := 32768.
Definition S_IFLNK : Z := 40960.
Definition S_IFSOCK : Z := 49152.
Definition S_IFIFO : Z := 4096.

(** [struct stat] *)
Definition ST_st_dev : Z := 0.      (* uint16_t *)
Definition ST_st_ino : Z := 2.      (* uint16_t *)
Definition ST_st_mode : Z := 4.
Definition ST_st_nlink : Z := 8.    (* uint16_t *)
Definition ST_st_uid : Z := 10.     (* uint16_t *)
Definition ST_st_gid : Z := 12.     (* uint16_t *)
Definition ST_st_rdev : Z := 14.    (* uint16_t *)
Definition ST_st_size : Z := 16.
Definition sizeof_stat : Z := 20.

(** [struct dirent] *)
Definition DE_d_ino : Z := 0.       (* uint16_t *)
Definition DE_d_name : Z := 2.      (* 124 bytes *)
Definition sizeof_dirent : Z := 126.

(** [struct file] *)
Definition F_fullpath : Z := 0.
Definition F_respath : Z := 4.
Definition F_name : Z := 8.
Definition F_inode : Z := 12.
Definition F_mountid : Z := 16.
Definition F_lpos : Z := 20.
Definition F_isdir : Z := 24.       (* uint8_t *)
Definition F_dpos : Z := 28.
Definition sizeof_file : Z := 32.

(** [struct file_operations] *)
Definition FO_write : Z := 0.
Definition FO_read : Z := 4.
Definition sizeof_file_operations : Z := 8.

(** [struct filesystem] *)
Definition FS_name : Z := 0.
Definition FS_probe : Z := 4.
Definition FS_readfull : Z := 8.
Definition FS_read : Z := 12.
Definition FS_read_dir : Z := 16.
Definition FS_isdir : Z := 20.
Definition FS_touch : Z := 24.
Definition FS_writefile : Z := 28.
Definition FS_stat : Z := 32.
Definition FS_exist : Z := 36.
Definition FS_findinode : Z := 40.
Definition FS_mount : Z := 44.
Definition FS_priv_data : Z := 48.
Definition sizeof_filesystem : Z := 52.

(** [mount_info_t] *)
Definition MI_loc : Z := 0.
Definition MI_dev : Z := 4.
Definition sizeof_mount_info : Z := 8.

(** [struct initrd_priv] *)
Definition IP_start : Z := 0.
Definition IP_end : Z := 4.
Definition sizeof_initrd_priv : Z := 8.
