(* ===== verification/Vfs.v ===== *)
(** * The virtual file system: [fs/vfs.c]

    Mounts are [mount_info_t] structures in a table of [MAX_MOUNTS] pointers.
    A path is resolved to the mount whose location is its longest prefix, and
    the operation is passed to that mount's file system.  [device_try_to_mount],
    which calls the file systems by name, is in Mount.v. *)

From stdpp Require Import base numbers list gmap.
From Stdlib Require Import ZArith Lia.
From S2P Require Import Prelude Memory CString Process Pages Arm Liballoc LiballocInv LiballocProof LiballocSpec Allocator Phymem Layer Tables Device Current Scratch Demo Fs.

Local Open Scope Z_scope.

Definition MAX_MOUNTS : Z := 16.

Record vfs_vars : Type := VfsVars { mount_points : Z; last_mount_id : Z; __init_vfs : Z }.

Section ops.
Context {S G : Type} `{Current S} `{!Allocator S G} `{!Calls (layer S vfs_vars)}.
Notation VM := (M (layer S vfs_vars)).
(** Addresses of the literals ["/"] and ["./"]. *)
Variables (str_slash str_dot_slash : Z).
(** The flag [VFS_INITIALIZED], which the scheduler reads. *)
Variable set_VFS_INITIALIZED : Z -> VM unit.

(** [mount_points[i]] *)
Definition mount_point (i : Z) : VM Z := let! mp := var mount_points in ld32 (mp + 4 * i).

Definition check_mount (loc : Z) : VM Z :=
  let! n := var last_mount_id in
  let! r := for_find (Z.to_nat n) 0 (fun i =>
    let! m := mount_point i in
    let! l := ld32 (m + MI_loc) in
    let! c := strcmp loc l in
    if c =? 0 then (let! d := ld32 (m + MI_dev) in ret (Some d)) else ret None) in
  ret (default 0 r).

(** The loop of [list_mount]; the lines it prints are not modelled. *)
Definition list_mount : VM Z :=
  let! _ := for_find (Z.to_nat MAX_MOUNTS) 0 (fun i =>
    let! m := mount_point i in
    if m =? 0 then ret (Some tt) else ret None) in
  ret 0.

(** A copy of a path on the heap: [malloc], [memset], [memcpy]. *)
Definition copy_path (path : Z) : VM Z :=
  let! n := strlen path in
  let! orig := malloc (u32 (n + 1)) in
  let! n := strlen path in
  let! _ := memset orig 0 (s32 (u32 (n + 1))) in
  let! n := strlen path in
  memcpy orig path (u32 (n + 1)) ;!
  ret orig.

(** One scan of the mounts for the location [orig]. *)
Definition scan_mounts {B} (orig : Z) (found : Z -> Z -> VM B) : VM (option B) :=
  let! r := for_find (Z.to_nat MAX_MOUNTS) 0 (fun i =>
    let! m := mount_point i in
    if m =? 0 then ret (Some None)
    else
      let! l := ld32 (m + MI_loc) in
      let! c := strcmp l orig in
      if c =? 0 then (let! b := found i m in ret (Some (Some b))) else ret None) in
  ret (match r with Some (Some b) => Some b | _ => None end).

(** Returns the mount and [*adjust]. *)
Definition __find_mount (filename adjust : Z) : VM (Z * Z) :=
  let! orig := copy_path filename in
  let! n := strlen orig in
  let! b := ld8 (orig + n) in
  (if! b =? 47 then (let! _ := str_backspace orig 47 in ret tt)) ;!
  loop (fun _ =>
    let! r := scan_mounts orig (fun i _ =>
      let! n := strlen orig in
      free orig ;!
      ret (u8 i, s32 (u32 (n - 1)))) in
    match r with
    | Some r => ret (inr r)
    | None =>
        let! c := strcmp orig str_slash in
        if c =? 0 then ret (inr (0, adjust))
        else let! _ := str_backspace orig 47 in ret (inl tt)
    end) tt.

(** [mount_points[i]->dev] and a pointer of its file system. *)
Definition mount_op (i op : Z) : VM (Z * Z) :=
  let! m := mount_point i in
  let! dev := ld32 (m + MI_dev) in
  let! fs := ld32 (dev + D_fs) in
  let! f := ld32 (fs + op) in
  ret (f, dev).

Definition vfs_isdir (fl : Z) : VM Z :=
  let! i := ld32 (fl + F_mountid) in
  let! (f, dev) := mount_op i FS_isdir in
  let! r := call_ptr f [fl; dev] in
  ret (u8 r).

Definition vfs_open (filename : Z) : VM Z :=
  let! c := strcmp str_dot_slash filename in
  if c =? 0 then
    let! p := get_process in
    let! wd := if p =? 0 then ret 0 else ld32 (p + P_workdir) in
    if wd =? 0 then halt else ret wd
  else
    let! fl := malloc sizeof_file in
    let! _ := memset fl 0 sizeof_file in
    st32 (fl + F_fullpath) filename ;!
    let! (i, adjust) := __find_mount filename 0 in
    let filename := u32 (filename + adjust) in
    st32 (fl + F_respath) filename ;!
    st32 (fl + F_mountid) i ;!
    let! (f, dev) := mount_op i FS_findinode in
    let! path := ld32 (fl + F_respath) in
    let! rc := call_ptr f [path; fl + F_inode; dev] in
    if negb (u8 rc =? 0) then free fl ;! ret 0
    else
      let! d := vfs_isdir fl in
      (if! negb (d =? 0) then (st8 (fl + F_isdir) 1 ;! st32 (fl + F_dpos) 0)) ;!
      ret fl.

Definition vfs_write (fl buf nbytes : Z) : VM Z :=
  let! i := ld32 (fl + F_mountid) in
  let! (f, dev) := mount_op i FS_writefile in
  call_ptr f [fl; buf; nbytes; dev].

Definition vfs_stat (fl st : Z) : VM Z :=
  if fl =? 0 then ret (u8 (- EINVAL))
  else
    let! i := ld32 (fl + F_mountid) in
    let! (f, dev) := mount_op i FS_stat in
    let! path := ld32 (fl + F_respath) in
    let! rc := call_ptr f [path; st; dev] in
    ret (u8 rc).

Definition vfs_read (fl buf len : Z) : VM Z :=
  if fl =? 0 then ret (u32 (- EINVAL))
  else
    let! i := ld32 (fl + F_mountid) in
    let! (f, dev) := mount_op i FS_read in
    call_ptr f [fl; buf; len; dev].

Definition vfs_read_full (fl buffer : Z) : VM Z :=
  if fl =? 0 then ret (u8 (- EINVAL))
  else
    let! i := ld32 (fl + F_mountid) in
    let! (f, dev) := mount_op i FS_readfull in
    let! path := ld32 (fl + F_respath) in
    let! rc := call_ptr f [path; buffer; dev] in
    ret (u8 rc).

Definition vfs_readdir (dirp : Z) : VM Z :=
  if dirp =? 0 then ret (u32 (- EINVAL))
  else
    let! i := ld32 (dirp + F_mountid) in
    let! (f, dev) := mount_op i FS_read_dir in
    call_ptr f [dirp; dev].

(** The mounts below [dir]: copies each location, drops its last part, and
    compares (the names are printed).  A matching mount whose remaining name is
    at most one character long skips the [free]. *)
Definition ls_mounts (dir : Z) : VM unit :=
  let! _ := for_find (Z.to_nat MAX_MOUNTS) 0 (fun k =>
    let! mk := mount_point k in
    if mk =? 0 then ret (Some tt)
    else
      let! loc := ld32 (mk + MI_loc) in
      let! n := strlen loc in
      let! mount := malloc (u32 (n + 1)) in
      let! n := strlen loc in
      memcpy mount loc (u32 (n + 1)) ;!
      let! _ := str_backspace mount 47 in
      let! c := strcmp mount dir in
      let! skip :=
        if c =? 0 then
          let! d := strlen dir in
          let! r := strlen (u32 (loc + d)) in
          ret ((r =? 0) || (r =? 1))
        else ret false in
      (if! negb skip then free mount) ;!
      ret None) in
  ret tt.

Definition vfs_ls (dir buffer : Z) : VM Z :=
  let! orig := copy_path dir in
  loop (fun _ =>
    let! _ := scan_mounts orig (fun i m =>
      let! loc := ld32 (m + MI_loc) in
      let! n := strlen loc in
      let! (f, dev) := mount_op i FS_read_dir in
      let! _ := call_ptr f [u32 (dir + n - 1); dev] in
      ls_mounts dir) in
    let! c := strcmp orig str_slash in
    if c =? 0 then ret (inr tt)
    else let! _ := str_backspace orig 47 in ret (inl tt)) tt ;!
  free orig ;!
  ret 1.

Definition vfs_exist_in_dir (wd fn : Z) : VM Z :=
  let! a := strlen wd in
  let! b := strlen fn in
  let! filename := malloc (u32 (a + 2 + b)) in
  let! _ := memset filename 0 (s32 (u32 (a + 2 + b))) in
  memcpy filename wd a ;!
  memcpy (u32 (filename + a)) fn b ;!
  let! _ := memset (u32 (filename + a + b + 1)) 0 1 in
  let! n := strlen filename in
  let! c := ld8 (filename + n) in
  (if! negb (c =? 47) then
     (let! index := strlen filename in
      st8 (filename + index) 47 ;!
      st8 (filename + (index + 1)) 0)) ;!
  let! n := strlen filename in
  let! o := malloc (u32 (n + 2)) in
  let! n := strlen filename in
  let! _ := memset o 0 (s32 (u32 (n + 2))) in
  let! n := strlen filename in
  memcpy o filename (u32 (n + 1)) ;!
  let! r := loop (fun _ =>
    let! r := scan_mounts o (fun i m =>
      let! loc := ld32 (m + MI_loc) in
      let! n := strlen loc in
      let moved := u32 (filename + n - 1) in
      let! (f, dev) := mount_op i FS_exist in
      let! rc := call_ptr f [moved; dev] in
      free o ;!
      free moved ;!
      ret (u8 (u8 rc))) in
    match r with
    | Some rc => ret (inr (Some rc))
    | None =>
        let! c := strcmp o str_slash in
        if c =? 0 then ret (inr None)
        else let! _ := str_backspace o 47 in ret (inl tt)
    end) tt in
  match r with
  | Some rc => ret rc
  | None => free o ;! free filename ;! ret 0
  end.

(** The table is not cleared. *)
Definition vfs_init : VM Z :=
  let! mp := malloc (4 * MAX_MOUNTS) in
  assign (fun v => VfsVars mp (last_mount_id v) (__init_vfs v)) ;!
  assign (fun v => VfsVars (mount_points v) (last_mount_id v) 1) ;!
  set_VFS_INITIALIZED 1 ;!
  ret 0.
End ops.

(** ** The mount table *)

(** The mounts [l], location and device, in the order they were made.  The
    structures and strings lie in the region [R]. *)
Record mounted (R : Z -> Prop) (m : mem) (v : vfs_vars) (l : list (list Z * Z)) : Prop := {
  mt_table : mapped_range m (mount_points v) 64 /\ within R (mount_points v) 64;
  mt_len : Z.of_nat (length l) <= MAX_MOUNTS;
  mt_entry : forall i loc dev, l !! i = Some (loc, dev) -> exists p a,
    slot m (mount_points v) (Z.of_nat i) = p /\ p <> 0 /\ mapped_range m p 8 /\ within R p 8 /\
    rd32 m (p + MI_loc) = a /\ rd32 m (p + MI_dev) = dev /\
    cstr m a loc /\ within R a (Z.of_nat (length loc) + 1);
  mt_end : Z.of_nat (length l) < MAX_MOUNTS -> slot m (mount_points v) (Z.of_nat (length l)) = 0;
}.

Lemma mounted_agree R m m' v l : agree R m m' -> mounted R m v l -> mounted R m' v l.
Proof.
  intros Hag [[Ht Hw] Hl He Hn].
  assert (Hs : forall i, 0 <= i < 16 -> slot m' (mount_points v) i = slot m (mount_points v) i).
  { intros i Hi. apply (rd32_within R); [done|]. eapply within_sub; [exact Hw|lia..]. }
  split; [|done| |].
  - split; [by eapply agree_mapped_range|done].
  - intros i loc dev Hi. destruct (He i loc dev Hi) as (p & a & Hp & Hp0 & Hpm & Hpw & Ha & Hd & Hc & Hcw).
    pose proof (lookup_lt_Some _ _ _ Hi). unfold MAX_MOUNTS in *. exists p, a. rewrite Hs by lia. split_and!; try done.
    + by eapply agree_mapped_range.
    + rewrite <-Ha. apply (rd32_within R); [done|]. eapply within_sub; [exact Hpw|unfold MI_loc; lia..].
    + rewrite <-Hd. apply (rd32_within R); [done|]. eapply within_sub; [exact Hpw|unfold MI_dev; lia..].
    + by eapply cstr_agree.
  - intros Hlt. rewrite Hs by (unfold MAX_MOUNTS in *; lia). by apply Hn.
Qed.

(** A mount location applies to a path: it is the path, or a directory (with a
    slash at its end) above it. *)
Definition dir_prefix (loc path : list Z) : Prop :=
  loc = path \/ exists q r, loc = q ++ [47] /\ path = loc ++ r.

Lemma dir_prefix_prefix loc path : dir_prefix loc path -> exists r, path = loc ++ r.
Proof. intros [->|(q & r & -> & ->)]; [exists []; by rewrite app_nil_r|by exists r]. Qed.

Lemma cut_last_longest c l p q r : cut_last c l = Some p -> l = (q ++ [c]) ++ r -> (length (q ++ [c]) <= length p)%nat.
Proof.
  intros (q0 & r0 & -> & Hl & Hn)%cut_last_Some ->. rewrite !length_app. simpl.
  destruct (decide (length q <= length q0)%nat); [lia|]. destruct Hn.
  assert (Hc : ((q ++ [c]) ++ r) !! length q = Some c).
  { rewrite <-app_assoc, lookup_app_r, Nat.sub_diag by done. done. }
  rewrite Hl, lookup_app_r in Hc by (rewrite length_app; simpl; lia). by apply list_elem_of_lookup_2 in Hc.
Qed.

(** The string [cand] is the longest place where a location above the path can
    end, once the longer ones are excluded; cutting it keeps that. *)
Lemma dir_prefix_cut path cand p loc :
  dir_prefix cand path -> cut_last 47 (removelast cand) = Some p ->
  dir_prefix p path /\ (length p < length cand)%nat /\
  (dir_prefix loc path -> (length loc <= length cand)%nat -> loc <> cand -> (length loc <= length p)%nat).
Proof.
  intros Hcand Hcut. destruct (dir_prefix_prefix _ _ Hcand) as [rest ->].
  pose proof (cut_last_Some _ _ _ Hcut) as (q & r & Hp & Hl & _).
  destruct cand as [|x cand' _] using rev_ind; [simpl in Hl; by destruct p; [destruct q|]|].
  rewrite removelast_last in *. subst p. split_and!.
  - right. exists q, (r ++ [x] ++ rest). split; [done|]. by rewrite Hl, <-!app_assoc.
  - rewrite Hl, !length_app. simpl. lia.
  - intros Hd Hle Hne. destruct (dir_prefix_prefix _ _ Hd) as [r' Hr'].
    rewrite length_app in Hle. simpl in Hle.
    destruct (decide (length loc = length (cand' ++ [x]))) as [E|E].
    + destruct Hne. symmetry in Hr'. by apply (app_inj_1 _ _ _ _ E) in Hr' as [-> _].
    + rewrite length_app in E. simpl in E.
      assert (exists r'', cand' = loc ++ r'') as [r'' Hr''].
      { exists (drop (length loc) cand'). rewrite <-(take_drop (length loc) cand') at 1. f_equal.
        apply (f_equal (take (length loc))) in Hr'. rewrite take_app_length, <-app_assoc, take_app_le in Hr' by lia. done. }
      destruct Hd as [->|(q' & r3 & -> & _)]; [rewrite !length_app in *; simpl in *; lia|].
      by eapply cut_last_longest.
Qed.

(** The search goes through candidates: no location above the path is longer. *)
Definition candidate (locs : list (list Z)) (path cand : list Z) : Prop :=
  dir_prefix cand path /\ head cand = Some 47 /\
  forall loc, loc ∈ locs -> dir_prefix loc path -> (length loc <= length cand)%nat.

Lemma candidate_path locs path : head path = Some 47 -> candidate locs path path.
Proof.
  intros Hh. split; [by left|]. split; [done|]. intros loc _ Hd.
  destruct (dir_prefix_prefix _ _ Hd) as [r ->]. rewrite length_app. lia.
Qed.

(** A candidate other than the root, where nothing is mounted, is cut. *)
Lemma candidate_cut locs path cand :
  candidate locs path cand -> cand ∉ locs -> cand <> [47] ->
  exists p r, cut_last 47 (removelast cand) = Some p /\ cand = p ++ r /\ r <> [] /\ candidate locs path p.
Proof.
  intros (Hc & Hh & Hl) Hno Hne. destruct cand as [|x [|y cand]]; [done|injection Hh as ->; done|].
  injection Hh as ->. set (c := 47 :: y :: cand) in *. assert (Hc0 : c <> []) by done.
  destruct (cut_last 47 (removelast c)) as [p|] eqn:Ecut.
  2: { apply cut_last_None in Ecut. destruct Ecut. simpl. left. }
  pose proof (cut_last_Some _ _ _ Ecut) as (q & r & Hpq & Hrl & _).
  assert (Hcd : c = p ++ r ++ [List.last c 0]).
  { rewrite (app_removelast_last 0 Hc0) at 1. by rewrite Hrl, <-app_assoc. }
  destruct (dir_prefix_cut path c p p Hc Ecut) as (Hp & _).
  exists p, (r ++ [List.last c 0]). split_and!; [done|done|by destruct r|]. split; [done|]. split.
  - destruct q; subst p; rewrite Hcd in *; unfold c in Hcd; simpl in *; congruence.
  - intros loc Hin Hd. destruct (dir_prefix_cut path c p loc Hc Ecut) as (_ & _ & Hlp).
    apply Hlp; [done|by apply Hl|by intros ->].
Qed.

Section spec.
Context {S G : Type} `{Current S} `{!Allocator S G} `{!Calls (layer S vfs_vars)}.
Variables (str_slash str_dot_slash : Z).
Implicit Types (s : layer S vfs_vars).

Lemma wp_mount_point s R l i (Q : Z -> layer S vfs_vars -> Prop) :
  mounted R (get_mem s) (vars s) l -> 0 <= i < 16 ->
  Q (slot (get_mem s) (mount_points (vars s)) i) s -> wp (mount_point i) Q s.
Proof.
  intros [[Ht _] _ _ _] Hi HQ. apply wp_bind, wp_var, wp_ld32; [|exact HQ].
  eapply mapped_range_sub; [exact Ht|lia..].
Qed.

(** A scan finds the first mount at [cand]. *)
Lemma wp_scan_mounts {B} s R l orig cand (found : Z -> Z -> M (layer S vfs_vars) B) Q :
  mounted R (get_mem s) (vars s) l -> cstr (get_mem s) orig cand ->
  (forall i dev m, l !! i = Some (cand, dev) -> (forall j loc dev', l !! j = Some (loc, dev') -> (j < i)%nat -> loc <> cand) ->
     wp (found (Z.of_nat i) m) (fun b s' => Q (Some b) s') s) ->
  ((forall loc dev, (loc, dev) ∈ l -> loc <> cand) -> Q None s) ->
  wp (scan_mounts orig found) Q s.
Proof.
  intros Hmt Hc Hfound Hnone. unfold scan_mounts. apply wp_bind.
  pose proof (mt_len _ _ _ _ Hmt) as Hlen. unfold MAX_MOUNTS in *.
  assert (Hend : forall t, (t = s /\ forall j loc dev, l !! j = Some (loc, dev) -> loc <> cand) ->
    wp (ret (None : option B)) Q t).
  { intros t [-> Hj]. apply wp_ret, Hnone. intros loc dev [j Hl]%list_elem_of_lookup. by eapply Hj. }
  apply (wp_for_find (fun i t => t = s /\ 0 <= i <= Z.of_nat (length l) /\
    forall j loc dev, l !! j = Some (loc, dev) -> Z.of_nat j < i -> loc <> cand)).
  - split_and!; [done|lia|lia|intros; lia].
  - intros i t Hi (-> & Hil & Hj). apply wp_bind. eapply wp_mount_point; [exact Hmt|lia|].
    destruct (decide (i = Z.of_nat (length l))) as [->|Hne].
    { rewrite (mt_end _ _ _ _ Hmt) by (unfold MAX_MOUNTS; lia). apply wp_ret, Hend. split; [done|].
      intros j loc dev Hl. apply (Hj j loc dev Hl). apply lookup_lt_Some in Hl. lia. }
    destruct (lookup_lt_is_Some_2 l (Z.to_nat i)) as [[loc dev] Hl]; [lia|].
    destruct (mt_entry _ _ _ _ Hmt _ _ _ Hl) as (p & a & Hp & Hp0 & Hpm & _ & Ha & Hd & Hcs & _).
    rewrite Z2Nat.id in Hp by lia. rewrite Hp. destruct (p =? 0) eqn:E; [lia|].
    apply wp_bind, wp_ld32; [eapply mapped_range_sub; [exact Hpm|unfold MI_loc; lia..]|]. rewrite Ha.
    apply wp_bind. eapply wp_strcmp; [done..|].
    pose proof (strcmp_spec_0 loc cand (cstr_chars _ _ _ Hcs) (cstr_chars _ _ _ Hc)) as Hsc.
    destruct (strcmp_spec loc cand =? 0) eqn:Ec.
    + assert (loc = cand) as -> by (apply Hsc; lia).
      apply wp_bind. rewrite <-(Z2Nat.id i) by lia. eapply wp_mono.
      { apply (Hfound (Z.to_nat i) dev p Hl). intros j loc dev' Hl' Hji. apply (Hj j loc dev' Hl'). lia. }
      intros b t HQ. by apply wp_ret, wp_ret.
    + apply wp_ret. split; [done|]. split; [lia|]. intros j loc' dev' Hl' Hji.
      destruct (decide (j = Z.to_nat i)) as [->|].
      * rewrite Hl in Hl'. injection Hl' as <- <-. intros ->. destruct Hsc as [_ Hsc]. rewrite Hsc in Ec; done.
      * apply (Hj j loc' dev' Hl'). lia.
  - intros t (-> & Hil & Hj). apply Hend. split; [done|]. intros j loc dev Hl.
    apply (Hj j loc dev Hl). apply lookup_lt_Some in Hl. lia.
Qed.
Lemma wp_copy_path s g R path l (Q : Z -> layer S vfs_vars -> Prop) :
  let n := Z.of_nat (length l) + 1 in
  heap_ok s g -> ~ out_of_memory -> foreign s g R -> room s n -> n < 2147483648 ->
  cstr (get_mem s) path l -> within R path n ->
  (forall orig s1 g1 m, vars s1 = vars s -> gave s g n orig s1 g1 ->
     agree (fun a => ~ in_block orig n a) (get_mem s1) m -> cstr m orig l -> Q orig (set_mem m s1)) ->
  wp (copy_path path) Q s.
Proof.
  intros n Hok Hoom Hf Hroom Hn Hc Hw HQ. unfold copy_path.
  apply wp_bind. eapply wp_strlen; [done|]. fold n. rewrite u32_small by lia.
  apply wp_bind, (wp_malloc_layer s g n); [done|lia|done|by intros ? _ []|].
  intros orig s1 g1 Hv Hg. pose proof (gave_agree _ _ _ _ _ _ _ Hg Hf) as Hag.
  pose proof (gave_apart _ _ _ _ _ _ _ Hg Hf) as Hap. unfold in_block in *.
  assert (Hc1 : forall m, agree (fun a => ~ (orig <= a < orig + n)) (get_mem s1) m -> cstr m path l).
  { intros m Hm. exact (cstr_agree R _ _ _ _ (gave_write_agree s g n orig s1 g1 m R Hg Hf Hm) Hw Hc). }
  pose proof (gv_mapped _ _ _ _ _ _ Hg) as Hmap.
  apply wp_bind. eapply wp_strlen; [apply Hc1, agree_refl|]. fold n. rewrite u32_small, s32_small by lia.
  apply wp_bind, wp_memset; [lia|done|]. set (m1 := mwrite _ _ _).
  assert (Hm1 : agree (fun a => ~ (orig <= a < orig + n)) (get_mem s1) m1).
  { split; [apply ranges_mwrite|]. intros a Ha. apply rd_mwrite_out. rewrite length_replicate. lia. }
  apply wp_bind. eapply wp_strlen; [rewrite get_set_mem; by apply Hc1|]. fold n. rewrite u32_small by lia.
  assert (Hmo : mapped_range m1 orig n) by (by eapply agree_mapped_range).
  apply wp_bind, wp_memcpy; [lia|by lens|lens; apply (Hc1 m1 Hm1)| |].
  { unfold forward_ok. destruct (decide (path < orig < path + n)); [|lia].
    destruct (Hap orig); [apply Hw; lia|lia]. }
  lens. apply wp_ret. apply (HQ orig s1 g1); [done|done| |by apply cstr_copy; [apply Hc1|]].
  split; [rewrite ranges_mwrite; apply Hm1|]. intros a Ha. rewrite rd_mwrite_out by (rewrite length_mread; lia). by apply Hm1.
Qed.
(** C23: a path is resolved to the longest mount above it.  When the root is
    mounted, __find_mount returns the index of a mount whose location is the
    path or a directory above it, such that no other such location is longer,
    and the length of the location less its slash, by which the caller advances
    the path.  Its copy of the path is freed again. *)
Theorem find_mount_longest s g R path l mts adjust :
  heap_ok s g -> ~ out_of_memory -> foreign s g R ->
  room s (Z.of_nat (length l) + 1) -> Z.of_nat (length l) + 1 < 2147483648 ->
  cstr (get_mem s) path l -> within R path (Z.of_nat (length l) + 1) -> head l = Some 47 ->
  cstr (get_mem s) str_slash [47] -> within R str_slash 2 ->
  mounted R (get_mem s) (vars s) mts -> [47] ∈ mts.*1 ->
  wp (__find_mount str_slash path adjust) (fun '(i, adj) s' => exists loc dev g',
    mts !! Z.to_nat i = Some (loc, dev) /\ dir_prefix loc l /\
    (forall loc', loc' ∈ mts.*1 -> dir_prefix loc' l -> (length loc' <= length loc)%nat) /\
    adj = Z.of_nat (length loc) - 1 /\
    client_step nothing s g s' g' /\ vars s' = vars s) s.
Proof.
  intros Hok Hoom Hf Hroom Hn Hc Hw Hhead Hsl Hslw Hmt Hroot. set (n := Z.of_nat (length l) + 1) in *.
  unfold __find_mount. apply wp_bind. eapply wp_copy_path; [done..|]. fold n.
  intros orig s1 g1 m Hv Hg Hag Hcm.
  apply wp_bind. eapply wp_strlen; [by lens|]. apply wp_bind.
  eapply wp_ld_cstr; [by lens|lia|]. rewrite Nat2Z.id, lookup_ge_None_2 by done. cbn [default Z.eqb].
  apply wp_bind, wp_ret.
  assert (Hlen : (0 < length l)%nat) by (destruct l; [done|simpl; lia]).
  assert (Hfree : forall m', agree (fun a => ~ in_block orig n a) (get_mem s1) m' -> agree R (get_mem s) m').
  { intros m' Hm'. exact (gave_write_agree s g n orig s1 g1 m' R Hg Hf Hm'). }
  apply (wp_loop_idx (fun k _ t => exists m' cand, t = set_mem m' s1 /\ k = Z.of_nat (length cand) /\
      agree (fun a => ~ in_block orig n a) (get_mem s1) m' /\
      cstr m' orig cand /\ candidate mts.*1 l cand) (Z.of_nat (length l))); [|lia|].
  { exists m, l. split_and!; try done. by apply candidate_path. }
  clear m Hag Hcm. intros k [] t (m & cand & -> & -> & Hag & Hcm & Hcand). split; [lia|].
  pose proof Hcand as (Hd & Hch & Hlong). pose proof (Hfree m Hag) as HagR.
  destruct (dir_prefix_prefix _ _ Hd) as [rest Hrest]. apply (f_equal length) in Hrest. rewrite length_app in Hrest.
  assert (Hc0 : (0 < length cand)%nat) by (destruct cand; [done|simpl; lia]).
  apply wp_bind. apply (wp_scan_mounts _ R mts orig cand).
  - lens. rewrite Hv. by eapply mounted_agree.
  - by lens.
  - intros i dev p Hi _. apply wp_bind. eapply wp_strlen; [by lens|]. apply wp_bind.
    pose proof (lookup_lt_Some _ _ _ Hi). pose proof (mt_len _ _ _ _ Hmt). unfold MAX_MOUNTS in *.
    eapply (wp_free_scratch_layer nothing); [done| |exact Hg|apply foreign_nothing| |]; [lia| |].
    { eapply agree_mono; [exact Hag|]. by intros a [? _]. }
    intros s2 g2 Hv2 Hcs _. apply wp_ret, wp_ret. exists cand, dev, g2.
    rewrite u8_small, Nat2Z.id, u32_small, s32_small by lia. split_and!; [done..|by rewrite Hv2].
  - intros Hno. assert (Hnin : cand ∉ mts.*1).
    { intros ([loc dev] & Heq & Hin)%list_elem_of_fmap. simpl in Heq. subst loc. by destruct (Hno _ _ Hin). }
    assert (Hne : cand <> [47]) by (by intros ->).
    destruct (candidate_cut _ _ _ Hcand Hnin Hne) as (p & r & Ecut & -> & Hr & Hp).
    apply wp_bind. eapply wp_strcmp; [by lens|lens; exact (cstr_agree R _ _ _ [47] HagR Hslw Hsl)|].
    pose proof (strcmp_spec_0 (p ++ r) [47] (cstr_chars _ _ _ Hcm) (cstr_chars _ _ _ Hsl)) as Hsc.
    destruct (strcmp_spec (p ++ r) [47] =? 0) eqn:E; [exfalso; apply Hne, Hsc; lia|].
    apply wp_bind. eapply wp_str_backspace; [by lens|by destruct p|]. rewrite Ecut.
    apply wp_ret. lens. rewrite length_app in *. assert (0 < length r)%nat by (destruct r; [done|simpl; lia]).
    exists (Z.of_nat (length p)). split; [lia|]. eexists _, p. split; [done|]. split_and!; try done.
    + split; [apply Hag|]. intros a Ha. rewrite rd_mset_out; [by apply Hag|]. unfold in_block in Ha. lia.
    + by eapply cstr_prefix.
Qed.
End spec.

Section no_slash.
Context {S G : Type} `{Current S} `{!Allocator S G} `{!Calls (layer S vfs_vars)}.
Variable str_slash : Z.
Implicit Types (s : layer S vfs_vars).

End no_slash.

(** ** The theorems at work

    The root is mounted, and another file system on [/proc/]; the path is
    [/proc/cpu], and then [cpu]. *)

Definition demo_vfs_bytes : list (Z * list Z) :=
  [ (4352, [47; 112; 114; 111; 99; 47; 99; 112; 117; 0]);
    (4608, [47; 0]); (4624, [47; 112; 114; 111; 99; 47; 0]); (4640, [47; 0]);
    (4864, le32 4608 ++ le32 8192); (4872, le32 4624 ++ le32 12288);
    (5120, le32 4864 ++ le32 4872) ].
Definition demo_vfs : layer (heap Arm.state) vfs_vars := Layer (low_heap demo_vfs_bytes) (VfsVars 5120 2 1).
Definition demo_mounts : list (list Z * Z) := [([47], 8192); ([47; 112; 114; 111; 99; 47], 12288)].

Lemma demo_mounted : mounted (fun a => a < 65536) (get_mem demo_vfs) (vars demo_vfs) demo_mounts.
Proof.
  assert (Hs : forall i v, slot (low_mem demo_vfs_bytes) 5120 i = v <-> rd32 (low_mem demo_vfs_bytes) (5120 + 4 * i) = v) by done.
  split.
  - split; [by apply low_mapped|]. intros x Hx. simpl in *. lia.
  - vm_compute. discriminate.
  - intros [|[|i]] loc dev [=]; subst loc dev; [exists 4864, 4608|exists 4872, 4624];
      (split_and!; [vm_compute; reflexivity|done|by apply low_mapped|intros x Hx; lia|vm_compute; reflexivity
       |vm_compute; reflexivity| |intros x Hx; simpl in Hx; lia]);
      (apply cstr_check; [reflexivity|by apply low_mapped|vm_compute; reflexivity]).
  - intros _. vm_compute. reflexivity.
Qed.

Lemma demo_str a l : forallb (fun b => (0 <? b) && (b <? 256)) l = true -> 4096 <= a -> a + Z.of_nat (length l) + 1 <= 65536 ->
  forallb (fun i => rd (low_mem demo_vfs_bytes) (a + Z.of_nat i) =? nth i (l ++ [0]) 0) (seq 0 (length l + 1)) = true ->
  cstr (get_mem demo_vfs) a l.
Proof. intros. apply cstr_check; [done|apply low_mapped; lia|done]. Qed.

Lemma find_mount_longest_witness :
  wp (__find_mount (G := list mjr) 4640 4352 0) (fun '(i, adj) s' => i = 1 /\ adj = 5) demo_vfs.
Proof.
  eapply wp_mono; [apply (find_mount_longest (G := list mjr) 4640 demo_vfs [] (fun a => a < 65536) 4352
    [47; 112; 114; 111; 99; 47; 99; 112; 117] demo_mounts 0)|].
  - apply low_heap_ok.
  - by intros [].
  - apply low_foreign. done.
  - apply low_room. simpl. lia.
  - done.
  - by apply demo_str.
  - intros x Hx. simpl in Hx. lia.
  - done.
  - by apply demo_str.
  - intros x Hx. lia.
  - apply demo_mounted.
  - left.
  - intros [i adj] s' (loc & dev & g' & Hi & Hd & Hmax & -> & _).
    pose proof (Hmax [47; 112; 114; 111; 99; 47]) as Hm.
    destruct (Z.to_nat i) as [|[|k]] eqn:E; simpl in Hi; [| |done]; injection Hi as <- <-.
    + simpl in Hm. exfalso. assert (6 <= 1)%nat; [apply Hm|lia]; [by right; left|].
      right. by exists [47; 112; 114; 111; 99], [99; 112; 117].
    + split; [lia|done].
Defined.

