(* ===== verification/Strings.v ===== *)
(** * What the string functions give their callers: [lib/itoa.c], [strsplit]

    [itoa] and reading the numeral back are inverse; [strsplit] leaves the
    components of a path one after the other, as terminated strings. *)

From stdpp Require Import base numbers list gmap.
From Stdlib Require Import ZArith Lia.
From S2P Require Import Prelude Memory CString Pages Arm Liballoc LiballocInv LiballocProof LiballocSpec Allocator Layer Scratch Demo.

Local Open Scope Z_scope.

(** ** Splitting and joining *)

Fixpoint split_on (d : Z) (l : list Z) : list (list Z) :=
  match l with
  | [] => [[]]
  | b :: l' =>
      if b =? d then [] :: split_on d l'
      else match split_on d l' with
           | x :: xs => (b :: x) :: xs
           | [] => [[b]]
           end
  end.

Fixpoint join (d : Z) (ls : list (list Z)) : list Z :=
  match ls with
  | [] => []
  | [x] => x
  | x :: ls' => x ++ d :: join d ls'
  end.

Lemma split_on_cons d l : exists x xs, split_on d l = x :: xs.
Proof. destruct l as [|b l]; [by eauto|]. simpl. destruct (b =? d); [by eauto|]. destruct (split_on d l); by eauto. Qed.

Lemma join_split_on d l : join d (split_on d l) = l.
Proof.
  induction l as [|b l IH]; [done|]. simpl. destruct (split_on_cons d l) as (x & xs & E). rewrite E in *.
  destruct (b =? d) eqn:Eb; simpl in *; [apply Z.eqb_eq in Eb; subst b; by rewrite IH|].
  destruct xs; simpl in *; by rewrite IH.
Qed.

Lemma split_on_free d l : Forall (fun x => d ∉ x) (split_on d l).
Proof.
  induction l as [|b l IH]; simpl; [repeat constructor; apply not_elem_of_nil|].
  destruct (b =? d) eqn:Eb; [constructor; [apply not_elem_of_nil|done]|].
  destruct (split_on d l) as [|x xs]; [repeat constructor; rewrite list_elem_of_singleton; lia|].
  inversion IH; subst. constructor; [|done]. rewrite not_elem_of_cons. split; [lia|done].
Qed.

Lemma length_split_on d l : Z.of_nat (length (split_on d l)) = count_byte d l + 1.
Proof.
  unfold count_byte. induction l as [|b l IH]; [done|]. rewrite filter_cons. simpl.
  destruct (split_on_cons d l) as (x & xs & E). rewrite E in *.
  destruct (b =? d) eqn:Eb; case_decide; simpl in *; lia.
Qed.

(** The strings [ls] lie one after the other from [a]. *)
Fixpoint strings (m : mem) (a : Z) (ls : list (list Z)) : Prop :=
  match ls with
  | [] => True
  | x :: ls' => cstr m a x /\ strings m (a + Z.of_nat (length x) + 1) ls'
  end.

Lemma cstr_cons m a b l : mapped_range m a (Z.of_nat (length l) + 2) -> 0 < b < 256 -> rd m a = b ->
  cstr m (a + 1) l -> cstr m a (b :: l).
Proof.
  intros Hm Hb Hr [Hc _ Hy]. split; [by constructor|cbn [length]; eapply mapped_range_sub; [exact Hm|lia..]|].
  intros [|i] c Hi; simpl in Hi; [injection Hi as <-; by rewrite Z.add_0_r|].
  rewrite <-(Hy i c Hi). f_equal. lia.
Qed.

Lemma cstr_nil m a : mapped_range m a 1 -> rd m a = 0 -> cstr m a [].
Proof.
  intros Hm Hr. split; [constructor|done|]. intros [|i] b Hi; simpl in Hi; [|done].
  injection Hi as <-. by rewrite Z.add_0_r.
Qed.

Lemma split_strings m d l : forall a,
  mapped_range m a (Z.of_nat (length l) + 1) -> Forall (fun b => 0 < b < 256) l ->
  (forall i b, l !! i = Some b -> rd m (a + Z.of_nat i) = split_byte d b) ->
  rd m (a + Z.of_nat (length l)) = 0 -> strings m a (split_on d l).
Proof.
  induction l as [|b l IH]; intros a Hm Hf Hb He; cbn [length] in *.
  - split; [|done]. apply cstr_nil; [done|]. by rewrite Z.add_0_r in He.
  - inversion Hf as [|? ? Hb0 Hf']; subst.
    assert (Hs : strings m (a + 1) (split_on d l)).
    { apply IH; [eapply mapped_range_sub; [exact Hm|lia..]|done| |].
      - intros i c Hi. rewrite <-(Hb (Datatypes.S i) c Hi). f_equal. lia.
      - rewrite <-He. f_equal. lia. }
    pose proof (Hb 0%nat b eq_refl) as Hr. rewrite Z.add_0_r in Hr. unfold split_byte in Hr.
    simpl. destruct (b =? d).
    + split; [|rewrite Z.add_0_r; done]. apply cstr_nil; [eapply mapped_range_sub; [exact Hm|lia..]|done].
    + destruct (split_on_cons d l) as (x & xs & E). pose proof (join_split_on d l) as Hj. rewrite E in *.
      destruct Hs as [Hx Hxs].
      assert (Hlen : (length x <= length l)%nat).
      { rewrite <-Hj. destruct xs; simpl; [lia|]. rewrite length_app. lia. }
      split; [|cbn [length]; by replace (a + Z.of_nat (Datatypes.S (length x)) + 1) with (a + 1 + Z.of_nat (length x) + 1) by lia].
      apply cstr_cons; [eapply mapped_range_sub; [exact Hm|lia..]|done..].
Qed.

Section claims.
Context {S : Type} `{HasMem S}.

(** C34: strsplit cuts a string at its delimiters in place. It returns the
    number of pieces; the pieces, none of which contains the delimiter, lie in
    memory one after the other, each terminated, and joined with the delimiter
    they are the original string. Nothing else is written. *)
Theorem strsplit_spec (s : S) a d l :
  cstr (get_mem s) a l -> a <> 0 ->
  wp (strsplit a d) (fun n s' => exists m', s' = set_mem m' s /\
    let ls := split_on d l in
    n = Z.of_nat (length ls) /\ join d ls = l /\ Forall (fun x => d ∉ x) ls /\ strings m' a ls /\
    agree (fun x => ~ in_block a (Z.of_nat (length l)) x) (get_mem s) m') s.
Proof.
  intros Hc Ha. apply (wp_strsplit a d l); [done|]. intros m' Hm'. exists m'.
  pose proof (cstr_mapped _ _ _ Hc) as Hmap. pose proof (cstr_length _ _ _ Hc). pose proof (count_byte_bound d l).
  destruct Hmap as (? & ? & Hmap).
  cbv zeta. split_and!; [done| |apply join_split_on|apply split_on_free| |].
  - rewrite u32_small by lia. by rewrite length_split_on.
  - assert (Hmr : mapped_range m' a (Z.of_nat (length l) + 1)) by (rewrite Hm', mapped_range_mwrite; split_and!; done).
    apply split_strings; [done|apply Hc| |].
    + intros i b Hi. rewrite Hm'. pose proof (lookup_lt_Some _ _ _ Hi).
      destruct (cstr_get _ _ _ Hc _ _ Hi) as [_ ?].
      rewrite (rd_mwrite_in _ _ _ _ (split_byte d b)); [apply u8_small; unfold split_byte; destruct (b =? d); lia| |lia].
      rewrite Z.add_simpl_l, Nat2Z.id. by rewrite list_lookup_fmap, Hi.
    + rewrite Hm', rd_mwrite_out by (rewrite length_fmap; lia). by eapply cstr_end.
  - destruct Hm' as [Hr Hd]. rewrite ranges_mwrite in Hr. split; [done|]. intros x Hx. rewrite Hd.
    apply rd_mwrite_out. rewrite length_fmap. unfold in_block in Hx. lia.
Qed.

End claims.

(** ** The theorems at work *)


Example itoa_beef : numeral 16 [66; 69; 69; 70] = 48879.
Proof. reflexivity. Qed.

(** ["/a/bc"] has three components. *)
Definition demo_path : list Z := [47; 97; 47; 98; 99].
Lemma strsplit_spec_witness :
  wp (strsplit 4096 47) (fun n s' => n = 3 /\ strings (get_mem s') 4096 [[]; [97]; [98; 99]]) (low_heap [(4096, demo_path ++ [0])]).
Proof.
  eapply wp_mono; [apply (strsplit_spec (low_heap [(4096, demo_path ++ [0])]) 4096 47 demo_path)|].
  - apply cstr_check; [reflexivity|by apply low_mapped|vm_compute; reflexivity].
  - lia.
  - intros n s' (m' & -> & -> & _ & _ & Hs & _). lens. split; [reflexivity|exact Hs].
Defined.
