(* ===== verification/Pci.v ===== *)
(** * The PCI bus: [drivers/pci.c]

    Configuration space is reached through an address and a data port.  The
    devices found are [struct pci_device]s in a table on the heap; a driver is
    a function called with each of them.  The messages are not modelled. *)

From stdpp Require Import base numbers list gmap.
From Stdlib Require Import ZArith Lia.
From S2P Require Import Prelude Memory Pages Arm Liballoc LiballocInv LiballocProof LiballocSpec Allocator Layer Tables Device Hal Scratch Demo Fs.

Local Open Scope Z_scope.

(** [struct pci_device] *)
Definition PD_vendor : Z := 0.     (* uint16_t *)
Definition PD_device : Z := 2.     (* uint16_t *)
Definition PD_bus : Z := 4.
Definition PD_slot : Z := 8.
Definition PD_func : Z := 12.      (* uint16_t *)
Definition PD_membase : Z := 16.
Definition PD_memsize : Z := 20.
Definition PD_iobase : Z := 24.
Definition PD_irq : Z := 28.
Definition PD_data : Z := 32.
Definition PD_drv : Z := 36.
Definition sizeof_pci_device : Z := 40.

(** [struct pci_driver] *)
Definition PR_probe : Z := 0.

Record pci_vars : Type := PciVars { pdevs : Z; pci_devices : Z; pdrvs : Z; pci_drivers : Z }.
Definition set_pci_devices (n : Z) (v : pci_vars) : pci_vars := PciVars (pdevs v) n (pdrvs v) (pci_drivers v).
Definition set_pdevs (p : Z) (v : pci_vars) : pci_vars := PciVars p (pci_devices v) (pdrvs v) (pci_drivers v).
Definition set_pci_drivers (n : Z) (v : pci_vars) : pci_vars := PciVars (pdevs v) (pci_devices v) (pdrvs v) n.

(** ** Configuration space *)

(** [0x80000000 | bus << 16 | slot << 11 | func << 8 | (offset & 0xfc)] *)
Definition pci_address (bus slot func offset : Z) : Z :=
  let id := Z.lor (Z.lor (Z.shiftl bus 16) (Z.shiftl slot 11)) (Z.shiftl func 8) in
  u32 (Z.lor (Z.lor 2147483648 id) (Z.land offset 252)).

Section config.
Context {S : Type} `{HasPorts S}.

Definition pci_read_byte (bus slot func offset : Z) : M S Z :=
  outportl 3320 (pci_address bus slot func offset) ;!
  inportb (3324 + Z.land offset 3).
Definition pci_write_byte (bus slot func offset byte : Z) : M S unit :=
  outportl 3320 (pci_address bus slot func offset) ;!
  outportb (3324 + Z.land offset 3) byte.
Definition pci_read_word (bus slot func offset : Z) : M S Z :=
  outportl 3320 (pci_address bus slot func offset) ;!
  inportw (3324 + Z.land offset 2).
Definition pci_write_word (bus slot func offset word : Z) : M S unit :=
  outportl 3320 (pci_address bus slot func offset) ;!
  outportw (3324 + Z.land offset 2) word.
Definition pci_read_dword (bus slot func offset : Z) : M S Z :=
  outportl 3320 (pci_address bus slot func offset) ;!
  inportl 3324.
Definition pci_write_dword (bus slot func offset word : Z) : M S unit :=
  outportl 3320 (pci_address bus slot func offset) ;!
  outportl 3324 word.

(** The arguments are [uint16_t], those of [pci_read_word] [uint8_t]. *)
Definition pci_get_vendor (bus device function : Z) : M S Z :=
  pci_read_word (u8 bus) (u8 device) (u8 function) 0.
Definition pci_get_device (bus device function : Z) : M S Z :=
  pci_read_word (u8 bus) (u8 device) (u8 function) 2.
End config.

Section ops.
Context {S G : Type} `{HasPorts S} `{Allocator S G} `{!Calls (layer S pci_vars)}.
Notation PM := (M (layer S pci_vars)).

(** The place of a device, read from its structure and cut to [uint8_t]. *)
Definition with_place {A} (pdev : Z) (k : Z -> Z -> Z -> PM A) : PM A :=
  let! bus := ld32 (pdev + PD_bus) in
  let! slot := ld32 (pdev + PD_slot) in
  let! func := ld16 (pdev + PD_func) in
  k (u8 bus) (u8 slot) (u8 func).

Definition pci_config_write_word (pdev offset word : Z) : PM unit :=
  with_place pdev (fun b s f => pci_write_word b s f offset word).
Definition pci_config_write_byte (pdev offset word : Z) : PM unit :=
  with_place pdev (fun b s f => pci_write_byte b s f offset word).
Definition pci_config_read_byte (pdev offset : Z) : PM Z :=
  with_place pdev (fun b s f => pci_read_byte b s f offset).
Definition pci_config_read_dword (pdev offset : Z) : PM Z :=
  with_place pdev (fun b s f => pci_read_dword b s f offset).
Definition pci_config_write_dword (pdev offset dword : Z) : PM unit :=
  with_place pdev (fun b s f => pci_write_dword b s f offset dword).

(** The size behind a base address: all ones are written, what comes back is
    the mask of the bits that stick, and the register is restored. *)
Definition bar_size (pdev offset : Z) (base : PM Z) : PM Z :=
  pci_config_write_dword pdev offset 4294967295 ;!
  let! size := pci_config_read_dword pdev offset in
  let size := u32 (4294967295 - Z.land size 4294967280 + 1) in
  let! b := base in
  pci_config_write_dword pdev offset b ;!
  ret size.

Definition __pci_parse (pdev : Z) : PM unit :=
  let! header := pci_config_read_byte pdev 14 in
  if! header =? 0 then
    (let! need_eprom := for_acc 6 0 1 (fun i need_eprom =>
       let! r := pci_config_read_dword pdev (16 + i * 4) in
       if negb (Z.land r 1 =? 0) then
         st32 (pdev + PD_iobase) (Z.land r 4294967292) ;! ret need_eprom
       else
         st32 (pdev + PD_membase) r ;!
         if r =? 0 then ret need_eprom
         else
           let! size := bar_size pdev (16 + i * 4) (ld32 (pdev + PD_membase)) in
           st32 (pdev + PD_memsize) size ;!
           ret 0) in
     (if! negb (need_eprom =? 0) then
        (let! eprom := pci_config_read_dword pdev 48 in
         if! negb (eprom =? 0) then (let! _ := bar_size pdev 48 (ret eprom) in ret tt))) ;!
     let! irq := pci_config_read_byte pdev 60 in
     st32 (pdev + PD_irq) irq).

(** The next entry of the table; its number is [uint8_t], its bound unchecked. *)
Definition pci_entry : PM Z :=
  let! t := var pdevs in
  let! n := var pci_devices in
  ret (u32 (t + sizeof_pci_device * n)).

(** The entry of a function that answers. *)
Definition record_function (vendor device bus slot function : Z) : PM unit :=
  let! e := pci_entry in st16 (e + PD_vendor) vendor ;!
  let! e := pci_entry in st16 (e + PD_device) device ;!
  let! e := pci_entry in st32 (e + PD_drv) 0 ;!
  let! e := pci_entry in st32 (e + PD_bus) bus ;!
  let! e := pci_entry in st32 (e + PD_slot) slot ;!
  let! e := pci_entry in st16 (e + PD_func) function ;!
  let! e := pci_entry in __pci_parse e ;!
  assign (fun v => set_pci_devices (u8 (pci_devices v + 1)) v).

Definition probe_function (bus slot function : Z) : PM unit :=
  let! vendor := pci_get_vendor bus slot function in
  if! negb (vendor =? 65535) then
    (let! device := pci_get_device bus slot function in
     record_function vendor device bus slot function).

Definition pci_probe : PM unit :=
  for_up 256 0 (fun bus => for_up 32 0 (fun slot => for_up 8 0 (fun function => probe_function bus slot function))).

Definition pci_init : PM unit :=
  let! p := malloc (sizeof_pci_device * 16) in
  assign (set_pdevs p) ;!
  pci_probe.

(** [pdrvs] is never allocated: the pointers are stored from address 0 on. *)
Definition pci_register_driver (pdrv : Z) : PM unit :=
  let! d := var pdrvs in
  let! n := var pci_drivers in
  st32 (d + 4 * n) pdrv ;!
  assign (fun v => set_pci_drivers (u8 (pci_drivers v + 1)) v) ;!
  loop (fun i =>
    let! n := var pci_devices in
    if i <? n then
      let! f := ld32 (pdrv + PR_probe) in
      let! t := var pdevs in
      let! _ := call_ptr f [u32 (t + sizeof_pci_device * i)] in
      ret (inl (i + 1))
    else ret (inr tt)) 0.
End ops.

(** ** Addresses are decoded as they are encoded *)

(** [n] bytes from register [r] of a function's configuration space. *)
Definition cfg_word (cfg : Z -> Z) (r : Z) (n : nat) : Z :=
  foldr (fun k v => cfg (r + k) + 256 * v) 0 (seqZ 0 (Z.of_nat n)).

(** The bridge of a PC (configuration mechanism 1): after an address with the
    enable bit has gone to the address port, the data port answers with the
    bytes of the register.  [ro] are registers whose contents do not change. *)
Definition bridge (cfg : Z -> Z -> Z -> Z -> Z) (ro : Z -> Prop) (env : list io -> Z -> Z -> Z) : Prop :=
  forall tr a n k,
    2147483648 <= a < 4294967296 -> a mod 4 = 0 -> 0 <= k -> (0 < n)%nat -> k + Z.of_nat n <= 4 ->
    (forall j, 0 <= j < Z.of_nat n -> ro (a mod 256 + k + j)) ->
    env (tr ++ [Out 32 3320 a]) (8 * Z.of_nat n) (3324 + k) mod 2 ^ (8 * Z.of_nat n) =
    cfg_word (cfg (a / 65536 mod 256) (a / 2048 mod 32) (a / 256 mod 8)) (a mod 256 + k) n.

Definition valid_function (bus slot func : Z) : Prop := 0 <= bus < 256 /\ 0 <= slot < 32 /\ 0 <= func < 8.

Lemma lor_add a b n : 0 <= n -> a mod 2 ^ n = 0 -> 0 <= b < 2 ^ n -> Z.lor a b = a + b.
Proof.
  intros Hn Ha Hb. assert (Hd : Z.land a b = 0); [|rewrite <-Z.add_lor_land, Hd; lia].
  apply Z.bits_inj'. intros i Hi. rewrite Z.land_spec, Z.bits_0.
  destruct (decide (i < n)).
  - rewrite <-(Z.mod_pow2_bits_low a n i), Ha, Z.bits_0 by lia. done.
  - rewrite <-(Z.mod_small b (2 ^ n)), Z.mod_pow2_bits_high, andb_false_r by lia. done.
Qed.

Lemma pci_address_eq bus slot func r : valid_function bus slot func -> 0 <= r < 256 ->
  pci_address bus slot func r = 2147483648 + bus * 65536 + slot * 2048 + func * 256 + (r - r mod 4).
Proof.
  intros (Hb & Hs & Hf) Hr. unfold pci_address.
  assert (Hland : Z.land r 252 = r - r mod 4).
  { assert (Forall (fun r => Z.land r 252 = r - r mod 4) (seqZ 0 256)) as Hall.
    { apply Forall_forall. intros x Hx. assert (Hc : forallb (fun r => Z.land r 252 =? r - r mod 4) (seqZ 0 256) = true)
        by (vm_compute; reflexivity). rewrite forallb_forall in Hc. apply Z.eqb_eq, Hc. by apply list_elem_of_In. }
    rewrite Forall_forall in Hall. apply Hall, elem_of_seqZ. lia. }
  rewrite Hland, !Z.shiftl_mul_pow2 by lia. change (2 ^ 16) with 65536. change (2 ^ 11) with 2048. change (2 ^ 8) with 256.
  pose proof (Z.div_mod r 4 ltac:(lia)). pose proof (Z.mod_pos_bound r 4 ltac:(lia)).
  rewrite (lor_add (bus * 65536) (slot * 2048) 16) by (try (apply Z.mod_mul); lia).
  replace (bus * 65536 + slot * 2048) with ((bus * 32 + slot) * 2 ^ 11) by lia.
  rewrite (lor_add _ (func * 256) 11) by (try (apply Z.mod_mul); lia).
  rewrite (lor_add 2147483648 _ 31) by (done || lia).
  replace (2147483648 + ((bus * 32 + slot) * 2 ^ 11 + func * 256))
    with ((8388608 + bus * 256 + slot * 8 + func) * 2 ^ 8) by lia.
  rewrite (lor_add _ (r - r mod 4) 8) by (try (apply Z.mod_mul); lia).
  rewrite u32_small; lia.
Qed.

(** The bridge gets back the bus, slot, function and register. *)
Lemma pci_address_decode bus slot func r : valid_function bus slot func -> 0 <= r < 256 ->
  let a := pci_address bus slot func r in
  2147483648 <= a < 4294967296 /\ a mod 4 = 0 /\
  a / 65536 mod 256 = bus /\ a / 2048 mod 32 = slot /\ a / 256 mod 8 = func /\ a mod 256 = r - r mod 4.
Proof.
  intros Hv Hr. rewrite pci_address_eq by done. destruct Hv as (Hb & Hs & Hf).
  cbv zeta. pose proof (Z.mod_pos_bound r 4 ltac:(lia)). pose proof (Z.div_mod r 4 ltac:(lia)).
  assert (exists q, r - r mod 4 = 4 * q /\ 0 <= q < 64) as (q & -> & Hq) by (exists (r / 4); lia).
  split_and!; [lia|lia|..].
  all: Z.div_mod_to_equations; lia.
Qed.

(** ** Reading and parsing *)

Section spec.
Context {S G : Type} `{HP : HasPorts S} `{HM : HasMem S} `{!Allocator S G} `{!PortsMem S} `{!Calls (layer S pci_vars)}.
Notation PS := (layer S pci_vars).
Implicit Types (s : PS).
Context (cfg : Z -> Z -> Z -> Z -> Z) (ro : Z -> Prop).

Definition bridged s : Prop := bridge cfg ro (io_env (get_ports s)).

(** A step that only operates ports, and stores within [a, a + n). *)
Record quiet_step (a n : Z) s s' : Prop := {
  qs_vars : vars s' = vars s;
  qs_env : io_env (get_ports s') = io_env (get_ports s);
  qs_mem : agree (fun x => ~ in_block a n x) (get_mem s) (get_mem s');
}.

Lemma quiet_refl a n s : quiet_step a n s s.
Proof. split; [done..|apply agree_refl]. Qed.
Lemma quiet_trans a n s1 s2 s3 : quiet_step a n s1 s2 -> quiet_step a n s2 s3 -> quiet_step a n s1 s3.
Proof.
  intros [H1 H2 H3] [H4 H5 H6]. split; [congruence..|by eapply agree_trans].
Qed.
Lemma quiet_event a n e s : quiet_step a n s (with_event e s).
Proof. split; [done|by lens|]. lens. apply agree_refl. Qed.
Lemma quiet_store a n s b l : a <= b -> b + Z.of_nat (length l) <= a + n ->
  quiet_step a n s (set_mem (mwrite (get_mem s) b l) s).
Proof.
  intros. split; [by lens|by lens|]. lens. split; [apply ranges_mwrite|]. intros x Hx. apply rd_mwrite_out.
  unfold in_block in Hx. lia.
Qed.
Lemma quiet_mapped a n s s' b k : quiet_step a n s s' -> mapped_range (get_mem s) b k -> mapped_range (get_mem s') b k.
Proof. intros [_ _ Hm] ?. by eapply agree_mapped_range. Qed.
Lemma quiet_wider a n b k s s' : b <= a -> a + n <= b + k -> quiet_step a n s s' -> quiet_step b k s s'.
Proof. intros ?? [Hv He Hm]. split; [done..|]. eapply agree_mono; [exact Hm|]. unfold in_block. intros. lia. Qed.

Lemma wp_read_id s bus slot func r (Q : Z -> PS -> Prop) :
  bridged s -> valid_function bus slot func -> r = 0 \/ r = 2 -> ro r -> ro (r + 1) ->
  (forall s', quiet_step 0 0 s s' -> 0 <= cfg_word (cfg bus slot func) r 2 < 65536 ->
     Q (cfg_word (cfg bus slot func) r 2) s') ->
  wp (pci_read_word bus slot func r) Q s.
Proof.
  intros Hb Hv Hr Hro1 Hro2 HQ.
  destruct (pci_address_decode bus slot func r Hv) as (Ha & Ha4 & H1 & H2 & H3 & H4); [lia|].
  apply wp_bind, wp_outport, wp_inport. cbv zeta. lens.
  rewrite (Z.mod_small (pci_address bus slot func r)) by (change (2 ^ 32) with 4294967296; lia).
  assert (Hland : Z.land r 2 = r /\ r mod 4 = r) by (destruct Hr as [-> | ->]; done). destruct Hland as [-> Hm4].
  change 16 with (8 * Z.of_nat 2).
  match goal with |- Q ?v _ => assert (Hrange : 0 <= v < 65536) by (apply Z.mod_pos_bound; lia) end.
  revert Hrange. rewrite (Hb _ (pci_address bus slot func r) 2%nat r), H1, H2, H3, H4 by
    (try done; try lia; intros j Hj; rewrite H4, Hm4; assert (j = 0 \/ j = 1) as [-> | ->] by lia;
     (replace (r - r + r + 0) with r by lia; done) || (replace (r - r + r + 1) with (r + 1) by lia; done)).
  rewrite Hm4. replace (r - r + r) with r by lia. intros Hrange. apply HQ; [|done].
  eapply quiet_trans; apply quiet_event.
Qed.

Section entry.
Context (e : Z).
(** What [__pci_parse] relies on, and where it stores. *)
Definition entry_ok s : Prop := mapped_range (get_mem s) e sizeof_pci_device.
Notation parsed := (quiet_step (e + PD_membase) 16).

Lemma parsed_entry s s' : parsed s s' -> entry_ok s -> entry_ok s'.
Proof. apply quiet_mapped. Qed.

Lemma wp_with_place {A} s (k : Z -> Z -> Z -> M PS A) (Q : A -> PS -> Prop) :
  entry_ok s -> (forall b l f, wp (k b l f) Q s) -> wp (with_place e k) Q s.
Proof.
  intros He HQ. unfold with_place, entry_ok, sizeof_pci_device, PD_bus, PD_slot, PD_func in *.
  apply wp_bind, wp_ld32; [eapply mapped_range_sub; [exact He|lia..]|].
  apply wp_bind, wp_ld32; [eapply mapped_range_sub; [exact He|lia..]|].
  destruct He as (? & ? & Hm).
  apply wp_bind. apply wp_bind, wp_ld8; [lia|apply Hm; lia|]. apply wp_bind, wp_ld8; [lia|apply Hm; lia|].
  apply wp_ret, HQ.
Qed.

Lemma wp_config_read_byte s o (Q : Z -> PS -> Prop) :
  entry_ok s -> (forall r s', parsed s s' -> Q r s') -> wp (pci_config_read_byte e o) Q s.
Proof.
  intros He HQ. apply wp_with_place; [done|]. intros. apply wp_bind, wp_outport, wp_inport, HQ.
  eapply quiet_trans; apply quiet_event.
Qed.
Lemma wp_config_read_dword s o (Q : Z -> PS -> Prop) :
  entry_ok s -> (forall r s', parsed s s' -> Q r s') -> wp (pci_config_read_dword e o) Q s.
Proof.
  intros He HQ. apply wp_with_place; [done|]. intros. apply wp_bind, wp_outport, wp_inport, HQ.
  eapply quiet_trans; apply quiet_event.
Qed.
Lemma wp_config_write_dword s o v (Q : unit -> PS -> Prop) :
  entry_ok s -> (forall s', parsed s s' -> Q tt s') -> wp (pci_config_write_dword e o v) Q s.
Proof.
  intros He HQ. apply wp_with_place; [done|]. intros. apply wp_bind, wp_outport, wp_outport, HQ.
  eapply quiet_trans; apply quiet_event.
Qed.

(** A store to one of the four words that [__pci_parse] fills. *)
Lemma wp_parse_store s o v (Q : unit -> PS -> Prop) :
  entry_ok s -> PD_membase <= o -> o + 4 <= PD_membase + 16 ->
  (forall s', parsed s s' -> Q tt s') -> wp (st32 (e + o) v) Q s.
Proof.
  intros He ?? HQ. unfold entry_ok, sizeof_pci_device, PD_membase in *.
  apply wp_st32; [eapply mapped_range_sub; [exact He|lia..]|]. apply HQ, quiet_store; [|simpl]; lia.
Qed.

Lemma wp_bar_size s o base (Q : Z -> PS -> Prop) :
  entry_ok s -> (forall t (P : Z -> PS -> Prop), parsed s t -> (forall v, P v t) -> wp base P t) ->
  (forall r s', parsed s s' -> Q r s') -> wp (bar_size e o base) Q s.
Proof.
  intros He Hbase HQ. apply wp_bind, wp_config_write_dword; [done|]. intros s1 H1.
  apply wp_bind, wp_config_read_dword; [by eapply parsed_entry|]. intros r s2 H2.
  pose proof (quiet_trans _ _ _ _ _ H1 H2) as H12. apply wp_bind, Hbase; [done|]. intros v.
  apply wp_bind, wp_config_write_dword; [by eapply parsed_entry|]. intros s3 H3.
  apply wp_ret, HQ. by eapply quiet_trans.
Qed.

Lemma wp_pci_parse s (Q : unit -> PS -> Prop) :
  entry_ok s -> (forall s', parsed s s' -> Q tt s') -> wp (__pci_parse e) Q s.
Proof.
  intros He HQ. apply wp_bind, wp_config_read_byte; [done|]. intros h s1 H1.
  destruct (h =? 0); [|by apply wp_ret, HQ]. apply wp_bind.
  apply (wp_for_acc (fun _ _ t => parsed s t)); [done| |].
  - intros i b t _ Ht. pose proof (parsed_entry _ _ Ht He) as Het.
    apply wp_bind, wp_config_read_dword; [done|]. intros r t1 Ht1.
    pose proof (quiet_trans _ _ _ _ _ Ht Ht1) as Hs1. pose proof (parsed_entry _ _ Hs1 He) as He1.
    destruct (negb (Z.land r 1 =? 0)).
    + apply wp_bind, wp_parse_store; [done|done|done|]. intros t2 Ht2. apply wp_ret. by eapply quiet_trans.
    + apply wp_bind, wp_parse_store; [done|done|done|]. intros t2 Ht2.
      pose proof (quiet_trans _ _ _ _ _ Hs1 Ht2) as Hs2. pose proof (parsed_entry _ _ Hs2 He) as He2.
      destruct (r =? 0); [by apply wp_ret|]. apply wp_bind, wp_bar_size; [done| |].
      { intros t3 P Ht3 HP3. apply wp_ld32; [|apply HP3].
        eapply mapped_range_sub; [exact (parsed_entry _ _ Ht3 He2)|unfold PD_membase, sizeof_pci_device; lia..]. }
      intros r' t3 Ht3. pose proof (quiet_trans _ _ _ _ _ Hs2 Ht3) as Hs3.
      apply wp_bind, wp_parse_store; [by eapply parsed_entry|done|done|]. intros t4 Ht4.
      apply wp_ret. by eapply quiet_trans.
  - intros b t Ht. apply wp_bind.
    assert (Hirq : forall t1, parsed s t1 -> wp (let! irq := pci_config_read_byte e 60 in st32 (e + PD_irq) irq) Q t1).
    { intros t1 H1'. apply wp_bind, wp_config_read_byte; [by eapply parsed_entry|]. intros r t2 Ht2.
      pose proof (quiet_trans _ _ _ _ _ H1' Ht2) as H2. apply wp_parse_store; [by eapply parsed_entry|done|done|].
      intros t3 Ht3. apply HQ. by eapply quiet_trans. }
    destruct (negb (b =? 0)); [|by apply wp_ret, Hirq].
    apply wp_bind, wp_config_read_dword; [by eapply parsed_entry|]. intros r t1 Ht1.
    pose proof (quiet_trans _ _ _ _ _ Ht Ht1) as H2. destruct (negb (r =? 0)); [|by apply wp_ret, Hirq].
    apply wp_bind, wp_bar_size; [by eapply parsed_entry|by intros; apply wp_ret|].
    intros r' t2 Ht2. apply wp_ret, Hirq. by eapply quiet_trans.
Qed.
End entry.

(** ** The bus scan *)

(** The entry at [e] describes a function of the bus. *)
Record described (m : mem) (e : Z) (p : Z * Z * Z) : Prop := {
  ds_vendor : rd16 m (e + PD_vendor) = cfg_word (cfg p.1.1 p.1.2 p.2) 0 2;
  ds_device : rd16 m (e + PD_device) = cfg_word (cfg p.1.1 p.1.2 p.2) 2 2;
  ds_place : rd32 m (e + PD_bus) = p.1.1 /\ rd32 m (e + PD_slot) = p.1.2 /\ rd16 m (e + PD_func) = p.2;
  ds_drv : rd32 m (e + PD_drv) = 0;
}.

Lemma described_agree m m' e p :
  agree (fun x => ~ in_block (e + PD_membase) 16 x /\ in_block e sizeof_pci_device x) m m' -> described m e p -> described m' e p.
Proof.
  intros Ha [Hv Hd (Hb & Hs & Hf) Hr].
  assert (H16 : forall o, 0 <= o <= 14 -> rd16 m' (e + o) = rd16 m (e + o)).
  { intros o Ho. apply (rd16_agree _ _ _ _ Ha); unfold in_block, PD_membase, sizeof_pci_device; lia. }
  assert (H32 : forall o, 0 <= o <= 12 \/ o = 36 -> rd32 m' (e + o) = rd32 m (e + o)).
  { intros o Ho. apply (rd32_agree _ _ _ _ Ha); unfold in_block, PD_membase, sizeof_pci_device; lia. }
  unfold PD_vendor, PD_device, PD_bus, PD_slot, PD_func, PD_drv in *.
  split; unfold PD_vendor, PD_device, PD_bus, PD_slot, PD_func, PD_drv; rewrite ?H16, ?H32 by lia; try done.
Qed.

Definition present (p : Z * Z * Z) : Prop := cfg_word (cfg p.1.1 p.1.2 p.2) 0 2 <> 65535.

(** The table at [t] holds the functions [l], and nothing else has changed. *)
Record found (s0 : PS) (t : Z) (l : list (Z * Z * Z)) s : Prop := {
  fd_count : vars s = set_pci_devices (Z.of_nat (length l)) (vars s0);
  fd_env : io_env (get_ports s) = io_env (get_ports s0);
  fd_mem : agree (fun x => ~ in_block t (sizeof_pci_device * 16) x) (get_mem s0) (get_mem s);
  fd_entries : forall i p, l !! i = Some p -> described (get_mem s) (t + sizeof_pci_device * Z.of_nat i) p;
}.

Lemma wp_pci_entry s n t (Q : Z -> PS -> Prop) :
  pdevs (vars s) = t -> pci_devices (vars s) = n -> 0 <= t + sizeof_pci_device * n < 4294967296 ->
  Q (t + sizeof_pci_device * n) s -> wp pci_entry Q s.
Proof. intros <- <- ? HQ. unfold pci_entry. do 2 apply wp_bind, wp_var. apply wp_ret. by rewrite u32_small. Qed.

(** Reads a word back through a sequence of stores. *)
Ltac words :=
  repeat first [ rewrite rd16_mwrite_out by (rewrite ?le16_length, ?le32_length; lia)
               | rewrite rd32_mwrite_out by (rewrite ?le16_length, ?le32_length; lia) ];
  rewrite ?rd16_mwrite_same, ?rd32_mwrite_same, ?u16_small, ?u32_small by lia; done.

(** The six stores of the scan, then [__pci_parse]. *)
Lemma described_stores m m' e v d b l f :
  let m6 := mwrite (mwrite (mwrite (mwrite (mwrite (mwrite m (e + PD_vendor) (le16 v)) (e + PD_device) (le16 d))
    (e + PD_drv) (le32 0)) (e + PD_bus) (le32 b)) (e + PD_slot) (le32 l)) (e + PD_func) (le16 f) in
  valid_function b l f -> v = cfg_word (cfg b l f) 0 2 -> d = cfg_word (cfg b l f) 2 2 ->
  0 <= v < 65536 -> 0 <= d < 65536 ->
  agree (fun x => ~ in_block (e + PD_membase) 16 x) m6 m' ->
  described m' e (b, l, f) /\ agree (fun x => ~ in_block e sizeof_pci_device x) m m'.
Proof.
  intros m6 (Hb & Hl & Hf) Ev Ed Hv Hd Hag. split.
  - eapply described_agree; [eapply agree_mono; [exact Hag|intros x []; done]|].
    unfold m6, PD_vendor, PD_device, PD_bus, PD_slot, PD_func, PD_drv.
    split; cbn [fst snd]; unfold PD_vendor, PD_device, PD_bus, PD_slot, PD_func, PD_drv; repeat split; words.
  - split; [rewrite (proj1 Hag); unfold m6; by rewrite !ranges_mwrite|]. intros x Hx.
    unfold in_block, sizeof_pci_device, PD_membase in *. rewrite (proj2 Hag) by lia.
    unfold m6, PD_vendor, PD_device, PD_bus, PD_slot, PD_func, PD_drv.
    rewrite !rd_mwrite_out by (rewrite ?le16_length, ?le32_length; lia). done.
Qed.

(** Reading an identity changes nothing that was found. *)
Lemma found_quiet s0 t l s s' : found s0 t l s -> quiet_step 0 0 s s' -> found s0 t l s'.
Proof.
  intros [Hc He Ha Hd] [Hv He' Hm]. split; [by rewrite Hv|by rewrite He'| |].
  - eapply agree_trans; [exact Ha|]. eapply agree_mono; [exact Hm|]. unfold in_block. intros. lia.
  - intros i p Hi. eapply described_agree; [|by apply Hd]. eapply agree_mono; [exact Hm|]. unfold in_block. intros. lia.
Qed.

(** One more entry. *)
Lemma found_snoc s0 s s' t l p :
  let e := t + sizeof_pci_device * Z.of_nat (length l) in
  found s0 t l s -> (length l < 16)%nat -> vars s' = set_pci_devices (Z.of_nat (length l) + 1) (vars s0) ->
  io_env (get_ports s') = io_env (get_ports s) -> described (get_mem s') e p ->
  agree (fun x => ~ in_block e sizeof_pci_device x) (get_mem s) (get_mem s') -> found s0 t (l ++ [p]) s'.
Proof.
  intros e [Hc He Ha Hd] Hlen Hv He' Hp Hfr. split.
  - rewrite Hv, length_app. f_equal. simpl. lia.
  - by rewrite He'.
  - eapply agree_trans; [exact Ha|]. eapply agree_mono; [exact Hfr|]. unfold in_block, e, sizeof_pci_device. intros. lia.
  - intros i q Hi. apply lookup_snoc_Some in Hi as [[Hil Hi]|[-> ->]]; [|exact Hp].
    eapply described_agree; [|by apply Hd]. eapply agree_mono; [exact Hfr|]. unfold in_block, e, sizeof_pci_device. intros. lia.
Qed.

Lemma wp_record_function s0 s t l b sl f v d (Q : unit -> PS -> Prop) :
  bridged s0 -> valid_function b sl f -> pdevs (vars s0) = t ->
  mapped_range (get_mem s0) t (sizeof_pci_device * 16) -> found s0 t l s -> (length l < 16)%nat ->
  v = cfg_word (cfg b sl f) 0 2 -> d = cfg_word (cfg b sl f) 2 2 -> 0 <= v < 65536 -> 0 <= d < 65536 ->
  (forall s', found s0 t (l ++ [(b, sl, f)]) s' -> Q tt s') ->
  wp (record_function v d b sl f) Q s.
Proof.
  intros Hbr Hv Ht Hm Hfd Hlen Ev Ed Hrv Hrd HQ. pose proof Hfd as [Hc He Ha _]. unfold record_function.
  set (n := Z.of_nat (length l)) in *. set (e := t + sizeof_pci_device * n).
  assert (Hmt : mapped_range (get_mem s) t (sizeof_pci_device * 16)) by (by eapply agree_mapped_range).
  assert (Hent : forall m' (Q' : Z -> PS -> Prop), Q' e (set_mem m' s) -> wp pci_entry Q' (set_mem m' s)).
  { intros m' Q' HQ'. apply (wp_pci_entry _ n t); [lens; by rewrite Hc|lens; by rewrite Hc| |exact HQ'].
    destruct Hmt as (? & ? & _). unfold sizeof_pci_device in *. lia. }
  assert (Hsub : forall o k, 0 <= o -> 0 < k -> o + k <= sizeof_pci_device -> mapped_range (get_mem s) (e + o) k).
  { intros o k ???. eapply mapped_range_sub; [exact Hmt|unfold e, sizeof_pci_device in *; lia..]. }
  apply wp_bind. rewrite <-(set_get_mem s) at 1. apply Hent. rewrite set_get_mem.
  unfold PD_vendor, PD_device, PD_drv, PD_bus, PD_slot, PD_func.
  apply wp_bind, wp_st16; [by apply Hsub|].
  do 4 (apply wp_bind, Hent, wp_bind; (apply wp_st16 || apply wp_st32);
    [by lens; rewrite !mapped_range_mwrite; apply Hsub|lens]).
  apply wp_bind, Hent, wp_bind, wp_st16; [by lens; rewrite !mapped_range_mwrite; apply Hsub|lens].
  apply wp_bind, Hent, wp_bind, wp_pci_parse.
  { unfold entry_ok. lens. rewrite !mapped_range_mwrite. rewrite <-(Z.add_0_r e). by apply Hsub. }
  intros s3 [Hv3 He3 Hm3]. apply wp_assign, HQ.
  destruct (described_stores (get_mem s) (get_mem s3) e v d b sl f Hv Ev Ed Hrv Hrd) as [Hdes Hfr].
  { eapply agree_mono; [|intros x Hx; exact Hx]. revert Hm3. by lens. }
  apply (found_snoc s0 s); [done|done| |lens; rewrite He3; by lens|by lens|by lens].
  lens. rewrite Hv3. lens. rewrite Hc. unfold set_pci_devices. simpl. rewrite u8_small by lia. done.
Qed.

Lemma wp_probe_function s0 s t l b sl f (Q : unit -> PS -> Prop) :
  bridged s0 -> (forall r, 0 <= r < 4 -> ro r) -> valid_function b sl f -> pdevs (vars s0) = t ->
  mapped_range (get_mem s0) t (sizeof_pci_device * 16) -> found s0 t l s ->
  (present (b, sl, f) -> length l < 16)%nat ->
  (present (b, sl, f) -> forall s', found s0 t (l ++ [(b, sl, f)]) s' -> Q tt s') ->
  (~ present (b, sl, f) -> forall s', found s0 t l s' -> Q tt s') ->
  wp (probe_function b sl f) Q s.
Proof.
  intros Hbr Hro Hv Ht Hm Hfd Hlen Hyes Hno. pose proof Hv as (Hb & Hs & Hf).
  assert (Hbs : forall l' s', found s0 t l' s' -> bridged s') by (intros l' s' [_ He _ _]; unfold bridged; by rewrite He).
  unfold probe_function, pci_get_vendor, pci_get_device. rewrite !u8_small by lia.
  apply wp_bind, wp_read_id; [by eapply Hbs|done|by left|apply Hro; lia..|].
  intros s1 H1%(found_quiet s0 t l) Hr1; [|done].
  destruct (cfg_word (cfg b sl f) 0 2 =? 65535) eqn:E; simpl negb; cbn iota.
  { apply wp_ret, Hno; [unfold present; cbn [fst snd]; lia|done]. }
  assert (Hp : present (b, sl, f)) by (unfold present; cbn [fst snd]; lia).
  apply wp_bind, wp_read_id; [by eapply Hbs|done|by right|apply Hro; lia..|].
  intros s2 H2%(found_quiet s0 t l) Hr2; [|done].
  apply (wp_record_function s0 s2 t l); try done; [by apply Hlen|by apply Hyes].
Qed.

(** Every function of the bus, in the order of the scan. *)
Definition all_functions : list (Z * Z * Z) :=
  seqZ 0 256 ≫= fun b => seqZ 0 32 ≫= fun l => (fun f => (b, l, f)) <$> seqZ 0 8.

#[local] Instance present_dec p : Decision (present p).
Proof. unfold present. apply _. Defined.

Definition devices : list (Z * Z * Z) := filter present all_functions.

(** A nested counting loop is a loop over the list of its indices. *)
Fixpoint run_all {B} (g : B -> M PS unit) (l : list B) : M PS unit :=
  match l with [] => ret tt | x :: l' => g x ;! run_all g l' end.

Lemma run_all_app {B} (g : B -> M PS unit) l1 l2 s : run_all g (l1 ++ l2) s = (run_all g l1 ;! run_all g l2) s.
Proof.
  revert s. induction l1 as [|x l1 IH]; intros s; [done|]. simpl. rewrite bind_assoc. apply bind_ext; [done|].
  intros [] t. apply IH.
Qed.
Lemma for_up_run_all n i (g : Z -> M PS unit) s : for_up n i g s = run_all g (seqZ i (Z.of_nat n)) s.
Proof.
  revert i s. induction n as [|n IH]; intros i s; [done|].
  rewrite seqZ_cons by lia. simpl. apply bind_ext; [done|]. intros [] t. rewrite IH.
  by replace (Z.pred (Z.of_nat (Datatypes.S n))) with (Z.of_nat n) by lia.
Qed.
Lemma run_all_fmap {B C} (h : C -> B) (g : B -> M PS unit) l s :
  run_all (fun x => g (h x)) l s = run_all g (h <$> l) s.
Proof. revert s. induction l as [|x l IH]; intros s; [done|]. simpl. apply bind_ext; [done|]. intros [] t. apply IH. Qed.
Lemma run_all_mbind {B C} (h : C -> list B) (g : B -> M PS unit) (k : C -> M PS unit) l s :
  (forall x t, k x t = run_all g (h x) t) -> run_all k l s = run_all g (l ≫= h) s.
Proof.
  intros Hk. revert s. induction l as [|x l IH]; intros s; [done|]. simpl. rewrite run_all_app.
  apply bind_ext; [apply Hk|]. intros [] t. apply IH.
Qed.

Lemma pci_probe_all s : pci_probe s = run_all (fun p => probe_function p.1.1 p.1.2 p.2) all_functions s.
Proof.
  unfold pci_probe, all_functions. rewrite for_up_run_all. apply run_all_mbind. intros b t.
  rewrite for_up_run_all. apply run_all_mbind. intros l u. rewrite for_up_run_all. 
  apply (run_all_fmap (fun f => (b, l, f)) (fun p => probe_function p.1.1 p.1.2 p.2)).
Qed.

Lemma all_functions_valid : Forall (fun p => valid_function p.1.1 p.1.2 p.2) all_functions.
Proof.
  apply Forall_forall. intros p (b & Hp & Hb)%list_elem_of_bind. apply list_elem_of_bind in Hp as (l & Hp & Hl).
  apply list_elem_of_fmap in Hp as (f & -> & Hf). rewrite elem_of_seqZ in Hb, Hl, Hf.
  unfold valid_function. simpl. lia.
Qed.

Lemma all_functions_NoDup : NoDup all_functions.
Proof.
  apply NoDup_bind; [| |apply NoDup_seqZ].
  - intros b1 b2 p _ _ (l1 & H1 & _)%list_elem_of_bind (l2 & H2 & _)%list_elem_of_bind.
    apply list_elem_of_fmap in H1 as (? & -> & _). apply list_elem_of_fmap in H2 as (? & [=] & _). done.
  - intros b _. apply NoDup_bind; [| |apply NoDup_seqZ].
    + intros l1 l2 p _ _ (? & -> & _)%list_elem_of_fmap (? & [=] & _)%list_elem_of_fmap. done.
    + intros l _. apply NoDup_fmap_2; [by intros ?? [=]|apply NoDup_seqZ].
Qed.

#[global] Opaque all_functions.

Lemma wp_scan s0 t l : forall done s,
  bridged s0 -> (forall r, 0 <= r < 4 -> ro r) -> pdevs (vars s0) = t ->
  mapped_range (get_mem s0) t (sizeof_pci_device * 16) -> Forall (fun p => valid_function p.1.1 p.1.2 p.2) l ->
  (length (filter present (done ++ l)) <= 16)%nat -> found s0 t (filter present done) s ->
  wp (run_all (fun p => probe_function p.1.1 p.1.2 p.2) l) (fun _ s' => found s0 t (filter present (done ++ l)) s') s.
Proof.
  induction l as [|[[b sl] f] l IH]; intros done s Hb Hro Ht Hm Hv Hlen Hf; [by rewrite app_nil_r|].
  inversion Hv as [|? ? Hv1 Hv2]; subst. simpl in Hv1.
  assert (Hass : done ++ (b, sl, f) :: l = (done ++ [(b, sl, f)]) ++ l) by (by rewrite <-app_assoc).
  rewrite Hass in *. apply wp_bind. eapply wp_probe_function; try done.
  - intros Hp. rewrite !filter_app, (filter_cons_True _ _ _ Hp), !length_app in Hlen. simpl in Hlen. lia.
  - intros Hp s' Hf'. apply IH; try done. rewrite filter_app, (filter_cons_True _ _ _ Hp). exact Hf'.
  - intros Hp s' Hf'. apply IH; try done. rewrite filter_app, (filter_cons_False _ _ _ Hp), filter_nil, app_nil_r. exact Hf'.
Qed.

(** C35: the scan of the bus finds every device. On a machine with a
    configuration mechanism 1 bridge, and no more than 16 functions that answer,
    pci_probe returns with the table describing exactly the functions whose
    vendor is not 0xFFFF, in the order of the scan: vendor, device, bus, slot
    and function of each. It writes nothing outside the table. *)
Theorem pci_probe_spec s t :
  bridged s -> (forall r, 0 <= r < 4 -> ro r) ->
  pdevs (vars s) = t -> pci_devices (vars s) = 0 ->
  mapped_range (get_mem s) t (sizeof_pci_device * 16) -> (length devices <= 16)%nat ->
  wp pci_probe (fun _ s' => found s t devices s') s.
Proof.
  intros Hb Hro Ht Hn Hm Hd. unfold wp. rewrite pci_probe_all.
  change (wp (run_all (fun p => probe_function p.1.1 p.1.2 p.2) all_functions) (fun _ s' => found s t devices s') s).
  assert (Hf0 : found s t (filter present []) s).
  { split; [by destruct (vars s); simpl in *; subst|done|apply agree_refl|done]. }
  apply (wp_scan s t all_functions [] s); try done. apply all_functions_valid.
Qed.
End spec.

(** ** The theorem at work: one network card at bus 0, slot 3 *)

Definition demo_cfg (b l f r : Z) : Z :=
  if (b =? 0) && (l =? 3) && (f =? 0) then
    match r with 0 => 236 | 1 => 16 | 2 => 41 | 3 => 128 | _ => 0 end
  else 255.

(** A bridge that answers from [demo_cfg]. *)
Definition demo_bridge (tr : list io) (w port : Z) : Z :=
  match last tr with
  | Some (Out 32 3320 a) =>
      cfg_word (demo_cfg (a / 65536 mod 256) (a / 2048 mod 32) (a / 256 mod 8)) (a mod 256 + (port - 3324)) (Z.to_nat (w / 8))
  | _ => 0
  end.

Definition demo_pci : layer (machine (heap Arm.state)) pci_vars :=
  Layer (Layer (low_heap []) (Ports demo_bridge [])) (PciVars 8192 0 0 0).

#[local] Instance demo_no_calls : Calls (layer (machine (heap Arm.state)) pci_vars) := fun _ _ => fault.

Lemma demo_cfg_range b l f r : 0 <= demo_cfg b l f r < 256.
Proof. unfold demo_cfg. destruct (_ && _); [|lia]. repeat case_match; lia. Qed.

Lemma cfg_word_range cfg r n : (forall k, 0 <= cfg k < 256) -> 0 <= cfg_word cfg r n < 2 ^ (8 * Z.of_nat n).
Proof.
  intros Hc. unfold cfg_word.
  enough (forall i, 0 <= foldr (fun k v => cfg (r + k) + 256 * v) 0 (seqZ i (Z.of_nat n)) < 2 ^ (8 * Z.of_nat n)) by done.
  induction n as [|n IH]; intros i; [simpl; lia|].
  rewrite seqZ_cons by lia. simpl foldr. replace (Z.pred (Z.of_nat (Datatypes.S n))) with (Z.of_nat n) by lia.
  specialize (IH (Z.succ i)). specialize (Hc (r + i)).
  replace (8 * Z.of_nat (Datatypes.S n)) with (8 + 8 * Z.of_nat n) by lia. rewrite Z.pow_add_r by lia.
  change (2 ^ 8) with 256. lia.
Qed.

Lemma demo_bridged : bridged demo_cfg (fun r => 0 <= r < 4) demo_pci.
Proof.
  intros tr a n k Ha Ha4 Hk Hn Hkn Hro. unfold demo_pci, get_ports. simpl. unfold demo_bridge. rewrite last_snoc.
  replace (8 * Z.of_nat n / 8) with (Z.of_nat n) by (Z.div_mod_to_equations; lia). rewrite Nat2Z.id.
  replace (a mod 256 + (3324 + k - 3324)) with (a mod 256 + k) by lia.
  apply Z.mod_small, cfg_word_range. intros. apply demo_cfg_range.
Qed.

Lemma demo_devices : (length (devices demo_cfg) <= 1)%nat.
Proof.
  change 1%nat with (length [(0, 3, 0)]). apply submseteq_length, NoDup_submseteq; [apply NoDup_filter, all_functions_NoDup|].
  intros [[b l] f] [Hp _]%list_elem_of_filter. apply list_elem_of_singleton. unfold present in Hp. cbn [fst snd] in Hp.
  destruct ((b =? 0) && (l =? 3) && (f =? 0)) eqn:E; [do 2 f_equal; lia|].
  exfalso. apply Hp. unfold cfg_word, demo_cfg. rewrite E. reflexivity.
Qed.

(** The card is found, and it is the only device. *)
Lemma pci_probe_spec_witness :
  wp pci_probe (fun _ s' => found demo_cfg demo_pci 8192 (devices demo_cfg) s' /\ (length (devices demo_cfg) <= 1)%nat) demo_pci.
Proof.
  eapply wp_mono; [apply (pci_probe_spec demo_cfg (fun r => 0 <= r < 4) demo_pci 8192)|].
  - exact demo_bridged.
  - done.
  - done.
  - done.
  - by apply low_mapped.
  - pose proof demo_devices. lia.
  - intros u s' Hf. split; [exact Hf|exact demo_devices].
Defined.
