(* ===== verification/Dma.v ===== *)
(** * The DMA controllers: [drivers/dma.c], [include/dma.h]

    Two controllers of four channels each, programmed through ports. *)

From stdpp Require Import base numbers list.
From Stdlib Require Import ZArith Lia.
From S2P Require Import Prelude Memory Layer Hal.

Local Open Scope Z_scope.

(** Address and count registers of a channel. *)
Definition DMA0_CHAN0_ADDR_REG : Z := 0.
Definition DMA0_CHAN0_COUNT_REG : Z := 1.
Definition DMA0_CHAN1_ADDR_REG : Z := 2.
Definition DMA0_CHAN1_COUNT_REG : Z := 3.
Definition DMA0_CHAN2_ADDR_REG : Z := 4.
Definition DMA0_CHAN2_COUNT_REG : Z := 5.
Definition DMA0_CHAN3_ADDR_REG : Z := 6.
Definition DMA0_CHAN3_COUNT_REG : Z := 7.
Definition DMA1_CHAN4_ADDR_REG : Z := 192.
Definition DMA1_CHAN4_COUNT_REG : Z := 194.
Definition DMA1_CHAN5_ADDR_REG : Z := 196.
Definition DMA1_CHAN5_COUNT_REG : Z := 198.
Definition DMA1_CHAN6_ADDR_REG : Z := 200.
Definition DMA1_CHAN6_COUNT_REG : Z := 202.
Definition DMA1_CHAN7_ADDR_REG : Z := 204.
Definition DMA1_CHAN7_COUNT_REG : Z := 206.

Definition DMA0_CHANMASK_REG : Z := 10.
Definition DMA0_MODE_REG : Z := 11.
Definition DMA0_CLEARBYTE_FLIPFLOP_REG : Z := 12.
Definition DMA0_TEMP_REG : Z := 13.
Definition DMA1_CHANMASK_REG : Z := 212.
Definition DMA1_MODE_REG : Z := 214.
Definition DMA1_CLEARBYTE_FLIPFLOP_REG : Z := 216.
Definition DMA1_UNMASK_ALL_REG : Z := 220.

Definition DMA_PAGE_CHAN2_ADDRBYTE2 : Z := 129.
Definition DMA_PAGE_CHAN3_ADDRBYTE2 : Z := 130.
Definition DMA_PAGE_CHAN1_ADDRBYTE2 : Z := 131.
Definition DMA_PAGE_CHAN6_ADDRBYTE2 : Z := 135.
Definition DMA_PAGE_CHAN7_ADDRBYTE2 : Z := 136.
Definition DMA_PAGE_CHAN5_ADDRBYTE2 : Z := 137.

Definition DMA_MODE_READ_TRANSFER : Z := 4.
Definition DMA_MODE_WRITE_TRANSFER : Z := 8.
Definition DMA_MODE_TRANSFER_SINGLE : Z := 64.

Section ops.
Context {S : Type} `{HasPorts S}.

(** [1 << n]: undefined for a negative count and from 32 on. *)
Definition shl1 (n : Z) : M S Z := if (0 <=? n) && (n <? 32) then ret (Z.shiftl 1 n) else fault.

Definition dma_mask_channel (channel : Z) : M S unit :=
  if channel <=? 4 then let! b := shl1 (channel - 1) in outportb DMA0_CHANMASK_REG b
  else let! b := shl1 (channel - 5) in outportb DMA1_CHANMASK_REG b.

Definition dma_unmask_channel (channel : Z) : M S unit :=
  if channel <=? 4 then outportb DMA0_CHANMASK_REG channel else outportb DMA1_CHANMASK_REG channel.

Definition dma_unmask_all (dma : Z) : M S unit := outportb DMA1_UNMASK_ALL_REG 255.
Definition dma_reset (dma : Z) : M S unit := outportb DMA0_TEMP_REG 255.

Definition dma_reset_flipflop (dma : Z) : M S unit :=
  if dma <? 2 then ret tt
  else outportb (if dma =? 0 then DMA0_CLEARBYTE_FLIPFLOP_REG else DMA1_CLEARBYTE_FLIPFLOP_REG) 255.

(** Channel 8 is not refused: its bytes go to port 0. *)
Definition dma_set_address (channel low high : Z) : M S unit :=
  if channel >? 8 then ret tt
  else
    let port := match channel with
                | 0 => DMA0_CHAN0_ADDR_REG | 1 => DMA0_CHAN1_ADDR_REG
                | 2 => DMA0_CHAN2_ADDR_REG | 3 => DMA0_CHAN3_ADDR_REG
                | 4 => DMA1_CHAN4_ADDR_REG | 5 => DMA1_CHAN5_ADDR_REG
                | 6 => DMA1_CHAN6_ADDR_REG | 7 => DMA1_CHAN7_ADDR_REG
                | _ => 0
                end in
    outportb port low ;!
    outportb port high.

Definition dma_set_count (channel low high : Z) : M S unit :=
  if channel >? 8 then ret tt
  else
    let port := match channel with
                | 0 => DMA0_CHAN0_COUNT_REG | 1 => DMA0_CHAN1_COUNT_REG
                | 2 => DMA0_CHAN2_COUNT_REG | 3 => DMA0_CHAN3_COUNT_REG
                | 4 => DMA1_CHAN4_COUNT_REG | 5 => DMA1_CHAN5_COUNT_REG
                | 6 => DMA1_CHAN6_COUNT_REG | 7 => DMA1_CHAN7_COUNT_REG
                | _ => 0
                end in
    outportb port low ;!
    outportb port high.

Definition dma_set_mode (channel mode : Z) : M S unit :=
  let dma := if channel <? 4 then 0 else 1 in
  let chan := if dma =? 0 then channel else channel - 4 in
  dma_mask_channel channel ;!
  outportb (if channel <? 4 then DMA0_MODE_REG else DMA1_MODE_REG) (Z.lor chan mode) ;!
  dma_unmask_all dma.

Definition dma_set_read (channel : Z) : M S unit :=
  dma_set_mode channel (Z.lor DMA_MODE_READ_TRANSFER DMA_MODE_TRANSFER_SINGLE).
Definition dma_set_write (channel : Z) : M S unit :=
  dma_set_mode channel (Z.lor DMA_MODE_WRITE_TRANSFER DMA_MODE_TRANSFER_SINGLE).

Definition dma_set_external_page_register (reg val : Z) : M S unit :=
  if reg >? 14 then ret tt
  else
    match reg with
    | 4 => ret tt
    | 1 => outportb DMA_PAGE_CHAN1_ADDRBYTE2 val
    | 2 => outportb DMA_PAGE_CHAN2_ADDRBYTE2 val
    | 3 => outportb DMA_PAGE_CHAN3_ADDRBYTE2 val
    | 5 => outportb DMA_PAGE_CHAN5_ADDRBYTE2 val
    | 6 => outportb DMA_PAGE_CHAN6_ADDRBYTE2 val
    | 7 => outportb DMA_PAGE_CHAN7_ADDRBYTE2 val
    | _ => outportb 0 val
    end.
End ops.
