(* ===== verification/Floppy.v ===== *)
(** * The floppy disk: [drivers/floppy.c]

    Commands go byte by byte to the controller's FIFO, the data through DMA
    channel 2 and a fixed buffer at 0x1000.  The interrupt handler sets
    [irq_h]; it runs while the driver yields, so [schedule_noirq], which other
    files define, is a parameter together with the registrations. *)

From stdpp Require Import base numbers list gmap.
From Stdlib Require Import ZArith Lia.
From S2P Require Import Prelude Memory Pages Arm Liballoc LiballocInv LiballocProof LiballocSpec Allocator Layer Device Hal Pic Dma Scratch Demo.

Local Open Scope Z_scope.

Definition FDC_DMA_CHANNEL : Z := 2.
Definition FLPY_SECTORS_PER_TRACK : Z := 18.
Definition DMA_BUFFER : Z := 4096.

Definition FLPYDSK_DOR : Z := 1010.
Definition FLPYDSK_MSR : Z := 1012.
Definition FLPYDSK_FIFO : Z := 1013.
Definition FLPYDSK_CTRL : Z := 1015.
Definition FDC_CMD_SPECIFY : Z := 3.
Definition FDC_CMD_WRITE_SECT : Z := 5.
Definition FDC_CMD_READ_SECT : Z := 6.
Definition FDC_CMD_CALIBRATE : Z := 7.
Definition FDC_CMD_CHECK_INT : Z := 8.
Definition FDC_CMD_SEEK : Z := 15.
Definition FDC_CMD_EXT_SKIP : Z := 32.
Definition FDC_CMD_EXT_DENSITY : Z := 64.
Definition FDC_CMD_EXT_MULTITRACK : Z := 128.
Definition FLPYDSK_DOR_MASK_RESET : Z := 4.
Definition FLPYDSK_DOR_MASK_DMA : Z := 8.
Definition FLPYDSK_DOR_MASK_DRIVE0_MOTOR : Z := 16.
Definition FLPYDSK_DOR_MASK_DRIVE1_MOTOR : Z := 32.
Definition FLPYDSK_DOR_MASK_DRIVE2_MOTOR : Z := 64.
Definition FLPYDSK_DOR_MASK_DRIVE3_MOTOR : Z := 128.
Definition FLPYDSK_MSR_MASK_DATAREG : Z := 128.
Definition FLPYDSK_GAP3_LENGTH_3_5 : Z := 27.
Definition FLPYDSK_SECTOR_DTL_512 : Z := 2.

Record flpy_vars : Type := FlpyVars { primary_avail : Z; secondary_avail : Z; irq_h : Z }.
Definition set_irq_h (n : Z) (v : flpy_vars) : flpy_vars := FlpyVars (primary_avail v) (secondary_avail v) n.

(** ** Sectors *)

(** C division: towards zero. *)
Definition __lba_to_chs (lba : Z) : Z * Z * Z :=
  (Z.quot (Z.rem lba (FLPY_SECTORS_PER_TRACK * 2)) FLPY_SECTORS_PER_TRACK,
   Z.quot lba (FLPY_SECTORS_PER_TRACK * 2),
   Z.rem lba FLPY_SECTORS_PER_TRACK + 1).

Section ops.
Context {S G : Type} `{HasPorts S} `{Allocator S G}.
Notation FM := (M (layer S flpy_vars)).

Variable schedule_noirq : FM unit.
(** [device_register] (drivers/device.c) and [register_interrupt]
    (arch/x86/idt.c). *)
Variable device_register : Z -> FM Z.
Variable register_interrupt : Z -> Z -> FM Z.
(** Addresses of the functions and of the literal ["fda"]. *)
Variables (f_flpy_read f_flpy_irq str_fda : Z).

Definition __parse_cmos (primary secondary : Z) : FM unit :=
  (if! negb (primary =? 0) then assign (fun v => FlpyVars 1 (secondary_avail v) (irq_h v))) ;!
  if! negb (secondary =? 0) then assign (fun v => FlpyVars (primary_avail v) 1 (irq_h v)).

Definition __read_status : FM Z := inportb FLPYDSK_MSR.
Definition __write_dor (cmd : Z) : FM unit := outportb FLPYDSK_DOR cmd.

(** [uint8_t timeout = 0xff; while(--timeout)]: 254 rounds. *)
Definition __write_cmd (cmd : Z) : FM unit :=
  let! _ := for_find 254 0 (fun _ =>
    let! st := __read_status in
    if negb (Z.land st FLPYDSK_MSR_MASK_DATAREG =? 0)
    then outportb FLPYDSK_FIFO cmd ;! ret (Some tt) else ret None) in
  ret tt.

Definition __read_data : FM Z :=
  let! r := for_find 500 0 (fun _ =>
    let! st := __read_status in
    if negb (Z.land st FLPYDSK_MSR_MASK_DATAREG =? 0)
    then let! b := inportb FLPYDSK_FIFO in ret (Some b) else ret None) in
  ret (default 0 r).

Definition __write_ccr (cmd : Z) : FM unit := outportb FLPYDSK_CTRL cmd.
Definition fdc_disable_controller : FM unit := __write_dor 0.
Definition fdc_enable_controller : FM unit := __write_dor (Z.lor FLPYDSK_DOR_MASK_RESET FLPYDSK_DOR_MASK_DMA).

(** [a.byte[0]] and [a.byte[1]] are the low bytes of the words. *)
Definition fdc_dma_init (buffer length : Z) : FM unit :=
  let a := buffer in
  let c := u32 (length - 1) in
  dma_reset 1 ;!
  dma_mask_channel FDC_DMA_CHANNEL ;!
  dma_reset_flipflop 1 ;!
  dma_set_address FDC_DMA_CHANNEL (u8 a) (u8 (a / 256)) ;!
  dma_reset_flipflop 1 ;!
  dma_set_count FDC_DMA_CHANNEL (u8 c) (u8 (c / 256)) ;!
  dma_set_read FDC_DMA_CHANNEL ;!
  dma_unmask_all 1.

(** [*st0] and [*cy1] *)
Definition fdc_check_int : FM (Z * Z) :=
  __write_cmd FDC_CMD_CHECK_INT ;!
  let! st0 := __read_data in
  let! cy1 := __read_data in
  ret (st0, cy1).

Definition __wait_for_irq : FM Z :=
  loop (fun timeout =>
    let! i := var irq_h in
    if negb (i =? 0) then ret (inr tt)
    else if timeout =? 0 then ret (inr tt)
    else schedule_noirq ;! ret (inl (timeout - 1))) 10 ;!
  let! i := var irq_h in
  assign (set_irq_h 0) ;!
  ret (if i =? 0 then 0 else 1).

Definition fdc_set_motor (drive status : Z) : FM unit :=
  if drive >? 3 then ret tt
  else
    let motor := match drive with
                 | 0 => FLPYDSK_DOR_MASK_DRIVE0_MOTOR
                 | 1 => FLPYDSK_DOR_MASK_DRIVE1_MOTOR
                 | 2 => FLPYDSK_DOR_MASK_DRIVE2_MOTOR
                 | 3 => FLPYDSK_DOR_MASK_DRIVE3_MOTOR
                 | _ => 0
                 end in
    if negb (status =? 0)
    then __write_dor (Z.lor (Z.lor (Z.lor drive motor) FLPYDSK_DOR_MASK_RESET) FLPYDSK_DOR_MASK_DMA)
    else __write_dor FLPYDSK_DOR_MASK_RESET.

Definition fdc_drive_set (step loadt unloadt dma : Z) : FM unit :=
  __write_cmd FDC_CMD_SPECIFY ;!
  __write_cmd (u8 (Z.lor (Z.shiftl (Z.land step 15) 4) (Z.land unloadt 15))) ;!
  __write_cmd (u8 (Z.lor (Z.shiftl loadt 1) (if dma =? 0 then 1 else 0))).

Definition fdc_calibrate (drive : Z) : FM unit :=
  fdc_set_motor drive 1 ;!
  let! _ := for_find 10 0 (fun _ =>
    __write_cmd FDC_CMD_CALIBRATE ;!
    __write_cmd drive ;!
    let! ok := __wait_for_irq in
    if ok =? 0 then ret (Some tt)
    else
      let! (st0, cy1) := fdc_check_int in
      if cy1 =? 0 then ret (Some tt) else ret None) in
  fdc_set_motor drive 0.

(** The handler of interrupt 38; the register save is assembly. *)
Definition flpy_irq : FM unit :=
  assign (set_irq_h 1) ;!
  let! _ := send_eoi 6 in
  ret tt.

Definition fdc_seek (cyl head : Z) : FM Z :=
  let! r := for_find 10 0 (fun _ =>
    __write_cmd FDC_CMD_SEEK ;!
    __write_cmd (u8 (Z.shiftl head 2)) ;!
    __write_cmd cyl ;!
    let! ok := __wait_for_irq in
    if ok =? 0 then ret (Some 1)
    else
      let! (st0, cy10) := fdc_check_int in
      if cy10 =? cyl then ret (Some 0) else ret None) in
  ret (default 1 r).

(** The nine bytes of a transfer command, the wait, and the result phase;
    reading and writing differ in the command byte only. *)
Definition transfer (cmd head track sector : Z) : FM Z :=
  __write_cmd (Z.lor (Z.lor (Z.lor cmd FDC_CMD_EXT_MULTITRACK) FDC_CMD_EXT_SKIP) FDC_CMD_EXT_DENSITY) ;!
  __write_cmd (u8 (Z.shiftl head 2)) ;!
  __write_cmd (u8 track) ;!
  __write_cmd (u8 head) ;!
  __write_cmd (u8 sector) ;!
  __write_cmd FLPYDSK_SECTOR_DTL_512 ;!
  __write_cmd (u8 (if sector + 1 >=? FLPY_SECTORS_PER_TRACK then FLPY_SECTORS_PER_TRACK else sector + 1)) ;!
  __write_cmd FLPYDSK_GAP3_LENGTH_3_5 ;!
  __write_cmd 255 ;!
  let! ok := __wait_for_irq in
  if ok =? 0 then ret 1
  else
    for_up 7 0 (fun _ => let! _ := __read_data in ret tt) ;!
    let! _ := fdc_check_int in
    ret 1.

Definition flpy_read_sector (head track sector : Z) : FM Z :=
  fdc_dma_init DMA_BUFFER 512 ;!
  dma_set_read FDC_DMA_CHANNEL ;!
  transfer FDC_CMD_READ_SECT head track sector.

Definition flpy_read_lba (lba : Z) : FM Z :=
  let '(head, track, sector) := __lba_to_chs lba in
  fdc_set_motor 0 1 ;!
  let! rc := fdc_seek (u8 track) (u8 head) in
  if negb (rc =? 0) then ret 0
  else
    let! _ := flpy_read_sector (u8 head) (u8 track) (u8 sector) in
    fdc_set_motor 0 0 ;!
    ret DMA_BUFFER.

Definition flpy_read (dev buffer lba sectors : Z) : FM Z :=
  if sectors =? 0 then ret 1
  else
    loop (fun n =>
      if n =? sectors then ret (inr 0)
      else
        let! buf := flpy_read_lba (s32 (lba + n)) in
        if buf =? 0 then ret (inr 1)
        else
          memcpy (u32 (buffer + u32 (n * 512))) buf 512 ;!
          ret (inl (u32 (n + 1)))) 0.

Definition flpy_write_lba (buf lba : Z) : FM Z :=
  let '(head, track, sector) := __lba_to_chs (s32 lba) in
  fdc_set_motor 0 1 ;!
  let! rc := fdc_seek (u8 track) (u8 head) in
  if negb (rc =? 0) then ret 0
  else
    memcpy DMA_BUFFER buf 512 ;!
    fdc_dma_init DMA_BUFFER 512 ;!
    dma_set_write FDC_DMA_CHANNEL ;!
    transfer FDC_CMD_WRITE_SECT head track sector.

Definition flpy_write (dev buffer lba sectors : Z) : FM Z :=
  if sectors =? 0 then ret 0
  else
    loop (fun i =>
      if i <? sectors then
        let! _ := flpy_write_lba (u32 (buffer + u32 (i * 512))) (u32 (lba + i)) in
        ret (inl (u32 (i + 1)))
      else ret (inr 1)) 0.

Definition fdc_reset : FM unit :=
  fdc_disable_controller ;!
  fdc_enable_controller ;!
  let! ok := __wait_for_irq in
  if ok =? 0 then ret tt
  else
    for_up 4 0 (fun _ => let! _ := fdc_check_int in ret tt) ;!
    __write_ccr 0 ;!
    fdc_calibrate 0 ;!
    fdc_drive_set 3 16 240 1 ;!
    let! floppy := malloc sizeof_device in
    st32 (floppy + D_name) str_fda ;!
    st8 (floppy + D_flags) 3 ;!
    st32 (floppy + D_read) f_flpy_read ;!
    st8 (floppy + D_valid) 1 ;!
    let! _ := device_register floppy in
    ret tt.

Definition fdc_init : FM Z :=
  outportb 112 16 ;!
  let! cmos := inportb 113 in
  __parse_cmos (Z.shiftr (Z.land cmos 240) 4) (Z.land cmos 15) ;!
  let! p := var primary_avail in
  if p =? 0 then ret 1
  else
    let! _ := register_interrupt 38 f_flpy_irq in
    fdc_reset ;!
    ret 0.
End ops.

(** ** What goes to the controller *)

(** The bytes written to the FIFO in a trace. *)
Definition fifo (tr : list io) : list Z :=
  omap (fun e => match e with Out 8 1013 v => Some v | _ => None end) tr.

Lemma lba_to_chs_spec lba : 0 <= lba < 2880 ->
  let '(head, track, sector) := __lba_to_chs lba in
  0 <= head < 2 /\ 0 <= track < 80 /\ 1 <= sector <= 18 /\ (track * 2 + head) * 18 + (sector - 1) = lba.
Proof.
  intros Hl. unfold __lba_to_chs, FLPY_SECTORS_PER_TRACK.
  rewrite !Z.rem_mod_nonneg by lia. rewrite !Z.quot_div_nonneg by (try apply Z.mod_pos_bound; lia).
  change (18 * 2) with 36. Z.div_mod_to_equations. lia.
Qed.

Section spec.
Context {S G : Type} `{HP : HasPorts S} `{HM : HasMem S} `{!Allocator S G} `{!PortsMem S}.
Notation FS := (layer S flpy_vars).
Implicit Types (s : FS).
Variable schedule_noirq : M FS unit.

(** The bytes [l] went to the FIFO; memory is as it was. *)
Record sent (l : list Z) s s' : Prop := {
  sn_mem : get_mem s' = get_mem s;
  sn_env : io_env (get_ports s') = io_env (get_ports s);
  sn_fifo : fifo (io_trace (get_ports s')) = fifo (io_trace (get_ports s)) ++ l;
}.

(** The controller is ready for every byte, its answers are [answer], and its
    interrupt arrives when the driver yields. *)
Record controller (answer : Z) s : Prop := {
  ct_ready : forall tr, Z.land (io_env (get_ports s) tr 8 FLPYDSK_MSR mod 2 ^ 8) 128 <> 0;
  ct_answer : forall tr, io_env (get_ports s) tr 8 FLPYDSK_FIFO mod 2 ^ 8 = answer;
}.
Definition raises_irq : Prop := forall s, schedule_noirq s = Ret tt (set_vars (set_irq_h 1 (vars s)) s).

Lemma sent_refl s : sent [] s s.
Proof. split; [done..|by rewrite app_nil_r]. Qed.
Lemma sent_trans l1 l2 s1 s2 s3 : sent l1 s1 s2 -> sent l2 s2 s3 -> sent (l1 ++ l2) s1 s3.
Proof. intros [H1 H2 H3] [H4 H5 H6]. split; [congruence..|]. by rewrite H6, H3, app_assoc. Qed.
Lemma sent_event e s : sent (fifo [e]) s (with_event e s).
Proof. split; lens; [done..|]. unfold fifo. by rewrite omap_app. Qed.
Lemma sent_vars v s : sent [] s (set_vars v s).
Proof. split; lens; [done..|by rewrite app_nil_r]. Qed.
Lemma controller_sent a l s s' : sent l s s' -> controller a s -> controller a s'.
Proof. intros [_ He _] [Hr Ha]. split; by rewrite He. Qed.

(** A step of the driver: it sends [l] and goes on. *)
Definition steps {A} (m : M FS A) (l : list Z) (P : A -> Prop) : Prop :=
  forall a s (Q : A -> FS -> Prop), controller a s -> (forall r s', P r -> sent l s s' -> Q r s') -> wp m Q s.

Lemma wp_status s (Q : Z -> FS -> Prop) a :
  controller a s -> (forall st s', Z.land st 128 <> 0 -> sent [] s s' -> Q st s') -> wp __read_status Q s.
Proof. intros [Hr _] HQ. apply wp_inport, HQ; [apply Hr|]. apply (sent_event (In _ _ _)). Qed.

Lemma steps_write_cmd c : 0 <= c < 256 -> steps (__write_cmd c) [c] (fun _ => True).
Proof.
  intros Hc a s Q Hct HQ. unfold __write_cmd. cbn [for_find]. apply wp_bind, wp_bind, wp_bind.
  apply (wp_status s _ a Hct). intros st s1 Hst H1. unfold FLPYDSK_MSR_MASK_DATAREG.
  destruct (Z.land st 128 =? 0) eqn:E; [lia|]. simpl negb. cbn iota. apply wp_bind, wp_outport.
  rewrite Z.mod_small by (change (2 ^ 8) with 256; lia). do 3 apply wp_ret. apply HQ; [done|].
  change [c] with ([] ++ [c]). eapply sent_trans; [exact H1|]. exact (sent_event (Out 8 FLPYDSK_FIFO c) s1).
Qed.

Lemma wp_read_data a s (Q : Z -> FS -> Prop) :
  controller a s -> (forall s', sent [] s s' -> Q a s') -> wp __read_data Q s.
Proof.
  intros Hct HQ. unfold __read_data. cbn [for_find]. apply wp_bind, wp_bind, wp_bind.
  apply (wp_status s _ a Hct). intros st s1 Hst H1. unfold FLPYDSK_MSR_MASK_DATAREG.
  destruct (Z.land st 128 =? 0) eqn:E; [lia|]. simpl negb. cbn iota.
  pose proof (controller_sent _ _ _ _ H1 Hct) as [_ Ha].
  apply wp_bind, wp_inport. cbv zeta. rewrite Ha. do 3 apply wp_ret. apply HQ.
  change (@nil Z) with (@nil Z ++ []). eapply sent_trans; [exact H1|]. apply (sent_event (In _ _ _)).
Qed.

Lemma wp_check_int a s (Q : Z * Z -> FS -> Prop) :
  controller a s -> (forall s', sent [8] s s' -> Q (a, a) s') -> wp fdc_check_int Q s.
Proof.
  intros Hct HQ. apply wp_bind. eapply (steps_write_cmd 8); [done|exact Hct|]. intros _ s1 _ H1.
  pose proof (controller_sent _ _ _ _ H1 Hct) as Hc1. apply wp_bind. apply (wp_read_data a); [done|]. intros s2 H2.
  apply wp_bind. apply (wp_read_data a); [by eapply controller_sent|]. intros s3 H3. apply wp_ret, HQ.
  change [8] with ([8] ++ ([] ++ [])). eapply sent_trans; [exact H1|]. by eapply sent_trans.
Qed.

Lemma wp_wait s (Q : Z -> FS -> Prop) :
  raises_irq -> (forall s', sent [] s s' -> Q 1 s') -> wp (__wait_for_irq schedule_noirq) Q s.
Proof.
  intros Hirq HQ. apply wp_bind.
  eapply (wp_loop (fun t s' => sent [] s s' /\ (t = 10 \/ irq_h (vars s') <> 0) /\ 0 <= t)
            (fun _ s' => if irq_h (vars s') =? 0 then 1 else 0)).
  - split; [apply sent_refl|]. split; [by left|lia].
  - destruct (_ =? 0); lia.
  - intros t s' (Hs & Ht & Ht0). split; [destruct (_ =? 0); lia|]. apply wp_bind, wp_var.
    destruct (irq_h (vars s') =? 0) eqn:E; simpl negb; cbn iota.
    + destruct Ht as [-> |]; [|lia]. simpl. apply wp_bind. unfold wp at 1. rewrite Hirq. apply wp_ret. cbn.
      split; [|lia]. split; [|split; [right; done|lia]].
      change (@nil Z) with (@nil Z ++ []). eapply sent_trans; [exact Hs|apply sent_vars].
    + apply wp_ret, wp_bind, wp_var, wp_bind, wp_assign, wp_ret. rewrite E. apply HQ.
      change (@nil Z) with (@nil Z ++ []). eapply sent_trans; [exact Hs|apply sent_vars].
Qed.

(** *** Sequences *)

Section seq.
Context {B : Type} (a : Z) (s0 : FS) (Hct : controller a s0).
Implicit Types (Q : B -> FS -> Prop).

Lemma then_cmd l c (k : M FS B) Q s :
  sent l s0 s -> 0 <= c < 256 -> (forall s', sent (l ++ [c]) s0 s' -> wp k Q s') -> wp (__write_cmd c ;! k) Q s.
Proof.
  intros Hs Hc HQ. apply wp_bind. eapply (steps_write_cmd c); [done|by eapply controller_sent|].
  intros [] s' _ H1. apply HQ. by eapply sent_trans.
Qed.
Lemma then_out l p v (k : M FS B) Q s :
  sent l s0 s -> p <> 1013 -> (forall s', sent l s0 s' -> wp k Q s') -> wp (outportb p v ;! k) Q s.
Proof.
  intros Hs Hp HQ. apply wp_bind, wp_outport, HQ. rewrite <-(app_nil_r l). eapply sent_trans; [exact Hs|].
  assert (Hf : fifo [Out 8 p (v mod 2 ^ 8)] = []) by (unfold fifo; cbn [omap list_omap]; repeat case_match; congruence).
  rewrite <-Hf. apply sent_event.
Qed.
Lemma then_wait l (k : Z -> M FS B) Q s :
  raises_irq -> sent l s0 s -> (forall s', sent l s0 s' -> wp (k 1) Q s') ->
  wp (bind (__wait_for_irq schedule_noirq) k) Q s.
Proof.
  intros Hi Hs HQ. apply wp_bind, wp_wait; [done|]. intros s' H1. apply HQ. rewrite <-(app_nil_r l). by eapply sent_trans.
Qed.
Lemma then_check l (k : Z * Z -> M FS B) Q s :
  sent l s0 s -> (forall s', sent (l ++ [8]) s0 s' -> wp (k (a, a)) Q s') -> wp (bind fdc_check_int k) Q s.
Proof.
  intros Hs HQ. apply wp_bind, (wp_check_int a); [by eapply controller_sent|]. intros s' H1. apply HQ. by eapply sent_trans.
Qed.
End seq.

Ltac send Hct := eapply (then_cmd _ _ Hct); [eassumption|lia|]; cbn [app]; let s := fresh "s" in let H := fresh "Hs" in intros s H; cbn beta.
Ltac out Hct := eapply (then_out _ _ Hct); [eassumption|discriminate|]; let s := fresh "s" in let H := fresh "Hs" in intros s H; cbn beta.

Lemma lor_cmd c : c = FDC_CMD_READ_SECT \/ c = FDC_CMD_WRITE_SECT ->
  Z.lor (Z.lor (Z.lor c FDC_CMD_EXT_MULTITRACK) FDC_CMD_EXT_SKIP) FDC_CMD_EXT_DENSITY = 224 + c.
Proof. by intros [-> | ->]. Qed.

(** The command of a transfer: its nine bytes, and the request for the status. *)
Definition transfer_bytes (c head track sector : Z) : list Z :=
  [224 + c; 4 * head; track; head; sector; 2; Z.min 18 (sector + 1); 27; 255; 8].

Lemma wp_transfer a s0 l c head track sector s (Q : Z -> FS -> Prop) :
  controller a s0 -> raises_irq -> sent l s0 s -> c = FDC_CMD_READ_SECT \/ c = FDC_CMD_WRITE_SECT ->
  0 <= head < 2 -> 0 <= track < 80 -> 1 <= sector <= 18 ->
  (forall s', sent (l ++ transfer_bytes c head track sector) s0 s' -> Q 1 s') ->
  wp (transfer schedule_noirq c head track sector) Q s.
Proof.
  intros Hct Hirq Hs Hc Hh Ht Hse HQ. unfold transfer. rewrite lor_cmd by done.
  rewrite Z.shiftl_mul_pow2, !u8_small by (try (destruct (_ >=? _)); unfold FLPY_SECTORS_PER_TRACK; change (2 ^ 2) with 4; lia).
  assert (0 <= 224 + c < 256) by (destruct Hc as [-> | ->]; done).
  assert (He : (if sector + 1 >=? FLPY_SECTORS_PER_TRACK then FLPY_SECTORS_PER_TRACK else sector + 1) = Z.min 18 (sector + 1)).
  { unfold FLPY_SECTORS_PER_TRACK. destruct (_ >=? _) eqn:E; lia. }
  rewrite He. replace (head * 2 ^ 2) with (4 * head) by (change (2 ^ 2) with 4; lia).
  unfold FLPYDSK_SECTOR_DTL_512, FLPYDSK_GAP3_LENGTH_3_5. do 9 send Hct.
  eapply then_wait; [done|eassumption|]. intros s10 H10. cbn [Z.eqb]. apply wp_bind.
  apply (wp_for_up (fun _ t => sent _ s0 t) 7 0 _ _ _ H10).
  - intros j t _ H11. apply wp_bind, (wp_read_data a); [by eapply controller_sent|]. intros t' H12. apply wp_ret.
    rewrite <-(app_nil_r (_ ++ [255])). eapply sent_trans; [exact H11|exact H12].
  - intros t H11. eapply (then_check _ _ Hct); [exact H11|]. intros s12 H12. apply wp_ret, HQ.
    unfold transfer_bytes. rewrite <-!app_assoc in H12. exact H12.
Qed.

Lemma leaf_out s0 l p v s (Q : unit -> FS -> Prop) :
  sent l s0 s -> p <> 1013 -> (forall s', sent l s0 s' -> Q tt s') -> wp (outportb p v) Q s.
Proof.
  intros Hs Hp HQ. apply wp_outport, HQ. rewrite <-(app_nil_r l). eapply sent_trans; [exact Hs|].
  assert (Hf : fifo [Out 8 p (v mod 2 ^ 8)] = []) by (unfold fifo; cbn [omap list_omap]; repeat case_match; congruence).
  rewrite <-Hf. apply sent_event.
Qed.

(** Programming the DMA controller sends nothing to the FIFO. *)
Ltac leaf := match goal with H : sent ?l ?s0 ?s |- wp (outportb _ _) _ ?s =>
  apply (leaf_out s0 l _ _ s _ H); [vm_compute; discriminate|]; clear H; intros ? ? end.
Ltac ports := repeat lazymatch goal with
  | |- wp (bind _ _) _ _ => apply wp_bind
  | |- wp (outportb _ _) _ _ => leaf
  | |- wp (ret _) _ _ => apply wp_ret
  | |- wp (shl1 _) _ _ => apply wp_ret
  end.
Lemma wp_dma_init s0 l s (Q : unit -> FS -> Prop) :
  sent l s0 s -> (forall s', sent l s0 s' -> Q tt s') -> wp (fdc_dma_init DMA_BUFFER 512) Q s.
Proof.
  intros Hs HQ. unfold fdc_dma_init, dma_set_read, dma_set_mode, dma_reset, dma_mask_channel, dma_reset_flipflop,
    dma_set_address, dma_set_count, dma_unmask_all, FDC_DMA_CHANNEL. cbn [Z.leb Z.ltb Z.compare Z.gtb Z.eqb Pos.compare Pos.compare_cont andb].
  ports. by apply HQ.
Qed.
Lemma wp_dma_read s0 l s (Q : unit -> FS -> Prop) :
  sent l s0 s -> (forall s', sent l s0 s' -> Q tt s') -> wp (dma_set_read FDC_DMA_CHANNEL) Q s.
Proof.
  intros Hs HQ. unfold dma_set_read, dma_set_mode, dma_mask_channel, dma_unmask_all, FDC_DMA_CHANNEL.
  cbn [Z.leb Z.ltb Z.compare Z.gtb Z.eqb Pos.compare Pos.compare_cont andb].
  ports. by apply HQ.
Qed.

End spec.

(** ** The theorem at work: block 100 is track 2, head 1, sector 11 *)

Definition demo_fdc : layer (machine (heap Arm.state)) flpy_vars :=
  Layer (Layer (low_heap []) (Ports (fun _ _ port => if port =? 1012 then 128 else 2) [])) (FlpyVars 1 0 0).
Definition demo_yield : M (layer (machine (heap Arm.state)) flpy_vars) unit :=
  fun s => Ret tt (set_vars (set_irq_h 1 (vars s)) s).

