(* ===== verification/Textmode.v ===== *)
(** * The text mode display: [display/textmode.c]

    The screen is memory at 0xB8000: 25 rows of 80 cells, each a character and
    a colour.  A display shows the part of its terminal's buffer that was
    written since the last page, from the position where that page began.  The
    two static structures that new displays are copied from are parameters. *)

From stdpp Require Import base numbers list gmap.
From Stdlib Require Import ZArith Lia.
From S2P Require Import Prelude Memory Process Pages Arm Liballoc LiballocInv LiballocProof LiballocSpec Allocator Layer Tables Device Mutex Hal Tty Scratch Demo.

Local Open Scope Z_scope.

(** [struct textmode_private] *)
Definition TP_x : Z := 0.
Definition TP_y : Z := 4.
Definition TP_last_x : Z := 8.
Definition TP_last_y : Z := 12.
Definition TP_last_page : Z := 16.
Definition TP_bgcol : Z := 20.     (* uint8_t *)
Definition TP_fgcol : Z := 21.     (* uint8_t *)
Definition TP_m : Z := 22.         (* one byte *)
Definition sizeof_textmode_private : Z := 24.

Definition SCREEN : Z := 753664.   (* 0xB8000 *)

(** A screen cell: [(bgcol << 4 | fgcol) << 8 | c], with [c] a [char]. *)
Definition cell (bgcol fgcol c : Z) : Z :=
  u16 (Z.lor (Z.shiftl (Z.lor (Z.shiftl bgcol 4) fgcol) 8) c).

Section ops.
Context {S G : Type} `{HP : HasPorts S} `{HM : HasMem S} `{!Allocator S G}.
Notation DM := (M (layer S Z)).

Variable schedule_noirq : DM unit.
(** The static [priv] and [__default_textmode]. *)
Variables (priv __default_textmode : Z).

(** [AS_TEXTMODE_PRIVATE(m->priv)] *)
Definition tm_priv (m : Z) : DM Z := ld32 (m + DP_priv).
Definition tm_get (m o : Z) : DM Z := let! p := tm_priv m in ld32 (p + o).
Definition tm_set (m o v : Z) : DM unit := let! p := tm_priv m in st32 (p + o) v.

(** [TM_COLOR(m) << 8 | ' '] *)
Definition blank (m : Z) : DM Z :=
  let! p := tm_priv m in
  let! bg := ld8 (p + TP_bgcol) in
  let! p := tm_priv m in
  let! fg := ld8 (p + TP_fgcol) in
  ret (cell bg fg 32).

(** Row 24 is overwritten with what follows the screen, and the rows after it
    are blanked. *)
Definition textmode_scrollup (m : Z) : DM unit :=
  for_up 25 0 (fun y => memcpy (SCREEN + y * 80 * 2) (SCREEN + (y + 1) * 80 * 2) (80 * 2)) ;!
  let! c := blank m in
  let! _ := memset16 (SCREEN + 25 * 80 * 2) c (80 * 2) in
  ret tt.

(** The last row is full: scroll, and begin a page at the last row. *)
Definition next_page (m : Z) : DM unit :=
  textmode_scrollup m ;!
  let! t := ld32 (m + DP_mtty) in
  let! pos := ld32 (t + Y_bufpos) in
  tm_set m TP_last_page pos ;!
  tm_set m TP_x 0 ;!
  let! y := tm_get m TP_y in
  tm_set m TP_y (u32 (y - 1)) ;!
  let! x := tm_get m TP_x in
  tm_set m TP_last_x x ;!
  let! y := tm_get m TP_y in
  tm_set m TP_last_y y.

(** Stores a character at the cursor and moves on. *)
Definition put_cell (m c fgcol bgcol : Z) : DM unit :=
  let! y := tm_get m TP_y in
  let! x := tm_get m TP_x in
  let index := u32 (80 * 2 * y + x * 2) in
  st16 (u32 (SCREEN + index)) (cell bgcol fgcol c) ;!
  let! x := tm_get m TP_x in
  tm_set m TP_x (u32 (x + 1)).

(** [c] is a [char], that is, signed. *)
Definition textmode_putchar (m c fgcol bgcol : Z) : DM unit :=
  if c =? 0 then ret tt
  else
    let! x := tm_get m TP_x in
    (if! (x >? 80) || (c =? 10) then
       (let! y := tm_get m TP_y in
        tm_set m TP_y (u32 (y + 1)) ;!
        tm_set m TP_x 0)) ;!
    let! y := tm_get m TP_y in
    (if! y >=? 25 then next_page m) ;!
    if c =? 10 then ret tt else put_cell m c fgcol bgcol.

(** The body is compiled out. *)
Definition process_ansi_escape (fgcol bgcol mtty j : Z) : DM unit := ret tt.

(** [m->mtty->buffer[i]] *)
Definition tty_char (m i : Z) : DM Z :=
  let! t := ld32 (m + DP_mtty) in
  let! b := ld32 (t + Y_buffer) in
  ld8 (u32 (b + i)).

Definition textmode_update (m : Z) : DM Z :=
  let! p := tm_priv m in
  mutex_lock schedule_noirq (p + TP_m) ;!
  let! x := tm_get m TP_last_x in
  tm_set m TP_x x ;!
  let! y := tm_get m TP_last_y in
  tm_set m TP_y y ;!
  let! p := tm_priv m in
  let! fgcol := ld8 (p + TP_fgcol) in
  let! p := tm_priv m in
  let! bgcol := ld8 (p + TP_bgcol) in
  let! i := tm_get m TP_last_page in
  loop (fun i =>
    let! t := ld32 (m + DP_mtty) in
    let! pos := ld32 (t + Y_bufpos) in
    if i <? pos then
      let! c := tty_char m i in
      (if! c =? 92 then process_ansi_escape fgcol bgcol t i) ;!
      let! c := tty_char m i in
      (if! c =? 10 then
         (let! p := tm_priv m in
          st8 (p + TP_fgcol) fgcol ;!
          let! p := tm_priv m in
          st8 (p + TP_bgcol) bgcol)) ;!
      let! c := tty_char m i in
      textmode_putchar m (s8 c) fgcol bgcol ;!
      ret (inl (u32 (i + 1)))
    else ret (inr tt)) i ;!
  let! y := tm_get m TP_y in
  let pos := u16 (y * 80) in
  let! x := tm_get m TP_x in
  let pos := u16 (pos + x) in
  outportb 980 15 ;!
  outportb 981 (u8 pos) ;!
  outportb 980 14 ;!
  outportb 981 (u8 (pos / 256)) ;!
  let! p := tm_priv m in
  mutex_unlock schedule_noirq (p + TP_m) ;!
  ret 0.

Definition textmode_setactive (m : Z) : DM Z :=
  for_up 2000 0 (fun i => let! c := blank m in st16 (SCREEN + i * 2) c) ;!
  tm_set m TP_last_x 0 ;!
  tm_set m TP_last_y 0 ;!
  tm_set m TP_last_page 0 ;!
  ret 0.

Definition textmode_getpos (m x y : Z) : DM Z :=
  let! v := tm_get m TP_x in
  st32 x v ;!
  let! v := tm_get m TP_y in
  st32 y v ;!
  ret 0.

Definition textmode_display_new (mtty : Z) : DM Z :=
  let! cp := malloc sizeof_display in
  memcpy cp __default_textmode sizeof_display ;!
  let! p := malloc sizeof_textmode_private in
  memcpy p priv sizeof_textmode_private ;!
  st32 (cp + DP_priv) p ;!
  st32 (cp + DP_mtty) mtty ;!
  ret cp.
End ops.

(** ** The cursor stays on the screen *)

Lemma wp_memset16 {S} `{HasMem S} p v n (Q : Z -> S -> Prop) s :
  0 <= n < 2147483648 -> mapped_range (get_mem s) p (2 * n) -> p + 2 * n < 4294967296 ->
  (forall m', agree (fun a => ~ in_block p (2 * n) a) (get_mem s) m' -> Q p (set_mem m' s)) ->
  wp (memset16 p v n) Q s.
Proof.
  intros Hn Hm Hp HQ. pose proof Hm as (Hp0 & _ & _). unfold memset16. apply wp_bind.
  eapply (wp_loop (fun '(q, k) s' => 0 <= k <= n /\ q = p + 2 * (n - k) /\ exists m', s' = set_mem m' s /\
      agree (fun a => ~ in_block p (2 * n) a) (get_mem s) m') (fun '(_, k) _ => k)).
  - split; [lia|]. split; [lia|]. exists (get_mem s). split; [by lens|apply agree_refl].
  - lia.
  - intros [q k] s' (Hk & -> & m' & -> & Ha). split; [lia|]. destruct (k =? 0) eqn:E.
    + apply wp_ret, wp_ret. apply HQ, Ha.
    + apply wp_bind, wp_st16.
      { lens. eapply mapped_range_sub; [eapply agree_mapped_range; [exact Ha|exact Hm]|lia..]. }
      apply wp_ret. rewrite s32_small, u32_small by lia. split; [|lia].
      split; [lia|]. split; [lia|]. lens. eexists. split; [done|]. eapply agree_trans; [exact Ha|].
      split; [apply ranges_mwrite|]. intros a Hna. apply rd_mwrite_out. rewrite le16_length.
      unfold in_block in Hna. lia.
Qed.

(** The screen, with the rows behind it that [textmode_scrollup] blanks. *)
Definition screen_size : Z := 27 * 160.

(** The fields of the private structure, and updating one. *)
Definition tm_field (o : Z) : Prop := o = TP_x \/ o = TP_y \/ o = TP_last_x \/ o = TP_last_y \/ o = TP_last_page.
Definition upd (F : Z -> Z) (o v : Z) : Z -> Z := fun o' => if o' =? o then v else F o'.
Ltac fld := unfold tm_field; auto 6.
Ltac field_of := unfold upd; cbn [Z.eqb Pos.eqb TP_x TP_y TP_last_x TP_last_y TP_last_page].

Section spec.
Context {S G : Type} `{HP : HasPorts S} `{HM : HasMem S} `{!Allocator S G} `{!PortsMem S}.
Notation DS := (layer S Z).
Implicit Types (s : DS).
(** A display [m] with its private structure [p], of the terminal [t], which
    has [n] bytes in the buffer at [b]. *)
Context (m0 : mem) (m p t b n : Z).

Definition written (a : Z) : Prop := in_block p sizeof_textmode_private a \/ in_block SCREEN screen_size a.

Record display : Prop := {
  di_display : mapped_range m0 m sizeof_display /\ forall a, in_block m sizeof_display a -> ~ written a;
  di_tty : mapped_range m0 t sizeof_tty /\ forall a, in_block t sizeof_tty a -> ~ written a;
  di_buffer : mapped_range m0 b n /\ forall a, in_block b n a -> ~ written a;
  di_priv : mapped_range m0 p sizeof_textmode_private;
  di_screen : mapped_range m0 SCREEN screen_size /\ (p + sizeof_textmode_private <= SCREEN \/ SCREEN + screen_size <= p);
  di_words : rd32 m0 (m + DP_priv) = p /\ rd32 m0 (m + DP_mtty) = t /\ rd32 m0 (t + Y_buffer) = b /\ rd32 m0 (t + Y_bufpos) = n;
}.


Record tm_state (F : Z -> Z) s : Prop := {
  ts_mem : agree (fun a => ~ written a) m0 (get_mem s);
  ts_fields : forall o, tm_field o -> rd32 (get_mem s) (p + o) = F o;
}.

(** The cursor is on the screen: column 81 means that the row is full. *)
Record cursor (F : Z -> Z) : Prop := {
  cu_x : 0 <= F TP_x <= 81;
  cu_y : 0 <= F TP_y <= 24;
  cu_last_x : 0 <= F TP_last_x <= 81;
  cu_last_y : 0 <= F TP_last_y <= 24;
  cu_page : 0 <= F TP_last_page <= n;
}.

Section run.
Context (Hd : display).

Ltac offs := unfold written, tm_field, TP_x, TP_y, TP_last_x, TP_last_y, TP_last_page, TP_bgcol, TP_fgcol, TP_m, sizeof_textmode_private,
  sizeof_display, sizeof_tty, DP_priv, DP_mtty, Y_buffer, Y_bufpos, in_block in *.

Lemma wp_frame_word F s base size o w (Q : Z -> DS -> Prop) :
  tm_state F s -> mapped_range m0 base size -> (forall a, in_block base size a -> ~ written a) ->
  0 <= o -> o + 4 <= size -> rd32 m0 (base + o) = w -> Q w s -> wp (ld32 (base + o)) Q s.
Proof.
  intros [Ha _] Hm Hw Ho1 Ho2 Hr HQ. apply wp_ld32.
  - eapply mapped_range_sub; [eapply agree_mapped_range; [exact Ha|exact Hm]|lia..].
  - rewrite (rd32_agree _ _ _ _ Ha), Hr; [done|..]; apply Hw; unfold in_block; lia.
Qed.
Lemma wp_tm_priv F s (Q : Z -> DS -> Prop) : tm_state F s -> Q p s -> wp (tm_priv m) Q s.
Proof.
  intros Hs HQ. destruct (di_display Hd). destruct (di_words Hd).
  apply (wp_frame_word F s m sizeof_display DP_priv p); done.
Qed.
Lemma wp_mtty F s (Q : Z -> DS -> Prop) : tm_state F s -> Q t s -> wp (ld32 (m + DP_mtty)) Q s.
Proof.
  intros Hs HQ. destruct (di_display Hd). destruct (di_words Hd) as (? & ? & _).
  apply (wp_frame_word F s m sizeof_display DP_mtty t); done.
Qed.
Lemma wp_bufpos F s (Q : Z -> DS -> Prop) : tm_state F s -> Q n s -> wp (ld32 (t + Y_bufpos)) Q s.
Proof.
  intros Hs HQ. destruct (di_tty Hd). destruct (di_words Hd) as (? & ? & ? & ?).
  apply (wp_frame_word F s t sizeof_tty Y_bufpos n); done.
Qed.

Lemma priv_mapped F s o k : tm_state F s -> 0 <= o -> o + k <= sizeof_textmode_private -> mapped_range (get_mem s) (p + o) k.
Proof.
  intros [Ha _] ??. eapply mapped_range_sub; [eapply agree_mapped_range; [exact Ha|exact (di_priv Hd)]|lia..].
Qed.

Lemma wp_tm_get F s o (Q : Z -> DS -> Prop) : tm_state F s -> tm_field o -> Q (F o) s -> wp (tm_get m o) Q s.
Proof.
  intros Hs Ho HQ. apply wp_bind, (wp_tm_priv F); [done|]. apply wp_ld32.
  - apply (priv_mapped F); [done|offs; lia..].
  - by rewrite (ts_fields _ _ Hs).
Qed.

Lemma tm_state_upd F s o v : tm_state F s -> tm_field o -> 0 <= v < 4294967296 ->
  tm_state (upd F o v) (set_mem (mwrite (get_mem s) (p + o) (le32 v)) s).
Proof.
  intros [Ha Hf] Ho Hv. split; lens.
  - eapply agree_trans; [exact Ha|]. split; [apply ranges_mwrite|]. intros a Hna. apply rd_mwrite_out.
    rewrite le32_length. offs. lia.
  - intros o' Ho'. unfold upd. destruct (o' =? o) eqn:E.
    + assert (o' = o) as -> by lia. rewrite rd32_mwrite_same. by apply u32_small.
    + rewrite rd32_mwrite_out by (rewrite le32_length; offs; lia). by apply Hf.
Qed.

Lemma wp_tm_set F s o v (Q : unit -> DS -> Prop) :
  tm_state F s -> tm_field o -> 0 <= v < 4294967296 ->
  (forall s', tm_state (upd F o v) s' -> vars s' = vars s -> Q tt s') -> wp (tm_set m o v) Q s.
Proof.
  intros Hs Ho Hv HQ. apply wp_bind, (wp_tm_priv F); [done|]. apply wp_st32.
  - apply (priv_mapped F); [done|offs; lia..].
  - apply HQ; [by apply tm_state_upd|by lens].
Qed.

(** Writes to the screen, and to the last bytes of the private structure. *)
Lemma tm_state_written F s m' :
  tm_state F s ->
  agree (fun a => ~ (in_block SCREEN screen_size a \/ in_block (p + TP_bgcol) 4 a)) (get_mem s) m' ->
  tm_state F (set_mem m' s).
Proof.
  intros [Ha Hf] Hag. destruct (di_screen Hd) as [_ Hsep]. split; lens.
  - eapply agree_trans; [exact Ha|]. eapply agree_mono; [exact Hag|]. offs. intros. lia.
  - intros o Ho. rewrite <-(Hf o Ho). apply (rd32_agree _ _ _ _ Hag); offs; lia.
Qed.

Lemma screen_mapped F s a k : tm_state F s -> SCREEN <= a -> a + k <= SCREEN + screen_size -> mapped_range (get_mem s) a k.
Proof.
  intros [Ha _] ??. destruct (di_screen Hd) as [Hm _].
  eapply mapped_range_sub; [eapply agree_mapped_range; [exact Ha|exact Hm]|lia..].
Qed.

Lemma wp_priv_byte F s o v (Q : unit -> DS -> Prop) :
  tm_state F s -> TP_bgcol <= o < sizeof_textmode_private ->
  (forall s', tm_state F s' -> vars s' = vars s -> rd (get_mem s') (p + o) = u8 v -> Q tt s') -> wp (st8 (p + o) v) Q s.
Proof.
  intros Hs Ho HQ. destruct (priv_mapped F s o 1 Hs ltac:(offs; lia) ltac:(lia)) as (? & ? & Hm).
  apply wp_st8; [lia|apply Hm; lia|]. apply HQ; [|by lens|lens; rewrite rd_mset; by case_decide].
  apply tm_state_written; [done|]. split; [done|]. intros a Ha. apply rd_mset_out. offs. lia.
Qed.
Lemma wp_priv_ld8 F s o (Q : Z -> DS -> Prop) :
  tm_state F s -> TP_bgcol <= o < sizeof_textmode_private -> (forall v, 0 <= v < 256 -> Q v s) -> wp (ld8 (p + o)) Q s.
Proof.
  intros Hs Ho HQ. destruct (priv_mapped F s o 1 Hs ltac:(offs; lia) ltac:(lia)) as (? & ? & Hm).
  apply wp_ld8; [lia|apply Hm; lia|]. apply HQ, rd_range.
Qed.

Lemma wp_blank F s (Q : Z -> DS -> Prop) : tm_state F s -> (forall v, Q v s) -> wp (blank m) Q s.
Proof.
  intros Hs HQ. apply wp_bind, (wp_tm_priv F), wp_bind, (wp_priv_ld8 F); [done|done|offs; lia|]. intros bg _.
  apply wp_bind, (wp_tm_priv F), wp_bind, (wp_priv_ld8 F); [done|done|offs; lia|]. intros fg _. apply wp_ret, HQ.
Qed.

Lemma wp_scrollup F s (Q : unit -> DS -> Prop) :
  tm_state F s -> (forall s', tm_state F s' -> vars s' = vars s -> Q tt s') -> wp (textmode_scrollup m) Q s.
Proof.
  intros Hs HQ. apply wp_bind. apply (wp_for_up (fun _ s' => tm_state F s' /\ vars s' = vars s)); [done| |].
  - intros y s' Hy [Hs' Hv]. apply wp_memcpy; [lia|eapply (screen_mapped F); [done|unfold screen_size; lia..]..| |].
    { left. lia. }
    split; [|by lens]. apply tm_state_written; [done|]. split; [apply ranges_mwrite|]. intros a Ha.
    apply rd_mwrite_out. rewrite length_mread. unfold screen_size, in_block in Ha. lia.
  - intros s' [Hs' Hv]. apply wp_bind, (wp_blank F); [done|]. intros v. apply wp_bind, wp_memset16.
    + lia.
    + eapply (screen_mapped F); [done|unfold screen_size; lia..].
    + unfold SCREEN. lia.
    + intros m' Hag. apply wp_ret, HQ; [|by lens]. apply tm_state_written; [done|]. eapply agree_mono; [exact Hag|].
      unfold screen_size, in_block. intros. lia.
Qed.



Lemma wp_put_cell F s c fg bg (Q : unit -> DS -> Prop) :
  tm_state F s -> cursor F -> F TP_x <= 80 ->
  (forall F' s', tm_state F' s' -> cursor F' -> vars s' = vars s -> Q tt s') -> wp (put_cell m c fg bg) Q s.
Proof.
  intros Hs [Hx Hy Hlx Hly Hp] Hx80 HQ. unfold put_cell.
  apply wp_bind, (wp_tm_get F); [done|fld|]. apply wp_bind, (wp_tm_get F); [done|fld|]. cbv zeta.
  rewrite (u32_small (80 * 2 * F TP_y + _)), u32_small by (unfold SCREEN; lia). apply wp_bind, wp_st16.
  { eapply (screen_mapped F); [done|unfold screen_size; lia..]. }
  match goal with |- wp _ _ ?s1 => assert (Hs1 : tm_state F s1) end.
  { apply tm_state_written; [done|]. split; [apply ranges_mwrite|]. intros a Ha. apply rd_mwrite_out.
    rewrite le16_length. unfold screen_size, in_block in Ha. lia. }
  apply wp_bind, (wp_tm_get F); [done|fld|]. rewrite u32_small by lia.
  apply (wp_tm_set F); [done|fld|lia|]. intros s2 Hs2 Hv2. apply (HQ _ s2 Hs2); [|by rewrite Hv2; lens].
  split; field_of; lia.
Qed.

Lemma wp_next_page F s (Q : unit -> DS -> Prop) :
  tm_state F s -> F TP_y = 25 -> 0 <= n < 4294967296 ->
  (forall F' s', tm_state F' s' -> cursor F' -> F' TP_x = 0 -> vars s' = vars s -> Q tt s') -> wp (next_page m) Q s.
Proof.
  intros Hs Hy Hn HQ. unfold next_page. apply wp_bind, (wp_scrollup F); [done|]. intros s2 Hs2 Hv2.
  apply wp_bind, (wp_mtty F); [done|]. apply wp_bind, (wp_bufpos F); [done|].
  apply wp_bind, (wp_tm_set F); [done|fld|done|]. intros s3 Hs3 Hv3.
  apply wp_bind, (wp_tm_set _ _ _ _ _ Hs3); [fld|done|]. intros s4 Hs4 Hv4.
  apply wp_bind, (wp_tm_get _ _ _ _ Hs4); [fld|]. field_of. fold TP_y. rewrite Hy. change (u32 (25 - 1)) with 24.
  apply wp_bind, (wp_tm_set _ _ _ _ _ Hs4); [fld|done|]. intros s5 Hs5 Hv5.
  apply wp_bind, (wp_tm_get _ _ _ _ Hs5); [fld|]. field_of.
  apply wp_bind, (wp_tm_set _ _ _ _ _ Hs5); [fld|done|]. intros s6 Hs6 Hv6.
  apply wp_bind, (wp_tm_get _ _ _ _ Hs6); [fld|]. field_of.
  apply (wp_tm_set _ _ _ _ _ Hs6); [fld|done|]. intros s7 Hs7 Hv7.
  apply (HQ _ s7 Hs7); [split; field_of; lia|done|congruence].
Qed.

(** Printing one character keeps the cursor on the screen. *)
Lemma wp_putchar F s c fg bg (Q : unit -> DS -> Prop) :
  tm_state F s -> cursor F -> 0 <= n < 4294967296 ->
  (forall F' s', tm_state F' s' -> cursor F' -> vars s' = vars s -> Q tt s') -> wp (textmode_putchar m c fg bg) Q s.
Proof.
  intros Hs Hc Hn HQ. pose proof Hc as [Hx Hy Hlx Hly Hp]. unfold textmode_putchar.
  destruct (c =? 0); [by apply wp_ret, (HQ F)|].
  apply wp_bind, (wp_tm_get F); [done|fld|].
  assert (Hrest : forall F1 s1, tm_state F1 s1 -> vars s1 = vars s -> 0 <= F1 TP_x <= 81 -> (c <> 10 -> F1 TP_x <= 80) ->
    0 <= F1 TP_y <= 25 -> (F1 TP_y <= 24 -> cursor F1) ->
    wp (let! y := tm_get m TP_y in
        (if! y >=? 25 then next_page m) ;! if c =? 10 then ret tt else put_cell m c fg bg) Q s1).
  { intros F1 s1 Hs1 Hv1 Hx1 Hx80 Hy1 Hc1. apply wp_bind, (wp_tm_get F1); [done|fld|]. apply wp_bind.
    assert (Hlast : forall F2 s2, tm_state F2 s2 -> cursor F2 -> (c <> 10 -> F2 TP_x <= 80) -> vars s2 = vars s ->
      wp (if c =? 10 then ret tt else put_cell m c fg bg) Q s2).
    { intros F2 s2 Hs2 Hc2 Hx2 Hv2. destruct (c =? 10) eqn:E; [by apply wp_ret, (HQ F2)|].
      apply (wp_put_cell F2); [done|done|apply Hx2; lia|]. intros F3 s3 Hs3 Hc3 Hv3. apply (HQ F3); [done..|congruence]. }
    destruct (F1 TP_y >=? 25) eqn:E.
    - apply (wp_next_page F1); [done|lia|done|]. intros F2 s2 Hs2 Hc2 Hx2 Hv2. apply (Hlast F2); [done|done|lia|congruence].
    - apply wp_ret, (Hlast F1); [done|apply Hc1; lia|done|done]. }
  apply wp_bind. destruct ((F TP_x >? 80) || (c =? 10)) eqn:E.
  - apply wp_bind, (wp_tm_get F); [done|fld|]. rewrite u32_small by lia.
    apply wp_bind, (wp_tm_set F); [done|fld|lia|]. intros s1 Hs1 Hv1.
    apply (wp_tm_set _ _ _ _ _ Hs1); [fld|done|]. intros s2 Hs2 Hv2.
    apply (Hrest _ s2 Hs2); [congruence|field_of; lia|field_of; lia|field_of; lia|].
    field_of. intros. split; field_of; lia.
  - apply wp_ret, (Hrest F); try done; lia.
Qed.

Lemma wp_tty_char F s i (Q : Z -> DS -> Prop) :
  tm_state F s -> 0 <= i < n -> (forall c, Q c s) -> wp (tty_char m i) Q s.
Proof.
  intros Hs Hi HQ. destruct (di_tty Hd) as [Hm Hw]. destruct (di_words Hd) as (_ & _ & Hb & _).
  apply wp_bind, (wp_mtty F); [done|]. apply wp_bind.
  apply (wp_frame_word F s t sizeof_tty Y_buffer b); try done.
  destruct (di_buffer Hd) as [(? & ? & Hbm) _]. rewrite u32_small by lia. apply wp_ld8; [lia| |apply HQ].
  destruct (agree_mapped_range _ _ _ b n (ts_mem _ _ Hs)) as (_ & _ & Hm'); [split_and!; done|]. apply Hm'. lia.
Qed.

(** The characters of the page, one after the other. *)
Lemma wp_update_loop F s fg bg (Q : unit -> DS -> Prop) :
  tm_state F s -> cursor F -> 0 <= n < 4294967296 ->
  (forall F' s', tm_state F' s' -> cursor F' -> vars s' = vars s -> Q tt s') ->
  wp (loop (fun i =>
    let! t := ld32 (m + DP_mtty) in
    let! pos := ld32 (t + Y_bufpos) in
    if i <? pos then
      let! c := tty_char m i in
      (if! c =? 92 then process_ansi_escape fg bg t i) ;!
      let! c := tty_char m i in
      (if! c =? 10 then
         (let! p := tm_priv m in
          st8 (p + TP_fgcol) fg ;!
          let! p := tm_priv m in
          st8 (p + TP_bgcol) bg)) ;!
      let! c := tty_char m i in
      textmode_putchar m (s8 c) fg bg ;!
      ret (inl (u32 (i + 1)))
    else ret (inr tt)) (F TP_last_page)) Q s.
Proof.
  intros Hs Hc Hn HQ. pose proof (cu_page _ Hc).
  eapply (wp_loop (fun i s' => 0 <= i <= n /\ vars s' = vars s /\ exists F', tm_state F' s' /\ cursor F') (fun i _ => n - i)).
  - split; [done|]. split; [done|]. by exists F.
  - lia.
  - intros i s1 (Hi & Hv1 & F1 & Hs1 & Hc1). split; [lia|].
    apply wp_bind, (wp_mtty F1); [done|]. apply wp_bind, (wp_bufpos F1); [done|].
    destruct (i <? n) eqn:E; [|apply wp_ret; by apply (HQ F1)].
    apply wp_bind, (wp_tty_char F1); [done|lia|]. intros c1.
    apply wp_bind. unfold process_ansi_escape. replace (if c1 =? 92 then _ else _) with (ret (S := DS) tt) by (by destruct (c1 =? 92)). apply wp_ret.
    apply wp_bind, (wp_tty_char F1); [done|lia|]. intros c2. apply wp_bind.
    assert (Hput : forall s2, tm_state F1 s2 -> vars s2 = vars s ->
      wp (let! c := tty_char m i in textmode_putchar m (s8 c) fg bg ;! ret (inl (u32 (i + 1))))
        (fun r s' => match r with inl i' => (0 <= i' <= n /\ vars s' = vars s /\ exists F', tm_state F' s' /\ cursor F') /\ n - i' < n - i
                     | inr u => Q u s' end) s2).
    { intros s2 Hs2 Hv2. apply wp_bind, (wp_tty_char F1); [done|lia|]. intros c3. apply wp_bind, (wp_putchar F1); [done..|].
      intros F3 s3 Hs3 Hc3 Hv3. apply wp_ret. rewrite u32_small by lia.
      split; [|lia]. split; [lia|]. split; [congruence|]. by exists F3. }
    destruct (c2 =? 10); [|by apply wp_ret, Hput].
    apply wp_bind, (wp_tm_priv F1); [done|]. apply wp_bind, (wp_priv_byte F1); [done|offs; lia|]. intros s2 Hs2 Hv2 _.
    apply wp_bind, (wp_tm_priv F1); [done|]. apply (wp_priv_byte F1); [done|offs; lia|]. intros s3 Hs3 Hv3 _.
    apply Hput; [done|congruence].
Qed.
End run.
End spec.

(** C37: showing a terminal keeps the cursor on the screen. When nobody holds the
    lock of the display and its last page began on the screen, textmode_update
    returns 0 whatever the terminal's buffer holds: it writes nothing but the
    display's private structure and the video memory, the cursor and the start
    of the page are again on the screen (column 81 marks a full row), and the
    lock is free. *)
Theorem textmode_update_spec {S : Type} `{HP : HasPorts S} `{HM : HasMem S} `{!PortsMem S}
    (schedule_noirq : M (layer S Z) unit) (s : layer S Z) m p t b n F :
  (forall s, schedule_noirq s = Ret tt s) ->
  display (get_mem s) m p t b n -> tm_state (get_mem s) p F s -> rd (get_mem s) (p + TP_m) = 0 ->
  0 <= F TP_last_x <= 81 -> 0 <= F TP_last_y <= 24 -> 0 <= F TP_last_page <= n ->
  wp (textmode_update schedule_noirq m) (fun r s' => r = 0 /\ rd (get_mem s') (p + TP_m) = 0 /\
    exists F', tm_state (get_mem s) p F' s' /\ cursor n F') s.
Proof.
  intros Hyield Hd Hs Hlock Hlx Hly Hpage. set (m0 := get_mem s) in *.
  assert (Hn : 0 <= n < 4294967296) by (destruct (di_words _ _ _ _ _ _ Hd) as (_ & _ & _ & <-); apply rd32_range).
  unfold textmode_update. apply wp_bind, (wp_tm_priv m0 m p t b n Hd F); [done|].
  destruct (priv_mapped m0 m p t b n Hd F s TP_m 1 Hs) as (Hp0 & Hp1 & Hmp); [done|done|].
  apply wp_bind. unfold mutex_lock, lock_test. apply wp_bind.
  apply (wp_loop_exit _ _ tt).
  { unfold bind at 1 2. unfold ld8. rewrite u32_small by lia. rewrite Hmp by lia. fold m0. rewrite Hlock. done. }
  unfold lock_set. apply (wp_priv_byte m0 m p t b n Hd F); [done|done|]. intros s1 Hs1 Hv1 _.
  apply wp_bind, (wp_tm_get m0 m p t b n Hd F); [done|fld|].
  apply wp_bind, (wp_tm_set m0 m p t b n Hd F); [done|fld|lia|]. intros s2 Hs2 Hv2.
  apply wp_bind, (wp_tm_get m0 m p t b n Hd _ _ _ _ Hs2); [fld|]. field_of. fold TP_last_y.
  apply wp_bind, (wp_tm_set m0 m p t b n Hd _ _ _ _ _ Hs2); [fld|lia|]. intros s3 Hs3 Hv3.
  set (F3 := upd _ TP_y _) in Hs3.
  assert (Hc3 : cursor n F3) by (split; unfold F3; field_of; lia).
  apply wp_bind, (wp_tm_priv m0 m p t b n Hd F3); [done|].
  apply wp_bind, (wp_priv_ld8 m0 m p t b n Hd F3); [done|done|]. intros fg _.
  apply wp_bind, (wp_tm_priv m0 m p t b n Hd F3); [done|].
  apply wp_bind, (wp_priv_ld8 m0 m p t b n Hd F3); [done|done|]. intros bg _.
  apply wp_bind, (wp_tm_get m0 m p t b n Hd F3); [done|fld|].
  apply wp_bind, (wp_update_loop m0 m p t b n Hd F3); [done|done|done|]. intros F4 s4 Hs4 Hc4 Hv4.
  apply wp_bind, (wp_tm_get m0 m p t b n Hd F4); [done|fld|].
  apply wp_bind, (wp_tm_get m0 m p t b n Hd F4); [done|fld|].
  do 4 apply wp_bind, wp_outport.
  match goal with |- wp _ _ ?s' => assert (Hs5 : tm_state m0 p F4 s') by (destruct Hs4; split; by lens); set (s5 := s') in * end.
  apply wp_bind, (wp_tm_priv m0 m p t b n Hd F4); [done|].
  apply wp_bind. unfold mutex_unlock, lock_set. apply wp_bind, (wp_priv_byte m0 m p t b n Hd F4); [done|done|].
  intros s6 Hs6 Hv6 Hl6. unfold wp at 1. rewrite Hyield. apply wp_ret. split; [done|]. split; [done|]. by exists F4.
Qed.

(** ** The theorem at work: ["Hi\n"] on the terminal *)

Definition demo_tm_mem : mem :=
  foldr (fun '(a, l) m => mwrite m a l) (Mem ∅ [(4096, 65536); (753664, 757984)])
    [(4096 + DP_priv, le32 8192 ++ le32 4352); (4352 + Y_buffer, le32 12288); (4352 + Y_bufpos, le32 3); (12288, [72; 105; 10])].
Definition demo_tm : layer (machine mem) Z := Layer (Layer demo_tm_mem (Ports (fun _ _ _ => 0) [])) 0.

Lemma demo_tm_mapped a k : 4096 <= a /\ a + k <= 65536 \/ 753664 <= a /\ a + k <= 757984 -> 0 <= k -> mapped_range demo_tm_mem a k.
Proof.
  assert (Hr : m_ranges demo_tm_mem = [(4096, 65536); (753664, 757984)]) by reflexivity.
  destruct demo_tm_mem as [mm rs]. simpl in Hr. subst rs.
  intros [[? ?]|[? ?]] ?.
  - eapply mapped_range_intro; [left|lia..].
  - eapply mapped_range_intro; [right; left|lia..].
Qed.

Lemma demo_display : display demo_tm_mem 4096 8192 4352 12288 3.
Proof.
  assert (Hw : forall a k, 4096 <= a -> a + k <= 8192 \/ 8216 <= a -> a + k <= 65536 ->
    forall x, in_block a k x -> ~ written 8192 x).
  { unfold written, in_block, sizeof_textmode_private, SCREEN, screen_size. intros. lia. }
  split; try (split; [apply demo_tm_mapped; unfold sizeof_display, sizeof_tty; lia|apply Hw; unfold sizeof_display, sizeof_tty; lia]).
  - apply demo_tm_mapped; unfold sizeof_textmode_private; lia.
  - split; [apply demo_tm_mapped; unfold SCREEN, screen_size; lia|left; vm_compute; discriminate].
  - split_and!; vm_compute; reflexivity.
Qed.

Lemma textmode_update_spec_witness :
  wp (textmode_update (fun s => Ret tt s) 4096) (fun r s' => r = 0 /\ exists F, tm_state demo_tm_mem 8192 F s' /\ cursor 3 F) demo_tm.
Proof.
  eapply wp_mono; [apply (textmode_update_spec (fun s => Ret tt s) demo_tm 4096 8192 4352 12288 3 (fun _ => 0))|].
  - done.
  - exact demo_display.
  - split; [apply agree_refl|]. intros o [-> |[-> |[-> |[-> | ->]]]]; vm_compute; reflexivity.
  - vm_compute. reflexivity.
  - lia.
  - lia.
  - lia.
  - intros r s' (Hr & _ & HF). split; [exact Hr|exact HF].
Defined.
