(* ===== verification/Console.v ===== *)
(** * Kernel messages: [tty/console.c], [display/printk.c], [kernel/trace.c]

    Messages are appended to a buffer on the heap, and the consoles are handed
    what is new in it.  [struct console] is declared in a header that the
    repository lacks: the offset of its [write] pointer is a parameter.  The
    message that [console_init] prints is left out. *)

From stdpp Require Import base numbers list gmap.
From Stdlib Require Import ZArith Lia.
From S2P Require Import Prelude Memory CString Process Pages Liballoc LiballocInv LiballocProof LiballocSpec Allocator Layer Tables Mutex Fs.

Local Open Scope Z_scope.

Definition KMSG_BUF_SIZE : Z := 65536.
Definition MAX_CONSOLES : Z := 4.

Record console_vars : Type := ConsoleVars {
  kmsg : Z; kmsg_pos : Z; kmsg_last_flush : Z; consoles : Z; num_consoles : Z; DISPLAY_ONLINE : Z
}.
Definition set_kmsg (b p f : Z) (v : console_vars) : console_vars :=
  ConsoleVars b p f (consoles v) (num_consoles v) (DISPLAY_ONLINE v).
Definition set_consoles (c n : Z) (v : console_vars) : console_vars :=
  ConsoleVars (kmsg v) (kmsg_pos v) (kmsg_last_flush v) c n (DISPLAY_ONLINE v).

Section ops.
Context {S G : Type} `{Allocator S G} `{!Calls (layer (layer S Z) console_vars)}.
Notation CM := (M (layer (layer S Z) console_vars)).

(** [offsetof(struct console, write)] *)
Variable CO_write : Z.
(** [realloc] of the heap, and [arch_get_ticks]. *)
Variables (realloc : Z -> Z -> CM Z) (arch_get_ticks : CM Z).
Variable schedule_noirq : M (layer S Z) unit.
(** [tty_flush] of tty/tty.c, above this file. *)
Variable tty_flush : Z -> CM unit.
(** The static [printk_lock] and [tbuf], the local buffer of [printk] and
    [__print_ticks], and the literal ["] "]. *)
Variables (printk_lock tbuf str_local str_ticks_end : Z).

Definition console_init : CM Z :=
  let! b := malloc KMSG_BUF_SIZE in
  assign (fun v => set_kmsg b (kmsg_pos v) (kmsg_last_flush v) v) ;!
  if b =? 0 then ret (- ENOMEM)
  else
    let! c := malloc (4 * MAX_CONSOLES) in
    assign (fun v => set_consoles c (num_consoles v) v) ;!
    if c =? 0 then ret (- ENOMEM)
    else
      assign (fun v => set_consoles (consoles v) 0 v) ;!
      assign (fun v => set_kmsg (kmsg v) 0 (kmsg_last_flush v) v) ;!
      ret 0.

Definition console_add (c : Z) : CM Z :=
  if c =? 0 then ret (- EINVAL)
  else
    let! v := var (fun v => v) in
    if num_consoles v >=? MAX_CONSOLES then ret (- ENOSPC)
    else
      assign (set_consoles (consoles v) (num_consoles v + 1)) ;!
      st32 (consoles v + 4 * num_consoles v) c ;!
      ret 0.

Definition console_append (c : Z) : CM unit :=
  let! v := var (fun v => v) in
  (if! kmsg_pos v >=? KMSG_BUF_SIZE then
     (let! b := realloc (kmsg v) (u32 (kmsg_pos v + KMSG_BUF_SIZE)) in
      assign (fun v => set_kmsg b (kmsg_pos v) (kmsg_last_flush v) v) ;!
      if! b =? 0 then halt)) ;!
  let! v := var (fun v => v) in
  assign (set_kmsg (kmsg v) (s32 (kmsg_pos v + 1)) (kmsg_last_flush v)) ;!
  st8 (u32 (kmsg v + kmsg_pos v)) c.

Definition console_flush : CM unit :=
  loop (fun i =>
    let! v := var (fun v => v) in
    if i <? num_consoles v then
      let! c := ld32 (consoles v + 4 * i) in
      let! f := ld32 (c + CO_write) in
      let! _ := call_ptr f [u32 (kmsg v + kmsg_last_flush v); s32 (kmsg_pos v - kmsg_last_flush v)] in
      ret (inl (i + 1))
    else ret (inr tt)) 0 ;!
  let! n := var num_consoles in
  if! negb (n =? 0) then assign (fun v => set_kmsg (kmsg v) (kmsg_pos v) (kmsg_pos v) v).

Definition console_write (str len : Z) : CM unit :=
  loop (fun '(str, len) =>
    if len =? 0 then ret (inr tt)
    else
      let! c := ld8 str in
      console_append c ;!
      ret (inl (u32 (str + 1), s32 (len - 1)))) (str, len) ;!
  console_flush.

(** [char str[32] = {0}; itoa(c, base, str); console_write(str, strlen(str));] *)
Definition print_number (c base : Z) : CM unit :=
  let! _ := memset str_local 0 32 in
  itoa tbuf (u32 c) base str_local ;!
  let! n := strlen str_local in
  console_write str_local (s32 n).

Definition __print_ticks : CM unit :=
  console_append 91 ;!
  let! _ := memset str_local 0 32 in
  let! t := arch_get_ticks in
  itoa tbuf t 10 str_local ;!
  let! n := strlen str_local in
  loop (fun i => if i <? 8 then console_append 48 ;! ret (inl (i + 1)) else ret (inr tt)) (s32 n) ;!
  let! n := strlen str_local in
  console_write str_local (s32 n) ;!
  console_write str_ticks_end 2.

(** The variable arguments are a list; taking one too many is undefined. *)
Definition printk_format (fmt : Z) (args : list Z) : CM unit :=
  loop (fun '(i, args) =>
    let! n := strlen fmt in
    if i <? n then
      let! c := ld8 (u32 (fmt + i)) in
      if c =? 37 then
        let! d := ld8 (u32 (fmt + (i + 1))) in
        match d, args with
        | 115, s :: args =>
            let! n := strlen s in
            console_write s (s32 n) ;!
            ret (inl (i + 1 + 1, args))
        | 100, c :: args => print_number c 10 ;! ret (inl (i + 1 + 1, args))
        | 120, c :: args => print_number c 16 ;! ret (inl (i + 1 + 1, args))
        | 115, [] | 100, [] | 120, [] => fault
        | _, _ => ret (inl (i + 1, args))
        end
      else console_write (u32 (fmt + i)) 1 ;! ret (inl (i + 1, args))
    else ret (inr tt)) (0, args).

Definition printk (fmt : Z) (args : list Z) : CM unit :=
  let! online := var DISPLAY_ONLINE in
  if online =? 0 then ret tt
  else
    below (mutex_lock schedule_noirq printk_lock) ;!
    __print_ticks ;!
    printk_format fmt args ;!
    tty_flush 0 ;!
    below (mutex_unlock schedule_noirq printk_lock).

(** [scheduler_ctl] and [interrupt_ctl]; the literals ["Kernel panic: "],
    ["Stack trace:\n"] and ["0x%x\n"]. *)
Variables (scheduler_ctl interrupt_ctl : Z -> CM Z) (str_panic str_trace str_frame : Z).

(** The lock is released by force: the panic may come from inside [printk].
    [buf] is the format of the second message. *)
Definition panic (buf : Z) : CM unit :=
  let! _ := scheduler_ctl 0 in
  let! _ := interrupt_ctl 0 in
  below (mutex_unlock schedule_noirq printk_lock) ;!
  printk str_panic [] ;!
  printk buf [] ;!
  halt.

(** *** [kernel/trace.c]

    [args] is the address of the argument [frames]. *)

Definition __stack_trace (args frames : Z) : CM unit :=
  printk str_trace [] ;!
  loop (fun '(i, ebp) =>
    if i <? frames then
      let! eip := ld32 ebp in
      if eip =? 0 then ret (inr tt)
      else printk str_frame [eip] ;! ret (inl (u32 (i + 1), u32 (ebp - 8)))
    else ret (inr tt)) (0, u32 (args - 8)).

Definition stack_trace : CM unit := ret tt.
End ops.
