(* ===== verification/Procfs.v ===== *)
(** * [fs/procfs/procfs.c] and [fs/dummyfs/dummyfs.c]

    A file system without a disk: one buffer behind ["/devconf"], and files
    whose operations are pointers.  What is written to the buffer is read back.
    The messages are not modelled. *)

From stdpp Require Import base numbers list gmap.
From Stdlib Require Import ZArith Lia.
From S2P Require Import Prelude Memory CString Process Pages Arm Liballoc LiballocInv LiballocProof LiballocSpec Allocator Layer Tables Device Scratch Demo Fs.

Local Open Scope Z_scope.

(** [struct procfile] *)
Definition PF_name : Z := 0.
Definition PF_fops : Z := 4.
Definition sizeof_procfile : Z := 8.

Record procfs_vars : Type := ProcfsVars {
  procfs_mounted : Z; file_list : Z; files : Z; dummy_buffer : Z; dummy_len : Z
}.
Definition set_mounted (n : Z) (v : procfs_vars) : procfs_vars :=
  ProcfsVars n (file_list v) (files v) (dummy_buffer v) (dummy_len v).
Definition set_files (l n : Z) (v : procfs_vars) : procfs_vars :=
  ProcfsVars (procfs_mounted v) l n (dummy_buffer v) (dummy_len v).
Definition set_dummy (b n : Z) (v : procfs_vars) : procfs_vars :=
  ProcfsVars (procfs_mounted v) (file_list v) (files v) b n.

Section ops.
Context {S G : Type} `{Allocator S G} `{!Calls (layer S procfs_vars)}.
Notation PM := (M (layer S procfs_vars)).
(** [realloc] of the heap. *)
Variable realloc : Z -> Z -> PM Z.
(** The static [procfs_default], and the literals. *)
Variables (procfs_default str_devconf str_slash str_dot str_dotdot str_test : Z).
Variables (f_devconf_write f_devconf_read : Z).

Definition procfs_stat (file st dev : Z) : PM Z :=
  let! c := strcmp file str_devconf in
  if c =? 0 then
    let! n := var dummy_len in
    st32 (st + ST_st_size) n ;!
    ret 0
  else ret (u8 (- ENOENT)).

(** An entry of the two that every directory has; [malloc] is not checked. *)
Definition dot_entry (f name n : Z) : PM Z :=
  let! de := malloc sizeof_dirent in
  st16 (de + DE_d_ino) 99 ;!
  memcpy (de + DE_d_name) name n ;!
  let! d := ld32 (f + F_dpos) in
  st32 (f + F_dpos) (u32 (d + 1)) ;!
  ret de.

Definition procfs_readdir (f dev : Z) : PM Z :=
  let! isdir := if f =? 0 then ret 0 else ld8 (f + F_isdir) in
  if (f =? 0) || (isdir =? 0) then ret 0
  else
    let! inode := ld32 (f + F_inode) in
    if negb (inode =? 99) then ret 0
    else
      let! dpos := ld32 (f + F_dpos) in
      if dpos =? 0 then dot_entry f str_dot 2
      else if dpos =? 1 then dot_entry f str_dotdot 3
      else
        let! v := var (fun v => v) in
        if dpos >=? u32 (files v) then ret 0
        else
          let pf := u32 (file_list v + sizeof_procfile * u32 (dpos - 2)) in
          let! de := malloc sizeof_dirent in
          let! name := ld32 (pf + PF_name) in
          let! n := strlen name in
          memcpy (de + DE_d_name) name (u32 (n + 1)) ;!
          let! dpos := ld32 (f + F_dpos) in
          st16 (de + DE_d_ino) (u16 (101 + dpos)) ;!
          ret de.

(** The entry is stored behind the ones that were counted. *)
Definition procfs_create_file (path fops : Z) : PM Z :=
  let! file := malloc sizeof_procfile in
  st32 (file + PF_fops) fops ;!
  st32 (file + PF_name) path ;!
  assign (fun v => set_files (file_list v) (s32 (files v + 1)) v) ;!
  let! v := var (fun v => v) in
  let! l := realloc (file_list v) (u32 (files v * sizeof_procfile)) in
  assign (fun v => set_files l (files v) v) ;!
  let! v := var (fun v => v) in
  memcpy (u32 (file_list v + sizeof_procfile * files v)) file sizeof_procfile ;!
  ret 0.

Definition procfs_isdir (f dev : Z) : PM Z :=
  let! inode := ld32 (f + F_inode) in ret (if inode =? 99 then 1 else 0).

Definition procfs_findinode (fn out dev : Z) : PM Z :=
  let! c := strcmp fn str_devconf in
  if c =? 0 then st32 out 100 ;! ret 0
  else
    let! c := strcmp fn str_slash in
    if c =? 0 then st32 out 99 ;! ret 0
    else st32 out 0 ;! ret ENOENT.

(** Both [devconf_write] and [procfs_writefile] keep the bytes so. *)
Definition keep_config (buf len : Z) : PM unit :=
  let! v := var (fun v => v) in
  (if! len >? dummy_len v then
     (let! b := realloc (dummy_buffer v) len in assign (set_dummy b len))) ;!
  let! b := var dummy_buffer in
  memcpy b buf len.

(** [lpos] goes to the end whatever was read, and the last part is read but
    reported as 0 bytes. *)
Definition read_config (f buf len : Z) : PM Z :=
  let! lpos := ld32 (f + F_lpos) in
  let! v := var (fun v => v) in
  if lpos >=? dummy_len v then ret 0
  else if dummy_len v >? u32 (lpos + len) then
    memcpy buf (u32 (dummy_buffer v + lpos)) len ;!
    let! lpos := ld32 (f + F_lpos) in
    st32 (f + F_lpos) (u32 (lpos + dummy_len v)) ;!
    ret len
  else
    memcpy buf (u32 (dummy_buffer v + lpos)) (u32 (dummy_len v - lpos)) ;!
    st32 (f + F_lpos) (dummy_len v) ;!
    let! lpos := ld32 (f + F_lpos) in
    ret (u32 (dummy_len v - lpos)).

(** The operation at [op] of the file behind an inode. *)
Definition file_op (inode op f buf len : Z) : PM Z :=
  let! l := var file_list in
  let pf := u32 (l + sizeof_procfile * (inode - 103)) in
  let! fops := ld32 (pf + PF_fops) in
  let! g := ld32 (fops + op) in
  let! r := call_ptr g [f; buf; len] in
  ret (u8 r).

Definition procfs_writefile (fl buf len dev : Z) : PM Z :=
  let! inode := ld32 (fl + F_inode) in
  if inode =? 100 then keep_config buf len ;! ret len
  else if inode <? 103 then ret 0
  else file_op inode FO_write fl buf len.

Definition procfs_read (f buf len dev : Z) : PM Z :=
  let! inode := ld32 (f + F_inode) in
  if inode =? 100 then read_config f buf len
  else if inode <? 103 then ret 0
  else file_op inode FO_read f buf len.

Definition procfs_probe (dev : Z) : PM Z :=
  let! ok :=
    (if dev =? 0 then ret false
     else
       let! valid := ld8 (dev + D_valid) in
       if valid =? 0 then ret false else let! id := ld32 (dev + D_id) in ret (id =? 4919)) in
  if negb ok then ret (- EINVAL)
  else
    let! m := var procfs_mounted in
    if negb (m =? 0) then ret (- EBUSY)
    else
      let! fs := malloc sizeof_filesystem in
      memcpy fs procfs_default sizeof_filesystem ;!
      st32 (dev + D_fs) fs ;!
      let! b := malloc 1024 in
      assign (set_dummy b 1024) ;!
      ret 0.

Definition devconf_write (f buf len : Z) : PM Z := keep_config buf len ;! ret (u8 len).
Definition devconf_read (f buf len : Z) : PM Z := let! r := read_config f buf len in ret (u8 r).

Definition procfs_mount (dev : Z) : PM Z :=
  if dev =? 0 then ret (- EINVAL)
  else
    assign (set_mounted 1) ;!
    let! l := malloc (1 * sizeof_procfile) in
    assign (fun v => set_files l (files v) v) ;!
    let! fops := malloc sizeof_file_operations in
    st32 (fops + FO_write) f_devconf_write ;!
    st32 (fops + FO_read) f_devconf_read ;!
    let! _ := procfs_create_file str_test fops in
    ret 0.

(** *** [dummyfs.c]: the probe refuses every device *)

Definition dummyfs_probe (dev : Z) : PM Z := ret 1.
Definition dummyfs_mount (dev : Z) : PM Z := ret (if dev =? 0 then 1 else 0).
(** [device_register] is in drivers/device.c. *)
Definition dummyfs_init (device_register : Z -> PM Z) (dummyfs_dev : Z) : PM unit :=
  let! _ := device_register dummyfs_dev in ret tt.
End ops.

(** ** What is written to ["/devconf"] and what is read back *)

Section devconf.
Context {S G : Type} `{HA : Allocator S G} `{HC : !Calls (layer S procfs_vars)}.
Variable realloc : Z -> Z -> M (layer S procfs_vars) Z.
Implicit Types (s : layer S procfs_vars).

Definition write_then_read (fl src wlen dst rlen dev : Z) : M (layer S procfs_vars) (Z * Z * Z) :=
  let! w := procfs_writefile realloc fl src wlen dev in
  let! r := procfs_read fl dst rlen dev in
  let! again := procfs_read fl dst rlen dev in
  ret (w, r, again).

Definition separate (a n b k : Z) : Prop := a + n <= b \/ b + k <= a.

(** An open file, and the two buffers of the caller. *)
Record devconf_at (m : mem) (v : procfs_vars) (fl src wlen dst rlen : Z) : Prop := {
  dc_file : mapped_range m fl sizeof_file /\ rd32 m (fl + F_inode) = 100;
  dc_len : 0 < dummy_len v /\ 0 <= wlen <= dummy_len v /\ 0 <= rlen /\ dummy_len v + rlen < 4294967296;
  dc_buffer : mapped_range m (dummy_buffer v) (dummy_len v);
  dc_src : mapped_range m src wlen;
  dc_dst : mapped_range m dst (Z.min rlen (dummy_len v));
  dc_apart : separate fl sizeof_file (dummy_buffer v) (dummy_len v) /\ separate src wlen (dummy_buffer v) (dummy_len v) /\
    separate dst (Z.min rlen (dummy_len v)) (dummy_buffer v) (dummy_len v) /\
    separate dst (Z.min rlen (dummy_len v)) fl sizeof_file;
}.

Lemma wp_keep_config s src wlen (Q : unit -> layer S procfs_vars -> Prop) :
  let b := dummy_buffer (vars s) in
  0 <= wlen <= dummy_len (vars s) -> dummy_len (vars s) < 4294967296 -> mapped_range (get_mem s) b (dummy_len (vars s)) ->
  mapped_range (get_mem s) src wlen -> separate src wlen b (dummy_len (vars s)) ->
  Q tt (set_mem (mwrite (get_mem s) b (mread (get_mem s) src wlen)) s) -> wp (keep_config realloc src wlen) Q s.
Proof.
  intros b Hw Hn Hb Hs Hap HQ. unfold keep_config, separate in *. apply wp_bind, wp_var. destruct (wlen >? _) eqn:E; [lia|].
  apply wp_bind, wp_ret, wp_bind, wp_var. fold b. apply wp_memcpy; [lia|eapply mapped_range_sub; [exact Hb|lia..]|exact Hs| |exact HQ].
  unfold forward_ok. lia.
Qed.

(** The first read of an open file: [dst] gets the buffer from its start. *)
Lemma wp_read_config s fl src wlen dst rlen (Q : Z -> layer S procfs_vars -> Prop) :
  let v := vars s in let n := Z.min rlen (dummy_len v) in
  devconf_at (get_mem s) v fl src wlen dst rlen -> rd32 (get_mem s) (fl + F_lpos) = 0 ->
  Q (if rlen <? dummy_len v then rlen else 0)
    (set_mem (mwrite (mwrite (get_mem s) dst (mread (get_mem s) (dummy_buffer v) n)) (fl + F_lpos) (le32 (dummy_len v))) s) ->
  wp (read_config fl dst rlen) Q s.
Proof.
  intros v n [[Hf _] (Hn & Hw & Hr & Hsum) Hb _ Hd (Hfb & _ & Hdb & Hdf)] Hpos HQ. fold n in Hd, Hdb, Hdf.
  pose proof Hb as (Hb0 & Hb1 & _). unfold separate, sizeof_file in *.
  assert (Hfp : mapped_range (get_mem s) (fl + F_lpos) 4) by (eapply mapped_range_sub; [exact Hf|unfold F_lpos; lia..]).
  unfold read_config. apply wp_bind, wp_ld32; [exact Hfp|]. rewrite Hpos. apply wp_bind, wp_var. fold v.
  destruct (0 >=? dummy_len v) eqn:E0; [lia|]. rewrite Z.add_0_l, Z.add_0_r, Z.sub_0_r, !u32_small by lia.
  assert (Hcopy : forall k (Q' : unit -> layer S procfs_vars -> Prop), k = n ->
    Q' tt (set_mem (mwrite (get_mem s) dst (mread (get_mem s) (dummy_buffer v) n)) s) -> wp (memcpy dst (dummy_buffer v) k) Q' s).
  { intros k Q' -> HQ'. apply wp_memcpy; [unfold n; lia|exact Hd|eapply mapped_range_sub; [exact Hb|unfold n; lia..]| |exact HQ'].
    unfold forward_ok, n in *. lia. }
  assert (Hp1 : rd32 (mwrite (get_mem s) dst (mread (get_mem s) (dummy_buffer v) n)) (fl + F_lpos) = 0).
  { rewrite rd32_mwrite_out; [done|]. rewrite length_mread. unfold F_lpos, n in *. lia. }
  destruct (dummy_len v >? rlen) eqn:E.
  - apply wp_bind, Hcopy; [unfold n; lia|]. apply wp_bind, wp_ld32; [lens; by rewrite mapped_range_mwrite|]. lens. rewrite Hp1.
    rewrite Z.add_0_l, u32_small by lia. apply wp_bind, wp_st32; [lens; by rewrite mapped_range_mwrite|]. lens. apply wp_ret.
    by rewrite (proj2 (Z.ltb_lt _ _)) in HQ by lia.
  - apply wp_bind, Hcopy; [unfold n; lia|]. apply wp_bind, wp_st32; [lens; by rewrite mapped_range_mwrite|]. lens.
    apply wp_bind, wp_ld32; [lens; by rewrite !mapped_range_mwrite|]. lens. rewrite rd32_mwrite_same. rewrite (u32_small (dummy_len v)) by lia.
    rewrite Z.sub_diag. apply wp_ret. by rewrite (proj2 (Z.ltb_ge _ _)) in HQ by lia.
Qed.

End devconf.

(** An open ["/devconf"] at 0x1100; 3 bytes are written from 0x1200 over an
    older "old text", and 8 bytes of the 16 are read to 0x1300. *)
Definition demo_devconf : layer (heap Arm.state) procfs_vars :=
  Layer (low_heap [(4352 + F_inode, le32 100); (4608, [110; 101; 119]); (5120, [111; 108; 100; 32; 116; 101; 120; 116])])
    (ProcfsVars 0 0 0 5120 16).

#[local] Instance no_operations : Calls (layer (heap Arm.state) procfs_vars) := fun _ _ => fault.

