(* ===== verification/Initrd.v ===== *)
(** * The initial ram disk: [fs/initrd.c]

    A block device whose sectors lie in memory, between the [start] and [end]
    of its private structure. *)

From stdpp Require Import base numbers list gmap.
From Stdlib Require Import ZArith Lia.
From S2P Require Import Prelude Memory Pages LiballocInv LiballocProof LiballocSpec Allocator Layer Tables Device Scratch Fs.

Local Open Scope Z_scope.

Section ops.
Context {S G : Type} `{Allocator S G}.
Notation DM := (M (layer S device_vars)).
(** The static [initrd_device]. *)
Variable initrd_device : Z.

(** [IDPRIV(dev)] *)
Definition IDPRIV {T} `{HasMem T} (x : Z) : M T Z := ld32 (x + D_priv).

Definition initrd_read {T} `{HasMem T} (dev buf st len : Z) : M T Z :=
  let! p := IDPRIV dev in
  let! start := ld32 (p + IP_start) in
  let! p := IDPRIV dev in
  let! end_ := ld32 (p + IP_end) in
  if u32 (start + u32 (len * 512)) >? end_ then ret 0
  else
    let! _ := memset buf 0 (s32 (u32 (len * 512))) in
    let! p := IDPRIV dev in
    let! start := ld32 (p + IP_start) in
    memcpy buf (u32 (start + st * 512)) (u32 (len * 512)) ;!
    ret 0.

Definition initrd_write {T} (dev buf st len : Z) : M T Z := ret 0.

Definition initrd_create (s e : Z) : DM Z :=
  let! p := malloc sizeof_initrd_priv in
  st32 (initrd_device + D_priv) p ;!
  let! p := ld32 (initrd_device + D_priv) in
  st32 (p + IP_start) s ;!
  let! p := ld32 (initrd_device + D_priv) in
  st32 (p + IP_end) e ;!
  let! _ := device_register initrd_device in
  ret 0.
End ops.

(** ** The block device *)

Section spec.
Context {T : Type} `{HasMem T}.
Implicit Types (s : T).

(** The device at [dev] holds [n] sectors from [start]. *)
Record initrd (m : mem) (dev start n : Z) : Prop := {
  id_dev : mapped_range m (dev + D_priv) 4;
  id_priv : mapped_range m (rd32 m (dev + D_priv)) sizeof_initrd_priv;
  id_start : rd32 m (rd32 m (dev + D_priv) + IP_start) = start;
  id_end : start + 512 * n <= rd32 m (rd32 m (dev + D_priv) + IP_end);
  id_data : mapped_range m start (512 * n);
}.

(** The bytes a read depends on: the pointer, the private structure, the data. *)
Definition initrd_byte (m : mem) (dev start n a : Z) : Prop :=
  in_block (dev + D_priv) 4 a \/ in_block (rd32 m (dev + D_priv)) sizeof_initrd_priv a \/ in_block start (512 * n) a.

Lemma initrd_agree m m' dev start n :
  agree (initrd_byte m dev start n) m m' -> initrd m dev start n -> initrd m' dev start n.
Proof.
  intros Hag [Hd Hp Hs He Hdat]. unfold initrd_byte, in_block, sizeof_initrd_priv in *.
  assert (Hr : rd32 m' (dev + D_priv) = rd32 m (dev + D_priv)) by (apply (rd32_agree _ _ _ _ Hag); cbv beta; lia).
  split; rewrite ?Hr; try (by eapply agree_mapped_range).
  - rewrite <-Hs. apply (rd32_agree _ _ _ _ Hag); cbv beta; unfold IP_start; lia.
  - rewrite (rd32_agree _ _ _ _ Hag) by (cbv beta; unfold IP_end; lia). done.
Qed.

(** The buffer is filled with the requested sectors of the disk, and nothing
    else is written.  The check at the head of [initrd_read] does not look at
    the first sector. *)
Lemma wp_initrd_read s dev start n buf st len :
  initrd (get_mem s) dev start n ->
  0 <= st -> 0 < len < 4194304 -> st + len <= n -> mapped_range (get_mem s) buf (512 * len) ->
  (forall a, in_block buf (512 * len) a -> ~ initrd_byte (get_mem s) dev start n a) ->
  wp (initrd_read dev buf st len) (fun r s' => r = 0 /\ exists m', s' = set_mem m' s /\
    agree (fun a => ~ in_block buf (512 * len) a) (get_mem s) m' /\
    forall k, 0 <= k < 512 * len -> rd m' (buf + k) = rd (get_mem s) (start + 512 * st + k)) s.
Proof.
  intros Hi Hst Hlen Hn Hb Hd. pose proof Hi as [Hdev Hp Hs He (Hs0 & Hs1 & Hsm)].
  unfold initrd_read, IDPRIV.
  assert (Hpw : forall o, o = IP_start \/ o = IP_end -> mapped_range (get_mem s) (rd32 (get_mem s) (dev + D_priv) + o) 4).
  { intros o Ho. eapply mapped_range_sub; [exact Hp|unfold IP_start, IP_end, sizeof_initrd_priv in *; lia..]. }
  apply wp_bind, wp_ld32; [done|]. apply wp_bind, wp_ld32; [by auto|]. rewrite Hs.
  apply wp_bind, wp_ld32; [done|]. apply wp_bind, wp_ld32; [by auto|].
  pose proof (rd32_range (get_mem s) (rd32 (get_mem s) (dev + D_priv) + IP_end)).
  rewrite (u32_small (len * 512)), (u32_small (start + len * 512)), s32_small by lia.
  destruct (start + len * 512 >? _) eqn:E; [lia|].
  replace (len * 512) with (512 * len) in * by lia.
  apply wp_bind, wp_memset; [lia|done|]. set (m1 := mwrite _ _ _).
  assert (Hag : agree (fun a => ~ in_block buf (512 * len) a) (get_mem s) m1).
  { split; [apply ranges_mwrite|]. intros a Ha. apply rd_mwrite_out. rewrite length_replicate. unfold in_block in Ha. lia. }
  assert (Hi1 : initrd m1 dev start n).
  { eapply initrd_agree; [|exact Hi]. eapply agree_mono; [exact Hag|]. intros a Ha Hin. by apply (Hd a). }
  destruct Hi1 as [Hdev1 Hp1 Hs1' _ _].
  assert (Hap : forall a, in_block start (512 * n) a -> ~ in_block buf (512 * len) a).
  { intros a Ha Hin. apply (Hd a Hin). by right; right. }
  apply wp_bind, wp_ld32; [by lens|]. lens. apply wp_bind, wp_ld32.
  { lens. eapply mapped_range_sub; [exact Hp1|unfold IP_start, sizeof_initrd_priv; lia..]. }
  lens. rewrite Hs1', (u32_small (start + st * 512)) by lia. unfold in_block in *.
  apply wp_bind, wp_memcpy; [lia|lens; by apply mapped_range_mwrite| | |].
  { lens. unfold m1. rewrite mapped_range_mwrite. eapply mapped_range_sub; [exact (id_data _ _ _ _ Hi)|lia..]. }
  { unfold forward_ok. pose proof (Hap buf). pose proof (Hap (start + st * 512)). lia. }
  lens. apply wp_ret. split; [done|]. eexists. split; [done|]. split.
  - split; [rewrite ranges_mwrite; apply Hag|]. intros a Ha. rewrite rd_mwrite_out; [by apply Hag|].
    rewrite length_mread. lia.
  - intros k Hk. rewrite rd_mwrite_mread_in by lia.
    replace (start + st * 512 + (buf + k - buf)) with (start + 512 * st + k) by lia.
    apply Hag. apply Hap. lia.
Qed.
End spec.
