(* ===== verification/Ext2.v ===== *)
(** * The ext2 file system: [fs/ext2/*.c]

    Blocks are read through the device's [read] pointer into buffers of the
    heap; the on-disk structures are read in place there.  The private data of a
    mounted device is an [ext2_priv_data] in memory.  The messages printed are
    not modelled. *)

From stdpp Require Import base numbers list gmap.
From Stdlib Require Import ZArith Lia.
From S2P Require Import Prelude Memory CString Process Pages Arm Liballoc LiballocInv LiballocProof LiballocSpec Allocator Phymem Layer Tables Device Current Scratch Demo Fs Vfs.

Local Open Scope Z_scope.

Definition EXT2_SIGNATURE : Z := 61267.   (* 0xEF53 *)

(** [struct ext2_superblock], packed *)
Definition SB_inodes : Z := 0.
Definition SB_blocks : Z := 4.
Definition SB_reserved_for_root : Z := 8.
Definition SB_unallocatedblocks : Z := 12.
Definition SB_unallocatedinodes : Z := 16.
Definition SB_superblock_id : Z := 20.
Definition SB_blocksize_hint : Z := 24.
Definition SB_fragmentsize_hint : Z := 28.
Definition SB_blocks_in_blockgroup : Z := 32.
Definition SB_frags_in_blockgroup : Z := 36.
Definition SB_inodes_in_blockgroup : Z := 40.
Definition SB_last_mount : Z := 44.
Definition SB_last_write : Z := 48.
Definition SB_mounts_since_last_check : Z := 52.       (* uint16_t *)
Definition SB_max_mounts_since_last_check : Z := 54.   (* uint16_t *)
Definition SB_ext2_sig : Z := 56.                      (* uint16_t *)
Definition sizeof_superblock : Z := 1024.

(** [struct ext2_block_group_desc], packed *)
Definition BG_block_of_block_usage_bitmap : Z := 0.
Definition BG_block_of_inode_usage_bitmap : Z := 4.
Definition BG_block_of_inode_table : Z := 8.
Definition BG_num_of_unalloc_block : Z := 12.          (* uint16_t *)
Definition BG_num_of_unalloc_inode : Z := 14.          (* uint16_t *)
Definition BG_num_of_dirs : Z := 16.                   (* uint16_t *)
Definition sizeof_bgd : Z := 32.

Definition INODE_TYPE_DIRECTORY : Z := 16384.

(** [struct ext2_inode], packed *)
Definition IN_type : Z := 0.          (* uint16_t *)
Definition IN_size : Z := 4.
Definition IN_dbp : Z := 40.          (* 12 words *)
Definition IN_singly_block : Z := 88.
Definition IN_doubly_block : Z := 92.
Definition IN_triply_block : Z := 96.
Definition sizeof_inode : Z := 128.

(** [struct ext2_dir], packed; the name follows *)
Definition DR_inode : Z := 0.
Definition DR_size : Z := 4.          (* uint16_t *)
Definition DR_namelength : Z := 6.    (* uint8_t *)
Definition DR_reserved : Z := 7.      (* uint8_t *)
Definition sizeof_dir : Z := 8.

(** [struct ext2_priv_data] *)
Definition PV_sb : Z := 0.
Definition PV_first_bgd : Z := 1024.
Definition PV_number_of_bgs : Z := 1028.
Definition PV_blocksize : Z := 1032.
Definition PV_sectors_per_block : Z := 1036.
Definition PV_inodes_per_block : Z := 1040.
Definition sizeof_priv : Z := 1044.

(** [EXT2_DIRENTS_PER_BLOCK], [SIZE_OF_SINGLY] *)
Definition EXT2_DIRENTS_PER_BLOCK (blocksize : Z) : Z := blocksize / sizeof_dir.
Definition SIZE_OF_SINGLY (blocksize : Z) : Z := u32 (blocksize * blocksize) / 4.

Section ops.
Context {S G : Type} `{Current S} `{!Allocator S G} `{!Calls (layer S vfs_vars)}.
Notation VM := (M (layer S vfs_vars)).
(** Addresses of the literals ["/"], [""] and ["EXT2"], and of the functions. *)
Variables (str_slash str_empty str_EXT2 : Z).
Variables (f_probe f_mount f_read_file_full f_read_file f_exist f_writefile f_stat f_isdir f_findinode
  f_list_directory : Z).

(** [EXT2_PRIV(dev)] *)
Definition EXT2_PRIV (dev : Z) : VM Z :=
  let! fs := ld32 (dev + D_fs) in ld32 (fs + FS_priv_data).

Definition u32_div (a b : Z) : VM Z := if b =? 0 then fault else ret (a / b).
Definition u32_mod (a b : Z) : VM Z := if b =? 0 then fault else ret (a mod b).

(** ** [block.c] *)

Definition ext2_read_block (buf block dev : Z) : VM unit :=
  let! priv := EXT2_PRIV dev in
  let! spb := ld32 (priv + PV_sectors_per_block) in
  let spb := if spb =? 0 then 1 else spb in
  let! f := ld32 (dev + D_read) in
  let! _ := call_ptr f [dev; buf; u32 (block * spb); spb] in
  ret tt.

Definition ext2_write_block (buf block dev : Z) : VM unit :=
  let! priv := EXT2_PRIV dev in
  let! spb := ld32 (priv + PV_sectors_per_block) in
  let spb := if spb =? 0 then 1 else spb in
  let! f := ld32 (dev + D_write) in
  let! _ := call_ptr f [dev; buf; u32 (block * spb); spb] in
  ret tt.

(** Takes one from the group's counter at offset [cnt] and from the super
    block's at [sbcnt]; both allocators end so. *)
Definition take_one (buffer priv i bg cnt sbcnt dev : Z) : VM unit :=
  let! c := ld16 (bg + cnt) in
  st16 (bg + cnt) (u16 (c - 1)) ;!
  let! first := ld32 (priv + PV_first_bgd) in
  ext2_write_block buffer (u32 (first + i)) dev ;!
  let! sbid := ld32 (priv + PV_sb + SB_superblock_id) in
  ext2_read_block buffer sbid dev ;!
  let! c := ld32 (buffer + sbcnt) in
  st32 (buffer + sbcnt) (u32 (c - 1)) ;!
  let! sbid := ld32 (priv + PV_sb + SB_superblock_id) in
  ext2_write_block buffer sbid dev.

Definition ext2_alloc_block (out dev : Z) : VM unit :=
  let! priv := EXT2_PRIV dev in
  let! bs := ld32 (priv + PV_blocksize) in
  let! buffer := malloc bs in
  let! first := ld32 (priv + PV_first_bgd) in
  ext2_read_block buffer first dev ;!
  loop (fun '(i, bg) =>
    let! n := ld32 (priv + PV_number_of_bgs) in
    if i <? n then
      let! c := ld16 (bg + BG_num_of_unalloc_block) in
      if negb (c =? 0) then
        let! blocks := ld32 (priv + PV_sb + SB_blocks) in
        let! c := ld16 (bg + BG_num_of_unalloc_block) in
        st32 out (u32 (blocks - c + 1)) ;!
        take_one buffer priv i bg BG_num_of_unalloc_block SB_unallocatedblocks dev ;!
        ret (inr tt)
      else ret (inl (i + 1, u32 (bg + sizeof_bgd)))
    else ret (inr tt)) (0, buffer) ;!
  free buffer.

(** ** [inode.c] *)

Definition ext2_find_new_inode_id (id dev : Z) : VM unit :=
  let! priv := EXT2_PRIV dev in
  let! bs := ld32 (priv + PV_blocksize) in
  let! buffer := malloc bs in
  if buffer =? 0 then ret tt
  else
    let! first := ld32 (priv + PV_first_bgd) in
    ext2_read_block buffer first dev ;!
    loop (fun '(i, bg) =>
      let! n := ld32 (priv + PV_number_of_bgs) in
      if i <? n then
        let! c := ld16 (bg + BG_num_of_unalloc_inode) in
        if negb (c =? 0) then
          let! ipg := ld32 (priv + PV_sb + SB_inodes_in_blockgroup) in
          let! c := ld16 (bg + BG_num_of_unalloc_inode) in
          st32 id (u32 ((i + 1) * ipg - c + 1)) ;!
          take_one buffer priv i bg BG_num_of_unalloc_inode SB_unallocatedinodes dev ;!
          ret (inr tt)
        else ret (inl (i + 1, u32 (bg + sizeof_bgd)))
      else ret (inr tt)) (0, buffer) ;!
    free buffer.

(** The part the three inode functions share: the block buffer, the block of
    the inode table that holds the inode, and its index in its group.  The
    descriptor is read in the first block of descriptors. *)
Definition locate_inode (priv inode dev : Z) : VM (Z * Z * Z) :=
  let! ipg := ld32 (priv + PV_sb + SB_inodes_in_blockgroup) in
  let! bg := u32_div (u32 (inode - 1)) ipg in
  let! bs := ld32 (priv + PV_blocksize) in
  let! block_buf := malloc bs in
  let! first := ld32 (priv + PV_first_bgd) in
  ext2_read_block block_buf first dev ;!
  let bgd := u32 (block_buf + sizeof_bgd * bg) in
  let! ipg := ld32 (priv + PV_sb + SB_inodes_in_blockgroup) in
  let! index := u32_mod (u32 (inode - 1)) ipg in
  let! bs := ld32 (priv + PV_blocksize) in
  let! block := u32_div (u32 (index * sizeof_inode)) bs in
  let! table := ld32 (bgd + BG_block_of_inode_table) in
  ret (block_buf, u32 (table + block), index).

(** [index % priv->inodes_per_block], as an address in the block. *)
Definition inode_in_block (priv block_buf index : Z) : VM Z :=
  let! ipb := ld32 (priv + PV_inodes_per_block) in
  let! index := u32_mod index ipb in
  ret (u32 (block_buf + sizeof_inode * index)).

Definition ext2_read_inode (inode_buf inode dev : Z) : VM unit :=
  let! priv := EXT2_PRIV dev in
  let! (block_buf, final, index) := locate_inode priv inode dev in
  ext2_read_block block_buf final dev ;!
  let! a := inode_in_block priv block_buf index in
  memcpy inode_buf a sizeof_inode ;!
  free block_buf.

Definition ext2_write_inode (inode_buf ii dev : Z) : VM unit :=
  let! priv := EXT2_PRIV dev in
  let! (block_buf, final, index) := locate_inode priv ii dev in
  ext2_read_block block_buf final dev ;!
  let! a := inode_in_block priv block_buf index in
  memcpy a inode_buf sizeof_inode ;!
  ext2_write_block block_buf final dev ;!
  free block_buf.

(** The buffer is not freed. *)
Definition ext2_get_inode_block (inode b ioff dev : Z) : VM Z :=
  let! priv := EXT2_PRIV dev in
  let! (_, final, index) := locate_inode priv inode dev in
  let! ipb := ld32 (priv + PV_inodes_per_block) in
  let! index := u32_mod index ipb in
  st32 b final ;!
  st32 ioff index ;!
  ret 1.

(** ** [dir.c] *)

Definition ext2_read_directory (filename dir dev : Z) : VM Z :=
  let! inode := malloc sizeof_inode in
  loop (fun dir =>
    let! ino := ld32 (dir + DR_inode) in
    if ino =? 0 then free inode ;! ret (inr 0)
    else
      let! nl := ld8 (dir + DR_namelength) in
      let! name := malloc (nl + 1) in
      let! nl := ld8 (dir + DR_namelength) in
      memcpy name (u32 (dir + DR_reserved + 1)) nl ;!
      let! nl := ld8 (dir + DR_namelength) in
      st8 (name + nl) 0 ;!
      let! c := if filename =? 0 then ret 1 else strcmp filename name in
      if c =? 0 then
        let! ino := ld32 (dir + DR_inode) in
        ext2_read_inode inode ino dev ;!
        free name ;!
        free inode ;!
        let! ino := ld32 (dir + DR_inode) in
        ret (inr ino)
      else
        let! size := ld16 (dir + DR_size) in
        let dir := u32 (dir + size) in
        free name ;!
        ret (inl dir)) dir.

Definition ext2_read_root_directory (filename dev : Z) : VM Z :=
  let! priv := EXT2_PRIV dev in
  let! inode := malloc sizeof_inode in
  let! bs := ld32 (priv + PV_blocksize) in
  let! root_buf := malloc bs in
  ext2_read_inode inode 2 dev ;!
  let leave r := free root_buf ;! free inode ;! ret r in
  let! type := ld16 (inode + IN_type) in
  if negb (Z.land type 61440 =? INODE_TYPE_DIRECTORY) then leave 0
  else
    let! r := for_find 12 0 (fun i =>
      let! b := ld32 (inode + IN_dbp + 4 * i) in
      if b =? 0 then ret (Some false)
      else
        ext2_read_block root_buf b dev ;!
        let! rc := ext2_read_directory filename root_buf dev in
        if negb (rc =? 0) then ret (Some true) else ret None) in
    match r with
    | Some true => leave 1
    | _ => if negb (filename =? 0) && negb (filename =? 1) then leave 0 else leave 1
    end.

(** ** [file.c] *)

(** The direct blocks of the directory [inode] are searched for [filename];
    the first block decides. *)
Definition search_blocks (inode root_buf filename dev : Z) : VM (option (option Z)) :=
  for_find 12 0 (fun i =>
    let! b := ld32 (inode + IN_dbp + 4 * i) in
    if b =? 0 then ret (Some None)
    else
      ext2_read_block root_buf b dev ;!
      let! rc := ext2_read_directory filename root_buf dev in
      ret (Some (Some rc))).

Definition ext2_find_file_inode (ff inode dev : Z) : VM Z :=
  let! n := strlen ff in
  let! filename := malloc (u32 (n + 1)) in
  let! n := strlen ff in
  memcpy filename ff (u32 (n + 1)) ;!
  let! n := strsplit filename 47 in
  let filename := u32 (filename + 1) in
  let! priv := EXT2_PRIV dev in
  let! bs := ld32 (priv + PV_blocksize) in
  let! root_buf := malloc bs in
  if n >? 1 then
    ext2_read_inode inode 2 dev ;!
    let! r := loop (fun '(n, filename, retnode) =>
      let n := u32 (n - 1) in
      if n =? 0 then ret (inr (inr (filename, retnode)))
      else
        let! rc := search_blocks inode root_buf filename dev in
        match rc with
        | Some (Some 0) =>
            let! c := strcmp filename str_empty in
            if c =? 0 then
              free filename ;!
              let! c := strcmp ff str_slash in
              ret (inr (inl (if c =? 0 then 2 else retnode)))
            else free filename ;! ret (inr (inl 0))
        | _ =>
            let retnode := match rc with Some (Some rc) => rc | _ => retnode end in
            let! s := strlen filename in
            let filename := u32 (filename + s + 1) in
            ext2_read_inode inode retnode dev ;!
            ret (inl (n, filename, retnode))
        end) (n, filename, 0) in
    match r with
    | inl r => ret r
    | inr (filename, retnode) => free filename ;! ret retnode
    end
  else
    let! retnode := ext2_read_root_directory filename dev in
    ext2_read_inode inode retnode dev ;!
    free filename ;!
    ret retnode.

Definition ext2_findinode (fn out dev : Z) : VM Z :=
  let! inode := malloc sizeof_inode in
  let! node := ext2_find_file_inode fn inode dev in
  free inode ;!
  st32 out node ;!
  ret (if node =? 0 then 1 else 0).

(** [EXT2_PRIV(dev)->blocksize] *)
Definition blocksize (dev : Z) : VM Z :=
  let! priv := EXT2_PRIV dev in ld32 (priv + PV_blocksize).

Definition ext2_list_directory (f dev : Z) : VM Z :=
  let! dpos := ld32 (f + F_dpos) in
  let! de := malloc sizeof_dirent in
  if de =? 0 then ret 0
  else
    let! inode := malloc sizeof_inode in
    if inode =? 0 then ret 0
    else
      let! path := ld32 (f + F_respath) in
      let! inodeid := ext2_find_file_inode path inode dev in
      let! bs := blocksize dev in
      let! block_buf := malloc bs in
      let! bs := blocksize dev in
      if block_buf =? 0 then ret 0
      else if u32 (12 * EXT2_DIRENTS_PER_BLOCK bs) <=? dpos then halt
      else
        (** The blocks of the directory; [j] counts the entries passed. *)
        let! r := for_acc 12 0 (inl 0) (fun i acc =>
          match acc with
          | inr r => ret (inr r)
          | inl j =>
              let! b := ld32 (inode + IN_dbp + 4 * i) in
              if b =? 0 then ret (inr 0)
              else
                ext2_read_block block_buf b dev ;!
                loop (fun '(j, read) =>
                  let! bs := blocksize dev in
                  if negb (read <? bs) then ret (inr (inl j))
                  else
                    let! r := loop (fun '(j, read, dirp) =>
                      let! bs := blocksize dev in
                      if (j <? dpos) && (read <? bs) then
                        let! size := ld16 (dirp + DR_size) in
                        let dirp := u32 (dirp + size) in
                        let! nl := ld8 (dirp + DR_namelength) in
                        if nl =? 0 then ret (inr (inr tt))
                        else ret (inl (j + 1, u32 (read + size), dirp))
                      else ret (inr (inl (j, read, dirp)))) (j, read, block_buf) in
                    match r with
                    | inr tt => ret (inr (inr 0))
                    | inl (j, read, dirp) =>
                        if j =? dpos then
                          let! nl := ld8 (dirp + DR_namelength) in
                          memcpy (de + DE_d_name) (u32 (dirp + DR_reserved + 1)) nl ;!
                          st16 (de + DE_d_ino) (u16 inodeid) ;!
                          let! d := ld32 (f + F_dpos) in
                          st32 (f + F_dpos) (u32 (d + 1)) ;!
                          ret (inr (inr de))
                        else ret (inl (j, read))
                    end) (j, 0)
          end) in
        ret (match r with inr r => r | inl _ => 0 end).

(** The blocks named in an index block, up to the first zero, go one after the
    other to [buf]: [step] bytes each. *)
Definition read_indexed (read : Z -> Z -> VM unit) (index maxblocks buf step : Z) : VM unit :=
  loop (fun i =>
    if i <? maxblocks then
      let! b := ld32 (u32 (index + 4 * i)) in
      if b =? 0 then ret (inr tt)
      else
        let! b := ld32 (u32 (index + 4 * i)) in
        read b (u32 (buf + i * step)) ;!
        ret (inl (i + 1))
    else ret (inr tt)) 0.

Definition ext2_read_singly_linked (blockid buf dev : Z) : VM Z :=
  let! priv := EXT2_PRIV dev in
  let! bs := ld32 (priv + PV_blocksize) in
  let maxblocks := bs / 4 in
  let! root_buf := malloc bs in
  ext2_read_block root_buf blockid dev ;!
  read_indexed (fun b a => ext2_read_block a b dev) root_buf maxblocks buf bs ;!
  free root_buf ;!
  ret 1.

(** The buffer is not freed. *)
Definition ext2_read_doubly_linked (blockid buf dev : Z) : VM Z :=
  let! priv := EXT2_PRIV dev in
  let! bs := ld32 (priv + PV_blocksize) in
  let maxblocks := bs / 4 in
  let! block_buf := malloc bs in
  ext2_read_block block_buf blockid dev ;!
  read_indexed (fun b a => let! _ := ext2_read_singly_linked b a dev in ret tt)
    block_buf maxblocks buf (SIZE_OF_SINGLY bs) ;!
  ret 1.

(** The direct blocks go to the buffer, up to the first that is 0; a number
    beyond the device's ends in an endless loop. *)
Definition read_direct (priv minode root_buf buffer dev : Z) : VM (option unit) :=
  for_find 12 0 (fun i =>
    let! b := ld32 (minode + IN_dbp + 4 * i) in
    if b =? 0 then ret (Some tt)
    else
      let! blocks := ld32 (priv + PV_sb + SB_blocks) in
      if b >? blocks then halt
      else
        ext2_read_block root_buf b dev ;!
        let! bs := ld32 (priv + PV_blocksize) in
        memcpy (u32 (buffer + i * bs)) root_buf bs ;!
        ret None).

(** The blocks of the file whose inode is at [minode]. *)
Definition read_blocks (priv minode root_buf buffer dev : Z) : VM Z :=
  let! r := read_direct priv minode root_buf buffer dev in
  match r with
  | Some tt => ret 1
  | None =>
      let! singly := ld32 (minode + IN_singly_block) in
      (if! negb (singly =? 0) then
         (let! bs := ld32 (priv + PV_blocksize) in
          let! _ := ext2_read_singly_linked singly (u32 (buffer + 12 * bs)) dev in ret tt)) ;!
      let! doubly := ld32 (minode + IN_doubly_block) in
      (if! negb (doubly =? 0) then
         (let! bs := ld32 (priv + PV_blocksize) in
          let s := u32 (SIZE_OF_SINGLY bs + 12 * bs) in
          let! _ := ext2_read_doubly_linked doubly (u32 (buffer + s)) dev in ret tt)) ;!
      ret 1
  end.

(** The buffers are not freed. *)
Definition ext2_read_file_full (fn buffer dev : Z) : VM Z :=
  let! priv := EXT2_PRIV dev in
  let! minode := malloc sizeof_inode in
  let! bs := ld32 (priv + PV_blocksize) in
  let! root_buf := malloc bs in
  let! inodeid := ext2_find_file_inode fn minode dev in
  if inodeid =? 0 then ret 0
  else
    ext2_read_inode minode inodeid dev ;!
    read_blocks priv minode root_buf buffer dev.

(** [st] is the address of the local [struct stat], which is not initialised.
    The buffers are not freed. *)
Definition ext2_read_file (st fl buf len dev : Z) : VM Z :=
  if (fl =? 0) || (buf =? 0) || (dev =? 0) || (len =? 0) then ret 0
  else
    let! inode := malloc sizeof_inode in
    let! ino := ld32 (fl + F_inode) in
    ext2_read_inode inode ino dev ;!
    let! priv := EXT2_PRIV dev in
    let! lpos := ld32 (fl + F_lpos) in
    let finalpos := u32 (lpos + len) in
    let! _ := vfs_stat fl st in
    let! size := ld32 (st + ST_st_size) in
    if size =? 0 then ret 0
    else
      let! lpos := ld32 (fl + F_lpos) in
      if lpos >? size then halt
      else
        let finalpos := if finalpos >? size then size else finalpos in
        let! bs := ld32 (priv + PV_blocksize) in
        let! bpos := u32_div finalpos bs in
        let! block_buf := malloc bs in
        if bpos <? 12 then
          let fpos := bpos mod 12 in
          let! b := ld32 (inode + IN_dbp + 4 * fpos) in
          ext2_read_block block_buf b dev ;!
          let! lpos := ld32 (fl + F_lpos) in
          memcpy buf (u32 (block_buf + lpos)) len ;!
          let! lpos := ld32 (fl + F_lpos) in
          st32 (fl + F_lpos) (u32 (lpos + len)) ;!
          ret len
        else ret 0.

(** [if(inode->type & bits) st->st_mode |= mode;] *)
Definition mode_bits (st inode bits mode : Z) : VM unit :=
  let! type := ld16 (inode + IN_type) in
  if! negb (Z.land type bits =? 0) then
    (let! m := ld32 (st + ST_st_mode) in st32 (st + ST_st_mode) (Z.lor m mode)).

Definition ext2_stat (file st dev : Z) : VM Z :=
  let! inode := malloc sizeof_inode in
  let! ino := ext2_find_file_inode file inode dev in
  (if! negb (ino =? 0) then
     (mode_bits st inode 49152 S_IFSOCK ;!
      mode_bits st inode 40960 S_IFLNK ;!
      mode_bits st inode 32768 S_IFREG ;!
      mode_bits st inode 24576 S_IFBLK ;!
      mode_bits st inode 16384 S_IFDIR ;!
      mode_bits st inode 8192 S_IFCHR ;!
      mode_bits st inode 4096 S_IFIFO ;!
      let! id := ld32 (dev + D_id) in
      st16 (st + ST_st_dev) (u16 id) ;!
      st16 (st + ST_st_ino) (u16 ino) ;!
      st16 (st + ST_st_nlink) 1 ;!
      st16 (st + ST_st_uid) 1000 ;!
      st16 (st + ST_st_gid) 1000 ;!
      st16 (st + ST_st_rdev) 0 ;!
      let! size := ld32 (inode + IN_size) in
      st32 (st + ST_st_size) size)) ;!
  free inode ;!
  ret 0.

Definition ext2_exist (file dev : Z) : VM Z := ext2_read_file_full file 0 dev.

(** ** [ext2.c] *)

Definition ext2_isdir (f dev : Z) : VM Z := ret 0.
Definition ext2_writefile (fl buf len dev : Z) : VM Z := ret 0.

(** [1024 << hint]: the shift is undefined from 32 on. *)
Definition blocksize_of (hint : Z) : VM Z :=
  if hint <? 32 then ret (u32 (Z.shiftl 1024 hint)) else fault.

Definition ext2_probe (dev : Z) : VM Z :=
  let! f := ld32 (dev + D_read) in
  if f =? 0 then ret 1
  else
    let! sb := malloc 1024 in
    let! f := ld32 (dev + D_read) in
    let! _ := call_ptr f [dev; sb; 2; 2] in
    let! sig := ld16 (sb + SB_ext2_sig) in
    if negb (sig =? EXT2_SIGNATURE) then ret 1
    else
      let! fs := malloc sizeof_filesystem in
      let! priv := malloc sizeof_priv in
      memcpy (priv + PV_sb) sb sizeof_superblock ;!
      let! hint := ld32 (sb + SB_blocksize_hint) in
      let! bs := blocksize_of hint in
      st32 (priv + PV_blocksize) bs ;!
      st32 (priv + PV_inodes_per_block) (bs / sizeof_inode) ;!
      st32 (priv + PV_sectors_per_block) (bs / 512) ;!
      let! blocks := ld32 (sb + SB_blocks) in
      let! bpg := ld32 (sb + SB_blocks_in_blockgroup) in
      let! nbg := u32_div blocks bpg in
      let nbg := if nbg =? 0 then 1 else nbg in
      st32 (priv + PV_number_of_bgs) nbg ;!
      let! sbid := ld32 (sb + SB_superblock_id) in
      let! q := u32_div sizeof_superblock bs in
      st32 (priv + PV_first_bgd) (u32 (sbid + q)) ;!
      st32 (fs + FS_name) str_EXT2 ;!
      st32 (fs + FS_probe) f_probe ;!
      st32 (fs + FS_mount) f_mount ;!
      st32 (fs + FS_readfull) f_read_file_full ;!
      st32 (fs + FS_read) f_read_file ;!
      st32 (fs + FS_exist) f_exist ;!
      st32 (fs + FS_writefile) f_writefile ;!
      st32 (fs + FS_stat) f_stat ;!
      st32 (fs + FS_isdir) f_isdir ;!
      st32 (fs + FS_findinode) f_findinode ;!
      st32 (fs + FS_read_dir) f_list_directory ;!
      st32 (fs + FS_priv_data) priv ;!
      st32 (dev + D_fs) fs ;!
      ret 0.

Definition ext2_mount (dev : Z) : VM Z := ret 0.
End ops.
