(* ===== verification/Ext2Spec.v ===== *)
(** * Reading inodes, files and directories: what fs/ext2 returns

    A device is judged by its contract: a read fills the buffer with the
    sectors of the disk and changes nothing else.  [initrd_read] (fs/initrd.c)
    meets it.  The theorems say where on the disk the bytes
    come from. *)

From stdpp Require Import base numbers list gmap.
From Stdlib Require Import ZArith Lia.
From S2P Require Import Prelude Memory CString Process Pages Arm Liballoc LiballocInv LiballocProof LiballocSpec Allocator Phymem Layer Tables Device Current Scratch Demo Fs Vfs Initrd Ext2.

Local Open Scope Z_scope.

Ltac eoffs := unfold D_fs, D_read, D_write, sizeof_device, FS_priv_data, sizeof_filesystem, PV_sb, PV_first_bgd,
  PV_number_of_bgs, PV_blocksize, PV_sectors_per_block, PV_inodes_per_block, sizeof_priv, SB_inodes_in_blockgroup,
  SB_blocks, sizeof_bgd, sizeof_inode, BG_block_of_inode_table in *.
Ltac elia := eoffs; lia.

(** A 32-bit little-endian word of a disk. *)
Definition dword (disk : Z -> Z) (a : Z) : Z :=
  disk a + 256 * disk (a + 1) + 65536 * disk (a + 2) + 16777216 * disk (a + 3).

(** A volume: its device and private data, the sectors of a block, the inodes
    of a group, the first block of group descriptors, the size in sectors. *)
Record volume : Type := Volume {
  v_dev : Z; v_priv : Z; v_spb : Z; v_ipg : Z; v_first : Z; v_sectors : Z; v_disk : Z -> Z
}.
Definition v_bs (v : volume) : Z := 512 * v_spb v.

Section spec.
Context {S G : Type} `{Current S} `{!Allocator S G} `{!Calls (layer S vfs_vars)}.
Implicit Types (s : layer S vfs_vars) (v : volume).

(** The [read] of the device, wherever the memory is as in [m0] on [R]. *)
Definition block_device (R : Z -> Prop) (m0 : mem) v : Prop :=
  forall s buf st len,
    agree R m0 (get_mem s) -> 0 <= st -> 0 < len -> st + len <= v_sectors v ->
    mapped_range (get_mem s) buf (512 * len) -> (forall a, in_block buf (512 * len) a -> ~ R a) ->
    wp (call (rd32 m0 (v_dev v + D_read)) [v_dev v; buf; st; len]) (fun _ s' => exists m',
      s' = set_mem m' s /\ agree (fun a => ~ in_block buf (512 * len) a) (get_mem s) m' /\
      forall k, 0 <= k < 512 * len -> rd m' (buf + k) = v_disk v (512 * st + k)) s.

(** C32: the ram disk is a block device: a device whose read pointer leads to
    initrd_read and whose private data names [n] sectors in memory answers every
    read within them with the bytes of these sectors, and changes only the buffer. *)
Theorem initrd_block_device (R : Z -> Prop) m v start n :
  initrd m (v_dev v) start n -> (forall a, initrd_byte m (v_dev v) start n a -> R a) ->
  v_sectors v = n -> n < 4194304 ->
  (forall o, 0 <= o < 512 * n -> v_disk v o = rd m (start + o)) ->
  (forall dev buf st len s, call (rd32 m (v_dev v + D_read)) [dev; buf; st; len] s = initrd_read dev buf st len s) ->
  block_device R m v.
Proof.
  intros Hi HR Hn Hn4 Hdisk Hcall s buf st len Ha Hst Hlen Hs Hm Hd.
  assert (Hag : agree (initrd_byte m (v_dev v) start n) m (get_mem s)) by (eapply agree_mono; [exact Ha|done]).
  assert (Hp : rd32 (get_mem s) (v_dev v + D_priv) = rd32 m (v_dev v + D_priv)).
  { apply (rd32_within R); [done|]. intros x Hx. apply HR. left. unfold in_block. lia. }
  unfold wp at 1. rewrite Hcall.
  eapply wp_mono; [apply (wp_initrd_read s (v_dev v) start n buf st len)|]; try done; [|lia..| |].
  - by eapply initrd_agree.
  - intros a Ha' Hin. apply (Hd a Ha'), HR. unfold initrd_byte in *. by rewrite <-Hp.
  - intros r s' (_ & m' & -> & Hag' & Hb). exists m'. split_and!; [done|done|].
    intros k Hk. rewrite Hb, Hdisk by lia. rewrite (proj2 Ha); [f_equal; lia|].
    apply HR. right; right. unfold in_block. lia.
Qed.

Record mounted_ext2 (R : Z -> Prop) (m0 : mem) v : Prop := {
  me_dev : mapped_range m0 (v_dev v) sizeof_device /\ within R (v_dev v) sizeof_device;
  me_fs : mapped_range m0 (rd32 m0 (v_dev v + D_fs)) sizeof_filesystem /\
    within R (rd32 m0 (v_dev v + D_fs)) sizeof_filesystem /\
    rd32 m0 (rd32 m0 (v_dev v + D_fs) + FS_priv_data) = v_priv v;
  me_priv : mapped_range m0 (v_priv v) sizeof_priv /\ within R (v_priv v) sizeof_priv;
  me_read : rd32 m0 (v_dev v + D_read) <> 0 /\ block_device R m0 v;
  me_spb : 0 < v_spb v <= 128 /\ rd32 m0 (v_priv v + PV_sectors_per_block) = v_spb v;
  me_bs : rd32 m0 (v_priv v + PV_blocksize) = v_bs v;
  me_ipg : 0 < v_ipg v /\ rd32 m0 (v_priv v + PV_sb + SB_inodes_in_blockgroup) = v_ipg v;
  me_ipb : rd32 m0 (v_priv v + PV_inodes_per_block) = v_bs v / sizeof_inode;
  me_first : rd32 m0 (v_priv v + PV_first_bgd) = v_first v;
  me_sectors : v_sectors v < 4294967296;
}.

(** Where inode [n] lies: in the table of its group, by its index there. *)
Definition inode_table v (n : Z) : Z :=
  dword (v_disk v) (v_bs v * v_first v + sizeof_bgd * ((n - 1) / v_ipg v) + BG_block_of_inode_table).
Definition inode_offset v (n : Z) : Z := v_bs v * inode_table v n + sizeof_inode * ((n - 1) mod v_ipg v).

Section volume.
Context (R : Z -> Prop) (m0 : mem) (v : volume) (Hv : mounted_ext2 R m0 v).

Lemma rd_dev s o :
  agree R m0 (get_mem s) -> 0 <= o -> o + 4 <= sizeof_device ->
  mapped_range (get_mem s) (v_dev v + o) 4 /\ rd32 (get_mem s) (v_dev v + o) = rd32 m0 (v_dev v + o).
Proof.
  intros Ha Ho1 Ho2. destruct (me_dev _ _ _ Hv) as [Hm Hw]. split.
  - eapply agree_mapped_range; [exact Ha|]. eapply mapped_range_sub; [exact Hm|lia..].
  - apply (rd32_within R); [done|]. eapply within_sub; [exact Hw|lia..].
Qed.

Lemma wp_priv_word s o (Q : Z -> layer S vfs_vars -> Prop) :
  agree R m0 (get_mem s) -> 0 <= o -> o + 4 <= sizeof_priv ->
  Q (rd32 m0 (v_priv v + o)) s -> wp (ld32 (v_priv v + o)) Q s.
Proof.
  intros Ha Ho1 Ho2 HQ. destruct (me_priv _ _ _ Hv) as [Hm Hw]. apply wp_ld32.
  - eapply agree_mapped_range; [exact Ha|]. eapply mapped_range_sub; [exact Hm|lia..].
  - rewrite (rd32_within R m0); [done|done|]. eapply within_sub; [exact Hw|lia..].
Qed.

Lemma wp_EXT2_PRIV s (Q : Z -> layer S vfs_vars -> Prop) :
  agree R m0 (get_mem s) -> Q (v_priv v) s -> wp (EXT2_PRIV (v_dev v)) Q s.
Proof.
  intros Ha HQ. destruct (me_fs _ _ _ Hv) as (Hm & Hw & Hp).
  destruct (rd_dev s D_fs Ha) as [Hdm Hdr]; [elia..|].
  apply wp_bind, wp_ld32; [done|]. rewrite Hdr. apply wp_ld32.
  - eapply agree_mapped_range; [exact Ha|]. eapply mapped_range_sub; [exact Hm|elia..].
  - rewrite (rd32_within R m0), Hp; [done|done|]. eapply within_sub; [exact Hw|elia..].
Qed.

(** A block read into a buffer outside [R]. *)
Lemma wp_read_block s buf block (Q : unit -> layer S vfs_vars -> Prop) :
  agree R m0 (get_mem s) -> 0 <= block -> (block + 1) * v_spb v <= v_sectors v ->
  mapped_range (get_mem s) buf (v_bs v) -> (forall a, in_block buf (v_bs v) a -> ~ R a) ->
  (forall m', agree (fun a => ~ in_block buf (v_bs v) a) (get_mem s) m' -> agree R m0 m' ->
     (forall k, 0 <= k < v_bs v -> rd m' (buf + k) = v_disk v (v_bs v * block + k)) -> Q tt (set_mem m' s)) ->
  wp (ext2_read_block buf block (v_dev v)) Q s.
Proof.
  intros Ha Hb1 Hb2 Hm Hd HQ. unfold ext2_read_block, v_bs in *.
  pose proof (me_spb _ _ _ Hv) as [Hspb Hr]. destruct (me_read _ _ _ Hv) as [Hf Hdev].
  pose proof (me_sectors _ _ _ Hv).
  apply wp_bind, wp_EXT2_PRIV; [done|]. apply wp_bind, wp_priv_word; [done|elia..|]. rewrite Hr.
  destruct (v_spb v =? 0) eqn:E; [lia|]. destruct (rd_dev s D_read Ha) as [Hrm Hrr]; [elia..|].
  apply wp_bind, wp_ld32; [done|]. rewrite Hrr. unfold call_ptr.
  destruct (rd32 m0 (v_dev v + D_read) =? 0) eqn:Ef; [lia|]. rewrite u32_small by nia.
  apply wp_bind. eapply wp_mono; [apply (Hdev s buf (block * v_spb v) (v_spb v)); try done; nia|].
  intros _ s' (m' & -> & Hag & Hbytes). apply wp_ret, HQ; [done| |].
  - eapply agree_trans; [exact Ha|]. eapply agree_mono; [exact Hag|]. intros a HR Hin. by apply (Hd a).
  - intros k Hk. rewrite Hbytes by done. f_equal. lia.
Qed.

Lemma rd32_disk (m : mem) disk b o n i :
  (forall k, 0 <= k < n -> rd m (b + k) = disk (o + k)) -> 0 <= i -> i + 4 <= n -> rd32 m (b + i) = dword disk (o + i).
Proof. intros Hd ??. unfold rd32, dword. rewrite <-!Z.add_assoc, !Hd by lia. done. Qed.

(** The group and the index of the inode, and the place of its block. *)
Definition inode_group (n : Z) : Z := (n - 1) / v_ipg v.
Definition inode_index (n : Z) : Z := (n - 1) mod v_ipg v.
Definition inode_block (n : Z) : Z := inode_table v n + inode_index n * sizeof_inode / v_bs v.

(** The inode can be addressed: its descriptor is in the first block of
    descriptors, and its block on the disk. *)
Record addressable (n : Z) : Prop := {
  ad_n : 1 <= n < 4294967296;
  ad_group : sizeof_bgd * (inode_group n + 1) <= v_bs v;
  ad_first : 0 <= v_first v /\ (v_first v + 1) * v_spb v <= v_sectors v;
  ad_index : inode_index n * sizeof_inode < 4294967296;
  ad_block : 0 <= inode_table v n /\ (inode_block n + 1) * v_spb v <= v_sectors v;
}.

Lemma wp_u32_div s a b (Q : Z -> layer S vfs_vars -> Prop) : b <> 0 -> Q (a / b) s -> wp (u32_div a b) Q s.
Proof. intros Hb HQ. unfold u32_div. destruct (b =? 0) eqn:E; [lia|]. by apply wp_ret. Qed.
Lemma wp_u32_mod s a b (Q : Z -> layer S vfs_vars -> Prop) : b <> 0 -> Q (a mod b) s -> wp (u32_mod a b) Q s.
Proof. intros Hb HQ. unfold u32_mod. destruct (b =? 0) eqn:E; [lia|]. by apply wp_ret. Qed.

Lemma inode_sizes n : addressable n ->
  v_bs v = 128 * (v_bs v / 128) /\ 4 <= v_bs v / 128 /\ v_bs v <= 65536 /\
  0 <= inode_group n /\ 0 <= inode_index n /\ 0 <= inode_index n * sizeof_inode / v_bs v /\
  inode_block n * v_bs v + 128 * (inode_index n mod (v_bs v / 128)) = inode_offset v n.
Proof.
  intros [? _ _ _ _]. pose proof (me_spb _ _ _ Hv) as [Hs _]. pose proof (me_ipg _ _ _ Hv) as [Hi _].
  assert (Hq : v_bs v / 128 = 4 * v_spb v).
  { unfold v_bs. replace (512 * v_spb v) with (4 * v_spb v * 128) by lia. by rewrite Z.div_mul. }
  pose proof (Z.mod_pos_bound (n - 1) (v_ipg v) Hi).
  assert (Hbs : v_bs v = 128 * (4 * v_spb v)) by (unfold v_bs; lia).
  assert (0 <= (n - 1) / v_ipg v) by (apply Z.div_pos; lia).
  assert (Hd : inode_index n * sizeof_inode / v_bs v = inode_index n / (4 * v_spb v)).
  { unfold sizeof_inode. rewrite Hbs, (Z.mul_comm 128), Z.div_mul_cancel_r by lia. done. }
  assert (0 <= inode_index n / (4 * v_spb v)) by (apply Z.div_pos; unfold inode_index; lia).
  rewrite Hq, Hd. split_and!; try done; try (unfold inode_group, inode_index, v_bs in *; lia).
  unfold inode_block, inode_offset. rewrite Hd. fold (inode_index n). unfold sizeof_inode.
  pose proof (Z.div_mod (inode_index n) (4 * v_spb v)). rewrite Hbs. nia.
Qed.

(** The buffer and the place of the inode, found without reading the inode. *)
Lemma wp_locate_inode s g n (Q : Z * Z * Z -> layer S vfs_vars -> Prop) :
  heap_ok s g -> ~ out_of_memory -> foreign s g R -> agree R m0 (get_mem s) -> room s (v_bs v) -> addressable n ->
  (forall b s1 g1 m1, vars s1 = vars s -> gave s g (v_bs v) b s1 g1 ->
     agree (fun a => ~ in_block b (v_bs v) a) (get_mem s1) m1 -> agree R m0 m1 ->
     Q (b, inode_block n, inode_index n) (set_mem m1 s1)) ->
  wp (locate_inode (v_priv v) n (v_dev v)) Q s.
Proof.
  intros Hok Hoom Hf Ha Hroom Had HQ. destruct (inode_sizes n Had) as (Hbs & Hq & Hbs2 & Hg0 & Hi0 & Hib0 & _).
  destruct Had as [Hn Hgr [Hf0 Hfs] Hidx [Ht0 Hblk]].
  pose proof (me_ipg _ _ _ Hv) as [Hipg Hipgr]. pose proof (me_sectors _ _ _ Hv).
  pose proof (me_spb _ _ _ Hv) as [Hspb _].
  unfold locate_inode. rewrite <-!Z.add_assoc.
  apply wp_bind, wp_priv_word; [done|elia|elia|]. rewrite <-Z.add_assoc in Hipgr. rewrite Hipgr.
  apply wp_bind, wp_u32_div; [lia|]. rewrite (u32_small (n - 1)) by lia. fold (inode_group n).
  apply wp_bind, wp_priv_word; [done|elia|elia|]. rewrite (me_bs _ _ _ Hv).
  apply wp_bind, (wp_malloc_layer s g (v_bs v)); [done|lia|done|by intros ? _ []|].
  intros b s1 g1 Hvs Hg. pose proof (gv_mapped _ _ _ _ _ _ Hg) as Hbm.
  assert (Ha1 : agree R m0 (get_mem s1)) by (eapply agree_trans; [exact Ha|exact (gave_agree s g _ b s1 g1 R Hg Hf)]).
  pose proof (gave_apart s g _ b s1 g1 R Hg Hf) as Hap.
  apply wp_bind, wp_priv_word; [done|elia|elia|]. rewrite (me_first _ _ _ Hv).
  apply wp_bind, wp_read_block; [done|lia|lia|done|intros a Hin HR; by apply (Hap a)|].
  intros m1 Hag1 Ha2 Hbytes. pose proof Hbm as (Hb0 & Hb1 & _).
  apply wp_bind, wp_priv_word; [by lens|elia|elia|]. rewrite Hipgr.
  apply wp_bind, wp_u32_mod; [lia|]. fold (inode_index n).
  apply wp_bind, wp_priv_word; [by lens|elia|elia|]. rewrite (me_bs _ _ _ Hv).
  rewrite (u32_small (inode_index n * _)) by elia. apply wp_bind, wp_u32_div; [lia|].
  rewrite (u32_small (b + _)) by elia. apply wp_bind, wp_ld32.
  { lens. eapply agree_mapped_range; [exact Hag1|]. eapply mapped_range_sub; [exact Hbm|elia..]. }
  lens. rewrite <-Z.add_assoc, (rd32_disk m1 (v_disk v) b (v_bs v * v_first v) (v_bs v)) by (try done; elia).
  rewrite Z.add_assoc. change (dword _ _) with (inode_table v n).
  apply wp_ret. rewrite u32_small; [|fold (inode_block n)].
  - apply (HQ b s1 g1 m1); [done|done|done|done].
  - unfold inode_block in *. nia.
Qed.

(** C30: ext2_read_inode copies the 128 bytes of the inode from its place on the
    disk: inode n is entry (n - 1) mod inodes-per-group of the table of group
    (n - 1) / inodes-per-group, whose first block the group's descriptor names.
    The scratch block is freed again, and nothing else in memory changes; the
    group's descriptor must be in the first block of descriptors. *)
Theorem ext2_read_inode_spec s g n inode_buf :
  let W := in_block inode_buf sizeof_inode in
  heap_ok s g -> ~ out_of_memory -> foreign s g R -> agree R m0 (get_mem s) -> room s (v_bs v) ->
  addressable n -> mapped_range (get_mem s) inode_buf sizeof_inode -> foreign s g W -> (forall a, W a -> ~ R a) ->
  wp (ext2_read_inode inode_buf n (v_dev v)) (fun _ s' => exists g',
    client_step W s g s' g' /\ vars s' = vars s /\
    forall k, 0 <= k < sizeof_inode -> rd (get_mem s') (inode_buf + k) = v_disk v (inode_offset v n + k)) s.
Proof.
  intros W Hok Hoom Hf Ha Hroom Had Hbuf HfW HWR.
  destruct (inode_sizes n Had) as (Hbs & Hq & Hbs2 & Hg0 & Hi0 & Hib0 & Hoff).
  unfold ext2_read_inode. apply wp_bind, wp_EXT2_PRIV; [done|]. apply wp_bind, (wp_locate_inode s g); [done..|].
  intros b s1 g1 m1 Hvs Hg Hag1 Ha1. pose proof (gv_mapped _ _ _ _ _ _ Hg) as Hbm.
  pose proof (gave_apart s g _ b s1 g1 R Hg Hf) as Hap. pose proof (gave_apart s g _ b s1 g1 W Hg HfW) as HapW.
  destruct Had as [Hn Hgr _ Hidx [Ht0 Hblk]].
  apply wp_bind, wp_read_block; [by lens|unfold inode_block; lia|done|lens; eapply agree_mapped_range; [exact Hag1|exact Hbm]
    |intros a Hin HR; by apply (Hap a)|].
  lens. intros m2 Hag2 Ha2 Hbytes. assert (Hmm : forall a k, mapped_range (get_mem s1) a k -> mapped_range m2 a k).
  { intros a k Hx. eapply agree_mapped_range; [exact Hag2|]. eapply agree_mapped_range; [exact Hag1|exact Hx]. }
  apply wp_bind, wp_bind, wp_priv_word; [by lens|elia|elia|]. rewrite (me_ipb _ _ _ Hv). unfold sizeof_inode in *.
  apply wp_bind, wp_u32_mod; [lia|]. apply wp_ret.
  pose proof (Z.mod_pos_bound (inode_index n) (v_bs v / 128) ltac:(lia)) as Hj.
  set (j := inode_index n mod (v_bs v / 128)) in *. pose proof Hbm as (Hb0 & Hb1 & _). pose proof Hbuf as (Hu0 & Hu1 & _).
  rewrite u32_small by lia. apply wp_bind, wp_memcpy; [lia| | | |].
  { lens. apply Hmm. eapply agree_mapped_range; [apply (gv_agree _ _ _ _ _ _ Hg)|]. done. }
  { lens. apply Hmm. eapply mapped_range_sub; [exact Hbm|lia..]. }
  { unfold forward_ok. unfold W, in_block in HapW. pose proof (HapW inode_buf). pose proof (HapW b). lia. }
  lens. set (m3 := mwrite m2 inode_buf _).
  assert (Hag3 : agree (fun a => ~ in_block b (v_bs v) a /\ ~ W a) (get_mem s1) m3).
  { split; [unfold m3; rewrite ranges_mwrite, (proj1 Hag2); apply Hag1|]. intros a [Hna Hnw]. unfold m3.
    rewrite rd_mwrite_out; [by rewrite (proj2 Hag2), (proj2 Hag1)|]. rewrite length_mread.
    unfold W, in_block in Hnw. lia. }
  eapply (wp_free_scratch_layer W s g (v_bs v)); [done|lia|exact Hg|done|exact Hag3|].
  intros s2 g2 Hvs2 Hcs HagW. exists g2. split; [done|]. split; [by rewrite Hvs2|].
  intros k Hk. rewrite (proj2 HagW) by (unfold W, in_block; lia). unfold m3. rewrite rd_mwrite_mread_in by lia.
  replace (b + 128 * j + (inode_buf + k - inode_buf)) with (b + (128 * j + k)) by lia.
  rewrite Hbytes by lia. f_equal. lia.
Qed.
End volume.
End spec.

(** ** The theorems at work

    A disk of five blocks of 1 KB in memory, with its table of inodes in block
    3: the device at 0x1000 reads it with [initrd_read]. *)

Definition demo_disk_bytes : list (Z * list Z) :=
  [ (4096 + D_fs, le32 4224); (4096 + D_read, le32 77); (4096 + D_priv, le32 5632);
    (4224 + FS_priv_data, le32 4352);
    (4352 + SB_blocks, le32 5); (4352 + SB_inodes_in_blockgroup, le32 8); (4352 + PV_first_bgd, le32 2); (4352 + PV_blocksize, le32 1024);
    (4352 + PV_sectors_per_block, le32 2); (4352 + PV_inodes_per_block, le32 8);
    (5632, le32 8192 ++ le32 13312);
    (8192 + 2048 + BG_block_of_inode_table, le32 3); (8192 + 3072 + 128, [237; 65]);
    (8192 + 1024, le32 4); (8192 + 4096, [72; 105]) ].
Definition demo_disk : layer (heap Arm.state) vfs_vars := Layer (low_heap demo_disk_bytes) (VfsVars 0 0 0).
Definition demo_volume : volume := Volume 4096 4352 2 8 2 10 (fun o => rd (low_mem demo_disk_bytes) (8192 + o)).
Definition demo_R : Z -> Prop := fun a => a < 16384.

#[local] Instance demo_calls : Calls (layer (heap Arm.state) vfs_vars) := fun f args =>
  match args with
  | [dev; buf; st; len] => if f =? 77 then initrd_read dev buf st len else fault
  | _ => fault
  end.

Lemma demo_initrd : initrd (low_mem demo_disk_bytes) 4096 8192 10.
Proof.
  assert (Hp : rd32 (low_mem demo_disk_bytes) (4096 + D_priv) = 5632) by (vm_compute; reflexivity).
  split; rewrite ?Hp; try (apply low_mapped; vm_compute; discriminate).
  - vm_compute. reflexivity.
  - vm_compute. discriminate.
Qed.

Lemma demo_initrd_byte a : initrd_byte (low_mem demo_disk_bytes) 4096 8192 10 a -> demo_R a.
Proof.
  assert (Hp : rd32 (low_mem demo_disk_bytes) (4096 + D_priv) = 5632) by (vm_compute; reflexivity).
  unfold initrd_byte, demo_R, in_block. rewrite Hp. unfold D_priv, sizeof_initrd_priv. lia.
Qed.

Lemma demo_block_device : block_device demo_R (low_mem demo_disk_bytes) demo_volume.
Proof.
  intros s buf st len Ha Hst Hlen Hs Hm Hd. simpl in Hs.
  change (rd32 (low_mem demo_disk_bytes) (v_dev demo_volume + D_read)) with
    (rd32 (low_mem demo_disk_bytes) (4096 + D_read)).
  replace (rd32 (low_mem demo_disk_bytes) (4096 + D_read)) with 77 by (vm_compute; reflexivity).
  unfold call, demo_calls. cbn [Z.eqb Pos.eqb].
  assert (Hag : agree (initrd_byte (low_mem demo_disk_bytes) 4096 8192 10) (low_mem demo_disk_bytes) (get_mem s)).
  { eapply agree_mono; [exact Ha|]. apply demo_initrd_byte. }
  eapply wp_mono; [apply (wp_initrd_read s 4096 8192 10 buf st len)|].
  - eapply initrd_agree; [exact Hag|exact demo_initrd].
  - done.
  - lia.
  - lia.
  - done.
  - intros a Ha' Hin. apply (Hd a Ha'). apply demo_initrd_byte. unfold initrd_byte in *.
    rewrite <-(rd32_within demo_R (low_mem demo_disk_bytes) (get_mem s) (4096 + D_priv)); [done|done|].
    intros x Hx. unfold demo_R, D_priv in *. lia.
  - intros r s' (_ & m' & -> & Hag' & Hb). exists m'. split_and!; [done|done|].
    intros k Hk. rewrite Hb by done. simpl. rewrite (proj2 Ha); [f_equal; lia|]. unfold demo_R. lia.
Qed.

Lemma demo_mounted_ext2 : mounted_ext2 demo_R (low_mem demo_disk_bytes) demo_volume.
Proof.
  assert (Hfs : rd32 (low_mem demo_disk_bytes) (v_dev demo_volume + D_fs) = 4224) by (vm_compute; reflexivity).
  assert (Hw : forall a n, a + n <= 16384 -> within demo_R a n) by (intros a n ? x ?; unfold demo_R; lia).
  split; rewrite ?Hfs; try (split_and!; [apply low_mapped; vm_compute; discriminate|apply Hw; vm_compute; discriminate]).
  - split_and!; [apply low_mapped; vm_compute; discriminate|apply Hw; vm_compute; discriminate|vm_compute; reflexivity].
  - split; [vm_compute; discriminate|exact demo_block_device].
  - split; [split; done|vm_compute; reflexivity].
  - vm_compute. reflexivity.
  - split; [done|vm_compute; reflexivity].
  - vm_compute. reflexivity.
  - vm_compute. reflexivity.
  - done.
Qed.

(** The type of inode 2 is that of a directory. *)
Lemma ext2_read_inode_spec_witness :
  wp (ext2_read_inode (G := list mjr) 20480 2 4096) (fun _ s' => rd (get_mem s') 20480 = 237 /\ rd (get_mem s') 20481 = 65)
    demo_disk.
Proof.
  eapply wp_mono; [apply (ext2_read_inode_spec (G := list mjr) demo_R (low_mem demo_disk_bytes) demo_volume
    demo_mounted_ext2 demo_disk [] 2 20480)|].
  - apply low_heap_ok.
  - by intros [].
  - apply low_foreign. unfold demo_R. lia.
  - apply agree_refl.
  - apply low_room. vm_compute. split; discriminate.
  - split; vm_compute; intuition discriminate.
  - by apply low_mapped.
  - apply low_foreign. unfold in_block, sizeof_inode. lia.
  - unfold in_block, demo_R, sizeof_inode. lia.
  - intros _ s' (g' & _ & _ & Hb).
    assert (Hi : inode_offset demo_volume 2 = 3200) by (vm_compute; reflexivity). rewrite Hi in Hb.
    rewrite <-(Z.add_0_r 20480), (Hb 0) by done. change 20481 with (20480 + 1). rewrite (Hb 1) by done.
    split; vm_compute; reflexivity.
Defined.

(** The device of the example, whose disk is what its memory holds. *)
Lemma initrd_block_device_witness : block_device demo_R (low_mem demo_disk_bytes) demo_volume.
Proof.
  apply (initrd_block_device demo_R (low_mem demo_disk_bytes) demo_volume 8192 10).
  - exact demo_initrd.
  - exact demo_initrd_byte.
  - done.
  - lia.
  - done.
  - intros dev buf st len s.
    replace (rd32 (low_mem demo_disk_bytes) (v_dev demo_volume + D_read)) with 77 by (vm_compute; reflexivity). done.
Defined.
