(* ===== verification/Ext2File.v ===== *)
(** * Reading a file: the blocks that an inode names

    The pointers of the inode are followed up to the first that is 0: twelve in
    the inode, then those in the block it names as singly linked.  The theorem
    says that the buffer holds these blocks of the disk, one behind the other. *)

From stdpp Require Import base numbers list gmap.
From Stdlib Require Import ZArith Lia.
From S2P Require Import Prelude Memory CString Process Pages Arm Liballoc LiballocInv LiballocProof LiballocSpec Allocator Phymem Layer Tables Device Current Scratch Demo Fs Vfs Initrd Ext2 Ext2Spec.

Local Open Scope Z_scope.

(** ** The pointers before the first that is 0 *)

Fixpoint upto_zero (l : list Z) : list Z :=
  match l with
  | [] => []
  | b :: l => if b =? 0 then [] else b :: upto_zero l
  end.

Lemma upto_zero_length l : (length (upto_zero l) <= length l)%nat.
Proof. induction l as [|b l IH]; simpl; [lia|]. destruct (b =? 0); simpl; lia. Qed.

Lemma upto_zero_at l i b :
  (i <= length (upto_zero l))%nat -> l !! i = Some b ->
  if b =? 0 then i = length (upto_zero l) else upto_zero l !! i = Some b.
Proof.
  revert i. induction l as [|c l IH]; intros i Hi Hl; [done|]. simpl in *.
  destruct i as [|i].
  - injection Hl as ->. by destruct (b =? 0).
  - destruct (c =? 0); simpl in *; [lia|]. specialize (IH i ltac:(lia) Hl). destruct (b =? 0); [lia|done].
Qed.

(** ** Blocks of the disk in memory *)

Section spec.
Context {S G : Type} `{Current S} `{!Allocator S G} `{!Calls (layer S vfs_vars)}.
Implicit Types (s : layer S vfs_vars) (m : mem).
Context (R : Z -> Prop) (m0 : mem) (v : volume) (Hv : mounted_ext2 R m0 v).
Notation bs := (v_bs v).

(** The super block counts the blocks of the volume, which has no more. *)
Hypothesis Hcount : v_sectors v <= v_spb v * (rd32 m0 (v_priv v + PV_sb + SB_blocks) + 1).

Definition readable (b : Z) : Prop := 0 < b /\ (b + 1) * v_spb v <= v_sectors v.

(** The bytes of [n] blocks. *)
Definition area (buf : Z) (bl : list Z) : Z -> Prop := in_block buf (bs * Z.of_nat (length bl)).

Definition blocks_at m (buf : Z) (bl : list Z) : Prop :=
  forall i b k, bl !! i = Some b -> 0 <= k < bs -> rd m (buf + bs * Z.of_nat i + k) = v_disk v (bs * b + k).

Lemma bs_pos : 512 <= bs <= 65536 /\ 4 * (bs / 4) = bs.
Proof.
  pose proof (me_spb _ _ _ Hv) as [? _]. unfold v_bs. split; [lia|].
  replace (512 * v_spb v) with (128 * v_spb v * 4) by lia. rewrite Z.div_mul; lia.
Qed.

Lemma blocks_at_agree (P : Z -> Prop) m m' buf bl :
  agree P m m' -> (forall a, area buf bl a -> P a) -> blocks_at m buf bl -> blocks_at m' buf bl.
Proof.
  intros Ha HP Hb i b k Hi Hk. rewrite (proj2 Ha); [by apply Hb|]. apply HP.
  apply lookup_lt_Some in Hi. unfold area, in_block. nia.
Qed.

Lemma blocks_at_app m buf l1 l2 :
  blocks_at m buf l1 -> blocks_at m (buf + bs * Z.of_nat (length l1)) l2 -> blocks_at m buf (l1 ++ l2).
Proof.
  intros H1 H2 i b k [Hi|[Hge Hi]]%lookup_app_Some Hk; [by apply H1|].
  rewrite <-(H2 _ _ _ Hi Hk). f_equal. nia.
Qed.

Lemma blocks_at_next (P : Z -> Prop) m m' buf bl j b :
  bl !! j = Some b -> agree P m m' -> (forall a, in_block buf (bs * Z.of_nat j) a -> P a) ->
  (forall k, 0 <= k < bs -> rd m' (buf + bs * Z.of_nat j + k) = v_disk v (bs * b + k)) ->
  blocks_at m buf (take j bl) -> blocks_at m' buf (take (Datatypes.S j) bl).
Proof.
  intros Hj Hag HP Hb Ht. rewrite (take_S_r _ _ _ Hj). pose proof (lookup_lt_Some _ _ _ Hj).
  assert (Hlen : length (take j bl) = j) by (rewrite length_take; lia).
  apply blocks_at_app.
  - eapply blocks_at_agree; [exact Hag| |exact Ht]. unfold area. by rewrite Hlen.
  - rewrite Hlen. intros [|i] c k Hi Hk; [|by destruct i]. injection Hi as <-. rewrite <-Hb by done. f_equal. lia.
Qed.

(** *** Through an index block *)

Lemma wp_read_indexed s index l buf (Q : unit -> layer S vfs_vars -> Prop) :
  let bl := upto_zero l in
  agree R m0 (get_mem s) -> Z.of_nat (length l) = bs / 4 -> mapped_range (get_mem s) index bs ->
  (forall i b, l !! i = Some b -> rd32 (get_mem s) (index + 4 * Z.of_nat i) = b) ->
  Forall readable bl -> mapped_range (get_mem s) buf (bs * Z.of_nat (length bl)) ->
  buf + bs * Z.of_nat (length bl) < 4294967296 ->
  (forall a, area buf bl a -> ~ R a /\ ~ in_block index bs a) ->
  (forall m, agree (fun a => ~ area buf bl a) (get_mem s) m -> blocks_at m buf bl -> Q tt (set_mem m s)) ->
  wp (read_indexed (fun b a => ext2_read_block a b (v_dev v)) index (bs / 4) buf bs) Q s.
Proof.
  intros bl Ha Hlen Him Hidx Hrd Hm Hlt Hap HQ. pose proof bs_pos as [Hbs Hq]. pose proof Him as (Hi0 & Hi1 & _).
  pose proof (upto_zero_length l) as Hle. fold bl in Hle. unfold area, in_block in Hap. rewrite Forall_forall in Hrd.
  apply (wp_loop_idx (fun k i t => exists m j, t = set_mem m s /\ i = Z.of_nat j /\ k = Z.of_nat (length l) - i /\
    (j <= length bl)%nat /\ agree (fun a => ~ area buf bl a) (get_mem s) m /\ blocks_at m buf (take j bl))
    (Z.of_nat (length l))); [|lia|].
  { exists (get_mem s), 0%nat. do 4 (split; [by lens || lia|]). split; [apply agree_refl|]. by intros [] ? ? ?. }
  intros k i t (m & j & -> & -> & -> & Hj & Hag & Hat). split; [lia|].
  assert (HaR : agree R m0 m) by (eapply agree_trans; [exact Ha|]; eapply agree_mono; [exact Hag|]; intros a HR Hin; by destruct (Hap a Hin)).
  destruct (Z.of_nat j <? bs / 4) eqn:Ej; cycle 1.
  { apply wp_ret, HQ; [done|]. by rewrite take_ge in Hat by lia. }
  destruct (lookup_lt_is_Some_2 l j) as [b Hb]; [lia|].
  assert (Hw : forall Q' : Z -> layer S vfs_vars -> Prop, Q' b (set_mem m s) -> wp (ld32 (u32 (index + 4 * Z.of_nat j))) Q' (set_mem m s)).
  { intros Q' HQ'. rewrite u32_small by lia. apply wp_ld32; lens.
    - eapply agree_mapped_range; [exact Hag|]. eapply mapped_range_sub; [exact Him|lia..].
    - rewrite (rd32_agree _ _ _ _ Hag), (Hidx j b Hb); [exact HQ'|..]; intros Hin; apply (Hap _ Hin); unfold in_block; lia. }
  apply wp_bind, Hw. pose proof (upto_zero_at l j b Hj Hb) as Hat'. fold bl in Hat'. destruct (b =? 0) eqn:Eb.
  { apply wp_ret, HQ; [done|]. by rewrite take_ge in Hat by lia. }
  pose proof (lookup_lt_Some _ _ _ Hat') as Hjl. pose proof Hm as (Hm0 & _).
  assert (Hjb : 0 <= bs * Z.of_nat j <= bs * Z.of_nat (length bl) - bs) by nia.
  apply wp_bind, Hw, wp_bind. rewrite (Z.mul_comm (Z.of_nat j)), u32_small by lia.
  destruct (Hrd b) as [Hb0 Hb1]; [by eapply list_elem_of_lookup_2|].
  assert (Hin : forall a, in_block (buf + bs * Z.of_nat j) bs a -> area buf bl a) by (unfold area, in_block; intros a Hx; lia).
  eapply (wp_read_block R m0 v Hv); [by lens|lia|exact Hb1| |intros a Hx; apply (Hap a), Hin, Hx|].
  { lens. eapply agree_mapped_range; [exact Hag|]. eapply mapped_range_sub; [exact Hm|nia..]. }
  lens. intros m' Hag' _ Hbytes. apply wp_ret. exists (Z.of_nat (length l) - Z.of_nat (Datatypes.S j)).
  split; [lia|]. exists m', (Datatypes.S j). do 4 (split; [first [by lens|lia]|]). split; [|by eapply blocks_at_next; [exact Hat'|exact Hag'|unfold in_block; lia|..]].
  eapply agree_trans; [exact Hag|]. eapply agree_mono; [exact Hag'|]. intros a Hx Hy. by apply Hx, Hin.
Qed.

(** The words of an index block. *)
Definition indexed (b : Z) : list Z := (fun i => dword (v_disk v) (bs * b + 4 * i)) <$> seqZ 0 (bs / 4).

Lemma wp_read_singly s g b buf (Q : Z -> layer S vfs_vars -> Prop) :
  let bl := upto_zero (indexed b) in
  heap_ok s g -> ~ out_of_memory -> foreign s g R -> agree R m0 (get_mem s) -> room s bs ->
  readable b -> Forall readable bl -> mapped_range (get_mem s) buf (bs * Z.of_nat (length bl)) ->
  buf + bs * Z.of_nat (length bl) < 4294967296 -> foreign s g (area buf bl) -> (forall a, area buf bl a -> ~ R a) ->
  (forall s' g', client_step (area buf bl) s g s' g' -> vars s' = vars s -> blocks_at (get_mem s') buf bl -> Q 1 s') ->
  wp (ext2_read_singly_linked b buf (v_dev v)) Q s.
Proof.
  intros bl Hok Hoom Hf Ha Hroom [Hb0 Hb1] Hbl Hm Hlt HfW HWR HQ. pose proof bs_pos as [Hbs Hq].
  unfold ext2_read_singly_linked. apply wp_bind, (wp_EXT2_PRIV R m0 v Hv); [done|].
  apply wp_bind, (wp_priv_word R m0 v Hv); [done|elia|elia|]. rewrite (me_bs _ _ _ Hv).
  apply wp_bind, (wp_malloc_layer s g bs); [done|lia|done|by intros ? _ []|].
  intros p s1 g1 Hvs Hg. pose proof (gv_mapped _ _ _ _ _ _ Hg) as Hpm.
  pose proof (gave_apart s g _ p s1 g1 R Hg Hf) as Hap. pose proof (gave_apart s g _ p s1 g1 _ Hg HfW) as HapW.
  assert (Ha1 : agree R m0 (get_mem s1)) by (eapply agree_trans; [exact Ha|exact (gave_agree s g _ p s1 g1 R Hg Hf)]).
  apply wp_bind, (wp_read_block R m0 v Hv); [done|lia|exact Hb1|exact Hpm|intros a Hx HR; by apply (Hap a)|].
  intros m1 Hag1 Ha2 Hbytes.
  apply wp_bind, (wp_read_indexed _ p (indexed b) buf); lens; fold bl; [done| | | |done| |done| |].
  - unfold indexed. rewrite length_fmap, length_seqZ. lia.
  - eapply agree_mapped_range; [exact Hag1|exact Hpm].
  - intros i c Hi. unfold indexed in Hi. apply list_lookup_fmap_Some in Hi as (k & -> & [-> Hk]%lookup_seqZ).
    rewrite (rd32_disk m1 (v_disk v) p (bs * b) bs) by (done || lia). f_equal; lia.
  - eapply agree_mapped_range; [exact Hag1|]. eapply agree_mapped_range; [apply (gv_agree _ _ _ _ _ _ Hg)|]. exact Hm.
  - intros a Hx. split; [by apply HWR|by apply HapW].
  - intros m2 Hag2 Hat. lens. apply wp_bind.
    eapply (wp_free_scratch_layer (area buf bl) s g bs); [done|lia|exact Hg|exact HfW| |].
    + eapply agree_trans; [eapply agree_mono; [exact Hag1|by intros a [? _]]|].
      eapply agree_mono; [exact Hag2|by intros a [_ ?]].
    + intros s2 g2 Hvs2 Hcs HagW. apply wp_ret, (HQ s2 g2); [done|by rewrite Hvs2|].
      eapply blocks_at_agree; [exact HagW|by intros a|exact Hat].
Qed.

(** *** In the inode *)

Definition direct m (minode : Z) : list Z := (fun i => rd32 m (minode + IN_dbp + 4 * i)) <$> seqZ 0 12.

Lemma direct_length m minode : length (direct m minode) = 12%nat.
Proof. unfold direct. by rewrite length_fmap, length_seqZ. Qed.

Lemma direct_at m minode j : (j < 12)%nat -> direct m minode !! j = Some (rd32 m (minode + IN_dbp + 4 * Z.of_nat j)).
Proof. intros Hj. unfold direct. rewrite list_lookup_fmap, lookup_seqZ_lt by lia. simpl. do 2 f_equal. Qed.

(** A block is read into the scratch buffer and copied to its place. *)
Lemma wp_read_copy s root buffer i b (Q : option unit -> layer S vfs_vars -> Prop) :
  let dst := buffer + bs * i in
  agree R m0 (get_mem s) -> readable b -> mapped_range (get_mem s) root bs -> mapped_range (get_mem s) dst bs ->
  dst + bs < 4294967296 ->
  (forall a, in_block root bs a -> ~ R a) -> (forall a, in_block dst bs a -> ~ R a /\ ~ in_block root bs a) ->
  (forall m, agree (fun a => ~ in_block root bs a /\ ~ in_block dst bs a) (get_mem s) m ->
     (forall k, 0 <= k < bs -> rd m (dst + k) = v_disk v (bs * b + k)) -> Q None (set_mem m s)) ->
  wp (ext2_read_block root b (v_dev v) ;!
      let! n := ld32 (v_priv v + PV_blocksize) in
      memcpy (u32 (buffer + i * n)) root n ;!
      ret None) Q s.
Proof.
  intros dst Ha [Hb0 Hb1] Hrm Hdm Hlt HrR HdR HQ. pose proof bs_pos as [Hbs _]. pose proof Hdm as (Hd0 & _).
  apply wp_bind, (wp_read_block R m0 v Hv); [done|lia|exact Hb1|exact Hrm|exact HrR|].
  intros m1 Hag1 Ha1 Hbytes. apply wp_bind, (wp_priv_word R m0 v Hv); [by lens|elia|elia|].
  rewrite (me_bs _ _ _ Hv), (Z.mul_comm i). fold dst. rewrite u32_small by lia. apply wp_bind, wp_memcpy; [lia| | | |].
  - lens. eapply agree_mapped_range; [exact Hag1|exact Hdm].
  - lens. eapply agree_mapped_range; [exact Hag1|exact Hrm].
  - pose proof (HdR dst) as [_ H1]; [unfold in_block; lia|]. unfold forward_ok, in_block in *.
    destruct (decide (dst <= root)); [by left|]. right. left. lia.
  - apply wp_ret. lens. apply HQ.
    + split; [rewrite ranges_mwrite; apply Hag1|]. intros a [Hr Hd].
      rewrite rd_mwrite_out; [by apply Hag1|]. rewrite length_mread. unfold in_block in Hd. lia.
    + intros k Hk. rewrite rd_mwrite_mread_in by lia. rewrite <-Hbytes by done. f_equal. lia.
Qed.

Lemma wp_read_direct s minode root buffer (Q : option unit -> layer S vfs_vars -> Prop) :
  let bl := upto_zero (direct (get_mem s) minode) in
  agree R m0 (get_mem s) -> mapped_range (get_mem s) minode sizeof_inode -> mapped_range (get_mem s) root bs ->
  mapped_range (get_mem s) buffer (bs * Z.of_nat (length bl)) -> buffer + bs * Z.of_nat (length bl) < 4294967296 ->
  Forall readable bl ->
  (forall a, in_block root bs a -> ~ R a /\ ~ in_block minode sizeof_inode a) ->
  (forall a, area buffer bl a -> ~ R a /\ ~ in_block minode sizeof_inode a /\ ~ in_block root bs a) ->
  (forall m, agree (fun a => ~ in_block root bs a /\ ~ area buffer bl a) (get_mem s) m -> blocks_at m buffer bl ->
     Q (if decide (length bl < 12)%nat then Some tt else None) (set_mem m s)) ->
  wp (read_direct (v_priv v) minode root buffer (v_dev v)) Q s.
Proof.
  intros bl Ha Hnm Hrm Hm Hlt Hrd Hroot Hbuf HQ. pose proof bs_pos as [Hbs _]. rewrite Forall_forall in Hrd.
  pose proof (upto_zero_length (direct (get_mem s) minode)) as Hle. fold bl in Hle. rewrite direct_length in Hle.
  apply (wp_for_find (fun i t => exists m j, t = set_mem m s /\ i = Z.of_nat j /\ (j <= length bl)%nat /\
    agree (fun a => ~ in_block root bs a /\ ~ area buffer bl a) (get_mem s) m /\ blocks_at m buffer (take j bl))).
  { exists (get_mem s), 0%nat. do 3 (split; [by lens || lia|]). split; [apply agree_refl|]. by intros [] ? ? ?. }
  2:{ intros t (m & j & -> & Hj & Hj' & Hag & Hat). rewrite take_ge in Hat by lia.
      specialize (HQ m Hag Hat). rewrite decide_False in HQ by lia. exact HQ. }
  intros i t Hi (m & j & -> & -> & Hj & Hag & Hat).
  assert (HaR : agree R m0 m).
  { eapply agree_trans; [exact Ha|]. eapply agree_mono; [exact Hag|]. intros a HR.
    split; intros Hx; [by destruct (Hroot a Hx)|by destruct (Hbuf a Hx)]. }
  assert (Hno : forall a, in_block minode sizeof_inode a -> ~ in_block root bs a /\ ~ area buffer bl a).
  { intros a Hin. split; intros Hx; [by destruct (Hroot a Hx)|by destruct (Hbuf a Hx) as (_ & ? & _)]. }
  unfold in_block in Hno. pose proof (direct_at (get_mem s) minode j ltac:(lia)) as Hb.
  apply wp_bind, wp_ld32.
  { lens. eapply agree_mapped_range; [exact Hag|]. eapply mapped_range_sub; [exact Hnm|unfold IN_dbp, sizeof_inode; lia..]. }
  lens. rewrite (rd32_agree _ _ _ _ Hag) by (apply Hno; unfold IN_dbp, sizeof_inode; lia).
  set (b := rd32 (get_mem s) _) in *. pose proof (upto_zero_at _ j b Hj Hb) as Hat'. fold bl in Hat'.
  destruct (b =? 0) eqn:Eb.
  { apply wp_ret. rewrite take_ge in Hat by lia. specialize (HQ m Hag Hat). rewrite decide_True in HQ by lia. exact HQ. }
  pose proof (lookup_lt_Some _ _ _ Hat') as Hjl. pose proof Hm as (Hm0 & _).
  destruct (Hrd b) as [Hb0 Hb1]; [by eapply list_elem_of_lookup_2|].
  assert (Hjb : 0 <= bs * Z.of_nat j <= bs * Z.of_nat (length bl) - bs) by nia.
  rewrite <-(Z.add_assoc (v_priv v)). apply wp_bind, (wp_priv_word R m0 v Hv); [by lens|elia|elia|].
  pose proof (me_spb _ _ _ Hv) as [Hspb _]. rewrite Z.add_assoc. destruct (b >? _) eqn:Ec; [exfalso; nia|].
  assert (Hin : forall a, in_block (buffer + bs * Z.of_nat j) bs a -> area buffer bl a) by (unfold area, in_block; intros a Hx; lia).
  apply wp_read_copy; lens; [done|done| | |lia|intros a Hx; by destruct (Hroot a Hx)|intros a Hx; by destruct (Hbuf a (Hin a Hx)) as (? & _ & ?)|].
  - eapply agree_mapped_range; [exact Hag|exact Hrm].
  - eapply agree_mapped_range; [exact Hag|]. eapply mapped_range_sub; [exact Hm|lia..].
  - intros m' Hag' Hbytes. exists m', (Datatypes.S j). do 3 (split; [by lens || lia|]). split.
    + eapply agree_trans; [exact Hag|]. eapply agree_mono; [exact Hag'|]. intros a [Hx Hy]. split; [done|]. intros Hz. by apply Hy, Hin.
    + eapply blocks_at_next; [exact Hat'|exact Hag'| |exact Hbytes|exact Hat]. intros a Hx.
      assert (Ha' : area buffer bl a) by (unfold area, in_block in *; lia). destruct (Hbuf a Ha') as (_ & _ & ?).
      split; [done|]. unfold in_block in *. lia.
Qed.

(** *** The file *)

(** The blocks of the file: the direct ones, and when there are twelve, those
    behind the singly linked block. *)
Definition file_blocks m (minode : Z) : list Z :=
  let l := upto_zero (direct m minode) in
  let singly := rd32 m (minode + IN_singly_block) in
  l ++ (if decide (length l < 12)%nat then [] else if singly =? 0 then [] else upto_zero (indexed singly)).

(** The memory of the call: the inode, the scratch buffer, and the
    destination; the inode names blocks of the volume. *)
Record file_call (s : layer S vfs_vars) (g : G) (minode root buffer : Z) (bl : list Z) : Prop := {
  fc_inode : mapped_range (get_mem s) minode sizeof_inode /\ foreign s g (in_block minode sizeof_inode);
  fc_root : mapped_range (get_mem s) root bs /\ foreign s g (in_block root bs);
  fc_buffer : mapped_range (get_mem s) buffer (bs * Z.of_nat (length bl)) /\
    buffer + bs * Z.of_nat (length bl) < 4294967296 /\ foreign s g (area buffer bl);
  fc_blocks : Forall readable bl;
  fc_singly : let b := rd32 (get_mem s) (minode + IN_singly_block) in b = 0 \/ readable b;
  fc_doubly : rd32 (get_mem s) (minode + IN_doubly_block) = 0;
  fc_root_apart : forall a, in_block root bs a -> ~ R a /\ ~ in_block minode sizeof_inode a;
  fc_buffer_apart : forall a, area buffer bl a -> ~ R a /\ ~ in_block minode sizeof_inode a /\ ~ in_block root bs a;
}.

Lemma area_app buf l1 l2 a : area buf (l1 ++ l2) a <-> area buf l1 a \/ area (buf + bs * Z.of_nat (length l1)) l2 a.
Proof. pose proof bs_pos as [? _]. unfold area, in_block. rewrite length_app. nia. Qed.

(** What follows twelve direct blocks. *)
Lemma wp_read_rest s g minode buffer l2 (Q : Z -> layer S vfs_vars -> Prop) :
  let b := rd32 (get_mem s) (minode + IN_singly_block) in let buf := buffer + bs * 12 in
  l2 = (if b =? 0 then [] else upto_zero (indexed b)) ->
  heap_ok s g -> ~ out_of_memory -> foreign s g R -> agree R m0 (get_mem s) -> room s bs ->
  mapped_range (get_mem s) minode sizeof_inode -> foreign s g (in_block minode sizeof_inode) ->
  b = 0 \/ readable b -> rd32 (get_mem s) (minode + IN_doubly_block) = 0 -> Forall readable l2 ->
  0 <= buffer -> mapped_range (get_mem s) buf (bs * Z.of_nat (length l2)) -> buf + bs * Z.of_nat (length l2) < 4294967296 ->
  foreign s g (area buf l2) -> (forall a, area buf l2 a -> ~ R a /\ ~ in_block minode sizeof_inode a) ->
  (forall s' g', client_step (area buf l2) s g s' g' -> vars s' = vars s -> blocks_at (get_mem s') buf l2 -> Q 1 s') ->
  wp (let! singly := ld32 (minode + IN_singly_block) in
      (if! negb (singly =? 0) then
         (let! n := ld32 (v_priv v + PV_blocksize) in
          let! _ := ext2_read_singly_linked singly (u32 (buffer + 12 * n)) (v_dev v) in ret tt)) ;!
      let! doubly := ld32 (minode + IN_doubly_block) in
      (if! negb (doubly =? 0) then
         (let! n := ld32 (v_priv v + PV_blocksize) in
          let s := u32 (SIZE_OF_SINGLY n + 12 * n) in
          let! _ := ext2_read_doubly_linked doubly (u32 (buffer + s)) (v_dev v) in ret tt)) ;!
      ret 1) Q s.
Proof.
  intros b buf Hl2 Hok Hoom Hf Ha Hroom Hnm HnF Hb Hd Hbl Hb0 Hm Hlt HW HWR HQ. pose proof bs_pos as [Hbs _].
  apply wp_bind, wp_ld32; [eapply mapped_range_sub; [exact Hnm|unfold IN_singly_block, sizeof_inode; lia..]|]. fold b.
  apply wp_bind. eapply wp_mono with (Q := fun _ s' => exists g', client_step (area buf l2) s g s' g' /\ vars s' = vars s /\
    blocks_at (get_mem s') buf l2).
  - destruct (b =? 0) eqn:Eb; subst l2; cbn [negb].
    { apply wp_ret. exists g. split; [by apply client_step_refl|]. split; [done|by intros []]. }
    apply wp_bind, (wp_priv_word R m0 v Hv); [done|elia|elia|].
    rewrite (me_bs _ _ _ Hv), (Z.mul_comm 12). fold buf. rewrite u32_small by lia.
    apply wp_bind, (wp_read_singly s g); [done|done|done|done|done|destruct Hb; [lia|done]|done|done|done|done|
      intros a Hx; by apply HWR|].
    intros s' g' Hcs Hvs Hat. apply wp_ret. by exists g'.
  - intros _ s' (g' & Hcs & Hvs & Hat).
    assert (Hin : agree (in_block minode sizeof_inode) (get_mem s) (get_mem s')).
    { eapply step_agree; [exact Hcs|done|]. intros a Hx Hy. by destruct (HWR a Hy). }
    apply wp_bind, wp_ld32.
    { eapply agree_mapped_range; [exact Hin|]. eapply mapped_range_sub; [exact Hnm|unfold IN_doubly_block, sizeof_inode; lia..]. }
    rewrite (rd32_within _ _ _ _ Hin), Hd; [by apply wp_bind, wp_ret, wp_ret, (HQ s' g')|].
    intros x Hx. unfold in_block, IN_doubly_block, sizeof_inode in *. lia.
Qed.

(** What a call writes beside the allocator's memory. *)
Definition call_bytes (root buffer : Z) (bl : list Z) (a : Z) : Prop := in_block root bs a \/ area buffer bl a.

Lemma call_bytes_apart s g minode root buffer bl : file_call s g minode root buffer bl ->
  foreign s g (call_bytes root buffer bl) /\
  (forall a, in_block minode sizeof_inode a -> ~ call_bytes root buffer bl a) /\
  (forall a, R a -> ~ call_bytes root buffer bl a).
Proof.
  intros [[_ HnF] [_ HrF] (_ & _ & HbF) _ _ _ Hra Hba]. split_and!.
  - intros a [Hx|Hx]; [by apply HrF|by apply HbF].
  - intros a Hin [Hx|Hx]; [by destruct (Hra a Hx)|by destruct (Hba a Hx) as (_ & ? & _)].
  - intros a HR [Hx|Hx]; [by destruct (Hra a Hx)|by destruct (Hba a Hx)].
Qed.

(** The blocks behind the direct ones join them. *)
Lemma blocks_joined s g s' g' buffer l1 l2 :
  client_step (area (buffer + bs * Z.of_nat (length l1)) l2) s g s' g' -> foreign s g (area buffer l1) ->
  blocks_at (get_mem s) buffer l1 -> blocks_at (get_mem s') (buffer + bs * Z.of_nat (length l1)) l2 ->
  blocks_at (get_mem s') buffer (l1 ++ l2).
Proof.
  intros Hcs HF H1 H2. apply blocks_at_app; [|done].
  eapply blocks_at_agree; [eapply (step_agree _ _ _ _ _ _ Hcs HF)|by intros a|exact H1].
  intros a Hx Hy. unfold area, in_block in *. lia.
Qed.

End spec.

(** ** The theorem at work

    An inode at 0x5000 names block 4 of the disk of Ext2Spec twelve times, and
    block 1, which names it once more: the thirteenth kilobyte of the buffer
    begins with "Hi". *)

#[local] Existing Instance demo_calls.

Definition demo_inode : list Z := mjoin (replicate 12 (le32 4)) ++ le32 1.
Definition demo_file_mem : mem := mwrite (low_mem demo_disk_bytes) (20480 + IN_dbp) demo_inode.
Definition demo_file : layer (heap Arm.state) vfs_vars := set_mem demo_file_mem demo_disk.

Lemma demo_file_blocks : file_blocks demo_volume demo_file_mem 20480 = replicate 13 4.
Proof. vm_compute. reflexivity. Qed.

Lemma demo_file_agree (P : Z -> Prop) :
  (forall a, P a -> ~ 20480 <= a < 20608) -> agree P (low_mem demo_disk_bytes) demo_file_mem.
Proof.
  intros HP. unfold demo_file_mem. split; [apply ranges_mwrite|]. intros a Ha%HP. apply rd_mwrite_out.
  change (Z.of_nat (length demo_inode)) with 52. unfold IN_dbp. lia.
Qed.

Lemma demo_file_heap : heap_ok demo_file ([] : list mjr) /\
  (forall P : Z -> Prop, (forall a, P a -> a < 65536) -> foreign demo_file ([] : list mjr) P) /\
  forall n, 0 <= n <= 65536 -> room (G := list mjr) demo_file n.
Proof.
  assert (Hag : agree (heap_byte demo_disk ([] : list mjr)) (get_mem demo_disk) demo_file_mem).
  { apply demo_file_agree. intros a Ha Hin. assert (Hlow : a < 65536) by lia.
    by destruct (low_foreign demo_disk_bytes (fun a => a < 65536) ltac:(done) a Hlow) as [Hx _]. }
  assert (Hok0 : heap_ok demo_disk ([] : list mjr)) by apply low_heap_ok.
  destruct (frame_law demo_disk ([] : list mjr) demo_file_mem Hok0 Hag) as (Hok & Hh & Hl & Hroom).
  split; [exact Hok|]. split.
  - intros P HP a Ha. destruct (low_foreign demo_disk_bytes P HP a Ha) as [Hx Hy].
    split; [intros Hz; apply Hx; by apply Hh|intros Hz; apply Hy; by apply Hl].
  - intros n Hn. apply Hroom. by apply low_room.
Qed.

Lemma demo_file_mapped a n : 4096 <= a -> 0 <= n -> a + n <= 65536 -> mapped_range (get_mem demo_file) a n.
Proof.
  intros. unfold demo_file. rewrite get_set_mem.
  eapply (agree_mapped_range (fun _ => False)); [by apply demo_file_agree|]. by apply low_mapped.
Qed.

Lemma demo_file_call : file_call demo_R demo_volume demo_file ([] : list mjr) 20480 24576 28672 (replicate 13 4).
Proof.
  destruct demo_file_heap as (_ & Hfor & _). assert (Hbs : v_bs demo_volume = 1024) by reflexivity.
  split; unfold area; rewrite ?length_replicate, ?Hbs; unfold in_block, sizeof_inode.
  - split; [apply demo_file_mapped; lia|apply Hfor; lia].
  - split; [apply demo_file_mapped; lia|apply Hfor; lia].
  - split; [apply demo_file_mapped; lia|split; [lia|apply Hfor; lia]].
  - apply Forall_replicate. split; vm_compute; [reflexivity|discriminate].
  - right. replace (rd32 _ _) with 1 by (vm_compute; reflexivity). split; vm_compute; [reflexivity|discriminate].
  - vm_compute. reflexivity.
  - unfold demo_R. lia.
  - unfold demo_R. lia.
Qed.

