(* ===== verification/Elf.v ===== *)
(** * The ELF loader: [kernel/exec/elf.c]

    The loader gives the process a new address space and copies the segments
    of the file into it.  Memory here is what the running process sees; the
    switch to the new space happens inside [schedule_noirq], which together
    with the jump to the program is a parameter.  The static [started], which
    is counted and never read, is left out. *)

From stdpp Require Import base numbers list gmap.
From Stdlib Require Import ZArith Lia.
From S2P Require Import Prelude Memory Process Pages Liballoc LiballocInv LiballocSpec Allocator Phymem Layer Tables Current Scratch Demo.

Local Open Scope Z_scope.

(** [elf_header_t] *)
Definition EH_e_ident : Z := 0.         (* 16 bytes *)
Definition EH_e_type : Z := 16.         (* uint16_t *)
Definition EH_e_machine : Z := 18.      (* uint16_t *)
Definition EH_e_version : Z := 20.
Definition EH_e_entry : Z := 24.
Definition EH_e_phoff : Z := 28.
Definition EH_e_shoff : Z := 32.
Definition EH_e_flags : Z := 36.
Definition EH_e_ehsize : Z := 40.       (* uint16_t *)
Definition EH_e_phentsize : Z := 42.    (* uint16_t *)
Definition EH_e_phnum : Z := 44.        (* uint16_t *)
Definition EH_e_shentsize : Z := 46.    (* uint16_t *)
Definition EH_e_shnum : Z := 48.        (* uint16_t *)
Definition EH_e_shstrndx : Z := 50.     (* uint16_t *)
Definition sizeof_elf_header : Z := 52.

(** [elf_program_header_t] *)
Definition PH_p_type : Z := 0.
Definition PH_p_offset : Z := 4.
Definition PH_p_vaddr : Z := 8.
Definition PH_p_paddr : Z := 12.
Definition PH_p_filesz : Z := 16.
Definition PH_p_memsz : Z := 20.
Definition PH_p_flags : Z := 24.
Definition PH_p_align : Z := 28.
Definition sizeof_elf_program_header : Z := 32.

Section load.
Context {K : Type} `{HasMem K}.

(** The magic number; the result is a flag cast to a pointer. *)
Definition elf_probe (buffer : Z) : M K Z :=
  let! c0 := ld8 (buffer + EH_e_ident) in
  if negb (c0 =? 127) then ret 0
  else
    let! c1 := ld8 (buffer + EH_e_ident + 1) in
    if negb (c1 =? 69) then ret 0
    else
      let! c2 := ld8 (buffer + EH_e_ident + 2) in
      if negb (c2 =? 76) then ret 0
      else let! c3 := ld8 (buffer + EH_e_ident + 3) in ret (if c3 =? 70 then 1 else 0).

(** The loop over the program headers; [false] when it meets a type that it
    does not know. *)
Definition elf_load (buf ph : Z) : M K bool :=
  loop (fun '(i, ph) =>
    let! phnum := ld16 (buf + EH_e_phnum) in
    if i <? phnum then
      let! type := ld32 (ph + PH_p_type) in
      match type with
      | 0 => ret (inl (i + 1, u32 (ph + sizeof_elf_program_header)))
      | 1 =>
          let! vaddr := ld32 (ph + PH_p_vaddr) in
          let! offset := ld32 (ph + PH_p_offset) in
          let! filesz := ld32 (ph + PH_p_filesz) in
          memcpy vaddr (u32 (buf + offset)) filesz ;!
          ret (inl (i + 1, u32 (ph + sizeof_elf_program_header)))
      | _ => ret (inr false)
      end
    else ret (inr true)) (0, ph).

(** The length of an argument vector. *)
Definition count_args (argv : Z) : M K Z :=
  if argv =? 0 then ret 0
  else
    loop (fun argc =>
      let! a := ld32 (u32 (argv + 4 * argc)) in
      if a =? 0 then ret (inr argc) else ret (inl (argc + 1))) 0.
End load.

Section start.
Context {K G : Type} `{Current K} `{!Allocator K G}.
Variables (phymem_alloc : Z -> M K Z) (phymem_free : Z -> Z -> M K unit).
(** [arch_setup_paged] of arch/x86/paging.c, [schedule_noirq], and the jump
    [START_EXECUTION_BY_JUMPING]. *)
Variables (arch_setup_paged : Z -> Z -> M K unit) (schedule_noirq : M K unit).
Variable start_execution : Z -> Z -> Z -> M K unit.

(** [paged] is the address of the local variable. *)
Definition elf_start (paged buf esize argv envp priv : Z) : M K Z :=
  let! type := ld16 (buf + EH_e_type) in
  if negb (type =? 2) then ret 0
  else
    let! phoff := ld32 (buf + EH_e_phoff) in
    let ph := u32 (buf + phoff) in
    let! palloc := phymem_alloc esize in
    let! p := get_process in
    let! opalloc := ld32 (p + P_palloc) in
    let! p := get_process in
    let! opalloc_len := ld32 (p + P_palloc_len) in
    arch_setup_paged paged palloc ;!
    let! p := get_process in
    let! pd := ld32 paged in
    st32 (p + P_paged) pd ;!
    let! p := get_process in
    st32 (p + P_palloc) palloc ;!
    let! p := get_process in
    st32 (p + P_palloc_len) esize ;!
    let! p := get_process in
    st32 (p + P_exec_len) esize ;!
    schedule_noirq ;!
    let! ok := elf_load buf ph in
    if negb ok then ret 0
    else
      let! argc := count_args argv in
      free buf ;!
      (if! negb (opalloc =? 0) then phymem_free opalloc opalloc_len) ;!
      let! entry := ld32 (buf + EH_e_entry) in
      start_execution entry argv argc ;!
      ret 0.
End start.

(** ** Loading is correct *)

(** The program header table at [ph] of the file of [size] bytes at [buf], as
    memory [m] holds it: [n] headers, of which the first [k] have a known type
    and the next, if there is one, does not. *)
Section image.
Variables (m : mem) (buf size ph : Z).

Definition ph_field (i o : Z) : Z := rd32 m (ph + sizeof_elf_program_header * i + o).
Definition seg_load (i : Z) : Prop := ph_field i PH_p_type = 1.
Definition seg_dest (i a : Z) : Prop := seg_load i /\ in_block (ph_field i PH_p_vaddr) (ph_field i PH_p_filesz) a.

Record elf_image (n k : Z) : Prop := {
  ei_mapped : mapped_range m buf size;
  ei_header : sizeof_elf_header <= size /\ n = rd16 m (buf + EH_e_phnum);
  ei_table : buf <= ph < buf + size /\ ph + sizeof_elf_program_header * n <= buf + size;
  ei_known : forall i, 0 <= i < k -> ph_field i PH_p_type = 0 \/ seg_load i;
  ei_stop : 0 <= k <= n /\ (k < n -> ph_field k PH_p_type <> 0 /\ ph_field k PH_p_type <> 1);
  ei_inside : forall i, 0 <= i < k -> seg_load i ->
    ph_field i PH_p_offset + ph_field i PH_p_filesz <= size;
  ei_dest : forall i, 0 <= i < k -> seg_load i ->
    mapped_range m (ph_field i PH_p_vaddr) (ph_field i PH_p_filesz) /\
    (ph_field i PH_p_vaddr + ph_field i PH_p_filesz <= buf \/ buf + size <= ph_field i PH_p_vaddr);
}.

(** Memory after the first [i] segments: each byte of a destination comes from
    the file, the last segment over it decides, and nothing else changed. *)
Record loaded (i : Z) (m' : mem) : Prop := {
  ld_out : agree (fun a => forall j, 0 <= j < i -> ~ seg_dest j a) m m';
  ld_in : forall j a, 0 <= j < i -> seg_dest j a -> (forall j', j < j' < i -> ~ seg_dest j' a) ->
    rd m' a = rd m (buf + ph_field j PH_p_offset + (a - ph_field j PH_p_vaddr));
}.

Lemma loaded_file n k i m' : elf_image n k -> 0 <= i <= k -> loaded i m' -> agree (fun a => in_block buf size a) m m'.
Proof.
  intros Hi Hk [Ho _]. eapply agree_mono; [exact Ho|]. unfold in_block, seg_dest. intros a Ha j Hj [Hl Hd].
  destruct (ei_dest _ _ Hi j ltac:(lia) Hl) as [_ ?]. unfold in_block in Hd. lia.
Qed.

Lemma loaded_skip i m' : 0 <= i -> ~ seg_load i -> loaded i m' -> loaded (i + 1) m'.
Proof.
  intros Hi0 Hn [Ho Hi]. split.
  - eapply agree_mono; [exact Ho|]. intros a Ha j Hj. apply Ha. lia.
  - intros j a Hj Hd Hl. destruct (decide (j = i)) as [->|]; [by destruct Hd|].
    apply Hi; [lia|done|]. intros j' Hj'. apply Hl. lia.
Qed.

Lemma loaded_copy n k i m' :
  elf_image n k -> 0 <= i < k -> seg_load i -> loaded i m' ->
  loaded (i + 1) (mwrite m' (ph_field i PH_p_vaddr) (mread m' (buf + ph_field i PH_p_offset) (ph_field i PH_p_filesz))).
Proof.
  intros He Hk Hl Hld. pose proof (loaded_file n k i m' He ltac:(lia) Hld) as [_ Hf].
  pose proof (ei_inside _ _ He i Hk Hl) as Hin. destruct (ei_dest _ _ He i Hk Hl) as [(? & ? & _) _].
  pose proof (rd32_range m (ph + sizeof_elf_program_header * i + PH_p_filesz)) as Hsz. fold (ph_field i PH_p_filesz) in Hsz.
  pose proof (rd32_range m (ph + sizeof_elf_program_header * i + PH_p_offset)) as Hof. fold (ph_field i PH_p_offset) in Hof.
  destruct Hld as [[Hr Ho] Hi]. split.
  - split; [by rewrite ranges_mwrite|]. intros a Ha.
    rewrite rd_mwrite_out; [apply Ho; intros j Hj; apply Ha; lia|]. rewrite length_mread.
    assert (~ seg_dest i a) as Hnd by (apply Ha; lia). unfold seg_dest, in_block in Hnd.
    destruct (decide (ph_field i PH_p_vaddr <= a < ph_field i PH_p_vaddr + ph_field i PH_p_filesz)); [tauto|lia].
  - intros j a Hj Hd Hlast. destruct (decide (j = i)) as [->|].
    + destruct Hd as [_ Hb]. unfold in_block in Hb. rewrite rd_mwrite_mread_in by lia.
      apply Hf. unfold in_block. lia.
    + rewrite rd_mwrite_out; [apply Hi; [lia|done|]; intros; apply Hlast; lia|]. rewrite length_mread.
      assert (~ seg_dest i a) as Hnd by (apply Hlast; lia). unfold seg_dest, in_block in Hnd.
      destruct (decide (ph_field i PH_p_vaddr <= a < ph_field i PH_p_vaddr + ph_field i PH_p_filesz)); [tauto|lia].
Qed.
End image.

Section spec.
Context {K : Type} `{HasMem K}.
Implicit Types (s : K).

(** A word of a header, while segments are being loaded. *)
Lemma wp_header_word s buf size ph n k i m' o (Q : Z -> K -> Prop) :
  let m := get_mem s in
  elf_image m buf size ph n k -> 0 <= i <= k -> i < n -> loaded m buf ph i m' -> 0 <= o <= 28 ->
  Q (ph_field m ph i o) (set_mem m' s) -> wp (ld32 (ph + 32 * i + o)) Q (set_mem m' s).
Proof.
  intros m He Hi Hin Hld Ho HQ. pose proof (loaded_file m buf size ph n k i m' He Hi Hld) as Hf.
  destruct (ei_table _ _ _ _ _ _ He) as [Hph1 Hph2]. unfold sizeof_elf_program_header in *.
  apply wp_ld32; lens.
  - rewrite agree_mapped_range by exact Hf. eapply mapped_range_sub; [apply (ei_mapped _ _ _ _ _ _ He)|lia..].
  - rewrite (rd32_agree _ _ _ _ Hf) by (unfold in_block; lia). exact HQ.
Qed.

(** One segment is copied. *)
Lemma wp_load_segment s buf size ph n k i m' (Q : unit -> K -> Prop) :
  let m := get_mem s in
  elf_image m buf size ph n k -> 0 <= i < k -> seg_load m ph i -> loaded m buf ph i m' ->
  (forall m'', loaded m buf ph (i + 1) m'' -> Q tt (set_mem m'' s)) ->
  wp (memcpy (ph_field m ph i PH_p_vaddr) (u32 (buf + ph_field m ph i PH_p_offset)) (ph_field m ph i PH_p_filesz)) Q (set_mem m' s).
Proof.
  intros m He Hi Hl Hld HQ. pose proof (loaded_file m buf size ph n k i m' He ltac:(lia) Hld) as Hf.
  pose proof (ei_mapped _ _ _ _ _ _ He) as Hmap. pose proof Hmap as (Hb0 & Hb1 & _).
  destruct (ei_dest _ _ _ _ _ _ He i Hi Hl) as [Hdm Hdd]. pose proof (ei_inside _ _ _ _ _ _ He i Hi Hl) as Hfs.
  pose proof (loaded_copy m buf size ph n k i m' He Hi Hl Hld) as Hc.
  assert (Hr : forall o, 0 <= ph_field m ph i o < 4294967296) by (intros o; apply rd32_range).
  pose proof (Hr PH_p_filesz) as Hr1. pose proof (Hr PH_p_offset) as Hr2. clear Hr.
  destruct (ei_header _ _ _ _ _ _ He) as [Hsz _]. unfold sizeof_elf_header in Hsz.
  set (d := ph_field m ph i PH_p_vaddr) in *. set (o := ph_field m ph i PH_p_offset) in *. set (z := ph_field m ph i PH_p_filesz) in *.
  pose proof (u32_range (buf + o)) as Hu.
  assert (Hsrc : 0 < z -> u32 (buf + o) = buf + o) by (intros; apply u32_small; lia).
  apply wp_memcpy; [lia| | | |].
  - lens. by rewrite agree_mapped_range by exact Hf.
  - destruct (decide (0 < z)); cycle 1.
    { split_and!; [lia..|]. intros; lia. }
    rewrite Hsrc by done. lens. rewrite agree_mapped_range by exact Hf. eapply mapped_range_sub; [exact Hmap|lia..].
  - unfold forward_ok. destruct (decide (0 < z)); [rewrite Hsrc by done|]; lia.
  - lens. apply HQ. destruct (decide (0 < z)); [by rewrite Hsrc|].
    assert (Hz : forall q, mread m' q z = []) by (intros; unfold mread; by rewrite seqZ_nil by lia).
    by rewrite Hz in *.
Qed.

(** C38: The loader copies every segment of an executable to its place.  For a
    file in memory whose header table and whose segments are inside it and
    whose destinations are mapped and apart from the file, the loop ends; it
    has handled the headers before the first of an unknown type, and returns
    whether it came to the end; every byte of a segment it loaded that no later
    one covers is the file's, and no other memory changed. *)
Theorem elf_load_spec s buf size ph n k :
  elf_image (get_mem s) buf size ph n k ->
  wp (elf_load buf ph) (fun ok s' => ok = (k =? n) /\
    exists m', s' = set_mem m' s /\ loaded (get_mem s) buf ph k m') s.
Proof.
  intros He. set (m := get_mem s) in *. pose proof (ei_stop _ _ _ _ _ _ He) as [Hk Hbad].
  destruct (ei_header _ _ _ _ _ _ He) as [Hsz Hn]. destruct (ei_table _ _ _ _ _ _ He) as [Hph1 Hph2].
  pose proof (ei_mapped _ _ _ _ _ _ He) as Hmap. destruct Hmap as (Hb0 & Hb1 & _). pose proof (ei_mapped _ _ _ _ _ _ He) as Hmap.
  unfold sizeof_elf_header, sizeof_elf_program_header in *.
  unfold elf_load. apply (wp_loop (fun '(i, p) s' => 0 <= i <= k /\ p = u32 (ph + 32 * i) /\
    exists m', s' = set_mem m' s /\ loaded m buf ph i m') (fun '(i, _) _ => n - i)).
  { rewrite Z.mul_0_r, Z.add_0_r, u32_small by lia. split_and!; [lia..|done|]. exists m.
    subst m. lens. split; [done|]. split; [done|]. intros. lia. }
  { pose proof (rd_range m (buf + EH_e_phnum)). pose proof (rd_range m (buf + EH_e_phnum + 1)).
    unfold rd16 in Hn. lia. }
  intros [i p] s' (Hi & -> & m' & -> & Hld). split; [lia|].
  pose proof (loaded_file m buf size ph n k i m' He ltac:(lia) Hld) as Hf.
  apply wp_bind, wp_ld16. { lens. rewrite agree_mapped_range by exact Hf. eapply mapped_range_sub; [exact Hmap|unfold EH_e_phnum; lia..]. }
  lens. rewrite (rd16_agree _ _ _ _ Hf), <-Hn by (unfold in_block, EH_e_phnum; lia).
  destruct (Z.ltb_spec i n) as [Hin|]; cycle 1.
  { apply wp_ret. assert (i = k) as -> by lia. split; [symmetry; apply Z.eqb_eq; lia|]. by exists m'. }
  rewrite u32_small by lia.
  assert (Hword := fun o => wp_header_word s buf size ph n k i m' o). specialize Hword with (1 := He) (2 := Hi) (3 := Hin) (4 := Hld).
  apply wp_bind, Hword; [unfold PH_p_type; lia|]. fold m. destruct (decide (i = k)) as [->|].
  { destruct (Hbad Hin) as [H0 H1]. destruct (ph_field m ph k PH_p_type) as [|[q|q|]|q]; try lia;
      apply wp_ret; (split; [symmetry; apply Z.eqb_neq; lia|by exists m']). }
  assert (Hnext : u32 (ph + 32 * i + 32) = u32 (ph + 32 * (i + 1))) by (f_equal; lia).
  destruct (ei_known _ _ _ _ _ _ He i ltac:(lia)) as [Ht|Ht].
  { rewrite Ht. apply wp_ret. split; [|lia]. split_and!; [lia..|done|]. exists m'. split; [done|].
    apply loaded_skip; [lia| |done]. unfold seg_load. lia. }
  pose proof Ht as Ht'. unfold seg_load in Ht'. rewrite Ht'.
  apply wp_bind, Hword; [unfold PH_p_vaddr; lia|]. apply wp_bind, Hword; [unfold PH_p_offset; lia|].
  apply wp_bind, Hword; [unfold PH_p_filesz; lia|]. apply wp_bind, (wp_load_segment s buf size ph n k i m'); [done|lia|done|done|].
  intros m'' Hld'. apply wp_ret. split; [|lia]. split_and!; [lia..|done|]. by exists m''.
Qed.
End spec.

(** ** The theorem at work: one segment of four bytes, and a null header *)

Definition demo_elf : list Z :=
  [127; 69; 76; 70] ++ replicate 12 0 ++ le16 2 ++ le16 3 ++ le32 1 ++ le32 12288 ++ le32 52 ++ le32 0 ++ le32 0 ++
  le16 52 ++ le16 32 ++ le16 2 ++ le16 0 ++ le16 0 ++ le16 0 ++
  le32 1 ++ le32 116 ++ le32 12288 ++ le32 12288 ++ le32 4 ++ le32 4 ++ le32 5 ++ le32 4096 ++
  replicate 32 0 ++ [184; 1; 0; 195].
Definition demo_elf_mem : mem := low_mem [(8192, demo_elf)].

Lemma elf_load_spec_witness :
  wp (elf_load 8192 8244) (fun ok s' => ok = (2 =? 2) /\
    exists m', s' = set_mem m' demo_elf_mem /\ loaded (get_mem demo_elf_mem) 8192 8244 2 m') demo_elf_mem.
Proof.
  apply (elf_load_spec demo_elf_mem 8192 120 8244 2 2). split.
  - apply low_mapped; lia.
  - split; [unfold sizeof_elf_header; lia|vm_compute; reflexivity].
  - unfold sizeof_elf_program_header. lia.
  - intros i Hi. assert (i = 0 \/ i = 1) as [-> | ->] by lia; [right|left]; vm_compute; reflexivity.
  - split; [lia|]. intros Hk. lia.
  - intros i Hi Hl. assert (i = 0 \/ i = 1) as [-> | ->] by lia; [|discriminate Hl]. vm_compute. discriminate.
  - intros i Hi Hl. assert (i = 0 \/ i = 1) as [-> | ->] by lia; [|discriminate Hl].
    change (ph_field (get_mem demo_elf_mem) 8244 0 PH_p_vaddr) with (rd32 demo_elf_mem 8252).
    change (ph_field (get_mem demo_elf_mem) 8244 0 PH_p_filesz) with (rd32 demo_elf_mem 8260).
    assert (rd32 demo_elf_mem 8252 = 12288) as -> by (vm_compute; reflexivity).
    assert (rd32 demo_elf_mem 8260 = 4) as -> by (vm_compute; reflexivity).
    split; [apply low_mapped; lia|lia].
Defined.
