(* ===== verification/Mount.v ===== *)
(** * Mounting: [device_try_to_mount] of [fs/vfs.c]

    A device is offered to the file systems in order: procfs, ext2, dummyfs.
    The first whose probe takes it is mounted at the end of the table, and its
    location is then taken. *)

From stdpp Require Import base numbers list gmap.
From Stdlib Require Import ZArith Lia.
From S2P Require Import Prelude Memory CString Process Pages Arm Liballoc LiballocInv LiballocProof LiballocSpec Allocator Phymem Layer Tables Device Current Scratch Demo Fs Vfs Ext2 Procfs.

Local Open Scope Z_scope.

Section ops.
Context {S G : Type} `{Current S} `{!Allocator S G}.
Notation VS := (layer S vfs_vars).
Notation PS := (layer VS procfs_vars).
Context `{!Calls VS} `{!Calls PS}.

(** Addresses of literals, static data and functions of the file systems. *)
Variable realloc : Z -> Z -> M PS Z.
Variables (procfs_default str_test f_devconf_write f_devconf_read : Z).
Variables (str_EXT2 f_probe f_mount f_readfull f_read f_exist f_writefile f_stat f_isdir f_findinode f_list_directory : Z).

(** The new entry: neither the table's bound nor [malloc] is checked. *)
Definition add_mount (dev loc : Z) : M VS unit :=
  let! m := malloc sizeof_mount_info in
  st32 (m + MI_loc) loc ;!
  st32 (m + MI_dev) dev ;!
  assign (fun v => VfsVars (mount_points v) (last_mount_id v + 1) (__init_vfs v)) ;!
  let! v := var (fun v => v) in
  st32 (mount_points v + 4 * (last_mount_id v - 1)) m.

(** What follows a successful probe. *)
Definition mounted_by (dev loc : Z) (mount : M PS Z) : M PS Z :=
  let! r := mount in
  if r =? 0 then below (add_mount dev loc) ;! ret 0 else ret (- ENODEV).

Definition device_try_to_mount (dev loc : Z) : M PS Z :=
  if dev =? 0 then ret (- EINVAL)
  else
    let! busy := below (check_mount loc) in
    if negb (busy =? 0) then ret (- ENODEV)
    else
      let! r := procfs_probe procfs_default dev in
      if r =? 0 then mounted_by dev loc (procfs_mount realloc str_test f_devconf_write f_devconf_read dev)
      else
        let! r := below (ext2_probe str_EXT2 f_probe f_mount f_readfull f_read f_exist f_writefile f_stat f_isdir
          f_findinode f_list_directory dev) in
        if r =? 0 then mounted_by dev loc (below (ext2_mount dev))
        else
          let! r := dummyfs_probe dev in
          if r =? 0 then mounted_by dev loc (dummyfs_mount dev)
          else ret (- ENOSYS).
End ops.

(** ** The table of mounts *)

Section table.
Context {S G : Type} `{Current S} `{!Allocator S G}.
Notation VS := (layer S vfs_vars).
Notation PS := (layer VS procfs_vars).
Context `{!Calls VS} `{!Calls PS}.
Implicit Types (s : VS).

(** A mount: its structure and the string of its location lie in [R]. *)
Definition mount_entry (R : Z -> Prop) (m : mem) (p : Z) (loc : list Z) (dev : Z) : Prop :=
  exists a, p <> 0 /\ mapped_range m p 8 /\ within R p 8 /\ rd32 m (p + MI_loc) = a /\ rd32 m (p + MI_dev) = dev /\
    cstr m a loc /\ within R a (Z.of_nat (length loc) + 1).

(** The mounts [l] as mounting leaves them: counted, apart from the table, and
    the rest of the table is 0. *)
Record mount_table (R : Z -> Prop) (m : mem) (v : vfs_vars) (l : list (list Z * Z)) : Prop := {
  mb_table : mapped_range m (mount_points v) 64;
  mb_len : Z.of_nat (length l) <= MAX_MOUNTS;
  mb_count : last_mount_id v = Z.of_nat (length l);
  mb_entry : forall i loc dev, l !! i = Some (loc, dev) -> mount_entry R m (slot m (mount_points v) (Z.of_nat i)) loc dev;
  mb_free : forall i, Z.of_nat (length l) <= i < MAX_MOUNTS -> slot m (mount_points v) i = 0;
  mb_apart : forall x, R x -> ~ in_block (mount_points v) 64 x;
}.

Definition with_block (R : Z -> Prop) (p n x : Z) : Prop := R x \/ in_block p n x.

Lemma mount_table_mounted R m v l : mount_table R m v l -> mounted (with_block R (mount_points v) 64) m v l.
Proof.
  intros [Ht Hl Hc He Hf Ha]. split; [split; [done|by right]|done| |].
  - intros i loc dev Hi. destruct (He i loc dev Hi) as (a & Hp & Hm & Hw & Hloc & Hdev & Hs & Hsw).
    eexists _, a. split_and!; try done; intros x Hx; left; [by apply Hw|by apply Hsw].
  - intros. apply Hf. lia.
Qed.

Lemma mount_entry_agree (R R' : Z -> Prop) m m' p loc dev :
  agree R m m' -> (forall x, R x -> R' x) -> mount_entry R m p loc dev -> mount_entry R' m' p loc dev.
Proof.
  intros Hag HR (a & Hp & Hm & Hw & Hloc & Hdev & Hs & Hsw). exists a. split_and!; [done| | | | | |].
  - by eapply agree_mapped_range.
  - intros x Hx. by apply HR, Hw.
  - rewrite <-Hloc. apply (rd32_within R); [done|]. eapply within_sub; [exact Hw|unfold MI_loc; lia..].
  - rewrite <-Hdev. apply (rd32_within R); [done|]. eapply within_sub; [exact Hw|unfold MI_dev; lia..].
  - by eapply cstr_agree.
  - intros x Hx. by apply HR, Hsw.
Qed.

(** A new mount [p] behind the others. *)
Lemma mount_table_snoc (R R' : Z -> Prop) m m' v l p loc dev :
  let v' := VfsVars (mount_points v) (last_mount_id v + 1) (__init_vfs v) in
  mount_table R m v l -> Z.of_nat (length l) < MAX_MOUNTS -> agree R m m' -> (forall x, R x -> R' x) ->
  (forall x, R' x -> ~ in_block (mount_points v) 64 x) -> mount_entry R' m' p loc dev ->
  (forall i, 0 <= i < MAX_MOUNTS -> slot m' (mount_points v) i = if i =? Z.of_nat (length l) then p else slot m (mount_points v) i) ->
  mount_table R' m' v' (l ++ [(loc, dev)]).
Proof.
  intros v' [Ht Hl Hc He Hf Ha] Hlt Hag HR HR' Hp Hs. unfold MAX_MOUNTS in *. split; rewrite ?length_app; simpl; try done.
  - by eapply agree_mapped_range.
  - unfold MAX_MOUNTS. lia.
  - rewrite Hc. lia.
  - intros i loc' dev' [Hi|[Hge Hi]]%lookup_app_Some.
    + pose proof (lookup_lt_Some _ _ _ Hi). rewrite Hs by lia. rewrite (proj2 (Z.eqb_neq _ _)) by lia. eapply mount_entry_agree; [done..|by apply He].
    + destruct (i - length l)%nat eqn:E; [|done]. injection Hi as <- <-. replace i with (length l) in * by lia.
      rewrite Hs by lia. by rewrite Z.eqb_refl.
  - unfold MAX_MOUNTS. intros i Hi. rewrite Hs by lia. rewrite (proj2 (Z.eqb_neq _ _)) by lia. apply Hf. lia.
Qed.

(** The device at a location. *)
Fixpoint mounted_at (loc : list Z) (l : list (list Z * Z)) : Z :=
  match l with
  | [] => 0
  | (loc', dev) :: l => if decide (loc = loc') then dev else mounted_at loc l
  end.

Lemma mounted_at_app loc l l' : loc ∉ l.*1 -> mounted_at loc (l ++ l') = mounted_at loc l'.
Proof.
  induction l as [|[loc' dev] l IH]; simpl; [done|]. intros Hn. rewrite decide_False; [apply IH|]; set_solver.
Qed.

Lemma mounted_at_drop loc l i : (forall j loc' dev, l !! j = Some (loc', dev) -> (j < i)%nat -> loc' <> loc) ->
  mounted_at loc l = mounted_at loc (drop i l).
Proof.
  revert l. induction i as [|i IH]; intros l Hj; [done|]. destruct l as [|[loc' dev] l]; [done|]. simpl.
  rewrite decide_False by (intros ->; apply (Hj 0%nat loc' dev); [done|lia|done]). apply IH.
  intros j loc'' dev' Hl Hji. apply (Hj (Datatypes.S j) loc'' dev' Hl). lia.
Qed.

Lemma wp_check_mount s R l a loc (Q : Z -> VS -> Prop) :
  mount_table R (get_mem s) (vars s) l -> cstr (get_mem s) a loc -> Q (mounted_at loc l) s -> wp (check_mount a) Q s.
Proof.
  intros Htab Hc HQ. pose proof (mount_table_mounted _ _ _ _ Htab) as Hmt. destruct Htab as [_ _ Hn _ _ _]. pose proof (mt_len _ _ _ _ Hmt) as Hlen. unfold MAX_MOUNTS in Hlen.
  unfold check_mount. apply wp_bind, wp_var. rewrite Hn. apply wp_bind.
  apply (wp_for_find (fun i t => t = s /\ forall j loc' dev, l !! j = Some (loc', dev) -> Z.of_nat j < i -> loc' <> loc)).
  - split; [done|]. lia.
  - intros i t Hi [-> Hj]. apply wp_bind. eapply wp_mount_point; [exact Hmt|lia|].
    destruct (lookup_lt_is_Some_2 l (Z.to_nat i)) as [[loc' dev] Hl]; [lia|].
    destruct (mt_entry _ _ _ _ Hmt _ _ _ Hl) as (p & b & Hp & Hp0 & Hpm & _ & Ha & Hd & Hcs & _).
    rewrite Z2Nat.id in Hp by lia. rewrite Hp.
    apply wp_bind, wp_ld32; [eapply mapped_range_sub; [exact Hpm|unfold MI_loc; lia..]|]. rewrite Ha.
    apply wp_bind. eapply wp_strcmp; [done..|].
    pose proof (strcmp_spec_0 loc loc' (cstr_chars _ _ _ Hc) (cstr_chars _ _ _ Hcs)) as Hsc.
    destruct (strcmp_spec loc loc' =? 0) eqn:Ec.
    + assert (loc = loc') as <- by (apply Hsc; lia).
      apply wp_bind, wp_ld32; [eapply mapped_range_sub; [exact Hpm|unfold MI_dev; lia..]|]. rewrite Hd. apply wp_ret, wp_ret.
      rewrite (mounted_at_drop loc l (Z.to_nat i)) in HQ by (intros j loc'' dev' Hj' ?; apply (Hj j loc'' dev' Hj'); lia).
      rewrite (drop_S _ _ _ Hl) in HQ. simpl in HQ. by rewrite decide_True in HQ.
    + apply wp_ret. split; [done|]. intros j loc'' dev' Hj' Hji. destruct (decide (j = Z.to_nat i)) as [->|].
      * rewrite Hl in Hj'. injection Hj' as <- <-. intros ->. destruct Hsc as [_ Hsc]. by rewrite Hsc in Ec.
      * apply (Hj j loc'' dev' Hj'). lia.
  - intros t [-> Hj]. apply wp_ret. simpl. rewrite (mounted_at_drop loc l (length l)) in HQ.
    + by rewrite drop_all in HQ.
    + intros j loc' dev Hl Hji. apply (Hj j loc' dev Hl). lia.
Qed.

(** The two words of the entry, and its slot in the table. *)
Lemma mount_written m p mp n a dev :
  0 <= p < 4294967296 -> 0 <= a < 4294967296 -> 0 <= dev < 4294967296 -> 0 <= n < 16 ->
  (forall x, in_block mp 64 x -> ~ in_block p 8 x) ->
  let m1 := mwrite (mwrite m (p + MI_loc) (le32 a)) (p + MI_dev) (le32 dev) in
  let m2 := mwrite m1 (mp + 4 * n) (le32 p) in
  agree (fun x => ~ in_block p 8 x) m m1 /\ agree (fun x => ~ in_block mp 64 x) m1 m2 /\
  rd32 m2 (p + MI_loc) = a /\ rd32 m2 (p + MI_dev) = dev /\
  forall i, 0 <= i < 16 -> slot m2 mp i = if i =? n then p else slot m mp i.
Proof.
  intros Hp Ha Hd Hn Hap m1 m2.
  assert (H1 : agree (fun x => ~ in_block p 8 x) m m1).
  { split; [unfold m1; by rewrite !ranges_mwrite|]. intros x Hx. unfold m1, in_block, MI_loc, MI_dev in *.
    by rewrite !rd_mwrite_out by (rewrite le32_length; lia). }
  assert (H2 : agree (fun x => ~ in_block mp 64 x) m1 m2).
  { split; [unfold m2; by rewrite ranges_mwrite|]. intros x Hx. unfold m2, in_block in *.
    by rewrite rd_mwrite_out by (rewrite le32_length; lia). }
  assert (Hpt : forall x, p <= x < p + 8 -> ~ in_block mp 64 x) by (intros x Hx Hin; by apply (Hap x)).
  split; [exact H1|]. split; [exact H2|]. split; [|split].
  - rewrite (rd32_agree _ _ _ _ H2) by (apply Hpt; unfold MI_loc; lia). unfold m1, MI_loc, MI_dev.
    rewrite rd32_mwrite_out by (rewrite le32_length; lia). rewrite rd32_mwrite_same. by apply u32_small.
  - rewrite (rd32_agree _ _ _ _ H2) by (apply Hpt; unfold MI_dev; lia). unfold m1.
    rewrite rd32_mwrite_same. by apply u32_small.
  - intros i Hi. unfold slot, m2. destruct (Z.eqb_spec i n) as [->|Hne].
    + rewrite rd32_mwrite_same. by apply u32_small.
    + rewrite rd32_mwrite_out by (rewrite le32_length; lia).
      apply (rd32_agree _ _ _ _ H1); apply Hap; unfold in_block; lia.
Qed.

Lemma wp_add_mount s g R l dev a loc (Q : unit -> VS -> Prop) :
  heap_ok s g -> room s sizeof_mount_info -> ~ out_of_memory -> foreign s g (with_block R (mount_points (vars s)) 64) ->
  mount_table R (get_mem s) (vars s) l -> Z.of_nat (length l) < MAX_MOUNTS ->
  cstr (get_mem s) a loc -> within R a (Z.of_nat (length loc) + 1) -> 0 <= a < 4294967296 -> 0 <= dev < 4294967296 ->
  (forall s' g' p, heap_ok s' g' -> foreign s' g' (with_block R p sizeof_mount_info) -> agree R (get_mem s) (get_mem s') ->
    mount_table (with_block R p sizeof_mount_info) (get_mem s') (vars s') (l ++ [(loc, dev)]) -> Q tt s') ->
  wp (add_mount dev a) Q s.
Proof.
  intros Hok Hroom Hoom Hf Htab Hlt Hc Hw Hwa Hwd HQ. unfold add_mount. set (mp := mount_points (vars s)) in *.
  pose proof Htab as [Htm _ Hn _ _ Hap0]. fold mp in Htm, Hap0.
  apply wp_bind, (wp_malloc_layer s g sizeof_mount_info); [done|unfold sizeof_mount_info; lia|exact Hroom|by intros ? _ []|].
  intros p s1 g1 Hv Hg. pose proof (gave_apart _ _ _ _ _ _ _ Hg Hf) as Hap.
  destruct (gv_addr _ _ _ _ _ _ Hg) as [Hp0 _]. pose proof (gv_mapped _ _ _ _ _ _ Hg) as Hpm. pose proof Hpm as (_ & Hp1 & _).
  unfold sizeof_mount_info, MAX_MOUNTS in *.
  apply wp_bind, wp_st32; [eapply mapped_range_sub; [exact Hpm|unfold MI_loc; lia..]|].
  apply wp_bind, wp_st32; [lens; rewrite mapped_range_mwrite; eapply mapped_range_sub; [exact Hpm|unfold MI_dev; lia..]|]. lens.
  apply wp_bind, wp_assign, wp_bind, wp_var. lens. rewrite Hv, Hn. fold mp. simpl.
  replace (Z.of_nat (length l) + 1 - 1) with (Z.of_nat (length l)) by lia.
  destruct (mount_written (get_mem s1) p mp (Z.of_nat (length l)) a dev) as (H1 & H2 & Hra & Hrd & Hrs);
    [lia|done|done|lia|intros x Hx; apply Hap; by right|].
  set (m1 := mwrite (mwrite _ _ _) _ _) in *. pose proof (gave_write_agree _ _ _ _ _ _ _ _ Hg Hf H1) as Ha1.
  apply wp_st32. { lens. eapply agree_mapped_range; [exact Ha1|]. eapply mapped_range_sub; [exact Htm|lia..]. }
  lens. set (m2 := mwrite m1 _ _) in *.
  assert (HRm : agree R (get_mem s) m2).
  { eapply agree_trans; [eapply agree_mono; [exact Ha1|by left]|]. eapply agree_mono; [exact H2|]. exact Hap0. }
  destruct (frame_law s1 g1 m2 (gv_ok _ _ _ _ _ _ Hg)) as (Hok2 & Hhb2 & Hlb2 & _).
  { eapply agree_trans; [eapply agree_mono; [exact H1|]|eapply agree_mono; [exact H2|]].
    - intros x Hx Hin. by destruct (gv_out _ _ _ _ _ _ Hg x Hin).
    - intros x Hx Hin. destruct (Hf x); [by right|]. by apply (gv_sub _ _ _ _ _ _ Hg) in Hx. }
  match goal with |- Q tt ?t => assert (Ht : t = set_vars (VfsVars mp (last_mount_id (vars s) + 1) (__init_vfs (vars s))) (set_mem m2 s1)) end.
  { destruct s1 as [b w]. unfold set_vars. simpl. unfold set_lower. simpl. by rewrite set_set_mem, Hn. }
  rewrite Ht. clear Ht. set (t := set_vars _ (set_mem m2 s1)). assert (Hmt : get_mem t = m2) by (unfold t; by lens).
  apply (HQ t g1 p); rewrite ?Hmt; [exact Hok2| |exact HRm|].
  - eapply foreign_gave; [exact Hg|exact Hf|exact Hhb2|exact Hlb2|by left].
  - apply (mount_table_snoc R _ (get_mem s) m2 (vars s) l p); fold mp; [exact Htab|exact Hlt|exact HRm|by left| | |].
    + intros x [Hx|Hx]; [by apply Hap0|]. intros Hin. by apply (Hap x); [right|].
    + exists a. split_and!; [lia| |intros x Hx; by right|exact Hra|exact Hrd| |intros x Hx; left; by apply Hw].
      * eapply agree_mapped_range; [exact H2|]. eapply agree_mapped_range; [exact H1|exact Hpm].
      * by eapply cstr_agree; [exact HRm| |].
    + intros i Hi. rewrite Hrs by (unfold MAX_MOUNTS in *; lia). destruct (i =? _) eqn:E; [done|].
      apply (rd32_agree _ _ _ _ (gave_agree _ _ _ _ _ _ _ Hg Hf)); right; unfold in_block; unfold MAX_MOUNTS in *; lia.
Qed.

Variable realloc : Z -> Z -> M PS Z.
Variables (procfs_default str_test f_devconf_write f_devconf_read : Z).
Variables (str_EXT2 f_probe f_mount f_readfull f_read f_exist f_writefile f_stat f_isdir f_findinode f_list_directory : Z).
Notation try_to_mount := (device_try_to_mount realloc procfs_default str_test f_devconf_write f_devconf_read str_EXT2 f_probe
  f_mount f_readfull f_read f_exist f_writefile f_stat f_isdir f_findinode f_list_directory).

(** C24: When the file system that took the device mounts it, the device goes
    behind the others in the table of mounts, which stays well formed: the new
    structure is a block of its own and the other mounts are untouched.  From
    then on the location leads to the device, and no other device can be
    mounted there: device_try_to_mount refuses it before any probe. *)
Theorem mounted_once (mount : M PS Z) (s s1 : PS) g R l dev dev2 a loc :
  mount s = Ret 0 s1 -> heap_ok (lower s1) g -> room (lower s1) sizeof_mount_info -> ~ out_of_memory ->
  foreign (lower s1) g (with_block R (mount_points (vars (lower s1))) 64) ->
  mount_table R (get_mem s1) (vars (lower s1)) l -> Z.of_nat (length l) < MAX_MOUNTS -> loc ∉ l.*1 ->
  cstr (get_mem s1) a loc -> within R a (Z.of_nat (length loc) + 1) -> 0 <= a < 4294967296 ->
  0 < dev < 4294967296 -> dev2 <> 0 ->
  wp (let! r := mounted_by dev a mount in let! d := below (check_mount a) in let! again := try_to_mount dev2 a in ret (r, d, again))
    (fun '(r, d, again) t => r = 0 /\ d = dev /\ again = - ENODEV /\
      exists R' : Z -> Prop, (forall x, R x -> R' x) /\ agree R (get_mem s1) (get_mem t) /\
        mount_table R' (get_mem t) (vars (lower t)) (l ++ [(loc, dev)])) s.
Proof.
  intros Hmnt Hok Hroom Hoom Hf Htab Hlt Hnew Hc Hw Ha Hdev Hd2. unfold mounted_by.
  apply wp_bind, wp_bind. eapply wp_eq; [exact Hmnt|]. cbn [Z.eqb].
  apply wp_bind, wp_below, (wp_add_mount (lower s1) g R l dev a loc); [done..|lia|].
  intros s2 g2 p _ _ Hag Htab2. rewrite get_mem_lower in Hag. apply wp_ret.
  assert (Hc2 : cstr (get_mem s2) a loc) by (by eapply cstr_agree).
  assert (Hat : mounted_at loc (l ++ [(loc, dev)]) = dev) by (rewrite mounted_at_app by done; simpl; by rewrite decide_True).
  set (t := set_lower s2 s1). assert (Hlt' : lower t = s2) by done. assert (Hmt : get_mem t = get_mem s2) by done. clearbody t.
  assert (Hcheck : forall (Q : Z -> PS -> Prop), Q dev t -> wp (below (check_mount a)) Q t).
  { intros Q HQ. apply wp_below. rewrite Hlt'. eapply wp_check_mount; [exact Htab2|exact Hc2|]. rewrite Hat, <-Hlt'. by destruct t. }
  apply wp_bind, Hcheck, wp_bind. unfold device_try_to_mount. destruct (dev2 =? 0) eqn:E; [lia|].
  apply wp_bind, Hcheck. destruct (dev =? 0) eqn:E2; [lia|]. cbn [negb]. apply wp_ret, wp_ret.
  split_and!; [done..|]. exists (with_block R p sizeof_mount_info). rewrite Hmt, Hlt'. split_and!; [by left|exact Hag|exact Htab2].
Qed.
End table.

(** The root is mounted; a second device, at 0x3000, goes to "/d/". *)
Definition demo_mount_bytes : list (Z * list Z) :=
  [(4608, [47; 0]); (4624, [47; 100; 47; 0]); (4864, le32 4608 ++ le32 8192); (5120, le32 4864)].
Definition demo_mount : layer (layer (heap Arm.state) vfs_vars) procfs_vars :=
  Layer (Layer (low_heap demo_mount_bytes) (VfsVars 5120 1 1)) (ProcfsVars 0 0 0 0 0).
Definition demo_region (x : Z) : Prop := 4096 <= x < 5120.

Lemma demo_mount_str a l : forallb (fun b => (0 <? b) && (b <? 256)) l = true -> 4096 <= a -> a + Z.of_nat (length l) + 1 <= 65536 ->
  forallb (fun i => rd (low_mem demo_mount_bytes) (a + Z.of_nat i) =? nth i (l ++ [0]) 0) (seq 0 (length l + 1)) = true ->
  cstr (low_mem demo_mount_bytes) a l.
Proof. intros. apply cstr_check; [done|apply low_mapped; lia|done]. Qed.

Lemma demo_mount_table : mount_table demo_region (get_mem demo_mount) (vars (lower demo_mount)) [([47], 8192)].
Proof.
  split.
  - apply (low_mapped demo_mount_bytes); simpl; lia.
  - vm_compute. discriminate.
  - reflexivity.
  - intros [|i] loc dev Hl; [injection Hl as <- <-|done]. exists 4608.
    split_and!; [vm_compute; discriminate|apply (low_mapped demo_mount_bytes); vm_compute; discriminate| | | | |];
      try (vm_compute; reflexivity).
    + intros x Hx. change (4864 <= x < 4864 + 8) in Hx. unfold demo_region. lia.
    + by apply demo_mount_str.
    + intros x Hx. unfold demo_region. simpl in Hx. lia.
  - intros i Hi. simpl in Hi. unfold MAX_MOUNTS in Hi.
    assert (Hall : forallb (fun i => slot (low_mem demo_mount_bytes) 5120 (Z.of_nat i) =? 0) (seq 1 15) = true) by (vm_compute; reflexivity).
    rewrite forallb_forall in Hall. specialize (Hall (Z.to_nat i)). rewrite Z2Nat.id in Hall by lia.
    apply Z.eqb_eq, Hall, in_seq. lia.
  - intros x Hx. unfold demo_region, in_block in *. simpl. lia.
Qed.

#[local] Instance no_vfs_calls : Calls (layer (heap Arm.state) vfs_vars) := fun _ _ => fault.
#[local] Instance no_procfs_calls : Calls (layer (layer (heap Arm.state) vfs_vars) procfs_vars) := fun _ _ => fault.

Lemma mounted_once_witness :
  wp (let! r := mounted_by (G := list mjr) 12288 4624 (dummyfs_mount 12288) in let! d := below (check_mount 4624) in
      let! again := device_try_to_mount (G := list mjr) (fun _ _ => ret 0) 0 0 0 0 0 0 0 0 0 0 0 0 0 0 0 16384 4624 in ret (r, d, again))
    (fun '(r, d, again) _ => r = 0 /\ d = 12288 /\ again = - ENODEV) demo_mount.
Proof.
  eapply wp_mono.
  - apply (mounted_once (G := list mjr)) with (g := []) (R := demo_region) (s1 := demo_mount) (l := [([47], 8192)]) (loc := [47; 100; 47]).
    + vm_compute. reflexivity.
    + apply low_heap_ok.
    + apply low_room. unfold sizeof_mount_info. lia.
    + intros [].
    + apply low_foreign. intros x [Hx|Hx]; unfold demo_region, in_block in Hx; simpl in Hx; lia.
    + exact demo_mount_table.
    + reflexivity.
    + vm_compute. intros Hin. by apply list_elem_of_singleton in Hin.
    + by apply demo_mount_str.
    + intros x Hx. unfold demo_region. simpl in Hx. lia.
    + lia.
    + lia.
    + lia.
  - intros [[r d] again] t (-> & -> & -> & _). done.
Defined.
