(* ===== verification/Syscall.v ===== *)
(** * System calls: [kernel/syscall.c]

    The state is the kernel's: heap, physical pages, scheduler, devices, mutex
    flag, terminals, file system, one layer over the other; a system call runs
    each operation in the layer that has it.  What the file systems and displays
    do is reached through pointers.  The theorem is about handles; the read of a
    line is in Readline. *)

From stdpp Require Import base numbers list gmap.
From Stdlib Require Import ZArith Lia.
From S2P Require Import Prelude Memory CString Process Pages Arm Liballoc LiballocInv LiballocProof LiballocSpec Allocator Phymem Layer Tables Device Current Sched Mutex Tty Scratch Demo Fs Vfs Elf.

Local Open Scope Z_scope.

Definition O_RDONLY : Z := 0.

(** [struct utsname]: five arrays of 64 characters *)
Definition UT_sysname : Z := 0.
Definition UT_nodename : Z := 64.
Definition UT_release : Z := 128.
Definition UT_version : Z := 192.
Definition UT_machine : Z := 256.

Section ops.
Context {S G : Type} `{Current S} `{!Allocator S G}.
Notation sched := (layer (phymem S) sched_vars).
Notation locks := (layer (layer sched device_vars) Z).
Notation ttys := (layer locks tty_vars).
Notation kernel := (layer ttys vfs_vars).
Context `{!Calls kernel}.
Notation KM := (M kernel).

(** The generic terminal operations, and the displays. *)
Variables (f_write f_flush f_read : Z).
Variable call_display : Z -> Z -> M ttys Z.
(** Addresses of the literals ["/"] and ["./"] (fs/vfs.c), and ["."]. *)
Variables (str_slash str_dot_slash str_dot : Z).
Variable dbus_send_init_killed : M sched unit.

Definition schedule : KM unit := below (below (below (below schedule_noirq))).
Definition lock_yield : M locks unit := below (below schedule_noirq).
Definition k_tty_write (id buf len : Z) : KM unit := below (tty_write lock_yield f_write id buf len).
Definition k_tty_flush (id : Z) : KM unit := below (tty_flush f_flush call_display id).
Definition k_vfs_open (fn : Z) : KM Z := vfs_open str_slash str_dot_slash fn.

(** [get_process()->tty_id] *)
Definition proc_tty (p : Z) : KM Z := ld8 (p + P_tty_id).

Definition sys_exit (code : Z) : KM unit :=
  let! _ := get_process in
  let! _ := below (below (below (below (scheduler_kill_self dbus_send_init_killed)))) in
  ret tt.

(** [get_process()->filehandles[fd - 3]] *)
Definition filehandle (fd : Z) : KM Z :=
  let! p := get_process in
  let! h := ld32 (p + P_filehandles) in
  ld32 (u32 (h + 4 * (fd - 3))).

(** The bytes typed, up to a newline.  A backspace takes the byte before it
    back as well, even when there is none. *)
Definition sys_read (fd buf len : Z) : KM Z :=
  let! p := get_process in
  let! id := proc_tty p in
  let! mt := below (tty_get id) in
  if fd =? 0 then
    loop (fun totalread =>
      if totalread <? len then
        let! id := proc_tty p in
        let! read := below (tty_read f_read id (u32 (buf + totalread)) 1) in
        if negb (read =? 0) then
          let totalread := totalread + 1 in
          let! c := ld8 (u32 (buf + (totalread - 1))) in
          if c =? 10 then
            let! id := proc_tty p in
            k_tty_write id (u32 (buf + totalread - 1)) 1 ;!
            let! id := proc_tty p in
            k_tty_flush id ;!
            ret (inr totalread)
          else
            let! c := ld8 (u32 (buf + (totalread - 1))) in
            if c =? 8 then
              st8 (u32 (buf + totalread)) 0 ;!
              st8 (u32 (buf + (totalread - 1))) 0 ;!
              let! b := ld32 (mt + Y_buffer) in
              let! pos := ld32 (mt + Y_bufpos) in
              st8 (u32 (b + pos)) 0 ;!
              let! b := ld32 (mt + Y_buffer) in
              let! pos := ld32 (mt + Y_bufpos) in
              st8 (u32 (b + u32 (pos - 1))) 32 ;!
              let! id := proc_tty p in
              k_tty_flush id ;!
              let! pos := ld32 (mt + Y_bufpos) in
              st32 (mt + Y_bufpos) (u32 (pos - 1)) ;!
              let! n := ld32 (mt + Y_buflen) in
              st32 (mt + Y_buflen) (u32 (n - 1)) ;!
              let! id := proc_tty p in
              k_tty_flush id ;!
              ret (inl (totalread - 2))
            else
              let! id := proc_tty p in
              k_tty_write id (u32 (buf + totalread - 1)) 1 ;!
              let! id := proc_tty p in
              k_tty_flush id ;!
              schedule ;!
              ret (inl totalread)
        else schedule ;! ret (inl totalread)
      else ret (inr totalread)) 0
  else
    let! fl := filehandle fd in
    let! r := vfs_read fl buf (u32 len) in
    ret (s32 r).

Definition sys_write (fd buf len : Z) : KM unit :=
  let! p := get_process in
  if fd =? 1 then
    let! id := proc_tty p in
    k_tty_write id buf (u32 len) ;!
    let! id := proc_tty p in
    k_tty_flush id
  else
    let! fl := filehandle fd in
    let! _ := vfs_write fl buf (u32 len) in
    ret tt.

(** The table of handles of a process is behind the pointer [filehandles]. *)
Definition sys_open (fn flags : Z) : KM Z :=
  if negb (flags =? O_RDONLY) then ret (- ENOSYS)
  else
    let! p := get_process in
    let! n := ld32 (p + P_open_handles) in
    if n >=? MAX_FILEHANDLES then ret (- EMFILE)
    else
      let! fl := k_vfs_open fn in
      if fl =? 0 then ret (- ENOENT)
      else
        let! h := ld32 (p + P_filehandles) in
        let! n := ld32 (p + P_open_handles) in
        st32 (u32 (h + 4 * n)) fl ;!
        let! n := ld32 (p + P_open_handles) in
        st32 (p + P_open_handles) (u32 (n + 1)) ;!
        let! n := ld32 (p + P_open_handles) in
        ret (s32 (u32 (n + 2))).

Definition sys_stat (path st : Z) : KM unit :=
  let! _ := memset st 0 sizeof_stat in
  let! fl := k_vfs_open path in
  let! _ := vfs_stat fl st in
  ret tt.

(** The copy of the argument vector; it ends with a null pointer. *)
Definition copy_argv (argv : Z) : KM Z :=
  if argv =? 0 then ret 0
  else
    let! argc := count_args argv in
    let! argv_k := malloc (u32 ((argc + 1) * 4)) in
    for_up (Z.to_nat argc) 0 (fun i =>
      let! a := ld32 (u32 (argv + 4 * i)) in
      let! n := strlen a in
      let! str := malloc (u32 (n + 1)) in
      let! a := ld32 (u32 (argv + 4 * i)) in
      let! n := strlen a in
      memcpy str a (u32 (n + 1)) ;!
      st32 (u32 (argv_k + 4 * i)) str) ;!
    st32 (u32 (argv_k + 4 * argc)) 0 ;!
    ret argv_k.

(** The set-up of the page directory, the switch that loads it, and the jump to
    the program. *)
Variables (arch_setup_paged : Z -> Z -> KM unit) (load_paged : KM unit).
Variable start_execution : Z -> Z -> Z -> KM unit.

Definition k_elf_start (paged buf esize argv envp priv : Z) : KM Z :=
  elf_start (fun n => below (below (below (below (below (phymem_alloc n))))))
    (fun p n => below (below (below (below (below (phymem_free p n))))))
    arch_setup_paged (schedule ;! load_paged) start_execution paged buf esize argv envp priv.

(** [st] is the address of the local [struct stat], [paged] that of the local of
    [elf_start].  The statics [ptr] and [esize] are only read by this function. *)
Definition sys_execve (st paged path argv envp : Z) : KM Z :=
  let! fl := k_vfs_open path in
  if fl =? 0 then ret (- ENOENT)
  else
    let! full := ld32 (fl + F_fullpath) in
    sys_stat full st ;!
    let! size := ld32 (st + ST_st_size) in
    if size =? 0 then ret (- ENOENT)
    else
      let! buf := malloc size in
      let! argv_k := copy_argv argv in
      let! _ := vfs_read_full fl buf in
      let! _ := k_elf_start paged buf size argv_k envp 0 in
      ret 0.

Definition sys_getpid : KM Z := let! p := get_process in ld8 (p + P_pid).

(** The path gets a slash behind it, one byte past its buffer.  [fn] is a block
    of the heap only when it was copied. *)
Definition sys_opendir (fn : Z) : KM Z :=
  if fn =? 0 then ret (- EINVAL)
  else
    let! c := strcmp str_dot fn in
    if c =? 0 then ret 255
    else
      let! n := strlen fn in
      let! e := ld8 (u32 (fn + n)) in
      let! fn :=
        (if negb (e =? 47) then
           let! n := strlen fn in
           let! m := malloc (u32 (n + 1)) in
           let! n := strlen fn in
           memcpy m fn (u32 (n + 1)) ;!
           let! s := strlen fn in
           st8 (u32 (m + s)) 47 ;!
           st8 (u32 (m + (s + 1))) 0 ;!
           ret m
         else ret fn) in
      let! fl := k_vfs_open fn in
      let! d := vfs_isdir fl in
      if d =? 0 then free fn ;! free fl ;! ret (- ENOTDIR)
      else sys_open fn O_RDONLY.

Definition sys_readdir (dd : Z) : KM Z :=
  if dd =? 255 then
    let! p := get_process in
    let! wd := ld32 (p + P_workdir) in
    vfs_readdir wd
  else
    let! fl := filehandle dd in
    vfs_readdir fl.

Definition sys_waitpid (pid : Z) : KM unit :=
  loop (fun _ =>
    let! r := below (below (below (below (is_pid_running pid)))) in
    if negb (r =? 0) then schedule ;! ret (inl tt) else ret (inr tt)) tt.

(** The literals are copied without their terminators. *)
Definition sys_uname (sysname nodename release version machine name : Z) : KM unit :=
  let put o str := let! n := strlen str in memcpy (name + o) str n in
  put UT_sysname sysname ;!
  put UT_nodename nodename ;!
  put UT_release release ;!
  put UT_version version ;!
  put UT_machine machine.
End ops.

(** ** Handles *)

Ltac hoffs := unfold sizeof_process, P_threads, P_open_handles, P_filehandles, P_allocation_table, MAX_ALLOCATIONS_PER_PROCESS,
  MAX_THREADS, MAX_FILEHANDLES, in_block in *.

Section handles.
Context {S G : Type} `{Current S} `{!Allocator S G}.
Notation sched := (layer (phymem S) sched_vars).
Notation locks := (layer (layer sched device_vars) Z).
Notation ttys := (layer locks tty_vars).
Notation kernel := (layer ttys vfs_vars).
Context `{!Calls kernel}.
Variables (str_slash str_dot_slash : Z).
Implicit Types (s : kernel).

Definition handles (m : mem) (p : Z) : Z := rd32 m (p + P_filehandles).
Definition n_handles (m : mem) (p : Z) : Z := rd32 m (p + P_open_handles).

Lemma wp_filehandle s fd (Q : Z -> kernel -> Prop) :
  let p := cur_process s in let a := handles (get_mem s) p + 4 * (fd - 3) in
  process_mapped (get_mem s) p -> 0 <= a < 4294967296 -> mapped_range (get_mem s) a 4 ->
  Q (slot (get_mem s) (handles (get_mem s) p) (fd - 3)) s -> wp (filehandle fd) Q s.
Proof.
  intros p a [Hp0 Hpm] Ha Hm HQ. unfold filehandle, get_process. apply wp_bind, wp_gets. fold p.
  apply wp_bind, wp_ld32; [eapply mapped_range_sub; [exact Hpm|hoffs; lia..]|].
  unfold handles in *. fold a. rewrite u32_small by lia. by apply wp_ld32.
Qed.

(** The handle [i + 3] of a table at [h]. *)
Lemma wp_named s h i :
  process_mapped (get_mem s) (cur_process s) -> handles (get_mem s) (cur_process s) = h ->
  0 <= h + 4 * i < 4294967296 -> mapped_range (get_mem s) (h + 4 * i) 4 ->
  wp (filehandle (i + 3)) (fun f t => f = slot (get_mem s) h i /\ t = s) s.
Proof. intros Hp <- Ha Hm. apply wp_filehandle; replace (i + 3 - 3) with i by lia; done. Qed.

(** The place of the handle table and of the counter of a process. *)
Record handle_table (m : mem) (p h : Z) : Prop := {
  ha_process : process_mapped m p;
  ha_table : mapped_range m h (4 * MAX_FILEHANDLES);
  ha_handles : handles m p = h;
  ha_apart : h + 4 * MAX_FILEHANDLES <= p \/ p + sizeof_process <= h;
}.

(** A file is entered behind the [n] that are open. *)
Lemma wp_enter_handle s p h n fl (Q : Z -> kernel -> Prop) :
  handle_table (get_mem s) p h -> n_handles (get_mem s) p = n -> 0 <= n < MAX_FILEHANDLES -> 0 <= fl < 4294967296 ->
  (forall m, handle_table m p h -> n_handles m p = n + 1 ->
     (forall i, 0 <= i <= n -> slot m h i = if i =? n then fl else slot (get_mem s) h i) -> Q (n + 3) (set_mem m s)) ->
  wp (let! h := ld32 (p + P_filehandles) in
      let! n := ld32 (p + P_open_handles) in
      st32 (u32 (h + 4 * n)) fl ;!
      let! n := ld32 (p + P_open_handles) in
      st32 (p + P_open_handles) (u32 (n + 1)) ;!
      let! n := ld32 (p + P_open_handles) in
      ret (s32 (u32 (n + 2)))) Q s.
Proof.
  intros [[Hp0 Hpm] Hhm Eh Hap] En Hn Hfl HQ. unfold handles, n_handles in *. pose proof Hhm as (Hh0 & Hh1 & _).
  assert (Hkeep : forall m a k, m_ranges m = m_ranges (get_mem s) -> mapped_range (get_mem s) a k -> mapped_range m a k).
  { intros m a k Hr Ha. by eapply (agree_mapped_range (fun _ => False)). }
  assert (Hsub : forall m k, m_ranges m = m_ranges (get_mem s) -> 0 <= k -> k + 4 <= sizeof_process -> mapped_range m (p + k) 4).
  { intros m k Hr Hk Hk'. eapply Hkeep; [exact Hr|]. eapply mapped_range_sub; [exact Hpm|lia..]. }
  apply wp_bind, wp_ld32; [apply Hsub; [done|hoffs; lia..]|]. rewrite Eh.
  apply wp_bind, wp_ld32; [apply Hsub; [done|hoffs; lia..]|]. rewrite En, (u32_small (h + _)) by (hoffs; lia).
  apply wp_bind, wp_st32; [eapply mapped_range_sub; [exact Hhm|hoffs; lia..]|]. set (m2 := mwrite _ _ _).
  assert (Hr2 : m_ranges m2 = m_ranges (get_mem s)) by apply ranges_mwrite.
  apply wp_bind, wp_ld32; [lens; apply Hsub; [done|hoffs; lia..]|]. lens.
  assert (rd32 m2 (p + P_open_handles) = n) as ->.
  { unfold m2. rewrite rd32_mwrite_out; [done|]. rewrite le32_length. hoffs. lia. }
  apply wp_bind, wp_st32; [lens; apply Hsub; [done|hoffs; lia..]|]. lens. rewrite (u32_small (n + 1)) by (hoffs; lia).
  set (m3 := mwrite m2 _ _). assert (Hr3 : m_ranges m3 = m_ranges (get_mem s)) by (unfold m3; by rewrite ranges_mwrite).
  assert (En3 : rd32 m3 (p + P_open_handles) = n + 1) by (unfold m3; rewrite rd32_mwrite_same; apply u32_small; hoffs; lia).
  apply wp_bind, wp_ld32; [lens; apply Hsub; [done|hoffs; lia..]|]. lens.
  rewrite En3, (u32_small (n + 1 + 2)), s32_small by (hoffs; lia). apply wp_ret. lens.
  replace (n + 1 + 2) with (n + 3) by lia. apply HQ; [|exact En3|].
  - split; [split; [done|]| | |done]; [by apply Hkeep..|].
    unfold handles, m3, m2. rewrite !rd32_mwrite_out by (rewrite le32_length; hoffs; lia). exact Eh.
  - intros i Hi. unfold slot, m3. rewrite rd32_mwrite_out by (rewrite le32_length; hoffs; lia). unfold m2.
    destruct (Z.eqb_spec i n) as [->|Hne]; [rewrite rd32_mwrite_same; by apply u32_small|].
    by rewrite rd32_mwrite_out by (rewrite le32_length; lia).
Qed.

End handles.

(** A process at 0x2000 whose working directory is the file 0x5000, with two
    handles in the table at 0x3000, opens "./". *)
Definition demo_handles : list (Z * list Z) :=
  [(4640, [46; 47; 0]); (8192 + P_workdir, le32 20480); (8192 + P_open_handles, le32 2); (8192 + P_filehandles, le32 12288);
   (12288, le32 16384 ++ le32 17408)].
Definition demo_open : layer (layer (layer (layer (layer (phymem (heap Arm.state)) sched_vars) device_vars) Z) tty_vars) vfs_vars :=
  Layer (Layer (Layer (Layer (Layer (Phymem (set_h_proc 8192 (low_heap demo_handles)) 0 0 0 0 0)
    (SchedVars 0 0 0 0 0 0 0 0 0 0 0 0 0)) (DeviceVars 0 0)) 0) (TtyVars 0 0)) (VfsVars 0 0 0).


#[local] Instance no_files : Calls (layer (layer (layer (layer (layer (phymem (heap Arm.state)) sched_vars) device_vars) Z) tty_vars) vfs_vars) :=
  fun _ _ => fault.

Lemma demo_opens : k_vfs_open (G := list mjr) 4096 4640 4640 demo_open = Ret 20480 demo_open.
Proof. vm_compute. reflexivity. Qed.

