(* ===== verification/Readline.v ===== *)
(** * Reading a line: [sys_read] of [kernel/syscall.c] on the terminal

    The read of handle 0 takes the typed bytes one by one from the input queue
    of the process's terminal and shows each on it, up to a newline.  Between
    the bytes other threads run, and the display is updated; what is assumed of
    them is an interface. *)

From stdpp Require Import base numbers list gmap.
From Stdlib Require Import ZArith Lia.
From S2P Require Import Prelude Memory CString Process Pages Arm Liballoc LiballocInv LiballocProof LiballocSpec Allocator Phymem Layer Tables Device Current Sched Mutex Tty Scratch Demo Fs Vfs Elf Syscall.

Local Open Scope Z_scope.

(** [a, a + n) and [b, b + k) have no byte in common. *)
Definition separate (a n b k : Z) : Prop := a + n <= b \/ b + k <= a.
Definition covers (P : Z -> Prop) (a n : Z) : Prop := forall x, a <= x < a + n -> P x.

Section readline.
Context {S G : Type} `{Current S} `{!Allocator S G}.
Notation sched := (layer (phymem S) sched_vars).
Notation locks := (layer (layer sched device_vars) Z).
Notation ttys := (layer locks tty_vars).
Notation kernel := (layer ttys vfs_vars).
Context `{!Calls kernel}.
Variables (f_write f_flush f_read : Z) (call_display : Z -> Z -> M ttys Z).
Variable world : sched -> Prop.
Variable keep : Z -> Prop.
Implicit Types (s : kernel).

(** The other threads, which run in [schedule_noirq], and the display leave the
    bytes of [keep] alone; [world] is what they need, and writes to [keep] do
    not disturb it. *)
Record others : Prop := {
  ot_write x m : world x -> agree (fun a => ~ keep a) (get_mem x) m -> world (set_mem m x);
  ot_yield x : world x -> wp schedule_noirq (fun _ x' => world x' /\ agree keep (get_mem x) (get_mem x')) x;
  ot_display (y : ttys) u d : world (lower (lower (lower y))) -> wp (call_display u d) (fun _ y' =>
    world (lower (lower (lower y'))) /\ agree keep (get_mem y) (get_mem y') /\ vars y' = vars y) y;
}.

Definition sched_of s : sched := lower (lower (lower (lower s))).

(** [s'] after the others ran. *)
Record left_alone s s' : Prop := {
  la_world : world (sched_of s');
  la_agree : agree keep (get_mem s) (get_mem s');
  la_ttys : vars (lower s') = vars (lower s);
}.

Context (Hothers : others).

Lemma wp_away s (Q : unit -> kernel -> Prop) :
  world (sched_of s) -> (forall s', left_alone s s' -> Q tt s') -> wp schedule Q s.
Proof.
  intros Hw HQ. unfold schedule. do 4 apply wp_below. eapply wp_mono; [apply (ot_yield Hothers); exact Hw|].
  intros [] x [Hx Ha]. apply HQ. split; [exact Hx|exact Ha|done].
Qed.

(** The locks' layer yields in the same way. *)
Lemma wp_lock_yield (x : locks) (Q : unit -> locks -> Prop) :
  world (lower (lower x)) ->
  (forall x', world (lower (lower x')) -> agree keep (get_mem x) (get_mem x') -> Q tt x') -> wp lock_yield Q x.
Proof.
  intros Hw HQ. unfold lock_yield. do 2 apply wp_below. eapply wp_mono; [apply (ot_yield Hothers); exact Hw|].
  intros [] y [Hy Ha]. apply HQ; [exact Hy|exact Ha].
Qed.

(** *** The memory while a line is read *)

(** The process [p] with terminal [id] at [t]; the queue's buffer [ib], the
    display's structure [d], the output buffer [ob], filled up to [bp], the
    caller's buffer [buf], and the typed bytes [input], of which [n] are read. *)
Variables (p id t ib d ob bp buf : Z) (input : list Z) (n : Z).

Record geometry : Prop := {
  ge_words : 0 <= id /\ 0 <= t /\ 0 <= ib /\ 0 <= ob /\ 0 <= bp /\ 0 <= buf /\ 0 <= n <= Z.of_nat (length input) /\
    n < 2147483648 /\ buf + n < 4294967296 /\ ob + bp + n < 4294967296;
  ge_keep : covers keep (p + P_tty_id) 1 /\ covers keep t sizeof_tty /\ covers keep ib TTY_BUFFER_SIZE /\
    covers keep d sizeof_display /\ covers keep (ob + bp) n /\ covers keep buf n;
  ge_buf : separate buf n (p + P_tty_id) 1 /\ separate buf n t sizeof_tty /\ separate buf n ib TTY_BUFFER_SIZE /\
    separate buf n d sizeof_display /\ separate buf n (ob + bp) n;
  ge_out : separate (ob + bp) n (p + P_tty_id) 1 /\ separate (ob + bp) n t sizeof_tty /\
    separate (ob + bp) n ib TTY_BUFFER_SIZE /\ separate (ob + bp) n d sizeof_display;
  ge_queue : separate ib TTY_BUFFER_SIZE (p + P_tty_id) 1 /\ separate ib TTY_BUFFER_SIZE t sizeof_tty /\
    separate ib TTY_BUFFER_SIZE d sizeof_display;
  ge_tty : separate t sizeof_tty (p + P_tty_id) 1 /\ separate t sizeof_tty d sizeof_display;
}.

(** What does not change while a line is read. *)
Record fixed (m : mem) : Prop := {
  fx_id : rd m (p + P_tty_id) = id;
  fx_ops : rd32 m (t + Y_write) = f_write /\ rd32 m (t + Y_flush) = f_flush /\ rd32 m (t + Y_read) = f_read;
  fx_disp : rd32 m (t + Y_disp) = d;
  fx_out : rd32 m (t + Y_buffer) = ob /\ bp + n <= rd32 m (t + Y_buflen);
  fx_inbuf : rd32 m (t + Y_inbuf) = ib;
  fx_mapped : mapped_range m (p + P_tty_id) 1 /\ mapped_range m t sizeof_tty /\ mapped_range m d sizeof_display /\
    mapped_range m (ob + bp) n /\ mapped_range m buf n;
}.

(** [i] bytes are read, and [k] of them shown. *)
Record typing (m : mem) (i k : nat) : Prop := {
  ty_fixed : fixed m;
  ty_lock : rd m (t + Y_m_lock) = 0;
  ty_pos : rd32 m (t + Y_bufpos) = bp + Z.of_nat k;
  ty_queue : input_queue m t (drop i input);
  ty_read : forall j c, (j < i)%nat -> input !! j = Some c -> rd m (buf + Z.of_nat j) = c;
  ty_shown : forall j c, (j < k)%nat -> input !! j = Some c -> rd m (ob + bp + Z.of_nat j) = c;
}.

Context (Hgeo : geometry).

Ltac ttoffs := unfold sizeof_tty, TTY_BUFFER_SIZE, sizeof_display, Y_write, Y_flush, Y_read, Y_disp, Y_buffer, Y_buflen, Y_bufpos,
  Y_m_lock, Y_inbuf, Y_inbuflen, Y_flags, DP_update in *.

Lemma fixed_change (P : Z -> Prop) m m' :
  fixed m -> agree P m m' -> covers P (p + P_tty_id) 1 -> covers P t 32 -> covers P (t + 36) 8 -> covers P (t + 48) 4 -> fixed m'.
Proof.
  intros [Hid (Ho1 & Ho2 & Ho3) Hd (Hb1 & Hb2) Hib (M1 & M2 & M3 & M4 & M5)] Hag C1 C2 C3 C4.
  assert (H32 : forall o, 0 <= o <= 28 \/ 36 <= o <= 40 \/ o = 48 -> rd32 m' (t + o) = rd32 m (t + o)).
  { intros o Ho. apply (rd32_agree _ _ _ _ Hag); (destruct Ho as [|[|]]; [apply C2|apply C3|apply C4]; lia). }
  split; rewrite ?H32 by (ttoffs; lia); try done.
  - rewrite (proj2 Hag); [done|apply C1; lia].
  - by split_and!; eapply agree_mapped_range.
Qed.

(** The others do not disturb it. *)
Lemma typing_agree m m' i k :
  typing m i k -> Z.of_nat i <= n -> Z.of_nat k <= n -> agree keep m m' -> typing m' i k.
Proof.
  intros [Hf Hl Hp Hq Hr Hs] Hi Hk Hag. destruct Hgeo as [_ (K1 & K2 & K3 & K4 & K5 & K6) _ _ _ _]. split.
  - eapply fixed_change; [exact Hf|exact Hag|exact K1|..]; intros x Hx; apply K2; ttoffs; lia.
  - rewrite (proj2 Hag); [done|apply K2; ttoffs; lia].
  - rewrite (rd32_agree _ _ _ _ Hag); [done|apply K2; ttoffs; lia..].
  - eapply input_queue_agree; [|exact Hq]. rewrite (fx_inbuf _ Hf). eapply agree_mono; [exact Hag|].
    intros x [Hx|Hx]; [by apply K2|by apply K3].
  - intros j c Hj Hc. rewrite (proj2 Hag); [by apply Hr|apply K6; lia].
  - intros j c Hj Hc. rewrite (proj2 Hag); [by apply Hs|apply K5; lia].
Qed.

(** *** One byte *)

Lemma world_write s m :
  world (sched_of s) -> agree (fun a => ~ keep a) (get_mem s) m -> world (sched_of (set_mem m s)).
Proof. intros Hw Ha. apply (ot_write Hothers); [exact Hw|exact Ha]. Qed.

(** The queue after its first byte was taken. *)
Lemma queue_taken m m' i c :
  input_queue m t (drop i input) -> fixed m -> fixed m' -> input !! i = Some c ->
  rd32 m' (t + Y_inbuflen) = u32 (Z.of_nat (length input) - Z.of_nat i - 1) ->
  (forall x, 0 <= x < TTY_BUFFER_SIZE - 1 -> rd m' (ib + x) = rd m (ib + 1 + x)) ->
  mapped_range m' ib TTY_BUFFER_SIZE -> input_queue m' t (drop (Datatypes.S i) input).
Proof.
  intros [[Ht Htm] Hbm Hsep Hlen Hfit Hb Hnz] Hf Hf' Hc Hl Hsh Hm. pose proof (lookup_lt_Some _ _ _ Hc) as Hlt.
  rewrite (fx_inbuf _ Hf) in Hbm, Hsep, Hb. rewrite length_drop in Hfit. ttoffs.
  assert (Hnext : drop (Datatypes.S i) input = drop 1 (drop i input)) by (rewrite drop_drop; f_equal; lia).
  split; rewrite ?(fx_inbuf _ Hf'); try done.
  - split; [done|]. apply (fx_mapped _ Hf').
  - ttoffs. rewrite Hl, length_drop, u32_small by lia. lia.
  - rewrite length_drop. ttoffs. lia.
  - intros j c' Hj. pose proof (lookup_lt_Some _ _ _ Hj) as Hj'. rewrite length_drop in Hj'. rewrite Hnext, lookup_drop in Hj.
    rewrite Hsh by lia. rewrite <-(Hb _ _ Hj). f_equal. lia.
  - rewrite Hnext. by apply Forall_drop.
Qed.

Lemma wp_read_one s i c (Q : Z -> kernel -> Prop) :
  tty_s (vars (lower s)) + sizeof_tty * id = t -> world (sched_of s) -> typing (get_mem s) i i ->
  input !! i = Some c -> Z.of_nat i < n ->
  (forall s', vars (lower s') = vars (lower s) -> world (sched_of s') -> typing (get_mem s') (Datatypes.S i) i -> Q 1 s') ->
  wp (below (tty_read f_read id (u32 (buf + Z.of_nat i)) 1)) Q s.
Proof.
  intros Ht Hw Hty Hc Hi HQ. pose proof (ty_fixed _ _ _ Hty) as Hf. pose proof (fx_mapped _ Hf) as (M1 & M2 & M3 & M4 & M5).
  pose proof (ty_queue _ _ _ Hty) as Hq. pose proof Hq as [_ Hbm Hsep Hlen Hfit Hb Hnz].
  rewrite (fx_inbuf _ Hf) in Hbm, Hsep, Hb. rewrite length_drop in Hlen, Hfit.
  destruct Hgeo as [(G1 & G2 & G3 & G4 & G5 & G6 & G7 & G8 & G9 & G10) (K1 & K2 & K3 & K4 & K5 & K6) (B1 & B2 & B3 & B4 & B5) (O1 & O2 & O3 & O4) (U1 & U2 & U3) (T1 & T2)].
  pose proof (lookup_lt_Some _ _ _ Hc) as Hlt.
  assert (Hfirst : rd (get_mem s) (ib + 0) = c).
  { apply (Hb 0%nat). rewrite lookup_drop. rewrite Nat.add_0_r. exact Hc. }
  assert (Hcnz : 0 < c < 256).
  { rewrite Forall_lookup in Hnz. apply (Hnz 0%nat). rewrite lookup_drop, Nat.add_0_r. exact Hc. }
  apply wp_below. unfold tty_read. apply wp_bind. unfold tty_at. apply wp_bind, wp_var, wp_ret. rewrite Ht.
  destruct (fx_ops _ Hf) as (_ & _ & Hrd). rewrite <-get_mem_lower in Hrd.
  apply wp_bind, wp_ld32; [rewrite get_mem_lower; eapply mapped_range_sub; [exact M2|ttoffs; lia..]|]. rewrite Hrd, Z.eqb_refl.
  rewrite (u32_small (buf + _)) by lia.
  apply (wp_generic_read (lower s) t (buf + Z.of_nat i) 1 (Z.of_nat (length input - i)) 1);
    rewrite ?get_mem_lower, ?(fx_inbuf _ Hf); try done; try lia.
  - unfold caller_buf. rewrite (fx_inbuf _ Hf). unfold separate in *. split_and!; [eapply mapped_range_sub; [exact M5|lia..]|lia|lia].
  - split_and!; [lia|lia| |by left]. intros x Hx. replace x with 0 by lia. rewrite Hfirst. lia.
  - intros m' Hl' Hib' Htk Hsh Hag. change (set_lower (set_mem m' (lower s)) s) with (set_mem m' s).
    set (P := fun x => _) in Hag.
    assert (P1 : covers P (p + P_tty_id) 1).
    { intros x Hx. unfold P, in_block. clear - B1 U1 T1 Hx Hi. unfold separate in *. ttoffs. lia. }
    assert (P2 : covers P t 52).
    { intros x Hx. unfold P, in_block. clear - B2 U2 Hx Hi. unfold separate in *. ttoffs. lia. }
    assert (P3 : covers P (ob + bp) n).
    { intros x Hx. unfold P, in_block. clear - B5 O2 O3 Hx Hi. unfold separate in *. ttoffs. lia. }
    assert (P4 : covers P buf (Z.of_nat i)).
    { intros x Hx. unfold P, in_block. clear - B2 B3 Hx Hi. unfold separate in *. ttoffs. lia. }
    assert (Hf' : fixed m').
    { eapply fixed_change; [exact Hf|exact Hag|exact P1|..]; intros x Hx; apply P2; lia. }
    apply HQ; rewrite ?get_set_mem; [done| |].
    + apply world_write; [exact Hw|]. eapply agree_mono; [exact Hag|]. intros x Hx.
      unfold P. split_and!; intros Hin; apply Hx; unfold in_block in Hin; [apply K6|apply K3|apply K2; ttoffs]; lia.
    + destruct Hty as [_ Hlk Hps _ Hr Hsn]. split; [exact Hf'| | | | |].
      * rewrite (proj2 Hag); [done|apply P2; ttoffs; lia].
      * rewrite (rd32_agree _ _ _ _ Hag); [done|apply P2; ttoffs; lia..].
      * eapply queue_taken; [exact Hq|exact Hf|exact Hf'|exact Hc| |exact Hsh|by eapply agree_mapped_range].
        rewrite Hl'. f_equal. lia.
      * intros j c' Hj Hc'. destruct (decide (j = i)) as [->|].
        -- rewrite Hc in Hc'. injection Hc' as <-. rewrite <-(Z.add_0_r (buf + Z.of_nat i)), Htk by lia. exact Hfirst.
        -- rewrite (proj2 Hag); [apply Hr; [lia|done]|apply P4; lia].
      * intros j c' Hj Hc'. rewrite (proj2 Hag); [by apply Hsn|apply P3; lia].
Qed.

(** *** One character on the terminal *)

Lemma queue_kept (P : Z -> Prop) m m' q :
  input_queue m t q -> agree P m m' -> covers P (t + 48) 8 -> covers P (rd32 m (t + Y_inbuf)) TTY_BUFFER_SIZE -> input_queue m' t q.
Proof.
  intros [[Ht Htm] Hbm Hsep Hlen Hfit Hb Hnz] Hag C1 C2.
  assert (Hib : rd32 m' (t + Y_inbuf) = rd32 m (t + Y_inbuf)) by (apply (rd32_agree _ _ _ _ Hag); apply C1; ttoffs; lia).
  split; rewrite ?Hib; try done.
  - split; [done|]. by eapply agree_mapped_range.
  - by eapply agree_mapped_range.
  - rewrite <-Hlen. apply (rd32_agree _ _ _ _ Hag); apply C1; ttoffs; lia.
  - intros j c Hj. pose proof (lookup_lt_Some _ _ _ Hj). rewrite (proj2 Hag); [by apply Hb|apply C2; lia].
Qed.

Lemma shown_one m m' i c :
  typing m (Datatypes.S i) i -> input !! i = Some c -> Z.of_nat i < n ->
  agree (fun x => x <> t + Y_m_lock /\ x <> ob + bp + Z.of_nat i /\ ~ in_block (t + Y_bufpos) 4 x) m m' ->
  rd m' (t + Y_m_lock) = 0 -> rd32 m' (t + Y_bufpos) = bp + Z.of_nat (Datatypes.S i) -> rd m' (ob + bp + Z.of_nat i) = c ->
  typing m' (Datatypes.S i) (Datatypes.S i).
Proof.
  intros [Hf _ _ Hq Hr Hsn] Hc Hi Hag Hl Hp Hs.
  destruct Hgeo as [_ _ (B1 & B2 & B3 & B4 & B5) (O1 & O2 & O3 & O4) (U1 & U2 & U3) (T1 & T2)]. set (P := fun x => _) in Hag.
  assert (P1 : covers P (p + P_tty_id) 1) by (intros x Hx; unfold P, in_block; clear - O1 T1 Hx Hi; unfold separate in *; ttoffs; lia).
  assert (P2 : forall a k, (t <= a /\ a + k <= t + 32) \/ (t + 33 <= a /\ a + k <= t + 44) \/ (t + 48 <= a /\ a + k <= t + 56) -> covers P a k).
  { intros a k Hak x Hx. unfold P, in_block. clear - O2 Hak Hx Hi. unfold separate in *. ttoffs. lia. }
  assert (P3 : covers P (ob + bp) (Z.of_nat i)) by (intros x Hx; unfold P, in_block; clear - O2 Hx Hi; unfold separate in *; ttoffs; lia).
  assert (P4 : covers P buf n) by (intros x Hx; unfold P, in_block; clear - B2 B5 Hx Hi; unfold separate in *; ttoffs; lia).
  assert (P5 : covers P ib TTY_BUFFER_SIZE) by (intros x Hx; unfold P, in_block; clear - U2 O3 Hx Hi; unfold separate in *; ttoffs; lia).
  split; [|exact Hl|exact Hp| | |].
  - eapply fixed_change; [exact Hf|exact Hag|exact P1|apply P2; lia..].
  - eapply queue_kept; [exact Hq|exact Hag|apply P2; ttoffs; lia|rewrite (fx_inbuf _ Hf); exact P5].
  - intros j c' Hj Hc'. rewrite (proj2 Hag); [by apply Hr|apply P4; lia].
  - intros j c' Hj Hc'. destruct (decide (j = i)) as [->|].
    + rewrite Hc in Hc'. by injection Hc' as <-.
    + rewrite (proj2 Hag); [apply Hsn; [lia|done]|apply P3; lia].
Qed.

Lemma wp_echo s i c (Q : unit -> kernel -> Prop) :
  tty_s (vars (lower s)) + sizeof_tty * id = t -> world (sched_of s) -> typing (get_mem s) (Datatypes.S i) i ->
  input !! i = Some c -> Z.of_nat i < n ->
  (forall s', vars (lower s') = vars (lower s) -> world (sched_of s') -> typing (get_mem s') (Datatypes.S i) (Datatypes.S i) -> Q tt s') ->
  wp (k_tty_write f_write id (u32 (buf + Z.of_nat i)) 1) Q s.
Proof.
  intros Ht Hw Hty Hc Hi HQ. pose proof (ty_fixed _ _ _ Hty) as Hf. pose proof (fx_mapped _ Hf) as (M1 & M2 & M3 & M4 & M5).
  destruct Hgeo as [(G1 & G2 & G3 & G4 & G5 & G6 & G7 & G8 & G9 & G10) (K1 & K2 & K3 & K4 & K5 & K6) (B1 & B2 & B3 & B4 & B5) (O1 & O2 & O3 & O4) _ _].
  destruct (fx_ops _ Hf) as (Hwr & _ & _). destruct (fx_out _ Hf) as (Hob & Hcap).
  pose proof (ty_pos _ _ _ Hty) as Hpos. pose proof (ty_read _ _ _ Hty i c ltac:(lia) Hc) as Hch.
  unfold k_tty_write. apply wp_below. unfold tty_write. apply wp_bind. unfold tty_at. apply wp_bind, wp_var, wp_ret. rewrite Ht.
  apply wp_bind, wp_ld32; [rewrite get_mem_lower; eapply mapped_range_sub; [exact M2|ttoffs; lia..]|].
  rewrite get_mem_lower, Hwr, Z.eqb_refl, u32_small by lia. apply wp_bind, wp_generic_write.
  { rewrite get_mem_lower. split; rewrite ?Hob, ?Hpos; unfold separate in *.
    - done.
    - apply (ty_lock _ _ _ Hty).
    - lia.
    - eapply mapped_range_sub; [exact M4|lia..].
    - eapply mapped_range_sub; [exact M5|lia..].
    - clear - O2 Hi. lia.
    - clear - B5 Hi. lia.
    - clear - B2 Hi. lia. }
  rewrite get_mem_lower. intros m4 [Wb Wp Wl Wr]. rewrite Hob, Hpos in *.
  assert (Hty4 : typing m4 (Datatypes.S i) (Datatypes.S i)).
  { apply (shown_one (get_mem s) m4 i c); [done..| |exact Wl|rewrite Wp; lia|].
    - eapply agree_mono; [exact Wr|]. unfold in_block. intros x Hx. split_and!; [apply Hx|lia|apply Hx].
    - rewrite <-(Z.add_0_r (ob + bp + Z.of_nat i)), <-Z.add_assoc, Z.add_assoc. rewrite <-Hch, <-(Z.add_0_r (buf + Z.of_nat i)).
      rewrite <-(Wb 0) by lia. f_equal. lia. }
  apply wp_lock_yield.
  - change (world (sched_of (set_mem m4 s))). apply world_write; [exact Hw|]. eapply agree_mono; [exact Wr|]. intros x Hx.
    unfold in_block. split_and!; [intros ->; apply Hx, K2; ttoffs; lia|intros Hin; apply Hx, K5; lia|].
    intros Hin. apply Hx, K2. ttoffs. lia.
  - intros x' Hwx Hax. rewrite lower_set_mem, get_set_mem in Hax. apply wp_ret, HQ; [done|exact Hwx|].
    eapply typing_agree; [exact Hty4|lia..|exact Hax].
Qed.

Lemma wp_refresh s i k (Q : unit -> kernel -> Prop) :
  tty_s (vars (lower s)) + sizeof_tty * id = t -> world (sched_of s) -> typing (get_mem s) i k ->
  (forall s', left_alone s s' -> Q tt s') -> wp (k_tty_flush f_flush call_display id) Q s.
Proof.
  intros Ht Hw Hty HQ. pose proof (ty_fixed _ _ _ Hty) as Hf. pose proof (fx_mapped _ Hf) as (M1 & M2 & M3 & M4 & M5).
  destruct (fx_ops _ Hf) as (_ & Hfl & _).
  unfold k_tty_flush. apply wp_below. unfold tty_flush. apply wp_bind. unfold tty_at. apply wp_bind, wp_var, wp_ret. rewrite Ht.
  apply wp_bind, wp_ld32; [rewrite get_mem_lower; eapply mapped_range_sub; [exact M2|ttoffs; lia..]|]. rewrite get_mem_lower, Hfl.
  assert (Hstay : Q tt (set_lower (lower s) s)).
  { apply HQ. split; [exact Hw|apply agree_refl|done]. }
  apply wp_bind. unfold call_flush. rewrite Z.eqb_refl. unfold tty_generic_flush.
  apply wp_bind, wp_ld32; [rewrite get_mem_lower; eapply mapped_range_sub; [exact M2|ttoffs; lia..]|].
  destruct (Z.land _ _ =? 0); [by apply wp_ret, wp_ret|].
  apply wp_bind, wp_ld32; [rewrite get_mem_lower; eapply mapped_range_sub; [exact M2|ttoffs; lia..]|].
  rewrite get_mem_lower, (fx_disp _ Hf).
  apply wp_bind, wp_ld32; [rewrite get_mem_lower; eapply mapped_range_sub; [exact M3|ttoffs; lia..]|].
  destruct (negb _); [|by apply wp_ret, wp_ret].
  eapply wp_mono; [apply (ot_display Hothers); exact Hw|]. intros r y (Hwy & Hay & Hvy). apply wp_ret, HQ.
  split; [exact Hwy|by rewrite get_mem_lower in Hay|exact Hvy].
Qed.

Lemma left_alone_typing s s' i k : left_alone s s' -> typing (get_mem s) i k -> Z.of_nat i <= n -> Z.of_nat k <= n -> typing (get_mem s') i k.
Proof. intros Hl Hty Hi Hk. eapply typing_agree; [exact Hty|exact Hi|exact Hk|apply Hl]. Qed.

Lemma wp_proc_tty s i k (Q : Z -> kernel -> Prop) : typing (get_mem s) i k -> 0 <= p + P_tty_id -> Q id s -> wp (proc_tty p) Q s.
Proof.
  intros Hty Hp HQ. pose proof (ty_fixed _ _ _ Hty) as Hf. destruct (fx_mapped _ Hf) as ((? & ? & Hm) & _).
  apply wp_ld8; [lia|apply Hm; lia|]. by rewrite (fx_id _ Hf).
Qed.

(** *** The line *)

Definition plain (c : Z) : Prop := c <> 10 /\ c <> 8.

Lemma wp_show {B} s i c (k : M kernel B) (Q : B -> kernel -> Prop) :
  0 <= p + P_tty_id -> tty_s (vars (lower s)) + sizeof_tty * id = t -> world (sched_of s) -> typing (get_mem s) (Datatypes.S i) i ->
  input !! i = Some c -> Z.of_nat i < n ->
  (forall s', vars (lower s') = vars (lower s) -> world (sched_of s') -> typing (get_mem s') (Datatypes.S i) (Datatypes.S i) -> wp k Q s') ->
  wp (let! id0 := proc_tty p in k_tty_write f_write id0 (u32 (buf + (Z.of_nat i + 1) - 1)) 1 ;!
      let! id1 := proc_tty p in k_tty_flush f_flush call_display id1 ;! k) Q s.
Proof.
  intros Hp0 Ht Hw Hty Hc Hi HQ. replace (buf + (Z.of_nat i + 1) - 1) with (buf + Z.of_nat i) by lia.
  apply wp_bind. eapply wp_proc_tty; [exact Hty|exact Hp0|].
  apply wp_bind, (wp_echo s i c); [done..|]. intros s1 Hv1 Hw1 Hty1.
  apply wp_bind. eapply wp_proc_tty; [exact Hty1|exact Hp0|].
  apply wp_bind. eapply wp_refresh; [by rewrite Hv1|exact Hw1|exact Hty1|]. intros s2 Hl2.
  apply HQ; [by rewrite (la_ttys _ _ Hl2)|apply Hl2|]. eapply left_alone_typing; [exact Hl2|exact Hty1|lia..].
Qed.

End readline.

(** ** The theorem at work

    A process at 0x2000 on the terminal at 0x1000; "hi", a newline and "x" are
    typed. *)

Definition demo_line_bytes : list (Z * list Z) :=
  [(4096 + Y_write, le32 1 ++ le32 2 ++ le32 3); (4096 + Y_disp, le32 4352);
   (4096 + Y_buffer, le32 20480 ++ le32 4192 ++ le32 0 ++ le32 12288 ++ le32 4); (12288, [104; 105; 10; 120])].
Definition demo_line : layer (layer (layer (layer (layer (phymem (heap Arm.state)) sched_vars) device_vars) Z) tty_vars) vfs_vars :=
  Layer (Layer (Layer (Layer (Layer (Phymem (set_h_proc 8192 (low_heap demo_line_bytes)) 0 0 0 0 0)
    (SchedVars 0 0 0 0 0 0 0 0 0 0 0 0 0)) (DeviceVars 0 0)) 0) (TtyVars 4096 0)) (VfsVars 0 0 0).

#[local] Instance no_file_calls :
  Calls (layer (layer (layer (layer (layer (phymem (heap Arm.state)) sched_vars) device_vars) Z) tty_vars) vfs_vars) := fun _ _ => fault.

Definition not_started (x : layer (phymem (heap Arm.state)) sched_vars) : Prop := init_ready (vars x) = 0.

Lemma demo_others : others (fun _ _ => ret 0) not_started (fun _ => True).
Proof.
  split.
  - intros x m Hx _. exact Hx.
  - intros x Hx. unfold not_started in Hx. unfold schedule_noirq. apply wp_bind, wp_var. rewrite Hx. apply wp_ret. split; [exact Hx|apply agree_refl].
  - intros y u d Hy. apply wp_ret. split_and!; [exact Hy|apply agree_refl|done].
Qed.

Lemma demo_geometry : geometry (fun _ => True) 8192 0 4096 12288 4352 20480 0 28672 [104; 105; 10; 120] 3.
Proof.
  split.
  - simpl. lia.
  - by split_and!.
  - unfold separate, P_tty_id, sizeof_tty, TTY_BUFFER_SIZE, sizeof_display. lia.
  - unfold separate, P_tty_id, sizeof_tty, TTY_BUFFER_SIZE, sizeof_display. lia.
  - unfold separate, P_tty_id, sizeof_tty, TTY_BUFFER_SIZE, sizeof_display. lia.
  - unfold separate, P_tty_id, sizeof_tty, TTY_BUFFER_SIZE, sizeof_display. lia.
Qed.

Lemma demo_typing : typing 1 2 3 8192 0 4096 12288 4352 20480 0 28672 [104; 105; 10; 120] 3 (get_mem demo_line) 0 0.
Proof.
  assert (Hm : forall a k, 4096 <= a -> 0 <= k -> a + k <= 65536 -> mapped_range (get_mem demo_line) a k) by exact (low_mapped demo_line_bytes).
  assert (Hib : rd32 (get_mem demo_line) (4096 + Y_inbuf) = 12288) by (vm_compute; reflexivity).
  split.
  - split.
    + vm_compute. reflexivity.
    + split_and!; vm_compute; reflexivity.
    + vm_compute. reflexivity.
    + split; [vm_compute; reflexivity|vm_compute; congruence].
    + exact Hib.
    + unfold P_tty_id, sizeof_tty, sizeof_display. split_and!; apply Hm; lia.
  - vm_compute. reflexivity.
  - vm_compute. reflexivity.
  - split; rewrite ?Hib.
    + split; [lia|apply Hm; unfold sizeof_tty; lia].
    + apply Hm; unfold TTY_BUFFER_SIZE; lia.
    + right. unfold sizeof_tty. lia.
    + vm_compute. reflexivity.
    + vm_compute. congruence.
    + intros [|[|[|[|i]]]] c [= <-]; vm_compute; reflexivity.
    + repeat (constructor; [lia|]). constructor.
  - lia.
  - lia.
Qed.

