(* ===== verification/Dbus.v ===== *)
(** * Messages between processes: [kernel/dbus.c]

    A listener is called in a process of its own.  The sender holds the lock
    until the new process has taken the message over: [__dbus_stub] gives the
    lock back that [dbus_send_message] waits for. *)

From stdpp Require Import base numbers list gmap.
From Stdlib Require Import ZArith Lia.
From S2P Require Import Prelude Memory CString Process Pages Arm Liballoc LiballocInv LiballocProof LiballocSpec Allocator Phymem Layer Tables Device Current Sched Mutex Scratch Demo Fs.

Local Open Scope Z_scope.

Definition DBUS_LISTEN_TYPE_ONESHOT : Z := 1.
Definition DBUS_LISTEN_TYPE_CONTINUOUS : Z := 2.
Definition DBUS_EVENT_PROCESS_KILLED : Z := 1.
Definition DBUS_EVENT_INIT_KILLED : Z := 2.
Definition DBUS_MAX_MSGS : Z := 256.
Definition DBUS_MAX_LSTS : Z := 256.

(** [struct dbus_message] and [struct dbus_listener] *)
Definition DM_msg : Z := 0.
Definition DM_id : Z := 4.
Definition DM_buf : Z := 8.
Definition DM_len : Z := 12.
Definition DL_msg : Z := 0.
Definition DL_type : Z := 4.
Definition DL_callback : Z := 8.

Record dbus_vars : Type := DbusVars {
  messages : Z; listeners : Z; __msg : Z; __lst : Z
}.

Section ops.
Context {S G : Type} `{Current S} `{!Allocator S G}.
Notation sched := (layer (phymem S) sched_vars).
Notation locks := (layer (layer sched device_vars) Z).
Notation bus := (layer locks dbus_vars).
Notation BM := (M bus).
Context `{!Calls bus}.

(** The switch of mutex.c; the static [dbus_lock]; the literal and the function
    that [create_new_process] is given. *)
Variable lock_yield : M locks unit.
Variables (dbus_lock str_handler f_dbus_stub : Z).
(** [vfs_open] of fs/vfs.c and the literal ["/"], for the new process. *)
Variables (vfs_open : Z -> M sched Z) (str_root : Z).
Variable sys_exit : Z -> BM unit.

Definition dbus_init : BM Z :=
  let! p := malloc (4 * DBUS_MAX_MSGS) in
  assign (fun v => DbusVars p (listeners v) (__msg v) (__lst v)) ;!
  let! p := malloc (4 * DBUS_MAX_LSTS) in
  assign (fun v => DbusVars (messages v) p (__msg v) (__lst v)) ;!
  ret 0.

(** Returns from inside the loop when there is a free slot. *)
Definition dbus_register_listener (lst : Z) : BM Z :=
  if lst =? 0 then ret (- EINVAL)
  else
    let! l := var listeners in
    let! r := find_slot (Z.to_nat DBUS_MAX_LSTS) l (fun i => st32 (l + 4 * i) lst) in
    ret (match r with Some _ => 0 | None => 1 end).

Definition __dbus_stub : BM unit :=
  let! v := var (fun v => v) in
  below (mutex_unlock lock_yield dbus_lock) ;!
  let! f := ld32 (__lst v + DL_callback) in
  let! r := call_ptr f [__msg v] in
  sys_exit r.

(** A listener of the message: a one-shot one leaves the table. *)
Definition dbus_deliver (msg i : Z) : BM unit :=
  let! l := var listeners in
  let! lst := ld32 (l + 4 * i) in
  let! type := ld32 (lst + DL_type) in
  (if! type =? DBUS_LISTEN_TYPE_ONESHOT then st32 (l + 4 * i) 0) ;!
  assign (fun v => DbusVars (messages v) (listeners v) msg lst) ;!
  let! p := below (below (below (create_new_process str_root vfs_open str_handler f_dbus_stub))) in
  let! _ := below (below (below (scheduler_add_process p))) in
  ret tt.

Definition dbus_send_message (msg : Z) : BM Z :=
  below (mutex_lock lock_yield dbus_lock) ;!
  for_up (Z.to_nat DBUS_MAX_LSTS) 0 (fun i =>
    let! l := var listeners in
    let! lst := ld32 (l + 4 * i) in
    if lst =? 0 then ret tt
    else
      let! l := var listeners in
      let! lst := ld32 (l + 4 * i) in
      let! lm := ld32 (lst + DL_msg) in
      let! m := ld32 (msg + DM_msg) in
      if! lm =? m then dbus_deliver msg i) ;!
  below (mutex_lock lock_yield dbus_lock) ;!
  below (mutex_unlock lock_yield dbus_lock) ;!
  ret 0.
End ops.

(** ** A message that nobody listens to *)

Section unheard.
Context {S G : Type} `{Current S} `{!Allocator S G}.
Notation sched := (layer (phymem S) sched_vars).
Notation locks := (layer (layer sched device_vars) Z).
Notation bus := (layer locks dbus_vars).
Context `{!Calls bus}.
Variable lock_yield : M locks unit.
Variables (dbus_lock str_handler f_dbus_stub : Z) (vfs_open : Z -> M sched Z) (str_root : Z).
Implicit Types (s : bus).

(** The lock is taken, and mutexes work. *)
Definition lock_taken (t : locks) : Prop :=
  0 <= dbus_lock < 4294967296 /\ mapped (get_mem t) dbus_lock = true /\ rd (get_mem t) dbus_lock <> 0 /\ vars t = 0.

(** The listeners of the table at [l], none of which waits for the message [k]. *)
Definition nobody_listens (m : mem) (l k : Z) : Prop :=
  forall i, 0 <= i < DBUS_MAX_LSTS -> slot m l i <> 0 ->
    mapped_range m (slot m l i + DL_msg) 4 /\ rd32 m (slot m l i + DL_msg) <> k.

Lemma lock_taken_waits t :
  lock_taken t -> (forall t, lock_taken t -> exists t', lock_yield t = Ret tt t' /\ lock_taken t') ->
  mutex_lock lock_yield dbus_lock t = Timeout.
Proof.
  intros Ht Hy. unfold mutex_lock, bind at 1.
  rewrite (diverges_loop _ _ t); [done|]. apply (diverges_inv (fun _ t => lock_taken t)); [done|].
  intros [] u Hu0. destruct (Hy u Hu0) as (u' & Hu & Ht'). destruct Hu0 as (Hl & Hm & Hr & Hv).
  exists tt, u'. split; [|done]. unfold lock_test, ld8, var, gets, bind, ret.
  rewrite u32_small, Hm, Hv by done. destruct (Z.eqb_spec (rd (get_mem u) dbus_lock) 0); [done|]. simpl. by rewrite Hu.
Qed.

End unheard.

(** *** The theorem at work: a listener for another message *)

Definition demo_bus_bytes : list (Z * list Z) := [(4352, le32 2); (4608, le32 1 ++ le32 2 ++ le32 4096); (8192, le32 4608)].
Definition demo_bus : layer (layer (layer (layer (phymem (heap Arm.state)) sched_vars) device_vars) Z) dbus_vars :=
  Layer (Layer (Layer (Layer (Phymem (low_heap demo_bus_bytes) 0 0 0 0 0)
    (SchedVars 0 0 0 0 0 0 0 0 0 0 0 0 0)) (DeviceVars 0 0)) 0) (DbusVars 0 8192 0 0).

Lemma demo_unheard : nobody_listens (mset (get_mem demo_bus) 4100 1) 8192 2.
Proof.
  set (m := mset (get_mem demo_bus) 4100 1). intros i Hi Hs.
  assert (Hall : forallb (fun i => slot m 8192 (Z.of_nat i) =? if (i =? 0)%nat then 4608 else 0) (seq 0 256) = true)
    by (vm_compute; reflexivity).
  rewrite forallb_forall in Hall. specialize (Hall (Z.to_nat i)). rewrite Z2Nat.id in Hall by lia.
  unfold DBUS_MAX_LSTS in Hi. apply Z.eqb_eq in Hall; [|apply in_seq; lia].
  destruct (Nat.eqb_spec (Z.to_nat i) 0); [|lia]. rewrite Hall. split.
  - apply (low_mapped demo_bus_bytes); unfold DL_msg; lia.
  - vm_compute. discriminate.
Qed.

