(* ===== verification/Net.v ===== *)
(** * Network devices: [net/net.c], [net/arp.c], [net/ip.c]

    A table of devices and the hardware address of the last one set.  The only
    packet that is ever built is an ARP request. *)

From stdpp Require Import base numbers list gmap.
From Stdlib Require Import ZArith Lia.
From S2P Require Import Prelude Memory CString Process Pages Arm Liballoc LiballocInv LiballocProof LiballocSpec Allocator Layer Tables Device Scratch Demo Fs.

Local Open Scope Z_scope.

(** [struct packet] *)
Definition PK_len : Z := 0.
Definition PK_payload : Z := 4.

(** [struct net_device] *)
Definition ND_macaddr : Z := 0.          (* 6 bytes *)
Definition ND_pdev : Z := 8.
Definition ND_send_packet : Z := 12.
Definition ND_receive_packet : Z := 16.
Definition sizeof_net_device : Z := 20.

(** [struct arp_packet] *)
Definition AP_htype : Z := 0.            (* uint16_t *)
Definition AP_ptype : Z := 2.            (* uint16_t *)
Definition AP_hlen : Z := 4.             (* uint8_t *)
Definition AP_plen : Z := 5.             (* uint8_t *)
Definition AP_opcode : Z := 6.           (* uint16_t *)
Definition AP_srchw : Z := 8.            (* 6 bytes *)
Definition AP_srcpr : Z := 14.           (* 4 bytes *)
Definition AP_dsthw : Z := 18.           (* 6 bytes *)
Definition AP_dstpr : Z := 24.           (* 4 bytes *)

Record net_vars : Type := NetVars { count : Z; netmain : Z }.

Definition __swap16 (a : Z) : Z :=
  let b0 := u16 (Z.shiftl (Z.land a 255) 8) in
  let b1 := Z.shiftr (Z.land a 65280) 8 in
  Z.lor b0 b1.

Section ops.
Context {S G : Type} `{Allocator S G} `{!Calls (layer S net_vars)}.
Notation NM := (M (layer S net_vars)).

(** Addresses of the static arrays [ndevs] and [macaddr], and of the locals
    [mac] and [pk] of [arp_get_ip]. *)
Variables (ndevs macaddr mac_local pk_local : Z).

(** The table has 8 entries; the code does not check. *)
Definition register_net_device (ndev : Z) : NM unit :=
  let! n := var count in
  st32 (ndevs + 4 * n) ndev ;!
  assign (fun v => NetVars (u32 (count v + 1)) (netmain v)).

Definition net_set_mac (m : Z) : NM unit := memcpy macaddr m 6.

Definition net_getmain : NM Z :=
  let! n := var count in
  if n =? 0 then ret 0 else ld32 ndevs.

Definition net_query_mac (mac : Z) : NM unit := memcpy mac macaddr 6.

(** [arp->srchw[i] = mac[5 - i]] *)
Definition put_srchw (arp i : Z) : NM unit :=
  let! c := ld8 (mac_local + (5 - i)) in st8 (arp + AP_srchw + i) c.

(** [malloc] is not checked, and only the first 28 of the 60 bytes are set. *)
Definition arp_get_ip (ndev : Z) : NM unit :=
  let! arp := malloc 60 in
  st8 (arp + AP_hlen) 6 ;!
  st8 (arp + AP_plen) 4 ;!
  st16 (arp + AP_htype) (__swap16 1) ;!
  st16 (arp + AP_ptype) (__swap16 2048) ;!
  st16 (arp + AP_opcode) (__swap16 1) ;!
  net_query_mac mac_local ;!
  for_up 6 0 (put_srchw arp) ;!
  let! n := ld8 (arp + AP_plen) in
  let! _ := memset (arp + AP_srcpr) 0 n in
  let! n := ld8 (arp + AP_plen) in
  let! _ := memset (arp + AP_dstpr) 0 n in
  let! n := ld8 (arp + AP_hlen) in
  let! _ := memset (arp + AP_dsthw) 0 n in
  st32 (pk_local + PK_len) 60 ;!
  st32 (pk_local + PK_payload) arp ;!
  let! f := ld32 (ndev + ND_send_packet) in
  let! _ := call_ptr f [ndev; pk_local] in
  free arp.

Definition ip_find (ndev : Z) : NM unit := arp_get_ip ndev.
End ops.
