(* ===== verification/Ne2k.v ===== *)
(** * The NE2000 card: [drivers/ne2k.c]

    The card is programmed through ports.  The addresses of the local arrays of
    [ne2k_probe] are parameters, and so is the result of a function that has no
    return statement.  The messages are left out. *)

From stdpp Require Import base numbers list gmap.
From Stdlib Require Import ZArith Lia.
From S2P Require Import Prelude Memory CString Process Pages Arm Liballoc LiballocInv LiballocProof LiballocSpec Allocator Layer Tables Device Hal Pic Scratch Demo Fs Pci Net.

Local Open Scope Z_scope.

Definition NE_P0_CR : Z := 0.
Definition NE_P0_PSTART : Z := 1.
Definition NE_P0_PSTOP : Z := 2.
Definition NE_P0_BNRY : Z := 3.
Definition NE_P0_TPSR : Z := 4.
Definition NE_P0_TBCR0 : Z := 5.
Definition NE_P0_TBCR1 : Z := 6.
Definition NE_P0_ISR : Z := 7.
Definition NE_P0_RSAR0 : Z := 8.
Definition NE_P0_RSAR1 : Z := 9.
Definition NE_P0_RBCR0 : Z := 10.
Definition NE_P0_RBCR1 : Z := 11.
Definition NE_P0_RCR : Z := 12.
Definition NE_P0_TCR : Z := 13.
Definition NE_P0_DCR : Z := 14.
Definition NE_P0_IMR : Z := 15.
Definition NE_P1_PAR0 : Z := 1.
Definition NE_P1_CURR : Z := 7.
Definition NE_P1_MAR0 : Z := 8.
Definition NE_CR_STP : Z := 1.
Definition NE_CR_STA : Z := 2.
Definition NE_CR_RD0 : Z := 8.
Definition NE_CR_RD1 : Z := 16.
Definition NE_CR_RD2 : Z := 32.
Definition NE_CR_PAGE_1 : Z := 64.
Definition NE_ISR_RDC : Z := 64.
Definition NE_DCR_WTS : Z := 1.
Definition NE_DCR_LS : Z := 8.
Definition NE_DCR_FT1 : Z := 64.
Definition NE_RCR_AB : Z := 4.
Definition NE_NOVELL_DATA : Z := 0.

(** [struct ne2k_device] *)
Definition NE_nextmempage : Z := 0.      (* uint8_t *)
Definition NE_pdev : Z := 4.
Definition NE_ndev : Z := 8.
Definition sizeof_ne2k_device : Z := 12.

Section ops.
Context {S G : Type} `{HP : HasPorts S} `{HM : HasMem S} `{!Allocator S G}.
Notation cards := (layer (layer S idt_vars) pci_vars).
Notation nets := (layer cards net_vars).
Notation ne2k := (layer nets Z).
Notation EM := (M ne2k).
Context `{!Calls cards} `{!Calls nets}.

(** The static arrays of net.c, the locals of [arp_get_ip], and the locals [w]
    and [mac] of [ne2k_probe]. *)
Variables (ndevs macaddr mac_local pk_local w_local mac : Z).
(** The entry point of the interrupt, and the driver structure. *)
Variables (f_ne2k_irq f_ne2k_send_packet ne2k_drv : Z).
(** What is in the result register after [ne2k_get_write_page]. *)
Variable no_result : Z.

(** [outportb(pdev->iobase + reg, v)] *)
Definition ne_out (pdev reg v : Z) : EM unit :=
  let! io := ld32 (pdev + PD_iobase) in outportb (u16 (io + reg)) v.

Definition ne2k_setup (pdev : Z) : EM Z :=
  ne_out pdev NE_P0_CR (Z.lor NE_CR_RD2 NE_CR_STP) ;!
  ne_out pdev NE_P0_DCR (Z.lor (Z.lor NE_DCR_FT1 NE_DCR_WTS) NE_DCR_LS) ;!
  ret 0.

(** The state's variable is [__pdev]. *)
Definition ne2k_get : EM Z := var (fun p => p).

Definition ne2k_ack_interrupt (pdev : Z) : EM unit :=
  if pdev =? 0 then ret tt
  else
    let! io := ld32 (pdev + PD_iobase) in
    let base := u16 io in
    outportb (u16 (base + NE_P0_CR)) (Z.lor NE_CR_RD2 NE_CR_STA) ;!
    let! isr := inportb (u16 (base + NE_P0_ISR)) in
    outportb (u16 (base + NE_P0_ISR)) 255.

Definition __imp_ne2k_irq : EM unit :=
  let! p := ne2k_get in
  ne2k_ack_interrupt p ;!
  let! _ := send_eoi 11 in ret tt.

(** [mac] is the address of the six bytes. *)
Definition ne2k_setup_2 (pdev mac : Z) : EM Z :=
  if (pdev =? 0) || (mac =? 0) then ret (- EINVAL)
  else
    ne_out pdev NE_P0_CR (Z.lor NE_CR_RD2 NE_CR_STP) ;!
    ne_out pdev NE_P0_PSTART 64 ;!
    ne_out pdev NE_P0_PSTOP 192 ;!
    ne_out pdev NE_P0_BNRY 191 ;!
    ne_out pdev NE_P0_IMR 63 ;!
    ne_out pdev NE_P0_CR (Z.lor (Z.lor NE_CR_PAGE_1 NE_CR_RD2) NE_CR_STP) ;!
    for_up 6 0 (fun i => let! io := ld32 (pdev + PD_iobase) in
                         let! c := ld8 (mac + i) in outportb (u16 (io + NE_P1_PAR0 + i)) c) ;!
    ne_out pdev NE_P1_CURR 65 ;!
    for_up 8 0 (fun i => ne_out pdev (NE_P1_MAR0 + i) 0) ;!
    ne_out pdev NE_P0_CR (Z.lor NE_CR_RD2 NE_CR_STP) ;!
    ne_out pdev NE_P0_RCR NE_RCR_AB ;!
    ne_out pdev NE_P0_TCR 0 ;!
    ne_out pdev NE_P0_ISR 255 ;!
    ne_out pdev NE_P0_CR (Z.lor NE_CR_RD2 NE_CR_STA) ;!
    ret 0.

(** Reads [len] bytes of the card's memory, rounded up to words. *)
Definition ne2k_readmem (pdev buf offset len : Z) : EM unit :=
  let len := if Z.land len 1 =? 0 then len else u32 (len + 1) in
  ne_out pdev NE_P0_CR (Z.lor NE_CR_RD2 NE_CR_STA) ;!
  ne_out pdev NE_P0_RBCR0 (u8 len) ;!
  ne_out pdev NE_P0_RBCR1 (u8 (len / 256)) ;!
  ne_out pdev NE_P0_RSAR0 (u8 offset) ;!
  ne_out pdev NE_P0_RSAR1 (u8 (offset / 256)) ;!
  ne_out pdev NE_P0_CR (Z.lor NE_CR_RD0 NE_CR_STA) ;!
  for_up (Z.to_nat (len / 2)) 0 (fun i =>
    let! io := ld32 (pdev + PD_iobase) in
    let! v := inportw (u16 (io + 16 + NE_NOVELL_DATA)) in
    st16 (u32 (buf + 2 * i)) v).

(** The page is computed, but there is no return statement. *)
Definition ne2k_get_write_page (pdev len : Z) : EM Z :=
  let! dev := ld32 (pdev + PD_data) in
  let! _ := ld8 (dev + NE_nextmempage) in
  let! n := ld8 (dev + NE_nextmempage) in
  st8 (dev + NE_nextmempage) (u8 (n + Z.shiftr (len + 255) 8)) ;!
  let! n := ld8 (dev + NE_nextmempage) in
  (if! n >=? 192 then (let! n := ld8 (dev + NE_nextmempage) in st8 (dev + NE_nextmempage) (u8 (n - 64)))) ;!
  ret no_result.

(** [!inportb(ISR) & 0x40] is the negation's bit 6, which is never set: the
    status is read once.  Words are sent, one for each byte of the length. *)
Definition ne2k_send_packet (ndev p : Z) : EM Z :=
  let! pdev := ld32 (ndev + ND_pdev) in
  let! io := ld32 (pdev + PD_iobase) in
  let out reg v := outportb (u16 (io + reg)) v in
  let len := ld32 (p + PK_len) in
  out NE_P0_CR (Z.lor NE_CR_RD2 NE_CR_STA) ;!
  out NE_P0_ISR NE_ISR_RDC ;!
  let! n := len in out NE_P0_TBCR0 (Z.land n 255) ;!
  let! n := len in out NE_P0_TBCR1 (u8 (n / 256)) ;!
  let! n := len in out NE_P0_RBCR0 (Z.land n 255) ;!
  let! n := len in out NE_P0_RBCR1 (u8 (n / 256)) ;!
  out NE_P0_RSAR0 0 ;!
  let! n := len in
  let! r := ne2k_get_write_page pdev (u16 n) in
  let page := u8 r in
  out NE_P0_RSAR1 page ;!
  out NE_P0_CR (Z.lor NE_CR_RD1 NE_CR_STA) ;!
  let! n := len in
  let! payload := ld32 (p + PK_payload) in
  loop (fun '(buflen, buf) =>
    if buflen =? 0 then ret (inr tt)
    else
      let! v := ld16 buf in
      outportw (u16 (io + 16)) v ;!
      ret (inl (s32 (buflen - 1), u32 (buf + 2)))) (s32 n, payload) ;!
  let! _ := inportb (u16 (io + NE_P0_ISR)) in
  out NE_P0_ISR 64 ;!
  out NE_P0_TPSR page ;!
  out NE_P0_CR (Z.lor (Z.lor 16 4) 2) ;!
  ret 0.

(** [mac[i] = w[i]] *)
Definition take_mac : EM unit :=
  for_up 6 0 (fun i => let! v := ld16 (w_local + 2 * i) in st8 (mac + i) (u8 v)).

Definition ne2k_probe (pdev : Z) : EM Z :=
  let! vendor := ld16 (pdev + PD_vendor) in
  let! no :=
    if negb (vendor =? 4332) then ret true
    else let! device := ld16 (pdev + PD_device) in ret (negb (device =? 32809)) in
  if (no : bool) then ret (- ENODEV)
  else
    let! base := ld32 (pdev + PD_iobase) in
    let! _ := ne2k_setup pdev in
    ne2k_readmem pdev w_local 0 16 ;!
    take_mac ;!
    below (net_set_mac macaddr mac) ;!
    let! _ := ne2k_setup_2 pdev mac in
    let! ne := malloc sizeof_ne2k_device in
    st32 (ne + NE_pdev) pdev ;!
    st32 (pdev + PD_data) ne ;!
    let! ndev := malloc sizeof_net_device in
    st32 (ndev + ND_pdev) pdev ;!
    st32 (ndev + ND_send_packet) f_ne2k_send_packet ;!
    memcpy (ndev + ND_macaddr) mac 6 ;!
    below (register_net_device ndevs ndev) ;!
    assign (fun _ => pdev) ;!
    let! irq := ld32 (pdev + PD_irq) in
    let! _ := below (below (below (register_interrupt (s32 (u32 (irq + 32))) f_ne2k_irq))) in
    below (ip_find macaddr mac_local pk_local ndev) ;!
    ret 0.

Definition ne2k_init : EM Z := below (below (pci_register_driver ne2k_drv)) ;! ret 0.
End ops.
