(* ===== verification/Fork.v ===== *)
(** * Fork: [arch/x86/fork.c]

    The child gets pages, a directory and a copy of the parent's memory, made
    through a buffer in the kernel heap while the directories are switched; and
    a copy of the parent's stack with a frame on it from which the context
    switch resumes the child behind [read_eip], which then gives it 0.

    Memory is what the processor sees: loading a directory, [read_eip] and the
    stack pointer are parameters, and so are the operations of other files.  The
    theorem says that the child's thread is parked, in the sense of Switch. *)

From stdpp Require Import base numbers list gmap.
From Stdlib Require Import ZArith Lia.
From S2P Require Import Prelude Memory Process Pages Arm Liballoc LiballocInv LiballocProof LiballocSpec Allocator Phymem Layer Tables Current Device Sched Switch Scratch Demo.

Local Open Scope Z_scope.

Record fork_vars : Type := ForkVars {
  parent : Z; child : Z; pd : Z; buf : Z; stack : Z; t : Z; stackdiff : Z; esp : Z
}.
Definition set_procs (p c : Z) (v : fork_vars) : fork_vars :=
  ForkVars p c (pd v) (buf v) (stack v) (t v) (stackdiff v) (esp v).
Definition set_pd (n : Z) (v : fork_vars) : fork_vars :=
  ForkVars (parent v) (child v) n (buf v) (stack v) (t v) (stackdiff v) (esp v).
Definition set_buf (n : Z) (v : fork_vars) : fork_vars :=
  ForkVars (parent v) (child v) (pd v) n (stack v) (t v) (stackdiff v) (esp v).
Definition set_stack (n : Z) (v : fork_vars) : fork_vars :=
  ForkVars (parent v) (child v) (pd v) (buf v) n (t v) (stackdiff v) (esp v).
Definition set_t (n : Z) (v : fork_vars) : fork_vars :=
  ForkVars (parent v) (child v) (pd v) (buf v) (stack v) n (stackdiff v) (esp v).
Definition set_esp (n : Z) (v : fork_vars) : fork_vars :=
  ForkVars (parent v) (child v) (pd v) (buf v) (stack v) (t v) (stackdiff v) n.

(** Where programs are loaded. *)
Definition USER_BASE : Z := 4194304.

Section ops.
Context {K G : Type} `{Current K} `{!Allocator K G}.
Notation FM := (M (layer K fork_vars)).

(** kernel/scheduler.c, mm/phymem.c, arch/x86/paging.c *)
Variables (create_new_process_nothread : Z -> M K Z) (scheduler_add_process : Z -> M K Z).
Variables (phymem_alloc : Z -> M K Z) (create_new_page_directory : Z -> Z -> M K Z).
Variables (replace_page : Z -> Z -> Z -> M K unit) (interrupt_ctl : Z -> M K Z).
(** [mov %eax, %cr3]; [read_eip]; [mov %esp, esp] *)
Variables (load_cr3 : Z -> M K unit) (read_eip read_esp : M K Z).
Variable str_child : Z.

(** The pages of the child and the copy of the parent's memory. *)
Definition copy_memory : FM unit :=
  let! p := var parent in
  let! len := ld32 (p + P_exec_len) in
  let! a := below (phymem_alloc len) in
  let! c := var child in
  st32 (c + P_palloc) a ;!
  let! len := ld32 (p + P_exec_len) in
  st32 (c + P_palloc_len) len ;!
  let! len := ld32 (p + P_exec_len) in
  st32 (c + P_exec_len) len ;!
  let! a := ld32 (c + P_palloc) in
  let! d := below (create_new_page_directory USER_BASE a) in
  assign (set_pd d) ;!
  st32 (c + P_paged) d ;!
  let! _ := below (interrupt_ctl 0) in
  let! len := ld32 (p + P_palloc_len) in
  let! b := malloc len in
  assign (set_buf b) ;!
  let! len := ld32 (p + P_palloc_len) in
  let! _ := memset b 0 (s32 len) in
  let! len := ld32 (p + P_palloc_len) in
  memcpy b USER_BASE len ;!
  let! d := ld32 (c + P_paged) in
  below (load_cr3 d) ;!
  let! len := ld32 (c + P_palloc_len) in
  memcpy USER_BASE b len ;!
  let! d := ld32 (p + P_paged) in
  below (load_cr3 d) ;!
  let! _ := below (interrupt_ctl 1) in
  free b.

(** [*--stack = w] *)
Definition push (w : Z) : FM unit :=
  let! sp := var stack in
  assign (set_stack (u32 (sp - 4))) ;!
  st32 (u32 (sp - 4)) w.

(** The frame that the context switch pops: eflags, cs, eip, eax to edi, ebp, and
    the segment registers. *)
Definition push_frame (eip : Z) : FM unit :=
  push 514 ;! push 8 ;! push eip ;!
  push 0 ;! push 0 ;! push 0 ;! push 0 ;! push 0 ;! push 0 ;!
  let! th := var t in
  let! top := ld32 (th + T_stacktop) in
  push top ;!
  push 16 ;! push 16 ;! push 16 ;! push 16.

(** The copy of the parent's stack; [stack] is where the parent is on it. *)
Definition copy_stack : FM Z :=
  let! st := malloc THREAD_STACK_SIZE in
  assign (set_stack st) ;!
  let rstack := st in
  let! p := var parent in
  let! t0 := ld32 (p + P_threads) in
  let! bot := ld32 (t0 + T_stackbot) in
  memcpy st bot THREAD_STACK_SIZE ;!
  let! sp := below read_esp in
  assign (set_esp sp) ;!
  let! t0 := ld32 (p + P_threads) in
  let! bot := ld32 (t0 + T_stackbot) in
  assign (set_stack (u32 (st + sp - bot))) ;!
  ret rstack.

(** The child's page of the parent's stack becomes the copy. *)
Definition map_stack (rstack : Z) : FM unit :=
  let! p := var parent in
  let! c := var child in
  let! d := ld32 (c + P_paged) in
  let! t0 := ld32 (p + P_threads) in
  let! ps := ld32 (t0 + T_stack) in
  below (replace_page d ps (Z.lor rstack 3)) ;!
  let! th := var t in
  st32 (th + T_rstack) rstack.

Definition link_child (eip : Z) : FM Z :=
  let! c := var child in
  let! th := var t in
  st32 (th + T_ip) eip ;!
  let! sp := var stack in
  st32 (th + T_stack) sp ;!
  st32 (c + P_threads) th ;!
  let! n := ld8 (c + P_threadslen) in
  st8 (c + P_threadslen) (u8 (n + 1)) ;!
  let! _ := below (scheduler_add_process c) in
  ld8 (c + P_pid).

Definition child_thread (rstack eip : Z) : FM Z :=
  map_stack rstack ;!
  push_frame eip ;!
  link_child eip.

(** The parent's side behind [read_eip]. *)
Definition start_child (eip : Z) : FM Z :=
  let! rstack := copy_stack in
  child_thread rstack eip.

Definition sys_fork : FM Z :=
  let! p := get_process in
  assign (fun v => set_procs p (child v) v) ;!
  let! c := below (create_new_process_nothread str_child) in
  assign (fun v => set_procs (parent v) c v) ;!
  copy_memory ;!
  let! th := malloc sizeof_thread in
  assign (set_t th) ;!
  let! _ := memset th 0 sizeof_thread in
  let! c := var child in
  st32 (th + T_paged) (u32 (c + P_paged)) ;!
  let! eip := below read_eip in
  if negb (eip =? 0) then start_child eip else ret 0.
End ops.

(** ** The child starts where the parent is *)

Section push.
Context {K G : Type} `{Current K} `{!Allocator K G}.
Implicit Types (s : layer K fork_vars).

(** [s] is [s0] with the words [l] pushed. *)
Record pushed s0 s (l : list Z) : Prop := {
  pu_vars : vars s = set_stack (stack (vars s0) - 4 * Z.of_nat (length l)) (vars s0);
  pu_lower : lower s = set_mem (get_mem s) (lower s0);
  pu_agree : agree (fun a => ~ stack (vars s0) - 4 * Z.of_nat (length l) <= a < stack (vars s0)) (get_mem s0) (get_mem s);
  pu_frame : frame_at (get_mem s) (stack (vars s0)) l;
}.

Lemma pushed_nil s : pushed s s [].
Proof.
  split.
  - simpl. rewrite Z.sub_0_r. by destruct (vars s).
  - rewrite <-get_mem_lower, set_get_mem. done.
  - apply agree_refl.
  - intros k w Hk. done.
Qed.

Lemma wp_push_next {B} s0 s l w (k : unit -> M (layer K fork_vars) B) (Q : B -> layer K fork_vars -> Prop) :
  let sp := stack (vars s0) in let n := 4 * (Z.of_nat (length l) + 1) in
  pushed s0 s l -> n <= sp < 4294967296 -> mapped_range (get_mem s0) (sp - n) n -> word w ->
  (forall s', pushed s0 s' (l ++ [w]) -> wp (k tt) Q s') ->
  wp (bind (push w) k) Q s.
Proof.
  intros sp n [Hv Hl Ha Hf] Hsp Hm Hw HQ. unfold word in Hw. fold sp in Hv, Ha, Hf.
  assert (Hst : stack (vars s) = sp - 4 * Z.of_nat (length l)) by (rewrite Hv; done).
  apply wp_bind. unfold push. apply wp_bind, wp_var. rewrite Hst. apply wp_bind, wp_assign.
  rewrite u32_small by lia. apply wp_st32.
  { lens. eapply agree_mapped_range; [exact Ha|]. eapply mapped_range_sub; [exact Hm|lia..]. }
  lens. apply HQ. set (a := sp - 4 * Z.of_nat (length l) - 4).
  assert (Hlen : 4 * Z.of_nat (length (l ++ [w])) = sp - a) by (rewrite length_app; simpl; unfold a; lia).
  split; fold sp; rewrite ?Hlen.
  - simpl. rewrite Hv. replace (sp - (sp - a)) with a by lia. done.
  - lens. simpl. rewrite Hl, set_set_mem. done.
  - lens. split; [rewrite ranges_mwrite; apply Ha|]. intros x Hx. rewrite rd_mwrite_out by (rewrite le32_length; unfold a in *; lia).
    apply Ha. unfold a in *. lia.
  - lens. replace (sp - a) with (4 * Z.of_nat (length (l ++ [w]))) in * by lia. apply frame_app.
    + eapply frame_agree; [|intros x Hx; exact Hx|exact Hf]. split; [apply ranges_mwrite|]. intros x Hx.
      apply rd_mwrite_out. rewrite le32_length. unfold a. lia.
    + intros [|i] u Hu; simpl in Hu; [injection Hu as <-|done].
      replace (sp - 4 * Z.of_nat (length l) - 4 * (Z.of_nat 0 + 1)) with a by (unfold a; lia).
      rewrite rd32_mwrite_same. by apply u32_small.
Qed.
End push.

Section child.
Context {K G : Type} `{Current K} `{!Allocator K G}.
Variables (scheduler_add_process : Z -> M K Z) (replace_page : Z -> Z -> Z -> M K unit) (read_esp : M K Z).
Implicit Types (s : layer K fork_vars).

(** What [start_child] needs of the operations of other files: with the state
    in [ok], which is kept by writes to [keep] and by allocation, they return
    and leave the bytes of [keep] alone; [read_esp] gives [sp0]. *)
Record fork_ops (ok : K -> Prop) (keep : Z -> Prop) (sp0 : Z) : Prop := {
  fk_write x m : ok x -> agree (fun a => ~ keep a) (get_mem x) m -> ok (set_mem m x);
  fk_malloc x n p x' : ok x -> malloc n x = Ret p x' -> ok x';
  fk_replace x d v w : ok x -> wp (replace_page d v w) (fun _ x' => ok x' /\ agree keep (get_mem x) (get_mem x')) x;
  fk_add x c : ok x -> wp (scheduler_add_process c) (fun _ x' => ok x' /\ agree keep (get_mem x) (get_mem x')) x;
  fk_esp x : ok x -> wp read_esp (fun sp x' => sp = sp0 /\ x' = x) x;
}.

(** The registers of the child when it runs for the first time. *)
Definition child_regs (eip top sp : Z) : cpu := Cpu 0 0 0 0 0 0 top sp eip 514 8 16 16 16 16.

(** The first thread of the parent, and its stack. *)
Definition first_thread (m : mem) (v : fork_vars) : Z := slot m (parent v + P_threads) 0.
Definition first_stack (m : mem) (v : fork_vars) : Z := rd32 m (first_thread m v + T_stackbot).

(** The bytes of the parent that are read, and the structures of the child. *)
Definition parent_byte (m : mem) (v : fork_vars) (a : Z) : Prop :=
  in_block (parent v + P_threads) 4 a \/ in_block (first_thread m v) sizeof_thread a \/
  in_block (first_stack m v) THREAD_STACK_SIZE a.
Definition child_byte (v : fork_vars) (a : Z) : Prop := in_block (child v) sizeof_process a \/ in_block (t v) sizeof_thread a.

Record forking (m : mem) (v : fork_vars) (sp0 : Z) : Prop := {
  fg_parent : process_mapped m (parent v);
  fg_thread : mapped_range m (first_thread m v) sizeof_thread;
  fg_stack : mapped_range m (first_stack m v) THREAD_STACK_SIZE;
  fg_child : process_mapped m (child v);
  fg_t : mapped_range m (t v) sizeof_thread;
  fg_apart : child v + sizeof_process <= t v \/ t v + sizeof_thread <= child v;
  fg_esp : first_stack m v + 56 <= sp0 < first_stack m v + THREAD_STACK_SIZE;
}.

Context (ok : K -> Prop) (keep : Z -> Prop) (sp0 : Z) (Hops : fork_ops ok keep sp0).

Lemma wp_copy_stack s g (Q : Z -> layer K fork_vars -> Prop) :
  let m := get_mem s in let v := vars s in let bot := first_stack m v in
  heap_ok s g -> room s THREAD_STACK_SIZE -> ~ out_of_memory -> ok (lower s) -> (forall a, heap_byte s g a -> keep a) ->
  forking m v sp0 -> foreign s g (parent_byte m v) ->
  (forall st s' g' m', gave s g THREAD_STACK_SIZE st s' g' -> vars s' = vars s ->
    agree (fun a => ~ in_block st THREAD_STACK_SIZE a) (get_mem s') m' ->
    (forall y, st <= y < st + THREAD_STACK_SIZE -> rd m' y = rd m (bot + (y - st))) ->
    ok (lower (set_mem m' s')) ->
    Q st (set_vars (set_stack (st + (sp0 - bot)) (set_esp sp0 v)) (set_mem m' s'))) ->
  wp (copy_stack read_esp) Q s.
Proof.
  intros m v bot Hok Hroom Hoom Hp Hkh Hf Hfor HQ. unfold copy_stack.
  apply wp_bind, wp_run. apply (wp_malloc_layer s g THREAD_STACK_SIZE); [done|unfold THREAD_STACK_SIZE; lia|exact Hroom| |].
  { intros s' _ Hr. by destruct (Hoom (rf_oom _ _ _ Hr)). }
  intros st s' g' Hv Hg Hrun%malloc_layer_run. apply (fk_malloc _ _ _ Hops) in Hrun; [|done].
  destruct Hf as [[Hp0 Hpm] Htm Hsm _ _ _ Hsp]. fold bot in Hsm, Hsp.
  pose proof (gave_agree _ _ _ _ _ _ _ Hg Hfor) as Ha. fold m in Ha. set (m1 := get_mem s') in *.
  set (m2 := mwrite m1 st (mread m1 bot THREAD_STACK_SIZE)).
  assert (Hst : agree (fun a => ~ in_block st THREAD_STACK_SIZE a) m1 m2).
  { split; [apply ranges_mwrite|]. intros a Hx. apply rd_mwrite_out. rewrite length_mread. unfold in_block, THREAD_STACK_SIZE in *. lia. }
  pose proof (gave_write_agree _ _ _ _ _ _ _ _ Hg Hfor Hst) as Ha2. fold m in Ha2.
  pose proof (gave_apart _ _ _ _ _ _ _ Hg Hfor) as Hap.
  destruct (gv_addr _ _ _ _ _ _ Hg) as [Hst0 _]. pose proof (gv_mapped _ _ _ _ _ _ Hg) as Hstm. fold m1 in Hstm.
  assert (Hread : forall m', agree (parent_byte m v) m m' ->
    mapped_range m' (parent v + P_threads) 4 /\ rd32 m' (parent v + P_threads) = first_thread m v /\
    mapped_range m' (first_thread m v + T_stackbot) 4 /\ rd32 m' (first_thread m v + T_stackbot) = bot /\
    mapped_range m' bot THREAD_STACK_SIZE).
  { intros m' Hm'. split_and!; try (eapply agree_mapped_range; [exact Hm'|]).
    - eapply mapped_range_sub; [exact Hpm|soffs; lia..].
    - rewrite (rd32_agree _ _ _ _ Hm'); [|left; unfold in_block; lia..]. unfold first_thread, slot. f_equal. lia.
    - eapply mapped_range_sub; [exact Htm|unfold T_stackbot, sizeof_thread; lia..].
    - apply (rd32_agree _ _ _ _ Hm'); right; left; unfold in_block, T_stackbot, sizeof_thread; lia.
    - exact Hsm. }
  destruct (Hread m1 Ha) as (R1 & R2 & R3 & R4 & R5). destruct (Hread m2 Ha2) as (W1 & W2 & W3 & W4 & _).
  apply wp_bind, wp_assign, wp_bind, wp_var. lens. rewrite Hv. fold v.
  change (parent (vars (set_vars (set_stack st v) s'))) with (parent v).
  apply wp_bind, wp_ld32; [lens; fold m1; exact R1|]. lens. fold m1.
 rewrite R2.
  apply wp_bind, wp_ld32; [lens; fold m1; exact R3|]. lens. fold m1. rewrite R4.
  apply wp_bind, wp_memcpy; [unfold THREAD_STACK_SIZE; lia|lens; fold m1; exact Hstm|lens; fold m1; exact R5| |].
  { unfold forward_ok. destruct (ranges_apart st THREAD_STACK_SIZE bot THREAD_STACK_SIZE); [unfold THREAD_STACK_SIZE; lia..| | |lia].
    - intros a Hx Hb. apply (Hap a); [right; right; exact Hb|exact Hx].
    - lia. }
  lens. fold m1 m2.
  assert (Hok2 : ok (lower (set_mem m2 s'))).
  { rewrite lower_set_mem. apply (fk_write _ _ _ Hops); [done|]. rewrite get_mem_lower. fold m1. eapply agree_mono; [exact Hst|].
    intros a Hx Hin. by apply Hx, Hkh, (gv_in _ _ _ _ _ _ Hg). }
  apply wp_bind, wp_below. eapply wp_mono; [apply (fk_esp _ _ _ Hops); exact Hok2|]. intros sp x [-> ->].
  apply wp_bind, wp_assign, wp_bind, wp_ld32; [lens; rewrite get_mem_lower; lens; exact W1|]. lens. rewrite get_mem_lower. lens. rewrite W2.
  apply wp_bind, wp_ld32; [lens; rewrite get_mem_lower; lens; exact W3|]. lens. rewrite get_mem_lower. lens. rewrite W4.
  apply wp_bind, wp_assign, wp_ret. unfold THREAD_STACK_SIZE in *. destruct Hstm as (_ & Hst1 & _).
  rewrite u32_small by lia. replace (st + sp0 - bot) with (st + (sp0 - bot)) by lia.
  apply (HQ st s' g' m2 Hg Hv Hst); [|exact Hok2]. intros y Hy. unfold m2. rewrite rd_mwrite_mread_in by exact Hy.
  apply Ha. right. right. unfold in_block. fold bot. unfold THREAD_STACK_SIZE. lia.
Qed.

(** The child and its thread, ready to run. *)
Record child_ready (m m' : mem) (v : fork_vars) (st eip : Z) : Prop := {
  cr_parked : parked m' (t v) (child_regs eip (rd32 m (t v + T_stacktop)) (stack v));
  cr_regs : regs_ok m' (child_regs eip (rd32 m (t v + T_stacktop)) (stack v));
  cr_ip : rd32 m' (t v + T_ip) = eip;
  cr_rstack : rd32 m' (t v + T_rstack) = st;
  cr_slot : slot m' (child v + P_threads) 0 = t v;
  cr_len : rd m' (child v + P_threadslen) = u8 (rd m (child v + P_threadslen) + 1);
}.

Lemma wp_bind_ret {X B} (m : M X B) (Q : B -> X -> Prop) x : wp (bind m ret) Q x -> wp m Q x.
Proof. unfold wp, bind. by destruct (m x). Qed.

Lemma wp_push_frame s eip (Q : unit -> layer K fork_vars -> Prop) :
  let m := get_mem s in let sp := stack (vars s) in let top := rd32 m (t (vars s) + T_stacktop) in
  word eip -> 56 <= sp < 4294967296 -> mapped_range m (sp - 56) 56 -> mapped_range m (t (vars s) + T_stacktop) 4 ->
  (t (vars s) + T_stacktop + 4 <= sp - 56 \/ sp <= t (vars s) + T_stacktop) ->
  (forall s', pushed s s' (saved_words (child_regs eip top sp)) -> Q tt s') -> wp (push_frame eip) Q s.
Proof.
  intros m sp top He Hsp Hm Htm Hap HQ. unfold push_frame.
  do 9 (eapply wp_push_next; [first [eassumption|apply pushed_nil]|simpl; lia|eapply mapped_range_sub; [exact Hm|simpl; lia..]|
    first [exact He|unfold word; lia]|intros ? ?]).
  match goal with Hp : pushed s ?s9 _ |- wp _ _ ?s9 => pose proof Hp as [Hv _ Ha _] end. simpl length in Ha.
  apply wp_bind, wp_var. rewrite Hv. change (t (set_stack _ _)) with (t (vars s)). fold m sp in Ha |- *.
  apply wp_bind, wp_ld32; [eapply agree_mapped_range; [exact Ha|exact Htm]|].
  rewrite (rd32_agree _ _ _ _ Ha) by lia. fold top.
  assert (word top) by apply rd32_range.
  do 4 (eapply wp_push_next; [eassumption|simpl; lia|eapply mapped_range_sub; [exact Hm|simpl; lia..]|
    first [assumption|unfold word; lia]|intros ? ?]).
  apply wp_bind_ret. eapply wp_push_next; [eassumption|simpl; lia|eapply mapped_range_sub; [exact Hm|simpl; lia..]|unfold word; lia|].
  intros sf Hp. apply wp_ret, HQ. exact Hp.
Qed.

(** The last writes of [child_thread], with [n] threads before. *)
Definition linked (m : mem) (v : fork_vars) (eip n : Z) : mem :=
  mset (mwrite (mwrite (mwrite m (t v + T_ip) (le32 eip)) (t v + T_stack) (le32 (stack v - 56)))
    (child v + P_threads) (le32 (t v))) (child v + P_threadslen) (u8 (n + 1)).

Lemma linked_agree m v eip n : 0 <= child v -> 0 <= t v ->
  agree (fun a => ~ child_byte v a) m (linked m v eip n) /\
  agree (fun a => ~ (t v + T_ip <= a < t v + T_ip + 8) /\ ~ in_block (child v) sizeof_process a) m (linked m v eip n).
Proof.
  intros. unfold linked, child_byte, T_ip, T_stack, P_threadslen. soffs. split; (split; [unfold mset; cbn [m_ranges]; by rewrite !ranges_mwrite|]);
    intros a Ha; rewrite rd_mset; (destruct (decide _); [lia|]); by rewrite !rd_mwrite_out by (rewrite le32_length; lia).
Qed.

Lemma child_ready_intro m m5 m' v st eip :
  let n := rd m (child v + P_threadslen) in let r0 := child_regs eip (rd32 m (t v + T_stacktop)) (stack v) in
  word eip -> 0 <= child v -> 0 <= t v < 4294967296 -> 56 <= stack v < 4294967296 -> mapped_range m' (stack v - 56) 56 ->
  (child v + sizeof_process <= t v \/ t v + sizeof_thread <= child v) ->
  (child v + sizeof_process <= stack v - 56 \/ stack v <= child v) ->
  (t v + sizeof_thread <= stack v - 56 \/ stack v <= t v) ->
  frame_at m5 (stack v) (saved_words r0) -> rd32 m5 (t v + T_rstack) = st ->
  agree (fun a => child_byte v a \/ stack v - 56 <= a < stack v) (linked m5 v eip n) m' ->
  child_ready m m' v st eip.
Proof.
  intros n r0 He Hc Ht Hsp Hm Hap Hfc Hft Hf Hr Ha. unfold word in He.
  destruct (linked_agree m5 v eip n) as [L1 L2]; [lia..|]. unfold child_byte in *.
  assert (Hset : forall a, t v <= a < t v + sizeof_thread \/ child v <= a < child v + sizeof_process -> rd m' a = rd (linked m5 v eip n) a).
  { intros a Hx. apply Ha. left. unfold in_block. lia. }
  assert (Hset32 : forall a, t v <= a /\ a + 4 <= t v + sizeof_thread \/ child v <= a /\ a + 4 <= child v + sizeof_process ->
    rd32 m' a = rd32 (linked m5 v eip n) a).
  { intros a Hx. unfold rd32. rewrite !Hset by lia. done. }
  split; fold r0.
  - split; simpl.
    + rewrite Hset32 by (unfold T_stack; soffs; lia). unfold linked. soffs. unfold P_threadslen.
      rewrite rd32_mset_out by lia. rewrite rd32_mwrite_out by (rewrite le32_length; lia). rewrite rd32_mwrite_same. apply u32_small. lia.
    + change (Switch.esp r0) with (stack v). eapply frame_agree; [exact Ha| |eapply frame_agree; [exact L2| |exact Hf]];
        intros a Hx; simpl in Hx; unfold T_ip; soffs; lia.
  - assert (word (rd32 m (t v + T_stacktop))) by apply rd32_range.
    split; [|exact Hsp|exact Hm]. unfold saved_words, r0, child_regs. simpl.
    repeat (apply Forall_cons; split); first [assumption|apply Forall_nil; done|unfold word; lia].
  - rewrite Hset32 by (unfold T_ip; soffs; lia). unfold linked. soffs. unfold P_threadslen.
    rewrite rd32_mset_out by lia. rewrite !(rd32_mwrite_out _ _ _ (t v + 0)) by (rewrite le32_length; lia). rewrite rd32_mwrite_same. by apply u32_small.
  - rewrite Hset32 by (unfold T_rstack; soffs; lia). rewrite (rd32_agree _ _ _ _ L2); [done|unfold T_rstack; soffs; lia..].
  - unfold slot. rewrite Z.mul_0_r, (Z.add_0_r (child v + _)). rewrite Hset32 by (soffs; lia). unfold linked. soffs. unfold P_threadslen.
    rewrite rd32_mset_out by lia. rewrite rd32_mwrite_same. by apply u32_small.
  - rewrite Hset by (unfold P_threadslen; soffs; lia). unfold linked. rewrite rd_mset. case_decide; [|done]. by rewrite u8_u8.
Qed.

(** The structures the child's thread is made of, and the place of its frame. *)
Definition frame_byte (v : fork_vars) (a : Z) : Prop := stack v - 56 <= a < stack v.
Record child_area (m : mem) (v : fork_vars) : Prop := {
  ca_parent : process_mapped m (parent v);
  ca_first : mapped_range m (first_thread m v) sizeof_thread;
  ca_child : process_mapped m (child v);
  ca_thread : mapped_range m (t v) sizeof_thread;
  ca_apart : child v + sizeof_process <= t v \/ t v + sizeof_thread <= child v;
  ca_sp : 56 <= stack v < 4294967296;
  ca_frame : mapped_range m (stack v - 56) 56;
  ca_keep : forall a, child_byte v a \/ frame_byte v a -> keep a;
  ca_frame_child : child v + sizeof_process <= stack v - 56 \/ stack v <= child v;
  ca_frame_thread : t v + sizeof_thread <= stack v - 56 \/ stack v <= t v;
}.

Definition rstack_byte (v : fork_vars) (a : Z) : Prop := t v + T_rstack <= a < t v + T_rstack + 4.

Lemma wp_map_stack s st (Q : unit -> layer K fork_vars -> Prop) :
  let m := get_mem s in let v := vars s in
  child_area m v -> ok (lower s) -> word st ->
  (forall s', vars s' = v -> ok (lower s') -> rd32 (get_mem s') (t v + T_rstack) = st ->
     agree (fun a => keep a /\ ~ rstack_byte v a) m (get_mem s') -> Q tt s') ->
  wp (map_stack replace_page st) Q s.
Proof.
  intros m v [[Hp0 Hpm] Htm [Hc0 Hcm] Hthm _ _ _ Hkeep _ _] Hok Hst HQ. unfold map_stack.
  apply wp_bind, wp_var, wp_bind, wp_var. fold v.
  apply wp_bind, wp_ld32; [eapply mapped_range_sub; [exact Hcm|unfold P_paged; soffs; lia..]|].
  apply wp_bind, wp_ld32; [eapply mapped_range_sub; [exact Hpm|soffs; lia..]|].
  replace (rd32 (get_mem s) (parent v + P_threads)) with (first_thread m v) by (unfold first_thread, slot; fold m; f_equal; lia).
  apply wp_bind, wp_ld32; [eapply mapped_range_sub; [exact Htm|unfold T_stack, sizeof_thread; lia..]|].
  apply wp_bind, wp_below. eapply wp_mono; [apply (fk_replace _ _ _ Hops); exact Hok|].
  intros [] x [Hokx Hax]. rewrite get_mem_lower in Hax. fold m in Hax.
  apply wp_bind, wp_var. change (t (vars (set_lower x s))) with (t v).
  apply wp_st32.
  { lens. eapply agree_mapped_range; [exact Hax|]. eapply mapped_range_sub; [exact Hthm|unfold T_rstack, sizeof_thread; lia..]. }
  apply HQ; lens; unfold rstack_byte in *.
  - done.
  - apply (fk_write _ _ _ Hops); [exact Hokx|]. split; [apply ranges_mwrite|]. intros a Ha. apply rd_mwrite_out.
    rewrite le32_length. unfold T_rstack. destruct (decide (t v <= a < t v + 28)); [|lia].
    destruct Ha. apply Hkeep. left. right. unfold in_block, sizeof_thread. lia.
  - rewrite rd32_mwrite_same. by apply u32_small.
  - split; [rewrite ranges_mwrite; apply Hax|]. intros a [Ha Hna].
    rewrite rd_mwrite_out by (rewrite le32_length; lia). by apply Hax.
Qed.

Lemma wp_link_child s eip v (Q : Z -> layer K fork_vars -> Prop) :
  let m := get_mem s in
  vars s = set_stack (stack v - 56) v -> ok (lower s) -> process_mapped m (child v) -> mapped_range m (t v) sizeof_thread ->
  (child v + sizeof_process <= t v \/ t v + sizeof_thread <= child v) -> (forall a, child_byte v a -> keep a) ->
  (forall s', agree keep (linked m v eip (rd m (child v + P_threadslen))) (get_mem s') -> Q (rd m (child v + P_pid)) s') ->
  wp (link_child scheduler_add_process eip) Q s.
Proof.
  intros m Hv Hok [Hc0 Hcm] Hthm Hap Hkeep HQ. unfold link_child.
  pose proof Hcm as (_ & Hc2 & Hcx). pose proof Hthm as (Ht1 & Ht2 & _).
  apply wp_bind, wp_var, wp_bind, wp_var. rewrite Hv. simpl child. simpl t.
  apply wp_bind, wp_st32; [eapply mapped_range_sub; [exact Hthm|unfold T_ip; soffs; lia..]|]. fold m.
  apply wp_bind, wp_var. lens. rewrite Hv. simpl stack.
  apply wp_bind, wp_st32; [lens; rewrite mapped_range_mwrite; eapply mapped_range_sub; [exact Hthm|soffs; lia..]|]. lens.
  apply wp_bind, wp_st32; [lens; rewrite !mapped_range_mwrite; eapply mapped_range_sub; [exact Hcm|soffs; lia..]|]. lens.
  assert (Hlenm : mapped m (child v + P_threadslen) = true) by (apply Hcx; unfold P_threadslen; soffs; lia).
  apply wp_bind, wp_ld8; [unfold P_threadslen; soffs; lia|lens; by rewrite !mapped_mwrite|]. lens.
  replace (rd (mwrite _ _ _) (child v + P_threadslen)) with (rd m (child v + P_threadslen))
    by (rewrite !rd_mwrite_out; [done|..]; rewrite le32_length; unfold P_threadslen, T_ip, T_stack; soffs; lia).
  apply wp_bind, wp_st8; [unfold P_threadslen; soffs; lia|lens; by rewrite !mapped_mwrite|]. lens.
  fold (linked m v eip (rd m (child v + P_threadslen))). set (m7 := linked _ _ _ _) in *.
  destruct (linked_agree m v eip (rd m (child v + P_threadslen))) as [L1 _]; [lia..|]. fold m7 in L1.
  assert (Hok7 : ok (lower (set_mem m7 s))).
  { rewrite lower_set_mem. apply (fk_write _ _ _ Hops); [exact Hok|]. rewrite get_mem_lower. fold m.
    eapply agree_mono; [exact L1|]. intros a Ha Hin. apply Ha, Hkeep, Hin. }
  apply wp_bind, wp_below. eapply wp_mono; [apply (fk_add _ _ _ Hops); exact Hok7|].
  intros r x [_ Hax]. rewrite get_mem_lower in Hax. lens. rewrite get_set_mem in Hax.
  assert (Hck : forall a, child v <= a < child v + sizeof_process -> keep a) by (intros; apply Hkeep; left; unfold in_block; lia).
  apply wp_ld8; [unfold P_pid; soffs; lia| |]; lens.
  { assert (Hx : mapped_range (get_mem x) (child v + P_pid) 1); [|destruct Hx as (_ & _ & Hx); apply Hx; lia].
    apply (agree_mapped_range _ _ _ _ _ Hax), (agree_mapped_range _ _ _ _ _ L1).
    eapply mapped_range_sub; [exact Hcm|unfold P_pid; soffs; lia..]. }
  rewrite (proj2 Hax) by (apply Hck; unfold P_pid; soffs; lia).
  replace (rd m7 (child v + P_pid)) with (rd m (child v + P_pid)); [by apply HQ; lens|].
  unfold m7, linked. rewrite rd_mset. destruct (decide _) as [Hbad|_]; [unfold P_pid, P_threadslen in Hbad; lia|].
  by rewrite !rd_mwrite_out by (rewrite le32_length; unfold P_pid, T_ip, T_stack; soffs; lia).
Qed.

Lemma wp_child_thread s st eip (Q : Z -> layer K fork_vars -> Prop) :
  let m := get_mem s in let v := vars s in
  child_area m v -> ok (lower s) -> word eip -> word st ->
  (forall s', child_ready m (get_mem s') v st eip ->
     agree (fun a => keep a /\ ~ child_byte v a /\ ~ frame_byte v a) m (get_mem s') -> Q (rd m (child v + P_pid)) s') ->
  wp (child_thread scheduler_add_process replace_page st eip) Q s.
Proof.
  intros m v Ha Hok He Hst HQ. unfold child_thread.
  apply wp_bind, wp_map_stack; [exact Ha|done|done|]. intros s4 Hv4 Hok4 Er H4. fold v m in Hv4, Er, H4.
  destruct Ha as [_ _ [Hc0 Hcm] Hthm Hap Hsp Hfm Hkeep Hfc Hft]. pose proof Hthm as (Ht1 & Ht2 & _).
  assert (Hmap : forall b n, mapped_range m b n -> mapped_range (get_mem s4) b n) by (intros b n Hb; by eapply agree_mapped_range).
  assert (Hck : forall a, child_byte v a -> keep a) by (intros a Hx; apply Hkeep; by left).
  apply wp_bind, wp_push_frame; rewrite ?Hv4; [exact He|exact Hsp|by apply Hmap|
    apply Hmap; eapply mapped_range_sub; [exact Hthm|unfold T_stacktop, sizeof_thread; lia..]|unfold T_stacktop; soffs; lia|].
  replace (rd32 (get_mem s4) (t v + T_stacktop)) with (rd32 m (t v + T_stacktop)).
  2: { symmetry. apply (rd32_agree _ _ _ _ H4); (split; [apply Hck; right; unfold in_block|unfold rstack_byte]);
       unfold T_stacktop, T_rstack, sizeof_thread; lia. }
  intros s5 [Hv5 Hl5 H5 Hf5]. rewrite Hv4 in *. simpl length in Hv5, H5. change (4 * Z.of_nat 14) with 56 in *.
  assert (Hf5' : agree (fun a => ~ frame_byte v a) (get_mem s4) (get_mem s5)) by exact H5.
  assert (Erd : forall a, child v <= a < child v + sizeof_process -> rd (get_mem s5) a = rd m a).
  { intros a Hx. rewrite (proj2 H5), (proj2 H4); [done| |lia]. split; [apply Hck; by left|unfold rstack_byte, T_rstack; soffs; lia]. }
  apply (wp_link_child s5 eip v); [exact Hv5| |split; [exact Hc0|]| |exact Hap|exact Hck|].
  - rewrite Hl5. apply (fk_write _ _ _ Hops); [exact Hok4|]. rewrite get_mem_lower. eapply agree_mono; [exact H5|].
    intros a Hx Hin. apply Hx, Hkeep. right. exact Hin.
  - eapply agree_mapped_range; [exact H5|by apply Hmap].
  - eapply agree_mapped_range; [exact H5|by apply Hmap].
  - rewrite !Erd by (unfold P_pid, P_threadslen; soffs; lia). intros s' Hs'.
    destruct (linked_agree (get_mem s5) v eip (rd m (child v + P_threadslen))) as [L1 _]; [lia..|]. apply HQ.
    + apply (child_ready_intro m (get_mem s5)); [done|lia|unfold sizeof_thread in *; lia|exact Hsp| |done|done|done|exact Hf5| |].
      * eapply agree_mapped_range; [exact Hs'|]. eapply agree_mapped_range; [exact L1|].
        eapply agree_mapped_range; [exact H5|by apply Hmap].
      * rewrite (rd32_agree _ _ _ _ H5); [exact Er|unfold T_rstack; soffs; lia..].
      * eapply agree_mono; [exact Hs'|]. intros a Hx. apply Hkeep. exact Hx.
    + eapply agree_trans; [eapply agree_mono; [exact H4|]|eapply agree_trans; [eapply agree_mono; [exact H5|]|
        eapply agree_trans; [eapply agree_mono; [exact L1|]|eapply agree_mono; [exact Hs'|]]]]; cbv beta; try tauto.
      * intros a (Hk & Hc & _). split; [done|]. intros Hin. apply Hc. right. unfold rstack_byte, in_block, T_rstack in *. soffs. lia.
      * intros a (_ & _ & Hx). exact Hx.
Qed.

(** The copy of the stack, as [copy_stack] leaves it, is such an area. *)
Lemma copied_area s g s1 g1 st m2 :
  let m := get_mem s in let v := vars s in let bot := first_stack m v in
  let v2 := set_stack (st + (sp0 - bot)) (set_esp sp0 v) in
  gave s g THREAD_STACK_SIZE st s1 g1 -> agree (fun a => ~ in_block st THREAD_STACK_SIZE a) (get_mem s1) m2 ->
  forking m v sp0 -> foreign s g (fun a => parent_byte m v a \/ child_byte v a) ->
  (forall a, heap_byte s g a \/ child_byte v a -> keep a) ->
  child_area m2 v2 /\ (forall a, child_byte v a -> rd m2 a = rd m a /\ ~ in_block st THREAD_STACK_SIZE a).
Proof.
  intros m v bot v2 Hg Hst [[Hp0 Hpm] Htm Hsm [Hc0 Hcm] Hthm Hct Hsp] Hfor Hkeep. fold bot in Hsp.
  pose proof (gave_write_agree _ _ _ _ _ _ _ _ Hg Hfor Hst) as Ha2. fold m in Ha2.
  assert (Hforc : foreign s g (child_byte v)) by (intros a Ha; apply Hfor; by right).
  pose proof (gave_apart _ _ _ _ _ _ _ Hg Hforc) as Hap.
  destruct (gv_addr _ _ _ _ _ _ Hg) as [Hst0 _]. pose proof (gv_mapped _ _ _ _ _ _ Hg) as Hstm.
  assert (Hmap : forall b n, mapped_range m b n -> mapped_range m2 b n) by (intros b n Hb; by eapply agree_mapped_range).
  assert (Hfa : forall b n, 0 < n -> (forall a, in_block b n a -> child_byte v a) -> b + n <= stack v2 - 56 \/ stack v2 <= b).
  { intros b n Hn Hb. destruct (ranges_apart b n st THREAD_STACK_SIZE); [exact Hn|unfold THREAD_STACK_SIZE; lia|intros a Ha; apply Hap, Hb, Ha|..];
      simpl; unfold THREAD_STACK_SIZE in *; lia. }
  assert (Hstk : st + 56 <= stack v2 < st + THREAD_STACK_SIZE) by (simpl; lia).
  split; [|intros a Ha; split; [by apply Ha2; right|by apply Hap]].
  assert (Hfirst : first_thread m2 v2 = first_thread m v).
  { apply (rd32_agree _ _ _ _ Ha2); left; left; unfold in_block; simpl parent; lia. }
  split; rewrite ?Hfirst; [split; [exact Hp0|by apply Hmap]|by apply Hmap|split; [exact Hc0|by apply Hmap]|by apply Hmap|exact Hct|..].
  - destruct Hstm as (_ & Hx & _). lia.
  - eapply agree_mapped_range; [exact Hst|]. eapply mapped_range_sub; [exact Hstm|lia..].
  - intros a [Ha|Ha]; apply Hkeep; [by right|left]. apply (gv_in _ _ _ _ _ _ Hg). unfold in_block, frame_byte in *. lia.
  - apply Hfa; [soffs; lia|]. intros a Ha. by left.
  - apply Hfa; [unfold sizeof_thread; lia|]. intros a Ha. by right.
Qed.

End child.

(** A parent at 0x1100 whose first thread, at 0x1300, has its stack at 0x2000;
    the child, with pid 7, is at 0x1400, its thread at 0x1600. *)
Definition demo_fork : layer (heap Arm.state) fork_vars :=
  Layer (low_heap [(4352 + P_threads, le32 4864); (4864 + T_stackbot, le32 8192); (5120 + P_pid, [7])])
    (ForkVars 4352 5120 0 0 0 5632 0 0).

Lemma demo_first_thread : first_thread (get_mem demo_fork) (vars demo_fork) = 4864.
Proof. vm_compute. reflexivity. Qed.
Lemma demo_first_stack : first_stack (get_mem demo_fork) (vars demo_fork) = 8192.
Proof. vm_compute. reflexivity. Qed.

