(* ===== verification/Arch.v ===== *)
(** * The x86 glue: [arch/x86/x86.c], [arch/x86/exceptions.c]

    The system call interrupt takes its number and arguments from the registers
    and leaves the result in eax.  The exceptions print a message on the current
    terminal and stop the machine, except for the faults of a process, which
    kill it. *)

From stdpp Require Import base numbers list gmap.
From Stdlib Require Import ZArith Lia.
From S2P Require Import Prelude Memory CString Process Pages Arm Liballoc LiballocInv LiballocProof LiballocSpec Allocator Phymem Layer Tables Device Current Sched Mutex Hal Tty Pic Scratch Demo Fs Vfs Elf Syscall.

Local Open Scope Z_scope.

Section ops.
Context {S G : Type} `{Current S} `{!Allocator S G}.
Notation sched := (layer (phymem S) sched_vars).
Notation locks := (layer (layer sched device_vars) Z).
Notation ttys := (layer locks tty_vars).
Notation kernel := (layer ttys vfs_vars).
Context `{!Calls kernel}.
Notation KM := (M kernel).

(** The parameters of the system calls. *)
Variables (f_write f_flush f_read : Z) (call_display : Z -> Z -> M ttys Z).
Variables (str_slash str_dot_slash str_dot : Z) (dbus_send_init_killed : M sched unit).
Variables (arch_setup_paged : Z -> Z -> KM unit) (load_paged : KM unit).
Variables (start_execution : Z -> Z -> Z -> KM unit) (sys_fork : KM Z).
Variables (st_local paged_local : Z).
Variables (str_sysname str_nodename str_release str_version str_machine : Z).

(** The value of eax afterwards; calls without a result leave it alone. *)
Definition __imp_sys_dispatch (eax ebx ecx edx : Z) : KM Z :=
  match eax with
  | 1 => sys_exit dbus_send_init_killed (s32 ebx) ;! ret eax
  | 2 => let! r := sys_fork in ret (u32 r)
  | 3 => let! r := sys_read f_write f_flush f_read call_display (s32 ebx) ecx (s32 edx) in ret (u32 r)
  | 4 => sys_write f_write f_flush call_display (s32 ebx) ecx (s32 edx) ;! ret eax
  | 5 => let! r := sys_open str_slash str_dot_slash ebx ecx in ret (u32 r)
  | 11 => let! r := sys_execve str_slash str_dot_slash arch_setup_paged load_paged start_execution st_local paged_local ebx ecx edx in
      ret (u32 r)
  | 18 => sys_stat str_slash str_dot_slash ebx ecx ;! ret eax
  | 20 => let! r := sys_getpid in ret (u32 r)
  | 224 => sys_uname str_sysname str_nodename str_release str_version str_machine ebx ;! ret eax
  | 237 => let! r := sys_opendir str_slash str_dot_slash str_dot ebx in ret (u32 r)
  | 238 => let! r := sys_readdir (s32 ebx) in ret (u32 r)
  | 239 => sys_waitpid (s32 ebx) ;! ret eax
  | _ => ret eax
  end.

(** *** [exceptions.c] *)

(** The macro: [str] is the address of a literal. *)
Definition kprintf (str : Z) : KM unit :=
  let! id := below tty_current in
  let! n := strlen str in
  k_tty_write f_write id str n ;!
  let! id := below tty_current in
  k_tty_flush f_flush call_display id.

(** [for(;;);] *)
Definition stop : KM unit := halt.

Definition exc_divide_by_zero (str : Z) : KM unit := kprintf str ;! stop.
Definition exc_debug (str : Z) : KM unit := kprintf str ;! stop.
Definition exc_nmi (str : Z) : KM unit := kprintf str ;! stop.
Definition exc_brp (str : Z) : KM unit := kprintf str.
Definition exc_overflow (str : Z) : KM unit := kprintf str ;! stop.
Definition exc_bound (str : Z) : KM unit := kprintf str ;! stop.
Definition exc_invopcode (str : Z) : KM unit := kprintf str ;! stop.
Definition exc_device_not_avail (str : Z) : KM unit := kprintf str ;! stop.
Definition exc_double_fault (str : Z) : KM unit := kprintf str ;! stop.
Definition exc_coproc (str : Z) : KM unit := kprintf str ;! stop.
Definition exc_invtss (str : Z) : KM unit := kprintf str ;! stop.
Definition exc_segment_not_present (str : Z) : KM unit := kprintf str ;! stop.
Definition exc_ssf (str : Z) : KM unit := kprintf str ;! stop.
Definition exc_reserved (str : Z) : KM unit := kprintf str ;! stop.

(** The message, which names the process, is left out. *)
Definition kill_faulty : KM unit :=
  let! _ := below (below (below (below (scheduler_kill_self dbus_send_init_killed)))) in ret tt.
Definition exc_gpf : KM unit := kill_faulty.
Definition exc_pf : KM unit := kill_faulty.

(** *** The late initialisation, and the first task *)

(** [x86_console_init] is declared here, and no file of the repository defines
    it. *)
Definition arch_late_init (str_succeeded : Z) (x86_console_init : KM Z) : KM Z :=
  k_tty_write f_write 0 str_succeeded 32 ;!
  k_tty_flush f_flush call_display 0 ;!
  x86_console_init.

Definition on_sched {B} (m : M sched B) : KM B := below (below (below (below m))).

Definition enable_scheduling : KM unit := on_sched (assign (fun v => set_running (init_ready v) 1 v)).

Definition schedule_for_ever : KM unit := loop (fun _ => on_sched schedule_noirq ;! ret (inl tt)) tt.

(** [new_late_init] is [create_new_process] for [late_init]. *)
Definition idle_task (str_online : Z) (new_late_init : M sched Z) : KM unit :=
  let! id := below tty_current in
  k_tty_write f_write id str_online 16 ;!
  let! id := below tty_current in
  k_tty_flush f_flush call_display id ;!
  let! p := on_sched new_late_init in
  let! _ := on_sched (scheduler_add_process p) in
  enable_scheduling ;!
  on_sched (assign (fun v => set_running 1 (task v) v)) ;!  (* init_ready *)
  schedule_for_ever.

Definition write_for_ever (str : Z) : KM unit :=
  loop (fun _ =>
    k_tty_write f_write 0 str 1 ;!
    k_tty_flush f_flush call_display 0 ;!
    ret (inl tt)) tt.
Definition task_1 (str_1 : Z) : KM unit := write_for_ever str_1.
Definition task_2 (str_2 : Z) : KM unit := write_for_ever str_2.
End ops.

(** *** Interrupts and the first initialisation *)

Section init.
Context {S : Type} `{HasMem S}.
Notation IM := (M (layer S idt_vars)).

(** [handlers] are the addresses of the sixteen handlers, from
    [exc_divide_by_zero] to [exc_reserved]. *)
Definition exceptions_init (handlers : list Z) : IM Z :=
  for_up 16 0 (fun i => let! _ := register_interrupt i (nth (Z.to_nat i) handlers 0) in ret tt) ;! ret 0.

Definition syscall_init (sys_dispatch : Z) : IM unit :=
  let! _ := register_interrupt 128 sys_dispatch in ret tt.

(** One after the other until one fails. *)
Fixpoint init_chain (steps : list (IM Z)) : IM Z :=
  match steps with
  | [] => ret 0
  | f :: steps => let! rc := f in if negb (rc =? 0) then ret rc else init_chain steps
  end.

Definition arch_early_init (init_serial : IM unit) (gdt_init idt_init pic_init pit_init exceptions_init paging_init : IM Z) : IM Z :=
  init_serial ;!
  init_chain [gdt_init; idt_init; pic_init; pit_init; exceptions_init; paging_init].
End init.
