(* ===== verification/Main.v ===== *)
(** * Starting the kernel: [main.c]

    The order in which the parts are started, over the operations of the other
    files ([kernel_ops]); the messages are left out.  [panic] is the model's
    halt. *)

From stdpp Require Import base numbers list gmap.
From Stdlib Require Import ZArith Lia.
From S2P Require Import Prelude Memory CString Process Pages Arm Liballoc LiballocInv LiballocProof LiballocSpec Allocator Layer Device Scratch Demo Fs Dbus.

Local Open Scope Z_scope.

(** [struct multiboot] and [struct multiboot_mod] *)
Definition MB_flags : Z := 0.
Definition MB_mem_lower : Z := 4.
Definition MB_mem_upper : Z := 8.
Definition MB_boot_device : Z := 12.
Definition MB_cmdline : Z := 16.
Definition MB_mods_count : Z := 20.
Definition MB_mods_addr : Z := 24.
Definition MM_mod_start : Z := 0.
Definition MM_mod_end : Z := 4.

Definition DEVICE_FLAG_BLOCK : Z := 1.

Record main_vars : Type := MainVars { root_mounted : Z; DISPLAY_ONLINE : Z; sh_buf : Z; __esize : Z }.
Definition set_root (n : Z) (v : main_vars) : main_vars := MainVars n (DISPLAY_ONLINE v) (sh_buf v) (__esize v).
Definition set_online (n : Z) (v : main_vars) : main_vars := MainVars (root_mounted v) n (sh_buf v) (__esize v).
Definition set_shell (b n : Z) (v : main_vars) : main_vars := MainVars (root_mounted v) (DISPLAY_ONLINE v) b n.

(** What the other files do. *)
Record kernel_ops (K : Type) : Type := KernelOps {
  k_arch_early_init : M K Z; k_arch_late_init : M K Z;
  k_device_core_init : M K Z; k_tty_init : Z -> M K Z; k_keyboard_init : M K Z;
  k_tty_write : Z -> Z -> Z -> M K unit; k_tty_flush : Z -> M K unit; k_switch_to_tty : Z -> M K unit;
  k_phymem_init_level_two : Z -> M K unit; k_initrd_create : Z -> Z -> M K Z; k_scheduler_init : M K unit;
  k_fdc_init : M K unit; k_syscall_init : M K unit; k_dummyfs_init : M K unit; k_dbus_init : M K Z;
  k_vfs_init : M K Z; k_device_get_count : M K Z; k_get_device : Z -> M K Z;
  k_device_try_to_mount : Z -> Z -> M K Z; k_pci_init : M K unit; k_ne2k_init : M K Z; k_list_mount : M K unit;
  k_vfs_open : Z -> M K Z; k_vfs_write : Z -> Z -> Z -> M K Z; k_vfs_read_full : Z -> Z -> M K Z;
  k_sys_stat : Z -> Z -> M K unit; k_sys_exit : Z -> M K unit;
  k_elf_start : Z -> Z -> Z -> Z -> Z -> M K Z;
  k_create_new_process : Z -> Z -> M K Z; k_scheduler_add_process : Z -> M K Z;
  k_dbus_register_listener : Z -> M K Z; k_schedule_noirq : M K unit;
}.

Section ops.
Context {K G : Type} `{Allocator K G}.
Notation BM := (M (layer K main_vars)).
Variable ops : kernel_ops K.
(** Static data and literals. *)
Variables (str_kbd_failure str_bin_sh str_shell str_devconf str_hello str_root str_proc : Z).
Variables (f_start_shell procfs_dev init_kill_listener argv_local st_local : Z).

(** The part of [main] for an architecture with multiboot headers. *)
Definition read_multiboot (mb : Z) : BM unit :=
  let! upper := ld32 (mb + MB_mem_upper) in
  below (k_phymem_init_level_two K ops (u32 (upper * 1024))) ;!
  let! n := ld32 (mb + MB_mods_count) in
  if n >? 1 then halt
  else
    let! md := ld32 (mb + MB_mods_addr) in
    let! s := ld32 (md + MM_mod_start) in
    let! e := ld32 (md + MM_mod_end) in
    let! _ := below (k_initrd_create K ops s e) in
    ret tt.

(** [main] returns to the boot code when an initialisation fails; when the
    scheduler comes back, it stops.  The architectures differ in [memory_init],
    which tells the page allocator how much memory there is. *)
Definition main_with (memory_init : BM unit) : BM unit :=
  let! rc := below (k_arch_early_init K ops) in
  if negb (rc =? 0) then ret tt
  else
    let! _ := malloc 1 in
    let! rc := below (k_device_core_init K ops) in
    if negb (rc =? 0) then ret tt
    else
      let! rc := below (k_tty_init K ops 10) in
      if negb (rc =? 0) then ret tt
      else
        let! rc := below (k_arch_late_init K ops) in
        if negb (rc =? 0) then ret tt
        else
          let! rc := below (k_keyboard_init K ops) in
          (if! negb (rc =? 0) then
             (below (k_tty_write K ops 2 str_kbd_failure 18) ;!
              below (k_tty_flush K ops 2) ;!
              below (k_switch_to_tty K ops 2))) ;!
          assign (set_online 1) ;!
          below (k_switch_to_tty K ops 0) ;!
          memory_init ;!
          below (k_scheduler_init K ops) ;!
          halt.

Definition main (mb : Z) : BM unit := main_with (read_multiboot mb).

(** On ARM: no multiboot headers, and a mailbox to the graphics processor. *)
Definition main_arm (mailbox_init : BM Z) : BM unit :=
  main_with (let! _ := mailbox_init in below (k_phymem_init_level_two K ops 15728640)).

(** [argv_local] is the address of the literal argument vector. *)
Definition __start_shell : BM unit :=
  let! v := var (fun v => v) in
  let! _ := below (k_elf_start K ops (sh_buf v) (__esize v) argv_local 0 0) in
  below (k_sys_exit K ops 1) ;!
  halt.

Definition init_killed_event (msg : Z) : BM Z :=
  let! m := ld32 (msg + DM_msg) in
  if negb (m =? DBUS_EVENT_INIT_KILLED) then ret (- EINVAL) else halt.

Definition start_shell : BM unit :=
  let! fl := below (k_vfs_open K ops str_bin_sh) in
  if fl =? 0 then halt
  else
    let! path := ld32 (fl + F_fullpath) in
    below (k_sys_stat K ops path st_local) ;!
    let! size := ld32 (st_local + ST_st_size) in
    if size =? 0 then halt
    else
      let! b := malloc size in
      assign (fun v => set_shell b (__esize v) v) ;!
      if b =? 0 then halt
      else
        assign (fun v => set_shell (sh_buf v) size v) ;!
        let! _ := memset b 0 (s32 size) in
        let! ok := below (k_vfs_read_full K ops fl b) in
        if ok =? 0 then halt
        else
          let! p := below (k_create_new_process K ops str_shell f_start_shell) in
          let! f := below (k_vfs_open K ops str_devconf) in
          let! _ := below (k_vfs_write K ops f str_hello 20) in
          if p =? 0 then halt
          else
            let! rc := below (k_scheduler_add_process K ops p) in
            if rc =? 0 then halt
            else let! _ := below (k_dbus_register_listener K ops init_kill_listener) in ret tt.

(** The search for the device with the root directory; [None] when the loop
    ends without one. *)
Definition mount_root : BM unit :=
  loop (fun i =>
    let! n := below (k_device_get_count K ops) in
    if i <? n then
      let! dev := below (k_get_device K ops i) in
      if dev =? 0 then ret (inl (i + 1))
      else
        let! flags := ld8 (dev + D_flags) in
        if negb (Z.land flags DEVICE_FLAG_BLOCK =? 0) then
          let! rc := below (k_device_try_to_mount K ops dev str_root) in
          if negb (rc =? 0) then ret (inl (i + 1))
          else assign (set_root i) ;! ret (inr tt)
        else ret (inl (i + 1))
    else ret (inr tt)) 0.

Definition fire_up_drivers : BM Z :=
  below (k_fdc_init K ops) ;!
  below (k_syscall_init K ops) ;!
  below (k_dummyfs_init K ops) ;!
  let! _ := below (k_dbus_init K ops) in
  below (k_vfs_init K ops).

Definition late_init : BM unit :=
  let! rc := fire_up_drivers in
  if negb (rc =? 0) then halt
  else
    mount_root ;!
    let! r := var root_mounted in
    if r =? 0 then halt
    else
      let! rc := below (k_device_try_to_mount K ops procfs_dev str_proc) in
      if negb (rc =? 0) then halt
      else
        below (k_pci_init K ops) ;!
        let! _ := below (k_ne2k_init K ops) in
        below (k_list_mount K ops) ;!
        start_shell ;!
        loop (fun _ => below (k_schedule_noirq K ops) ;! ret (inl tt)) tt.
End ops.

(** ** The root device *)

Section root.
Context {K G : Type} `{Allocator K G}.
Variable ops : kernel_ops K.
Variable str_root : Z.

(** late_init takes the device 0 for no device: when the first device of
    the table is a block device whose file system mounts as the root, the search
    stops there, and the kernel panics as if nothing had been mounted. *)
Theorem late_init_device_0 str_proc str_bin_sh str_shell str_devconf str_hello fs pd ikl st (s s1 : layer K main_vars) dev n b :
  fire_up_drivers ops s = Ret 0 s1 ->
  k_device_get_count K ops (lower s1) = Ret n (lower s1) -> 0 < n ->
  k_get_device K ops 0 (lower s1) = Ret dev (lower s1) -> 0 < dev < 4294967288 ->
  mapped (get_mem s1) (dev + D_flags) = true -> Z.land (rd (get_mem s1) (dev + D_flags)) DEVICE_FLAG_BLOCK <> 0 ->
  k_device_try_to_mount K ops dev str_root (lower s1) = Ret 0 b ->
  late_init ops str_bin_sh str_shell str_devconf str_hello str_root str_proc fs pd ikl st s =
    Halt (Layer b (set_root 0 (vars s1))).
Proof.
  intros Hup Hn Hpos Hdev Hd Hm Hfl Hmnt. unfold late_init. unfold bind at 1. rewrite Hup. cbn [Z.eqb negb].
  assert (Hroot : mount_root ops str_root s1 = Ret tt (Layer b (set_root 0 (vars s1)))).
  { apply wp_ret_eq. unfold mount_root.
    apply (wp_loop (fun i t => i = 0 /\ t = s1) (fun _ _ => 0)); [done|lia|]. intros i t [-> ->]. split; [lia|].
    assert (Hc : forall x, set_lower (lower x) x = (x : layer K main_vars)) by (by intros []).
    apply wp_bind, wp_below. eapply wp_eq; [exact Hn|]. rewrite Hc. rewrite (proj2 (Z.ltb_lt 0 n) Hpos).
    apply wp_bind, wp_below. eapply wp_eq; [exact Hdev|]. rewrite Hc.
    rewrite (proj2 (Z.eqb_neq dev 0)) by lia.
    apply wp_bind, wp_ld8; [unfold D_flags; lia|done|].
    rewrite (proj2 (Z.eqb_neq _ 0) Hfl). cbn [negb].
    apply wp_bind, wp_below. eapply wp_eq; [exact Hmnt|]. cbn [Z.eqb negb].
    apply wp_bind, wp_assign, wp_ret. done. }
  unfold bind at 1. rewrite Hroot. done.
Qed.
End root.

(** *** The theorem at work *)

Definition demo_ops : kernel_ops (heap Arm.state) :=
  let ok : M (heap Arm.state) Z := ret 0 in
  let done : M (heap Arm.state) unit := ret tt in
  KernelOps _ ok ok ok (fun _ => ok) ok (fun _ _ _ => done) (fun _ => done) (fun _ => done)
    (fun _ => done) (fun _ _ => ok) done done done done ok
    ok (ret 1) (fun _ => ret 4352) (fun _ _ => ok) done ok done
    (fun _ => ok) (fun _ _ _ => ok) (fun _ _ => ok) (fun _ _ => done) (fun _ => done)
    (fun _ _ _ _ _ => ok) (fun _ _ => ok) (fun _ => ok) (fun _ => ok) done.
Definition demo_main : layer (heap Arm.state) main_vars :=
  Layer (low_heap [(4360, [1])]) (MainVars 0 1 0 0).

Lemma late_init_device_0_witness :
  late_init (G := list mjr) demo_ops 0 0 0 0 4608 0 0 0 0 0 demo_main = Halt demo_main.
Proof.
  refine (late_init_device_0 (G := list mjr) demo_ops 4608 0 0 0 0 0 0 0 0 0 demo_main demo_main 4352 1 (lower demo_main) _ _ _ _ _ _ _ _).
  - reflexivity.
  - reflexivity.
  - lia.
  - reflexivity.
  - lia.
  - vm_compute. reflexivity.
  - vm_compute. discriminate.
  - reflexivity.
Defined.
