(* ===== verification/ArmDrivers.v ===== *)
(** * The ARM drivers: [arch/arm/drivers/uart.c], [mailbox.c], [pl110.c]

    The registers of the devices are memory mapped; an access to one is an
    operation of width 32 in the trace of the ports (Hal.v), and the device's
    answer comes from the environment.  The frame buffer of the PL110 is
    ordinary memory.  On ARM a [char] is unsigned.  The delay loops, which are
    assembly without effect, are left out. *)

From stdpp Require Import base numbers list gmap.
From Stdlib Require Import ZArith Lia.
From S2P Require Import Prelude Memory CString Process Pages Arm Liballoc LiballocInv LiballocProof LiballocSpec Allocator Phymem Layer Tables Device Hal Tty Scratch Demo Font.

Local Open Scope Z_scope.

Definition GPIO_BASE : Z := 538968064.             (* 0x20200000 *)
Definition GPPUD : Z := GPIO_BASE + 148.
Definition GPPUDCLK0 : Z := GPIO_BASE + 152.
Definition UART0_BASE : Z := 538972160.            (* 0x20201000 *)
Definition UART0_DR : Z := UART0_BASE + 0.
Definition UART0_FR : Z := UART0_BASE + 24.
Definition UART0_IBRD : Z := UART0_BASE + 36.
Definition UART0_FBRD : Z := UART0_BASE + 40.
Definition UART0_LCRH : Z := UART0_BASE + 44.
Definition UART0_CR : Z := UART0_BASE + 48.
Definition UART0_IMSC : Z := UART0_BASE + 56.
Definition UART0_ICR : Z := UART0_BASE + 68.
Definition AUX_ENABLES : Z := 539054084.           (* 0x20215004 *)
Definition AUX_MU_IER_REG : Z := 539054148.
Definition AUX_MU_IIR_REG : Z := 539054152.
Definition AUX_MU_LCR_REG : Z := 539054156.
Definition AUX_MU_MCR_REG : Z := 539054160.
Definition AUX_MU_CNTL_REG : Z := 539054176.
Definition AUX_MU_BAUD_REG : Z := 539054184.
Definition PL110_IOBASE : Z := 3221225472.         (* 0xc0000000 *)
Definition PL110_FB : Z := 2097152.                (* 0x200000 *)
Definition MAILBOX : Z := 536918144.               (* 0x2000B880 *)
Definition FBINFO : Z := 1074003968.               (* 0x40040000 *)

Section mmio.
Context {S : Type} `{HasPorts S}.
Definition mmio_read (reg : Z) : M S Z := inport 32 reg.
Definition mmio_write (reg data : Z) : M S unit := outport 32 reg data.
Definition __arm__get32 (a : Z) : M S Z := inport 32 (u32 a).
Definition __arm__put32 (a b : Z) : M S unit := outport 32 (u32 a) b.

(** *** [uart.c] *)

Definition uart_init : M S unit :=
  __arm__put32 AUX_ENABLES 1 ;!
  __arm__put32 AUX_MU_IER_REG 0 ;!
  __arm__put32 AUX_MU_CNTL_REG 0 ;!
  __arm__put32 AUX_MU_LCR_REG 3 ;!
  __arm__put32 AUX_MU_MCR_REG 0 ;!
  __arm__put32 AUX_MU_IER_REG 0 ;!
  __arm__put32 AUX_MU_IIR_REG 198 ;!
  __arm__put32 AUX_MU_BAUD_REG 270 ;!
  mmio_write UART0_CR 0 ;!
  mmio_write GPPUD 0 ;!
  mmio_write GPPUDCLK0 49152 ;!        (* (1 << 14) | (1 << 15) *)
  mmio_write GPPUDCLK0 0 ;!
  mmio_write UART0_ICR 2047 ;!
  mmio_write UART0_IBRD 1 ;!
  mmio_write UART0_FBRD 40 ;!
  mmio_write UART0_LCRH 112 ;!         (* bits 4 to 6 *)
  mmio_write UART0_IMSC 2034 ;!        (* bits 1, and 4 to 10 *)
  mmio_write UART0_CR 769.             (* bits 0, 8 and 9 *)

Definition uart_putc (byte : Z) : M S unit :=
  loop (fun _ =>
    let! f := mmio_read UART0_FR in
    if Z.land f 32 =? 0 then ret (inr tt) else ret (inl tt)) tt ;!
  mmio_write UART0_DR byte.
End mmio.

Section uart.
Context {S G : Type} `{HP : HasPorts S} `{HM : HasMem S} `{!Allocator S G}.
(** The variable is [lastpos]. *)
Notation UM := (M (layer S Z)).
Variable __default_uart : Z.

Definition uart_puts (str : Z) : UM unit :=
  loop (fun str =>
    let! c := ld8 str in
    if c =? 0 then ret (inr tt) else uart_putc c ;! ret (inl (u32 (str + 1)))) str.

Definition uart_setactive : UM unit := ret tt.

Definition uart_update (m : Z) : UM unit :=
  let! i := var (fun p => p) in
  loop (fun i =>
    let! t := ld32 (m + DP_mtty) in
    let! pos := ld32 (t + Y_bufpos) in
    if i <? pos then
      let! t := ld32 (m + DP_mtty) in
      let! b := ld32 (t + Y_buffer) in
      let! c := ld8 (u32 (b + i)) in
      uart_putc c ;!
      ret (inl (u32 (i + 1)))
    else ret (inr tt)) i ;!
  let! t := ld32 (m + DP_mtty) in
  let! pos := ld32 (t + Y_bufpos) in
  assign (fun _ => pos).

(** A copy of the default display for a terminal; [malloc] is not checked. *)
Definition display_copy {V} (default mtty : Z) : M (layer S V) Z :=
  let! cp := malloc sizeof_display in
  memcpy cp default sizeof_display ;!
  st32 (cp + DP_mtty) mtty ;!
  ret cp.
Definition uart_display_new (mtty : Z) : UM Z := display_copy __default_uart mtty.
End uart.

(** *** [mailbox.c] *)

Record mailbox_vars : Type := MailboxVars { mailbox_lastpos : Z; mailbox_x : Z; mailbox_y : Z }.

Section mailbox.
Context {S G : Type} `{HP : HasPorts S} `{HM : HasMem S} `{!Allocator S G}.
Notation BM := (M (layer S mailbox_vars)).
(** The address of the font, and the default display. *)
Variables (font __default_mailbox : Z).

Definition mailbox_write (fbinfo_addr chan : Z) : BM Z :=
  loop (fun _ =>
    let! f := __arm__get32 (MAILBOX + 24) in
    if Z.land f 2147483648 =? 0 then ret (inr tt) else ret (inl tt)) tt ;!
  __arm__put32 (MAILBOX + 32) (u32 (fbinfo_addr + chan)) ;!
  ret 0.

Definition mailbox_read (chan : Z) : BM Z :=
  loop (fun _ =>
    loop (fun _ =>
      let! f := __arm__get32 (MAILBOX + 24) in
      if Z.land f 1073741824 =? 0 then ret (inr tt) else ret (inl tt)) tt ;!
    let! ra := __arm__get32 (MAILBOX + 0) in
    if Z.land ra 15 =? chan then ret (inr ra) else ret (inl tt)) tt.

(** A colour ramp: 10000 pixels from [rb], the counter in the byte at [sh]. *)
Definition ramp (sh rb : Z) : BM Z :=
  for_up (Z.to_nat 10000) 0 (fun ra => __arm__put32 (rb + 4 * ra) (u32 (Z.lnot (Z.shiftl (Z.land ra 255) sh)))) ;!
  ret (u32 (rb + 40000)).

Definition mailbox_init : BM unit :=
  __arm__put32 FBINFO 640 ;!
  __arm__put32 (FBINFO + 4) 480 ;!
  __arm__put32 (FBINFO + 8) 640 ;!
  __arm__put32 (FBINFO + 12) 480 ;!
  __arm__put32 (FBINFO + 16) 0 ;!
  __arm__put32 (FBINFO + 20) 32 ;!
  __arm__put32 (FBINFO + 24) 0 ;!
  __arm__put32 (FBINFO + 28) 0 ;!
  __arm__put32 (FBINFO + 32) 0 ;!
  __arm__put32 (FBINFO + 36) 0 ;!
  let! _ := mailbox_write FBINFO 1 in
  let! rb := __arm__get32 (FBINFO + 32) in
  let! rb := ramp 0 rb in
  let! rb := ramp 8 rb in
  let! rb := ramp 16 rb in
  let! rb := ramp 24 rb in
  let! _ := __arm__get32 (FBINFO + 32) in
  ret tt.

(** The macro [MBPUTPIX] as the compiler sees its use: its arguments are not in
    parentheses, so [mailbox_y] and [mailbox_x] are added as bytes, and the
    colour is the condition itself. *)
Definition MBPUTPIX (base cx cy bit : Z) : BM unit :=
  let! v := var (fun v => v) in
  __arm__put32 (base + mailbox_y v + cy * 640 * 4 + mailbox_x v + (8 - cx) * 4) (if bit =? 0 then 0 else 1).

Definition mailbox_putc (c : Z) : BM unit :=
  if c =? 10 then
    assign (fun v => MailboxVars (mailbox_lastpos v) 0 (u32 (mailbox_y v + 8)))
  else
    let glyph := u32 (font + c * 8) in
    let! base := __arm__get32 (FBINFO + 32) in
    for_up 8 0 (fun cy => for_up 8 0 (fun cx =>
      let! g := ld8 (u32 (glyph + cy)) in
      MBPUTPIX base cx cy (Z.land g (2 ^ cx)))) ;!
    assign (fun v => MailboxVars (mailbox_lastpos v) (u32 (mailbox_x v + 8)) (mailbox_y v)) ;!
    let! x := var mailbox_x in
    if! x >? 640 then assign (fun v => MailboxVars (mailbox_lastpos v) 0 (u32 (mailbox_y v + 8))).

Definition mailbox_setactive : BM unit :=
  let! rb := __arm__get32 (FBINFO + 32) in
  for_up (480 * 640) 0 (fun i => __arm__put32 (rb + 4 * i) 0).

Definition mailbox_update (m : Z) : BM unit :=
  let! i := var mailbox_lastpos in
  loop (fun i =>
    let! t := ld32 (m + DP_mtty) in
    let! pos := ld32 (t + Y_bufpos) in
    if i <? pos then
      let! t := ld32 (m + DP_mtty) in
      let! b := ld32 (t + Y_buffer) in
      let! c := ld8 (u32 (b + i)) in
      mailbox_putc c ;!
      ret (inl (u32 (i + 1)))
    else ret (inr tt)) i ;!
  let! t := ld32 (m + DP_mtty) in
  let! pos := ld32 (t + Y_bufpos) in
  assign (fun v => MailboxVars pos (mailbox_x v) (mailbox_y v)).

Definition mailbox_display_new (mtty : Z) : BM Z := display_copy __default_mailbox mtty.
End mailbox.

(** *** [pl110.c] *)

(** [struct pl110_mmio] *)
Definition PL_tim0 : Z := 0.
Definition PL_tim1 : Z := 4.
Definition PL_upbase : Z := 16.
Definition PL_control : Z := 28.

Record pl110_vars : Type := Pl110Vars { pm : Z; fb : Z; _x : Z; _y : Z }.
Definition set_cursor (x y : Z) (v : pl110_vars) : pl110_vars := Pl110Vars (pm v) (fb v) x y.

(** [0x10 << (5 + 1) | 0xf << 5] and [0x1f << (5 + 6) | 0xf << 5] *)
Definition PIXEL : Z := 1504.
Definition BACKGROUND : Z := 63968.

Section pl110.
Context {S G : Type} `{HP : HasPorts S} `{HM : HasMem S} `{!Allocator S G}.
Notation LM := (M (layer S pl110_vars)).
Variables (font pl110_display : Z).

Definition pl110_put_pixel (x y color : Z) : LM unit :=
  let index := u32 (x + y * 640) in
  if! negb (color =? 0) then (let! b := var fb in st16 (u32 (b + 2 * index)) PIXEL).

(** One row of the glyph of a character. *)
Definition pl110_row (glyph cy : Z) : LM unit :=
  for_up 8 0 (fun cx =>
    let! g := ld8 (u32 (glyph + cy)) in
    let! v := var (fun v => v) in
    pl110_put_pixel (u32 (_x v + (8 - cx))) (u32 (_y v + cy)) (if Z.land g (2 ^ cx) =? 0 then 0 else 1)).

Definition pl110_putc (c : Z) : LM unit :=
  if c =? 10 then assign (fun v => set_cursor 0 (s32 (_y v + 8)) v)
  else
    let glyph := u32 (font + c * 8) in
    for_up 8 0 (pl110_row glyph) ;!
    assign (fun v => set_cursor (s32 (_x v + 8)) (_y v) v) ;!
    let! x := var _x in
    if! x >? 640 then assign (fun v => set_cursor 0 (s32 (_y v + 8)) v).

Definition pl110_clear : LM unit := ret tt.

(** The last ten pixels of the screen are not filled. *)
Definition pl110_setactive (m : Z) : LM Z :=
  assign (fun v => Pl110Vars PL110_IOBASE (fb v) (_x v) (_y v)) ;!
  mmio_write (PL110_IOBASE + PL_tim0) 1059012508 ;!       (* 0x3f1f3f9c *)
  mmio_write (PL110_IOBASE + PL_tim1) 134963679 ;!        (* 0x080b61df *)
  mmio_write (PL110_IOBASE + PL_upbase) PL110_FB ;!
  mmio_write (PL110_IOBASE + PL_control) 6185 ;!          (* 0x1829 *)
  assign (fun v => Pl110Vars (pm v) PL110_FB (_x v) (_y v)) ;!
  for_up (Z.to_nat (640 * 480 - 10)) 0 (fun x => let! b := var fb in st16 (u32 (b + 2 * x)) BACKGROUND) ;!
  assign (set_cursor 0 0) ;!
  ret 0.

(** The whole buffer is drawn again each time. *)
Definition pl110_update (m : Z) : LM Z :=
  let! _ := pl110_setactive m in
  loop (fun i =>
    let! t := ld32 (m + DP_mtty) in
    let! pos := ld32 (t + Y_bufpos) in
    if i <? pos then
      let! t := ld32 (m + DP_mtty) in
      let! b := ld32 (t + Y_buffer) in
      let! c := ld8 (u32 (b + i)) in
      pl110_putc c ;!
      ret (inl (u32 (i + 1)))
    else ret (inr tt)) 0 ;!
  ret 0.

Definition pl110_create_new (mtty : Z) : LM Z := display_copy pl110_display mtty.
End pl110.

(** *** [arch/arm/sched.c] and [arch/arm/arm.c], except for the pages (Arm.v)

    On ARM there are no interrupts, no ports, and no switching from the
    timer. *)

Module Glue.
Section ops.
Context {S : Type}.
Definition register_interrupt (no func : Z) : M S Z := ret 0.
Definition send_eoi (no : Z) : M S Z := ret 0.
Definition interrupt_ctl (enable : Z) : M S Z := ret 0.
Definition arch_new_default_input (mtty : Z) : M S Z := ret 0.
Definition inportb (portid : Z) : M S Z := ret 0.
Definition inportw (portid : Z) : M S Z := ret 0.
Definition inportl (portid : Z) : M S Z := ret 0.
Definition outportb (portid value : Z) : M S unit := ret tt.
Definition outportw (portid value : Z) : M S unit := ret tt.
Definition outportl (portid value : Z) : M S unit := ret tt.
Definition schedule_noirq : M S unit := ret tt.
Definition arch_setup_paged (out palloc : Z) : M S unit := ret tt.
Definition syscall_init : M S unit := ret tt.
Definition read_eip : M S Z := ret 0.
Definition kbd_irq : M S unit := ret tt.
Definition enable_scheduling : M S unit := ret tt.
End ops.

Section init.
Context {S G : Type} `{HM : HasMem S} `{!Allocator S G}.

(** The memory of the board starts at 4 MB. *)
Definition arch_early_init (uart_init : M (phymem S) unit) : M (phymem S) Z :=
  phymem_init_level_one 4194304 ;!
  uart_init ;!
  ret 0.

Definition arch_late_init {K} (tty_write : Z -> Z -> Z -> M K unit) (tty_flush : Z -> M K unit) (str_hello : Z) : M K Z :=
  tty_write 0 str_hello 18 ;!
  tty_flush 0 ;!
  ret 0.
End init.

Section display.
Context {S G : Type} `{HP : HasPorts S} `{HM : HasMem S} `{!Allocator S G}.
Definition arch_new_default_display (__default_mailbox mtty : Z) : M (layer S mailbox_vars) Z :=
  mailbox_display_new __default_mailbox mtty.
End display.
End Glue.

(** ** The serial line shows what is written to the terminal *)

(** The bytes that were put into the data register. *)
Fixpoint sent (tr : list io) : list Z :=
  match tr with
  | [] => []
  | Out w port v :: tr => if (w =? 32) && (port =? UART0_DR) then v :: sent tr else sent tr
  | In _ _ _ :: tr => sent tr
  end.

Lemma sent_app t1 t2 : sent (t1 ++ t2) = sent t1 ++ sent t2.
Proof.
  induction t1 as [|e t1 IH]; [done|]. simpl. rewrite IH. destruct e; [done|]. by destruct (_ && _).
Qed.

(** The transmitter never stays full for ever: [wait] bounds the number of
    times that the flag has to be read. *)
Definition drains (env : list io -> Z -> Z -> Z) (wait : list io -> Z) : Prop :=
  forall tr, 0 <= wait tr < 17179869184 /\
    let v := env tr 32 UART0_FR mod 2 ^ 32 in
    Z.land v 32 <> 0 -> wait (tr ++ [In 32 UART0_FR v]) < wait tr.

Section uart_spec.
Context {S : Type} `{HP : HasPorts S} `{HM : HasMem S} `{!PortsMem S}.
Implicit Types (s : layer S Z).
Variable wait : list io -> Z.

(** The ports have gone on, sending [l]; nothing else changed. *)
Record line_step (l : list Z) s s' : Prop := {
  ls_mem : get_mem s' = get_mem s;
  ls_vars : vars s' = vars s;
  ls_env : io_env (get_ports s') = io_env (get_ports s);
  ls_sent : sent (io_trace (get_ports s')) = sent (io_trace (get_ports s)) ++ l;
}.

Lemma line_step_refl s : line_step [] s s.
Proof. split; [done..|]. by rewrite app_nil_r. Qed.
Lemma line_step_trans l1 l2 s1 s2 s3 : line_step l1 s1 s2 -> line_step l2 s2 s3 -> line_step (l1 ++ l2) s1 s3.
Proof. intros [] []. split; [congruence..|]. rewrite app_assoc. congruence. Qed.
Lemma line_step_event s e : line_step (sent [e]) s (with_event e s).
Proof. split; try (by lens). - lens. apply sent_app. Qed.

Lemma wp_uart_putc c (Q : unit -> layer S Z -> Prop) s :
  drains (io_env (get_ports s)) wait -> 0 <= c < 256 ->
  (forall s', line_step [c] s s' -> Q tt s') -> wp (uart_putc c) Q s.
Proof.
  intros Hd Hc HQ. unfold uart_putc. apply wp_bind.
  apply (wp_loop (fun _ t => line_step [] s t) (fun _ t => wait (io_trace (get_ports t)))).
  - apply line_step_refl.
  - apply Hd.
  - intros [] t Ht. destruct (Hd (io_trace (get_ports t))) as [Hw Hlt]. split; [lia|].
    apply wp_bind. unfold mmio_read. apply wp_inport. cbv zeta. rewrite (ls_env _ _ _ Ht).
    set (v := io_env (get_ports s) (io_trace (get_ports t)) 32 UART0_FR mod 2 ^ 32) in *.
    pose proof (line_step_trans _ _ _ _ _ Ht (line_step_event t (In 32 UART0_FR v))) as Ht'.
    destruct (Z.land v 32 =? 0) eqn:E; [|apply Z.eqb_neq in E]; apply wp_ret.
    + unfold mmio_write. apply wp_outport, HQ.
      replace (c mod 2 ^ 32) with c by (symmetry; apply Z.mod_small; lia).
      exact (line_step_trans _ _ _ _ _ Ht' (line_step_event _ (Out 32 UART0_DR c))).
    + split; [exact Ht'|]. rewrite trace_with_event. by apply Hlt.
Qed.
End uart_spec.

(** A display whose terminal holds [pos] bytes at [b]. *)
Record shows (mm : mem) (m t b pos : Z) : Prop := {
  sh_display : mapped_range mm m sizeof_display /\ rd32 mm (m + DP_mtty) = t;
  sh_tty : mapped_range mm t sizeof_tty /\ rd32 mm (t + Y_buffer) = b /\ rd32 mm (t + Y_bufpos) = pos;
  sh_buffer : mapped_range mm b pos;
}.

Section update_spec.
Context {S G : Type} `{HP : HasPorts S} `{HM : HasMem S} `{!PortsMem S}.
Implicit Types (s : layer S Z).

Lemma wp_shown_mtty mm m t b pos (Q : Z -> layer S Z -> Prop) s :
  shows mm m t b pos -> get_mem s = mm -> Q t s -> wp (ld32 (m + DP_mtty)) Q s.
Proof.
  intros [[Hm <-] _ _] Hg HQ. apply wp_ld32; [|by rewrite Hg]. rewrite Hg.
  eapply mapped_range_sub; [exact Hm|unfold DP_mtty, sizeof_display; lia..].
Qed.
Lemma wp_shown_pos mm m t b pos (Q : Z -> layer S Z -> Prop) s :
  shows mm m t b pos -> get_mem s = mm -> Q pos s -> wp (ld32 (t + Y_bufpos)) Q s.
Proof.
  intros [_ (Hm & _ & <-) _] Hg HQ. apply wp_ld32; [|by rewrite Hg]. rewrite Hg.
  eapply mapped_range_sub; [exact Hm|unfold Y_bufpos, sizeof_tty; lia..].
Qed.
Lemma wp_shown_buffer mm m t b pos (Q : Z -> layer S Z -> Prop) s :
  shows mm m t b pos -> get_mem s = mm -> Q b s -> wp (ld32 (t + Y_buffer)) Q s.
Proof.
  intros [_ (Hm & <- & _) _] Hg HQ. apply wp_ld32; [|by rewrite Hg]. rewrite Hg.
  eapply mapped_range_sub; [exact Hm|unfold Y_buffer, sizeof_tty; lia..].
Qed.

(** C40: The serial display sends what is new.  With a transmitter that drains,
    uart_update ends; it has sent, in order and nothing else, the bytes of the
    terminal's buffer from the position it had reached, and it has reached the
    end of the buffer; memory is unchanged. *)
Theorem uart_update_spec s wait m t b pos :
  shows (get_mem s) m t b pos -> 0 <= vars s <= pos -> drains (io_env (get_ports s)) wait ->
  wp (uart_update m) (fun _ s' => get_mem s' = get_mem s /\ vars s' = pos /\
    sent (io_trace (get_ports s')) = sent (io_trace (get_ports s)) ++ mread (get_mem s) (b + vars s) (pos - vars s)) s.
Proof.
  intros Hsh Hv Hd. set (mm := get_mem s) in *. destruct (sh_buffer _ _ _ _ _ Hsh) as (Hb0 & Hb1 & Hb).
  assert (Hp : pos < 4294967296) by (destruct (sh_tty _ _ _ _ _ Hsh) as (_ & _ & <-); apply rd32_range).
  unfold uart_update. apply wp_bind, wp_var, wp_bind.
  apply (wp_loop (fun i u => vars s <= i <= pos /\ line_step (mread mm (b + vars s) (i - vars s)) s u) (fun i _ => pos - i)).
  - split; [lia|]. rewrite Z.sub_diag. apply line_step_refl.
  - lia.
  - intros i u [Hi Hu]. split; [lia|]. pose proof (ls_mem _ _ _ Hu) as Hg. change (get_mem u = mm) in Hg.
    apply wp_bind. eapply wp_shown_mtty; [exact Hsh|done|].
    apply wp_bind. eapply wp_shown_pos; [exact Hsh|done|].
    destruct (Z.ltb_spec i pos).
    + apply wp_bind. eapply wp_shown_mtty; [exact Hsh|done|].
      apply wp_bind. eapply wp_shown_buffer; [exact Hsh|done|].
      rewrite u32_small by lia.
      apply wp_bind, wp_ld8; [lia|rewrite Hg; apply Hb; lia|]. rewrite Hg.
      apply wp_bind, (wp_uart_putc wait); [by rewrite (ls_env _ _ _ Hu)|apply rd_range|].
      intros u' Hu'. apply wp_ret. rewrite u32_small by lia. split; [split; [lia|]|lia].
      replace (i + 1 - vars s) with (i - vars s + 1) by lia. rewrite mread_snoc by lia.
      replace (b + vars s + (i - vars s)) with (b + i) by lia. by eapply line_step_trans.
    + apply wp_ret. assert (i = pos) as -> by lia.
      apply wp_bind. eapply wp_shown_mtty; [exact Hsh|done|].
      apply wp_bind. eapply wp_shown_pos; [exact Hsh|done|].
      apply wp_assign. lens. split_and!; [done|done|]. exact (ls_sent _ _ _ Hu).
Qed.
End update_spec.

(** *** The theorem at work: a transmitter that is full every other time *)

Definition demo_uart_env (tr : list io) (w port : Z) : Z := if Nat.even (length tr) then 32 else 0.
Definition demo_uart_wait (tr : list io) : Z := if Nat.even (length tr) then 1 else 0.

Lemma demo_drains : drains demo_uart_env demo_uart_wait.
Proof.
  intros tr. unfold demo_uart_env, demo_uart_wait. rewrite length_app, Nat.add_1_r, Nat.even_succ, <-Nat.negb_even.
  destruct (Nat.even (length tr)); simpl; split; try lia. intros Hn. by destruct Hn.
Qed.

Definition demo_uart_bytes : list (Z * list Z) :=
  [(4096 + DP_mtty, le32 4352); (4352 + Y_buffer, le32 8192); (4352 + Y_bufpos, le32 5); (8192, [104; 101; 108; 108; 111])].
Definition demo_uart : layer (machine mem) Z := Layer (Layer (low_mem demo_uart_bytes) (Ports demo_uart_env [])) 2.

Lemma uart_update_spec_witness :
  wp (uart_update 4096) (fun _ s' => sent (io_trace (get_ports s')) = [108; 108; 111]) demo_uart.
Proof.
  assert (Hsh : shows (get_mem demo_uart) 4096 4352 8192 5).
  { split.
    - split; [apply (low_mapped demo_uart_bytes); unfold sizeof_display; lia|vm_compute; reflexivity].
    - split; [apply (low_mapped demo_uart_bytes); unfold sizeof_tty; lia|split; vm_compute; reflexivity].
    - apply (low_mapped demo_uart_bytes); lia. }
  assert (Hv : 0 <= vars demo_uart <= 5) by (simpl; lia).
  eapply wp_mono; [exact (uart_update_spec demo_uart demo_uart_wait 4096 4352 8192 5 Hsh Hv demo_drains)|].
  intros [] s' (_ & _ & Hs). rewrite Hs. vm_compute. reflexivity.
Defined.
